(** * GIFTI surface I/O of FreeSurfer (utils/gifti.cpp)

    A shallow embedding of the typed element accessor
    ([gifti_get_DA_value_2D], [gifti_set_DA_value_2D]), of the reader
    [mrisReadGIFTIdanum] and of the writers [MRISwriteGIFTISurface] and
    [MRISwriteGIFTILabel], with the properties of the design document
    stated and settled against them.

    C [int]s are integers of [Z], the [int] product of the element
    offset with its overflow; [float] and [double] values are the
    IEEE-754 numbers of [SpecFloat] in the binary32 and binary64 formats;
    [exit(1)], behaviour the C standard leaves undefined, and loops that
    never end are explicit results of the monad [M]. *)

From Stdlib Require Import ZArith Zpower Lia Bool Ascii String.
From Stdlib Require Import SpecFloat.
From stdpp Require Import base option list strings gmap pretty.

Local Open Scope Z_scope.

(* ===================================================================== *)
(** ** IEEE-754 numbers *)
(* ===================================================================== *)

Module IEEE.

(** [float] is binary32 (24 bits of precision, emax 128), [double] is
    binary64 (53 bits, emax 1024); both are carried by [spec_float]. *)
Definition prec32 : Z := 24.
Definition emax32 : Z := 128.
Definition prec64 : Z := 53.
Definition emax64 : Z := 1024.

Definition is_float (x : spec_float) : bool := valid_binary prec32 emax32 x.
Definition is_double (x : spec_float) : bool := valid_binary prec64 emax64 x.

Definition renorm (prec emax : Z) (x : spec_float) : spec_float :=
  match x with
  | S754_finite s m e => binary_round prec emax s m e
  | _ => x
  end.

(** [(double)f] for a [float] f, and [(float)d] for a [double] d. *)
Definition double_of_float (x : spec_float) : spec_float := renorm prec64 emax64 x.
Definition float_of_double (x : spec_float) : spec_float := renorm prec32 emax32 x.

(** [(double)i] for an integer i. *)
Definition double_of_Z (z : Z) : spec_float := binary_normalize prec64 emax64 z 0 false.
Definition float_of_Z (z : Z) : spec_float := binary_normalize prec32 emax32 z 0 false.

(** The magnitude [m * 2^e] cut to an integer, towards zero. *)
Definition mag_trunc (m : positive) (e : Z) : Z :=
  match e with
  | Z0 => Zpos m
  | Zpos p => Zpos m * 2 ^ Zpos p
  | Zneg p => Zpos m / 2 ^ Zpos p
  end.

(** Is [m * 2^e] an integer? *)
Definition mag_integral (m : positive) (e : Z) : bool :=
  match e with
  | Zneg p => Zpos m mod 2 ^ Zpos p =? 0
  | _ => true
  end.

(** The integer part, towards zero; [None] for NaN and infinities. *)
Definition SFtrunc (x : spec_float) : option Z :=
  match x with
  | S754_zero _ => Some 0
  | S754_finite s m e => Some (cond_Zopp s (mag_trunc m e))
  | _ => None
  end.

(** The largest integer not above x; [None] for NaN and infinities. *)
Definition SFfloorZ (x : spec_float) : option Z :=
  match x with
  | S754_zero _ => Some 0
  | S754_finite false m e => Some (mag_trunc m e)
  | S754_finite true m e =>
      Some (if mag_integral m e then - mag_trunc m e else - mag_trunc m e - 1)
  | _ => None
  end.

(** [floorf]: the floor as a [float] again. *)
Definition SFfloor32 (x : spec_float) : spec_float :=
  match SFfloorZ x with
  | Some z => binary_normalize prec32 emax32 z 0
                (match x with S754_zero s | S754_finite s _ _ => s | _ => false end)
  | None => x
  end.

Definition SFmul32 : spec_float -> spec_float -> spec_float := SFmul prec32 emax32.

(** [x > y] *)
Definition SFgtb (x y : spec_float) : bool := SFltb y x.

Definition zero : spec_float := S754_zero false.

(** The [float] nearest to [m * 2^e]. *)
Definition float_of_dyadic (m e : Z) : spec_float := binary_normalize prec32 emax32 m e false.

End IEEE.

(* ===================================================================== *)
(** ** Results of C code: diagnostics, exit, undefined behaviour *)
(* ===================================================================== *)

(** A line written to stderr or stdout, by the function that writes it. *)
Inductive diag : Type :=
| DiagGetInvalidParams
| DiagGet1DCol (col : Z)
| DiagGetNumDim (num_dim : Z)
| DiagGetIndOrd (ind_ord : Z)
| DiagGetIndex (dim0_index dims_0 dim1_index dims_1 : Z)
| DiagGetType (datatype : Z)
| DiagSetInvalidParams
| DiagSet1DCol (col : Z)
| DiagSetNumDim (num_dim : Z)
| DiagSetIndex (dim0_index dims_0 dim1_index dims_1 : Z)
| DiagSetType (datatype : Z)
| DiagRead (msg : string)
| DiagWrite (msg : string)
| DiagTooManyCmds (ncmds max_cmds : Z)
| DiagCmdlineOutOfSync
| DiagLabelName (idx : Z) (assigned : string).

Inductive result (A : Type) : Type :=
| Ret (log : list diag) (a : A)      (* the code ran to its end *)
| Exit (log : list diag) (code : Z)  (* exit(code) *)
| Fail (log : list diag) (code : Z)  (* an early return: NULL or an error code *)
| Undefined                          (* undefined behaviour of C *)
| Diverge.                           (* the fuel of a loop ran out *)

Arguments Ret {A} log a.
Arguments Exit {A} log code.
Arguments Fail {A} log code.
Arguments Undefined {A}.
Arguments Diverge {A}.

Definition M (A : Type) : Type := result A.

Definition ret {A} (a : A) : M A := Ret [] a.

Definition bind {A B} (m : M A) (f : A -> M B) : M B :=
  match m with
  | Ret l a =>
      match f a with
      | Ret l' b => Ret (l ++ l') b
      | Exit l' c => Exit (l ++ l') c
      | Fail l' c => Fail (l ++ l') c
      | Undefined => Undefined
      | Diverge => Diverge
      end
  | Exit l c => Exit l c
  | Fail l c => Fail l c
  | Undefined => Undefined
  | Diverge => Diverge
  end.

Definition warn (d : diag) : M unit := Ret [d] tt.
Definition die {A} (d : diag) : M A := Exit [d] 1.
Definition fail {A} (d : diag) (code : Z) : M A := Fail [d] code.

Declare Scope m_scope.
Delimit Scope m_scope with M.
Notation "'let*' x ':=' c1 'in' c2" := (bind c1 (fun x => c2))
  (at level 10, x name, c1 at level 100, c2 at level 200) : m_scope.
Notation "'let*' ' pat ':=' c1 'in' c2" :=
  (bind c1 (fun x => match x with pat => c2 end))
  (at level 10, pat pattern, c1 at level 100, c2 at level 200) : m_scope.
Notation "c1 ;;; c2" := (bind c1 (fun _ => c2))
  (at level 100, c2 at level 200) : m_scope.
Local Open Scope m_scope.

(** [for (i = 0; i < n; i++) body] over a state s. *)
Fixpoint for_loop {S : Type} (n : nat) (body : nat -> S -> M S) (s : S) : M S :=
  match n with
  | O => ret s
  | Datatypes.S k => let* s' := for_loop k body s in body k s'
  end.

(** [while (cond) body], where the body says whether the loop goes on
    ([inl], also after [continue]) or was left by [break] ([inr]). The
    fuel bounds the number of iterations. *)
Fixpoint while_loop {S : Type} (fuel : nat) (cond : S -> bool)
    (body : S -> M (S + S)) (s : S) : M S :=
  if cond s then
    match fuel with
    | O => Diverge
    | Datatypes.S k =>
        let* r := body s in
        match r with
        | inl s' => while_loop k cond body s'
        | inr s' => ret s'
        end
    end
  else ret s.

(** [for (i = 0; i < n; i++)] with n a C integer: no iteration when n <= 0. *)
Definition for_Z {S : Type} (n : Z) (body : Z -> S -> M S) (s : S) : M S :=
  for_loop (Z.to_nat n) (fun i => body (Z.of_nat i)) s.

(* ===================================================================== *)
(** ** Constants of nifti1.h and gifti_io.h *)
(* ===================================================================== *)

Definition NIFTI_TYPE_UINT8 : Z := 2.
Definition NIFTI_TYPE_INT16 : Z := 4.
Definition NIFTI_TYPE_INT32 : Z := 8.
Definition NIFTI_TYPE_FLOAT32 : Z := 16.
Definition NIFTI_TYPE_COMPLEX64 : Z := 32.
Definition NIFTI_TYPE_FLOAT64 : Z := 64.
Definition NIFTI_TYPE_INT8 : Z := 256.
Definition NIFTI_TYPE_UINT16 : Z := 512.
Definition NIFTI_TYPE_UINT32 : Z := 768.

Definition GIFTI_IND_ORD_UNDEF : Z := 0.
Definition GIFTI_IND_ORD_ROW_MAJOR : Z := 1.
Definition GIFTI_IND_ORD_COL_MAJOR : Z := 2.

Definition NIFTI_INTENT_NONE : Z := 0.
Definition NIFTI_INTENT_LABEL : Z := 1002.
Definition NIFTI_INTENT_GENMATRIX : Z := 1004.
Definition NIFTI_INTENT_VECTOR : Z := 1007.
Definition NIFTI_INTENT_POINTSET : Z := 1008.
Definition NIFTI_INTENT_TRIANGLE : Z := 1009.
Definition NIFTI_INTENT_TIME_SERIES : Z := 2001.
Definition NIFTI_INTENT_NODE_INDEX : Z := 2002.
Definition NIFTI_INTENT_RGB_VECTOR : Z := 2003.
Definition NIFTI_INTENT_RGBA_VECTOR : Z := 2004.
Definition NIFTI_INTENT_SHAPE : Z := 2005.

Definition VERTICES_PER_FACE : Z := 3.

(* ===================================================================== *)
(** ** Data arrays *)
(* ===================================================================== *)

(** One element of a data buffer, as the pointer type it was stored
    through sees it: an integer, a [float] or a [double]. *)
Inductive cell : Type :=
| CInt (z : Z)
| CF32 (f : spec_float)
| CF64 (f : spec_float).

(** The C types the accessor casts [da->data] to. [char] is signed, as
    on the platforms FreeSurfer is built for. *)
Inductive ctype : Type :=
| Tuchar | Tshort | Tint | Tfloat | Tdouble | Tchar | Tushort | Tuint.

Definition int_range (t : ctype) : option (Z * Z) :=
  match t with
  | Tuchar => Some (0, 255)
  | Tchar => Some (-128, 127)
  | Tshort => Some (-32768, 32767)
  | Tushort => Some (0, 65535)
  | Tint => Some (-2147483648, 2147483647)
  | Tuint => Some (0, 4294967295)
  | Tfloat | Tdouble => None
  end.

Definition in_range (r : Z * Z) (z : Z) : bool := (fst r <=? z) && (z <=? snd r).

(** The cell c read through a pointer to t and converted to [double]. *)
Definition widen (t : ctype) (c : cell) : M spec_float :=
  match t, c with
  | Tfloat, CF32 f => ret (IEEE.double_of_float f)
  | Tdouble, CF64 f => ret f
  | _, CInt z =>
      match int_range t with
      | Some r => if in_range r z then ret (IEEE.double_of_Z z) else Undefined
      | None => Undefined
      end
  | _, _ => Undefined
  end.

(** [(t)value]: the conversion of a [double] to the C type t. A value
    whose integer part the integer type cannot represent is undefined. *)
Definition narrow (t : ctype) (value : spec_float) : M cell :=
  match t with
  | Tfloat => ret (CF32 (IEEE.float_of_double value))
  | Tdouble => ret (CF64 value)
  | _ =>
      match int_range t, IEEE.SFtrunc value with
      | Some r, Some z => if in_range r z then ret (CInt z) else Undefined
      | _, _ => Undefined
      end
  end.

(** The zero of [calloc], seen through the type t. *)
Definition zero_cell (t : ctype) : cell :=
  match t with
  | Tfloat => CF32 IEEE.zero
  | Tdouble => CF64 IEEE.zero
  | _ => CInt 0
  end.

Record giiCoordSystem : Type := mkCS {
  dataspace : string;
  xformspace : string;
  xform : list (list spec_float)
}.

Record giiDataArray : Type := mkDA {
  intent : Z;
  datatype : Z;
  ind_ord : Z;
  num_dim : Z;
  dims : list Z;
  nvals : Z;
  data : option (list cell);        (* [None] is the NULL pointer *)
  meta : gmap string string;
  coordsys : list giiCoordSystem
}.

Definition dim (da : giiDataArray) (i : nat) : Z := nth i (dims da) 0.

Definition set_data (da : giiDataArray) (buf : list cell) : giiDataArray :=
  mkDA (intent da) (datatype da) (ind_ord da) (num_dim da) (dims da) (nvals da)
       (Some buf) (meta da) (coordsys da).

Definition set_meta (da : giiDataArray) (m : gmap string string) : giiDataArray :=
  mkDA (intent da) (datatype da) (ind_ord da) (num_dim da) (dims da) (nvals da)
       (data da) m (coordsys da).

(** Reading the element at offset off through a pointer to t. *)
Definition deref (t : ctype) (buf : list cell) (off : Z) : M spec_float :=
  if off <? 0 then Undefined
  else match buf !! Z.to_nat off with
       | Some c => widen t c
       | None => Undefined
       end.

(** Storing [(t)value] at offset off through a pointer to t. *)
Definition assign (t : ctype) (buf : list cell) (off : Z) (value : spec_float)
  : M (list cell) :=
  if off <? 0 then Undefined
  else if off <? Z.of_nat (length buf) then
         let* c := narrow t value in ret (<[Z.to_nat off := c]> buf)
       else Undefined.

(** [a * b] on two [int]s: a product that is not an [int] is a signed
    overflow, which is undefined. The operands are values of [int]
    variables, so a factor 1 gives the other operand, an [int], back. *)
Definition int_mul (a b : Z) : M Z :=
  if (a =? 1) || (b =? 1) || in_range (-2147483648, 2147483647) (a * b)
  then ret (a * b) else Undefined.

(** The element offset of the two [switch] statements: the product is
    computed in [int], the sums are pointer arithmetic. *)
Definition offset (da : giiDataArray) (dim0_index dim1_index dims_0 dims_1 : Z) : M Z :=
  if GIFTI_IND_ORD_ROW_MAJOR =? ind_ord da
  then let* p := int_mul dim0_index dims_1 in ret (p + dim1_index)
  else let* p := int_mul dim1_index dims_0 in ret (dim0_index + p).

Definition index_bad (dim0_index dims_0 dim1_index dims_1 : Z) : bool :=
  (dim0_index <? 0) || (dim0_index >=? dims_0) || (dim1_index <? 0) || (dim1_index >=? dims_1).

Definition gifti_get_DA_value_2D (da : option giiDataArray) (row col : Z) : M spec_float :=
  match da with
  | None => die DiagGetInvalidParams
  | Some da =>
  match data da with
  | None => die DiagGetInvalidParams
  | Some buf =>
    let* '(dims_0, dims_1) :=
       (if num_dim da =? 1 then
          if negb (col =? 0) then die (DiagGet1DCol col)
          else ret (dim da 0, 1)
        else if negb (num_dim da =? 2) then die (DiagGetNumDim (num_dim da))
        else ret (dim da 0, dim da 1)) in
    let* '(dim0_index, dim1_index) :=
       (if GIFTI_IND_ORD_ROW_MAJOR =? ind_ord da then ret (row, col)
        else if GIFTI_IND_ORD_COL_MAJOR =? ind_ord da then ret (row, col)
        else die (DiagGetIndOrd (ind_ord da))) in
    let '(dim0_index, dim1_index) :=
      if num_dim da =? 1 then (row, col) else (dim0_index, dim1_index) in
    if index_bad dim0_index dims_0 dim1_index dims_1
    then die (DiagGetIndex dim0_index dims_0 dim1_index dims_1)
    else
      let dt := datatype da in
      (* each [case] computes the offset of its own *)
      let load t := (let* off := offset da dim0_index dim1_index dims_0 dims_1 in
                     deref t buf off) in
      if dt =? NIFTI_TYPE_UINT8 then load Tuchar
      else if dt =? NIFTI_TYPE_INT16 then load Tshort
      else if dt =? NIFTI_TYPE_INT32 then load Tint
      else if dt =? NIFTI_TYPE_FLOAT32 then load Tfloat
      else if dt =? NIFTI_TYPE_FLOAT64 then load Tdouble
      else if dt =? NIFTI_TYPE_COMPLEX64 then load Tdouble
      else if dt =? NIFTI_TYPE_INT8 then load Tchar
      else if dt =? NIFTI_TYPE_UINT16 then load Tushort
      else if dt =? NIFTI_TYPE_UINT32 then load Tuint
      else die (DiagGetType dt)
  end
  end.

(** The array after the call; the C function returns nothing. *)
Definition gifti_set_DA_value_2D (da : option giiDataArray) (row col : Z)
    (value : spec_float) : M giiDataArray :=
  match da with
  | None => die DiagSetInvalidParams
  | Some da =>
  match data da with
  | None => die DiagSetInvalidParams
  | Some buf =>
    let* '(dims_0, dims_1) :=
       (if num_dim da =? 1 then
          if negb (col =? 0) then die (DiagSet1DCol col)
          else ret (dim da 0, 1)
        else if negb (num_dim da =? 2) then die (DiagSetNumDim (num_dim da))
        else ret (dim da 0, dim da 1)) in
    let '(dim0_index, dim1_index) :=
      if GIFTI_IND_ORD_ROW_MAJOR =? ind_ord da then (row, col) else (col, row) in
    let '(dim0_index, dim1_index) :=
      if num_dim da =? 1 then (row, col) else (dim0_index, dim1_index) in
    if index_bad dim0_index dims_0 dim1_index dims_1
    then warn (DiagSetIndex dim0_index dims_0 dim1_index dims_1) ;;; ret da
    else
      let dt := datatype da in
      let store t := (let* off := offset da dim0_index dim1_index dims_0 dims_1 in
                      let* buf' := assign t buf off value in ret (set_data da buf')) in
      if dt =? NIFTI_TYPE_UINT8 then store Tuchar
      else if dt =? NIFTI_TYPE_INT16 then store Tshort
      else if dt =? NIFTI_TYPE_INT32 then store Tint
      else if dt =? NIFTI_TYPE_FLOAT32 then store Tfloat
      else if dt =? NIFTI_TYPE_INT8 then store Tchar
      else if dt =? NIFTI_TYPE_UINT16 then store Tushort
      else if dt =? NIFTI_TYPE_UINT32 then store Tuint
      else warn (DiagSetType dt) ;;; ret da
  end
  end.

(* ===================================================================== *)
(** ** The container: label table and image *)
(* ===================================================================== *)

Record giiLabelTable : Type := mkLT {
  lt_length : Z;
  lt_key : list Z;
  lt_label : list string;
  lt_rgba : option (list spec_float)   (* 4 floats per label, or NULL *)
}.

Record gifti_image : Type := mkImage {
  darray : list giiDataArray;
  labeltable : giiLabelTable;
  gim_meta : gmap string string
}.

Definition numDA (image : gifti_image) : Z := Z.of_nat (length (darray image)).

Definition empty_labeltable : giiLabelTable := mkLT 0 [] [] None.
Definition empty_image : gifti_image := mkImage [] empty_labeltable ∅.

(** [gifti_get_meta_value] and [gifti_add_to_meta] (with replace = 1) of
    the container library: a lookup and an insertion by name. *)
Definition gifti_get_meta_value (md : gmap string string) (name : string) : option string :=
  md !! name.

Definition gifti_add_to_meta (md : gmap string string) (name value : string)
  : gmap string string := <[name := value]> md.

(** [gifti_darray_nvals] of the container library: the product of the
    first [num_dim] extents. *)
Definition gifti_darray_nvals (num_dim : Z) (dims : list Z) : Z :=
  fold_right Z.mul 1 (take (Z.to_nat num_dim) dims).

(** [gifti_DA_rows_cols] of the container library. *)
Definition gifti_DA_rows_cols (da : giiDataArray) : Z * Z :=
  if num_dim da =? 1 then (dim da 0, 1)
  else if ind_ord da =? GIFTI_IND_ORD_ROW_MAJOR then
    let rows := dim da 0 in
    (rows, if rows =? 0 then 1 else nvals da / rows)
  else
    let rows := dim da (Z.to_nat (num_dim da - 1)) in
    (rows, if 0 <? rows then nvals da / rows else 1).

(** The pointer type each supported [datatype] is stored through. *)
Definition ctype_of_datatype (dt : Z) : ctype :=
  if dt =? NIFTI_TYPE_UINT8 then Tuchar
  else if dt =? NIFTI_TYPE_INT16 then Tshort
  else if dt =? NIFTI_TYPE_INT32 then Tint
  else if dt =? NIFTI_TYPE_FLOAT32 then Tfloat
  else if dt =? NIFTI_TYPE_INT8 then Tchar
  else if dt =? NIFTI_TYPE_UINT16 then Tushort
  else if dt =? NIFTI_TYPE_UINT32 then Tuint
  else Tdouble.

(** [calloc(nvals, nbyper)]: nvals zero elements. *)
Definition calloc_data (dt : Z) (nvals : Z) : list cell :=
  replicate (Z.to_nat nvals) (zero_cell (ctype_of_datatype dt)).

(* ===================================================================== *)
(** ** The surface: MRIS, its vertices, faces and colour table *)
(* ===================================================================== *)

Record COLOR_TABLE_ENTRY : Type := mkCTE {
  name : string;
  ri : Z; gi : Z; bi : Z; ai : Z;
  rf : spec_float; gf : spec_float; bf : spec_float; af : spec_float
}.

Record COLOR_TABLE : Type := mkCT {
  entries : list (option COLOR_TABLE_ENTRY);   (* [None] is a NULL entry *)
  nentries : Z;
  ct_fname : string;
  ct_version : Z
}.

Record VOL_GEOM : Type := mkVG {
  valid : Z;
  width : Z; height : Z; depth : Z;
  xsize : spec_float; ysize : spec_float; zsize : spec_float;
  x_r : spec_float; x_a : spec_float; x_s : spec_float;
  y_r : spec_float; y_a : spec_float; y_s : spec_float;
  z_r : spec_float; z_a : spec_float; z_s : spec_float;
  c_r : spec_float; c_a : spec_float; c_s : spec_float
}.

Record VERTEX : Type := mkVertex {
  x : spec_float; y : spec_float; z : spec_float;
  origarea : spec_float;
  ripflag : bool;
  curv : spec_float;
  val : spec_float;
  stat : spec_float;
  annotation : Z;
  dx : spec_float; dy : spec_float; dz : spec_float
}.

Record VERTEX_TOPOLOGY : Type := mkVT {
  f : list Z;     (* the faces the vertex is a corner of *)
  n : list Z;     (* which corner of each of them it is *)
  num : Z
}.

Record FACE : Type := mkFace { v : list Z }.

Record MATRIX : Type := mkMatrix { rows : Z; cols : Z; rptr : list (list spec_float) }.

Record MRIS : Type := mkMRIS {
  nvertices : Z;
  nfaces : Z;
  vertices : list VERTEX;
  vertices_topology : list VERTEX_TOPOLOGY;
  faces : list FACE;
  fname : string;
  subject_name : string;
  hemisphere : Z;
  useRealRAS : Z;
  patch : Z;
  vg : VOL_GEOM;
  xctr : spec_float; yctr : spec_float; zctr : spec_float;
  group_avg_surface_area : spec_float;
  ncmds : Z;
  cmdlines : list (option string);
  SRASToTalSRAS_ : option MATRIX;
  ct : option COLOR_TABLE
}.

(** The overlay volume of the reader: voxels written so far. *)
Definition MRI : Type := gmap (Z * Z * Z * Z) spec_float.

Definition MRIsetVoxVal (mri : MRI) (c r s fr : Z) (value : spec_float) : MRI :=
  <[(c, r, s, fr) := value]> mri.

Definition LEFT_HEMISPHERE : Z := 0.
Definition RIGHT_HEMISPHERE : Z := 1.
Definition NO_HEMISPHERE : Z := 2.

Definition NO_ERROR : Z := 0.
Definition ERROR_NOMEMORY : Z := -3.
Definition ERROR_BADPARM : Z := -4.
Definition ERROR_BADFILE : Z := -5.

Definition TAG_CMDLINE_LEN : nat := 1024.

(** What the code takes from libc and from the rest of FreeSurfer. *)
Class Collaborators : Type := {
  (** the length of [mris->cmdlines], from mrisurf.h *)
  MAX_CMDS : Z;
  (** [sscanf(s, "%d", &i)] and [sscanf(s, "%f", &f)]: the value read
      when the call returns 1 *)
  sscanf_d : string -> option Z;
  sscanf_f : string -> option spec_float;
  (** [sprintf] with "%f" and with "%.20f" *)
  sprintf_f : spec_float -> string;
  sprintf_20f : spec_float -> string;
  FZERO : spec_float -> bool;
  (** the i-th [randomNumber(0, 1)] after [setRandomSeed(12)] *)
  randomNumber : nat -> spec_float;
  gifti_valid_LabelTable : giiLabelTable -> bool;
  vg_i_to_r : VOL_GEOM -> MATRIX;
  TkrVox2RASfromVolGeom : VOL_GEOM -> MATRIX;
  MatrixInverse : MATRIX -> MATRIX;
  MatrixMultiply : MATRIX -> MATRIX -> MATRIX;
  MatrixIdentity : Z -> MATRIX;
  (** [mris->SRASToTalSRAS_] after [MRISreadTransform(mris, fname)] *)
  MRISreadTransform : MRIS -> string -> option MATRIX;
  (** the centre [mrisComputeSurfaceDimensions] finds *)
  surface_center : list VERTEX -> spec_float * spec_float * spec_float
}.

(** Field updates of a vertex and of the surface. *)
Definition vertex_set_xyz (vx : VERTEX) (x' y' z' : spec_float) : VERTEX :=
  mkVertex x' y' z' (origarea vx) (ripflag vx) (curv vx) (val vx) (stat vx)
           (annotation vx) (dx vx) (dy vx) (dz vx).
Definition vertex_set_origarea (vx : VERTEX) (a : spec_float) : VERTEX :=
  mkVertex (x vx) (y vx) (z vx) a (ripflag vx) (curv vx) (val vx) (stat vx)
           (annotation vx) (dx vx) (dy vx) (dz vx).
Definition vertex_set_curv (vx : VERTEX) (c : spec_float) : VERTEX :=
  mkVertex (x vx) (y vx) (z vx) (origarea vx) (ripflag vx) c (val vx) (stat vx)
           (annotation vx) (dx vx) (dy vx) (dz vx).
Definition vertex_set_val_stat (vx : VERTEX) (a b : spec_float) : VERTEX :=
  mkVertex (x vx) (y vx) (z vx) (origarea vx) (ripflag vx) (curv vx) a b
           (annotation vx) (dx vx) (dy vx) (dz vx).
Definition vertex_set_annotation (vx : VERTEX) (a : Z) : VERTEX :=
  mkVertex (x vx) (y vx) (z vx) (origarea vx) (ripflag vx) (curv vx) (val vx) (stat vx)
           a (dx vx) (dy vx) (dz vx).
Definition vertex_set_dxyz (vx : VERTEX) (a b c : spec_float) : VERTEX :=
  mkVertex (x vx) (y vx) (z vx) (origarea vx) (ripflag vx) (curv vx) (val vx) (stat vx)
           (annotation vx) a b c.

Definition mris_set_vertices (m : MRIS) (vs : list VERTEX) : MRIS :=
  mkMRIS (nvertices m) (nfaces m) vs (vertices_topology m) (faces m) (fname m)
         (subject_name m) (hemisphere m) (useRealRAS m) (patch m) (vg m)
         (xctr m) (yctr m) (zctr m) (group_avg_surface_area m) (ncmds m) (cmdlines m)
         (SRASToTalSRAS_ m) (ct m).
Definition mris_set_topology (m : MRIS) (ts : list VERTEX_TOPOLOGY) : MRIS :=
  mkMRIS (nvertices m) (nfaces m) (vertices m) ts (faces m) (fname m)
         (subject_name m) (hemisphere m) (useRealRAS m) (patch m) (vg m)
         (xctr m) (yctr m) (zctr m) (group_avg_surface_area m) (ncmds m) (cmdlines m)
         (SRASToTalSRAS_ m) (ct m).
Definition mris_set_faces (m : MRIS) (fs : list FACE) : MRIS :=
  mkMRIS (nvertices m) (nfaces m) (vertices m) (vertices_topology m) fs (fname m)
         (subject_name m) (hemisphere m) (useRealRAS m) (patch m) (vg m)
         (xctr m) (yctr m) (zctr m) (group_avg_surface_area m) (ncmds m) (cmdlines m)
         (SRASToTalSRAS_ m) (ct m).
Definition mris_set_header (m : MRIS) (fname' : string) (hemi : Z) (real : Z) : MRIS :=
  mkMRIS (nvertices m) (nfaces m) (vertices m) (vertices_topology m) (faces m) fname'
         (subject_name m) hemi real (patch m) (vg m)
         (xctr m) (yctr m) (zctr m) (group_avg_surface_area m) (ncmds m) (cmdlines m)
         (SRASToTalSRAS_ m) (ct m).
Definition mris_set_useRealRAS (m : MRIS) (real : Z) : MRIS :=
  mris_set_header m (fname m) (hemisphere m) real.
Definition mris_set_vg (m : MRIS) (g : VOL_GEOM) : MRIS :=
  mkMRIS (nvertices m) (nfaces m) (vertices m) (vertices_topology m) (faces m) (fname m)
         (subject_name m) (hemisphere m) (useRealRAS m) (patch m) g
         (xctr m) (yctr m) (zctr m) (group_avg_surface_area m) (ncmds m) (cmdlines m)
         (SRASToTalSRAS_ m) (ct m).
Definition mris_set_ctr (m : MRIS) (c : spec_float * spec_float * spec_float) : MRIS :=
  mkMRIS (nvertices m) (nfaces m) (vertices m) (vertices_topology m) (faces m) (fname m)
         (subject_name m) (hemisphere m) (useRealRAS m) (patch m) (vg m)
         (c.1.1) (c.1.2) (c.2) (group_avg_surface_area m) (ncmds m) (cmdlines m)
         (SRASToTalSRAS_ m) (ct m).
Definition mris_set_group_avg (m : MRIS) (a : spec_float) : MRIS :=
  mkMRIS (nvertices m) (nfaces m) (vertices m) (vertices_topology m) (faces m) (fname m)
         (subject_name m) (hemisphere m) (useRealRAS m) (patch m) (vg m)
         (xctr m) (yctr m) (zctr m) a (ncmds m) (cmdlines m)
         (SRASToTalSRAS_ m) (ct m).
Definition mris_set_ncmds (m : MRIS) (k : Z) : MRIS :=
  mkMRIS (nvertices m) (nfaces m) (vertices m) (vertices_topology m) (faces m) (fname m)
         (subject_name m) (hemisphere m) (useRealRAS m) (patch m) (vg m)
         (xctr m) (yctr m) (zctr m) (group_avg_surface_area m) k (cmdlines m)
         (SRASToTalSRAS_ m) (ct m).
Definition mris_set_cmdlines (m : MRIS) (cs : list (option string)) : MRIS :=
  mkMRIS (nvertices m) (nfaces m) (vertices m) (vertices_topology m) (faces m) (fname m)
         (subject_name m) (hemisphere m) (useRealRAS m) (patch m) (vg m)
         (xctr m) (yctr m) (zctr m) (group_avg_surface_area m) (ncmds m) cs
         (SRASToTalSRAS_ m) (ct m).
Definition mris_set_xform (m : MRIS) (x : option MATRIX) : MRIS :=
  mkMRIS (nvertices m) (nfaces m) (vertices m) (vertices_topology m) (faces m) (fname m)
         (subject_name m) (hemisphere m) (useRealRAS m) (patch m) (vg m)
         (xctr m) (yctr m) (zctr m) (group_avg_surface_area m) (ncmds m) (cmdlines m)
         x (ct m).
Definition mris_set_ct (m : MRIS) (c : option COLOR_TABLE) : MRIS :=
  mkMRIS (nvertices m) (nfaces m) (vertices m) (vertices_topology m) (faces m) (fname m)
         (subject_name m) (hemisphere m) (useRealRAS m) (patch m) (vg m)
         (xctr m) (yctr m) (zctr m) (group_avg_surface_area m) (ncmds m) (cmdlines m)
         (SRASToTalSRAS_ m) c.

(** [a[i]] for a C array a and a C integer i; outside the array the
    access is undefined. *)
Definition at_index {A} (a : list A) (i : Z) : M A :=
  if i <? 0 then Undefined
  else match a !! Z.to_nat i with
       | Some e => ret e
       | None => Undefined
       end.

(** [a[i] = e]. *)
Definition put_index {A} (a : list A) (i : Z) (e : A) : M (list A) :=
  if i <? 0 then Undefined
  else if i <? Z.of_nat (length a) then ret (<[Z.to_nat i := e]> a)
  else Undefined.

(* ===================================================================== *)
(** ** The writers *)
(* ===================================================================== *)

Section Writers.
Context `{Collaborators}.

(** [gifti_alloc_and_add_darray]: the cleared array the container
    library appends to the image. The writers fill it through the
    pointer they get and it is stored in the image when they are done. *)
Definition empty_darray : giiDataArray :=
  mkDA 0 0 GIFTI_IND_ORD_UNDEF 0 [0; 0; 0; 0; 0; 0] 0 None ∅ [].

Definition add_darrays (image : gifti_image) (das : list giiDataArray) : gifti_image :=
  mkImage (darray image ++ das) (labeltable image) (gim_meta image).

(** [strstr(s, sub) != NULL] *)
Definition strstr (s sub : string) : bool :=
  match String.index 0 sub s with Some _ => true | None => false end.

Fixpoint mapM {A B} (g : A -> M B) (l : list A) : M (list B) :=
  match l with
  | [] => ret []
  | a :: l' => let* b := g a in let* bs := mapM g l' in ret (b :: bs)
  end.

(** The 4x4 copy [xform[r-1][c-1] = m->rptr[r][c]], r and c from 1 to 4. *)
Definition copy_xform (m : MATRIX) : M (list (list spec_float)) :=
  mapM (fun r =>
          let* row := at_index (rptr m) r in
          mapM (fun c => let* e := at_index row c in ret (IEEE.double_of_float e))
               [0; 1; 2; 3])
       [0; 1; 2; 3].

(** The coordinate system the surface writer attaches, if any. *)
Definition write_coordsys (mris : MRIS) (out_fname : string) : M (list giiCoordSystem) :=
  if negb (useRealRAS mris =? 0) then
    if negb (valid (vg mris) =? 0) then
      let S := vg_i_to_r (vg mris) in
      let T := TkrVox2RASfromVolGeom (vg mris) in
      let Sinv := MatrixInverse S in
      let* xf := copy_xform (MatrixMultiply T Sinv) in
      ret [mkCS "NIFTI_XFORM_SCANNER_ANAT" "NIFTI_XFORM_UNKNOWN" xf]
    else
      let* xf := copy_xform (MatrixIdentity 4) in
      ret [mkCS "NIFTI_XFORM_SCANNER_ANAT" "NIFTI_XFORM_SCANNER_ANAT" xf]
  else
    if negb (valid (vg mris) =? 0) then
      let S := vg_i_to_r (vg mris) in
      let T := TkrVox2RASfromVolGeom (vg mris) in
      let Tinv := MatrixInverse T in
      let* xf := copy_xform (MatrixMultiply S Tinv) in
      ret [mkCS "NIFTI_XFORM_UNKNOWN" "NIFTI_XFORM_SCANNER_ANAT" xf]
    else
      match MRISreadTransform mris out_fname with
      | Some m =>
          if (rows m =? 4) && (cols m =? 4) then
            let* xf := copy_xform m in
            ret [mkCS "NIFTI_XFORM_UNKNOWN" "NIFTI_XFORM_TALAIRACH" xf]
          else ret []
      | None => ret []
      end.

(** Is a corner of the face ripped?  Each test reads
    [mris->vertices[mris->faces[face_index].v[k]].ripflag]. *)
Definition face_ripped (mris : MRIS) (face_index : Z) : M bool :=
  let* face := at_index (faces mris) face_index in
  let corner k :=
    (let* vno := at_index (v face) k in
     let* vx := at_index (vertices mris) vno in
     ret (ripflag vx)) in
  let* r0 := corner 0 in
  if r0 then ret true else
  let* r1 := corner 1 in
  if r1 then ret true else
  let* r2 := corner 2 in
  ret r2.

(** The metadata the surface name stands for; later matches win. *)
Definition pick (name : string) (rules : list (string * string)) : option string :=
  fold_left (fun acc r => if strstr name r.1 then Some r.2 else acc) rules None.

Definition add_opt (md : gmap string string) (key : string) (value : option string)
  : gmap string string :=
  match value with Some s => gifti_add_to_meta md key s | None => md end.

Definition write_standard_meta (mris : MRIS) (coords faces : giiDataArray)
  : giiDataArray * giiDataArray :=
  if negb (String.length (fname mris) =? 0)%nat then
    let name := fname mris in
    let primary := pick name [("lh.", "CortexLeft"); ("rh.", "CortexRight")] in
    let secondary :=
      pick name [(".orig", "GrayWhite"); (".smoothwm", "GrayWhite");
                 (".white", "GrayWhite"); (".graymid", "MidThickness");
                 (".gray", "Pial"); (".pial", "Pial")] in
    let geotype :=
      pick name [(".orig", "Reconstruction"); (".smoothwm", "Reconstruction");
                 (".white", "Anatomical"); (".gray", "Anatomical");
                 (".graymid", "Anatomical"); (".pial", "Anatomical");
                 (".inflated", "Inflated"); (".sphere", "Sphere");
                 (".qsphere", "Sphere"); ("pial-outer", "Hull")] in
    let topotype := if negb (patch mris =? 0) then "Cut" else "Closed" in
    let cm := add_opt (meta coords) "AnatomicalStructurePrimary" primary in
    let cm := add_opt cm "AnatomicalStructureSecondary" secondary in
    let cm := add_opt cm "GeometricType" geotype in
    let fm := gifti_add_to_meta (meta faces) "TopologicalType" topotype in
    let cm := gifti_add_to_meta cm "Name" name in
    let fm := gifti_add_to_meta fm "Name" name in
    (set_meta coords cm, set_meta faces fm)
  else (coords, faces).

Definition write_volgeom_meta (mris : MRIS) (md : gmap string string)
  : gmap string string :=
  if negb (valid (vg mris) =? 0) then
    let g := vg mris in
    let md := gifti_add_to_meta md "VolGeomWidth" (pretty (width g)) in
    let md := gifti_add_to_meta md "VolGeomHeight" (pretty (height g)) in
    let md := gifti_add_to_meta md "VolGeomDepth" (pretty (depth g)) in
    let md := gifti_add_to_meta md "VolGeomXsize" (sprintf_f (xsize g)) in
    let md := gifti_add_to_meta md "VolGeomYsize" (sprintf_f (ysize g)) in
    let md := gifti_add_to_meta md "VolGeomZsize" (sprintf_f (zsize g)) in
    let md := gifti_add_to_meta md "VolGeomX_R" (sprintf_f (x_r g)) in
    let md := gifti_add_to_meta md "VolGeomX_A" (sprintf_f (x_a g)) in
    let md := gifti_add_to_meta md "VolGeomX_S" (sprintf_f (x_s g)) in
    let md := gifti_add_to_meta md "VolGeomY_R" (sprintf_f (y_r g)) in
    let md := gifti_add_to_meta md "VolGeomY_A" (sprintf_f (y_a g)) in
    let md := gifti_add_to_meta md "VolGeomY_S" (sprintf_f (y_s g)) in
    let md := gifti_add_to_meta md "VolGeomZ_R" (sprintf_f (z_r g)) in
    let md := gifti_add_to_meta md "VolGeomZ_A" (sprintf_f (z_a g)) in
    let md := gifti_add_to_meta md "VolGeomZ_S" (sprintf_f (z_s g)) in
    let md := gifti_add_to_meta md "VolGeomC_R" (sprintf_f (c_r g)) in
    let md := gifti_add_to_meta md "VolGeomC_A" (sprintf_f (c_a g)) in
    let md := gifti_add_to_meta md "VolGeomC_S" (sprintf_f (c_s g)) in
    let md := gifti_add_to_meta md "SurfaceCenterX" (sprintf_f (xctr mris)) in
    let md := gifti_add_to_meta md "SurfaceCenterY" (sprintf_f (yctr mris)) in
    let md := gifti_add_to_meta md "SurfaceCenterZ" (sprintf_f (zctr mris)) in
    md
  else md.

(** The key [TAG_CMDLINE#<ncmd>] both pipelines build with [sprintf]. *)
Definition cmdline_tag (ncmd : Z) : string := "TAG_CMDLINE" +:+ "#" +:+ pretty ncmd.

Definition write_cmdlines_meta (mris : MRIS) (md : gmap string string)
  : M (gmap string string) :=
  if 0 <? ncmds mris then
    let md := gifti_add_to_meta md "NUM_TAG_CMDLINE" (pretty (ncmds mris)) in
    for_Z (ncmds mris)
      (fun ncmd md =>
         let* line := at_index (cmdlines mris) ncmd in
         match line with
         | None => Undefined          (* "%s" of a NULL pointer *)
         | Some s =>
             let cmdline := String.substring 0 (TAG_CMDLINE_LEN - 1) s in
             ret (gifti_add_to_meta md (cmdline_tag ncmd) cmdline)
         end)
      md
  else ret md.

(** "Copy in all our data": the positions of the vertices that are not
    ripped. *)
Definition write_coords_data (mris : MRIS) (coords : giiDataArray) : M giiDataArray :=
  for_Z (nvertices mris)
    (fun vertex_index coords =>
       let* vx := at_index (vertices mris) vertex_index in
       if ripflag vx then ret coords else
       let* coords := gifti_set_DA_value_2D (Some coords) vertex_index 0
                        (IEEE.double_of_float (x vx)) in
       let* coords := gifti_set_DA_value_2D (Some coords) vertex_index 1
                        (IEEE.double_of_float (y vx)) in
       gifti_set_DA_value_2D (Some coords) vertex_index 2
                        (IEEE.double_of_float (z vx)))
    coords.

(** "count the real number of faces (the ones that dont have a vertex
    with a ripflag set)" *)
Definition count_faces (mris : MRIS) : M Z :=
  for_Z (nfaces mris)
    (fun face_index numFaces =>
       let* r := face_ripped mris face_index in
       if r then ret numFaces else ret (numFaces + 1))
    0.

(** "Copy in all our face data (remembering to ignore faces which have a
    vertex with the ripflag set)"; the state is the array and [faceNum]. *)
Definition write_faces_data (mris : MRIS) (faces0 : giiDataArray) : M (giiDataArray * Z) :=
  for_Z (nfaces mris)
    (fun face_index (st : giiDataArray * Z) =>
       let '(fa, faceNum) := st in
       let* r := face_ripped mris face_index in
       if r then ret (fa, faceNum) else
       let* face := at_index (faces mris) face_index in
       let* v0 := at_index (v face) 0 in
       let* fa := gifti_set_DA_value_2D (Some fa) faceNum 0 (IEEE.double_of_Z v0) in
       let* v1 := at_index (v face) 1 in
       let* fa := gifti_set_DA_value_2D (Some fa) faceNum 1 (IEEE.double_of_Z v1) in
       let* v2 := at_index (v face) 2 in
       let* fa := gifti_set_DA_value_2D (Some fa) faceNum 2 (IEEE.double_of_Z v2) in
       ret (fa, faceNum + 1))
    (faces0, 0).

Definition MRISwriteGIFTISurface (mris : MRIS) (image : gifti_image) (out_fname : string)
  : M gifti_image :=
  (* Coordinates *)
  let* cs := write_coordsys mris out_fname in
  let dims_c := [nvertices mris; 3; 0; 0; 0; 0] in
  let nvals_c := gifti_darray_nvals 2 dims_c in
  let coords :=
    mkDA NIFTI_INTENT_POINTSET NIFTI_TYPE_FLOAT32 GIFTI_IND_ORD_ROW_MAJOR 2 dims_c
         nvals_c (Some (calloc_data NIFTI_TYPE_FLOAT32 nvals_c)) ∅ cs in
  let* coords := write_coords_data mris coords in
  (* Faces *)
  let* numFaces := count_faces mris in
  let dims_f := [numFaces; 3; 0; 0; 0; 0] in
  let nvals_f := gifti_darray_nvals 2 dims_f in
  let faces0 :=
    mkDA NIFTI_INTENT_TRIANGLE NIFTI_TYPE_INT32 GIFTI_IND_ORD_ROW_MAJOR 2 dims_f
         nvals_f (Some (calloc_data NIFTI_TYPE_INT32 nvals_f)) ∅ [] in
  let* '(faces1, _) := write_faces_data mris faces0 in
  (* standard meta data for surfaces *)
  let '(coords, faces1) := write_standard_meta mris coords faces1 in
  (* volume geometry and surface centre *)
  let md := write_volgeom_meta mris (meta coords) in
  (* group avg surface area *)
  let md :=
    if negb (FZERO (group_avg_surface_area mris))
    then gifti_add_to_meta md "TAG_GROUP_AVG_SURFACE_AREA"
           (sprintf_20f (group_avg_surface_area mris))
    else md in
  (* TAG_CMDLINE *)
  let* md := write_cmdlines_meta mris md in
  ret (add_darrays image [set_meta coords md; faces1]).

(** Modelled from the spec: the packed annotation of a colour, of the
    colour table (colortab.h) and of the surface (mrisurf.h). Missing
    from the sources at hand; the spec speaks of three components packed
    into a single annotation code. *)
Definition CTABrgb2Annotation (r g b : Z) : Z :=
  Z.shiftl b 16 + Z.shiftl g 8 + r.

Definition MRISRGBToAnnot (r g b : Z) : Z :=
  Z.lor (Z.land r 255)
        (Z.lor (Z.shiftl (Z.land g 255) 8) (Z.shiftl (Z.land b 255) 16)).

(** Modelled from the spec: the colour-table collaborator's lookup of an
    entry by packed annotation (colortab.c is not among the sources).
    The result is the error code and the index found. The reader tests
    [index < 0] apart from the error code: a lookup that finds no entry
    is no error and gives the index -1. *)
Fixpoint find_annotation (es : list (option COLOR_TABLE_ENTRY)) (k : nat)
    (idx : Z) (annot : Z) : option Z :=
  match k with
  | O => None
  | Datatypes.S k' =>
      match es with
      | [] => None
      | e :: es' =>
          match e with
          | Some c =>
              if CTABrgb2Annotation (ri c) (gi c) (bi c) =? annot then Some idx
              else find_annotation es' k' (idx + 1) annot
          | None => find_annotation es' k' (idx + 1) annot
          end
      end
  end.

Definition CTABfindAnnotation (ctab : COLOR_TABLE) (annot : Z) : Z * Z :=
  match find_annotation (entries ctab) (Z.to_nat (nentries ctab)) 0 annot with
  | Some idx => (NO_ERROR, idx)
  | None => (NO_ERROR, -1)
  end.

(** [(unsigned int) i]: an [int] stored through a pointer to
    [unsigned int]. *)
Definition uint_of_int (i : Z) : Z := i mod 4294967296.

(** Modelled from the spec: the colour-table collaborator's count of
    valid (non-NULL) entries. *)
Definition CTABgetNumberOfValidEntries (ctab : COLOR_TABLE) : Z :=
  Z.of_nat (length (filter (fun e => is_Some e)
                           (take (Z.to_nat (nentries ctab)) (entries ctab)))).

Definition one32 : spec_float := IEEE.float_of_Z 1.

(** The first loop of [MRISwriteGIFTILabel]: the label table built from
    the colour table. The three arrays are filled front to back. *)
Definition write_labeltable (ctab : COLOR_TABLE) : M giiLabelTable :=
  let length := nentries ctab in
  for_Z length
    (fun idx lt =>
       let* entry := at_index (entries ctab) idx in
       match entry with
       | None => Undefined            (* a NULL entry is dereferenced *)
       | Some e =>
           let* label :=
             (if negb (String.length (name e) =? 0)%nat then ret (name e)
              else
                let tmpname := "unknown_" +:+ pretty idx in
                warn (DiagLabelName idx tmpname) ;;; ret tmpname) in
           let rgba :=
             if (String.length (name e) =? 0)%nat
                || String.eqb label "unknown" || String.eqb label "Unknown"
             then [IEEE.zero; IEEE.zero; IEEE.zero; IEEE.zero]
             else [rf e; gf e; bf e; one32] in
           ret (mkLT (lt_length lt) (lt_key lt ++ [idx]) (lt_label lt ++ [label])
                     (Some (default [] (lt_rgba lt) ++ rgba)))
       end)
    (mkLT length [] [] (Some [])).

Definition set_labeltable (image : gifti_image) (lt : giiLabelTable) : gifti_image :=
  mkImage (darray image) lt (gim_meta image).

Definition MRISwriteGIFTILabel (mris : MRIS) (image : gifti_image) (intent_code : Z)
  : M gifti_image :=
  match ct mris with
  | None => Undefined
  | Some ctab =>
      if nentries ctab =? 0
      then fail (DiagWrite "MRISwriteGIFTILabel: colortable is empty!") ERROR_BADFILE
      else
        let* lt := write_labeltable ctab in
        let image := set_labeltable image lt in
        (* Labels array *)
        let dims_l := [nvertices mris; 0; 0; 0; 0; 0] in
        let nvals_l := gifti_darray_nvals 1 dims_l in
        let md := gifti_add_to_meta ∅ "Name" "node label" in
        let* md :=
          (if lt_length lt =? 2
           then let* l1 := at_index (lt_label lt) 1 in ret (gifti_add_to_meta md "Name" l1)
           else ret md) in
        let* label_data :=
          for_Z (nvertices mris)
            (fun label_index label_data =>
               let* vx := at_index (vertices mris) label_index in
               if ripflag vx then ret label_data else
               let '(result, theIdx) := CTABfindAnnotation ctab (annotation vx) in
               if negb (result =? 0) then Fail [] ERROR_BADFILE
               else put_index label_data label_index (CInt (uint_of_int theIdx)))
            (calloc_data NIFTI_TYPE_INT32 nvals_l) in
        let labels :=
          mkDA NIFTI_INTENT_LABEL NIFTI_TYPE_INT32 GIFTI_IND_ORD_ROW_MAJOR 1 dims_l
               nvals_l (Some label_data) md [] in
        ret (add_darrays image [labels])
  end.

End Writers.

(* ===================================================================== *)
(** ** The reader *)
(* ===================================================================== *)

(** Assignments to the fields of the volume geometry. *)
Definition vg_set_valid (g : VOL_GEOM) (a : Z) : VOL_GEOM :=
  mkVG a (width g) (height g) (depth g) (xsize g) (ysize g) (zsize g) (x_r g) (x_a g) (x_s g) (y_r g) (y_a g) (y_s g) (z_r g) (z_a g) (z_s g) (c_r g) (c_a g) (c_s g).
Definition vg_set_width (g : VOL_GEOM) (a : Z) : VOL_GEOM :=
  mkVG (valid g) a (height g) (depth g) (xsize g) (ysize g) (zsize g) (x_r g) (x_a g) (x_s g) (y_r g) (y_a g) (y_s g) (z_r g) (z_a g) (z_s g) (c_r g) (c_a g) (c_s g).
Definition vg_set_height (g : VOL_GEOM) (a : Z) : VOL_GEOM :=
  mkVG (valid g) (width g) a (depth g) (xsize g) (ysize g) (zsize g) (x_r g) (x_a g) (x_s g) (y_r g) (y_a g) (y_s g) (z_r g) (z_a g) (z_s g) (c_r g) (c_a g) (c_s g).
Definition vg_set_depth (g : VOL_GEOM) (a : Z) : VOL_GEOM :=
  mkVG (valid g) (width g) (height g) a (xsize g) (ysize g) (zsize g) (x_r g) (x_a g) (x_s g) (y_r g) (y_a g) (y_s g) (z_r g) (z_a g) (z_s g) (c_r g) (c_a g) (c_s g).
Definition vg_set_xsize (g : VOL_GEOM) (a : spec_float) : VOL_GEOM :=
  mkVG (valid g) (width g) (height g) (depth g) a (ysize g) (zsize g) (x_r g) (x_a g) (x_s g) (y_r g) (y_a g) (y_s g) (z_r g) (z_a g) (z_s g) (c_r g) (c_a g) (c_s g).
Definition vg_set_ysize (g : VOL_GEOM) (a : spec_float) : VOL_GEOM :=
  mkVG (valid g) (width g) (height g) (depth g) (xsize g) a (zsize g) (x_r g) (x_a g) (x_s g) (y_r g) (y_a g) (y_s g) (z_r g) (z_a g) (z_s g) (c_r g) (c_a g) (c_s g).
Definition vg_set_zsize (g : VOL_GEOM) (a : spec_float) : VOL_GEOM :=
  mkVG (valid g) (width g) (height g) (depth g) (xsize g) (ysize g) a (x_r g) (x_a g) (x_s g) (y_r g) (y_a g) (y_s g) (z_r g) (z_a g) (z_s g) (c_r g) (c_a g) (c_s g).
Definition vg_set_x_r (g : VOL_GEOM) (a : spec_float) : VOL_GEOM :=
  mkVG (valid g) (width g) (height g) (depth g) (xsize g) (ysize g) (zsize g) a (x_a g) (x_s g) (y_r g) (y_a g) (y_s g) (z_r g) (z_a g) (z_s g) (c_r g) (c_a g) (c_s g).
Definition vg_set_x_a (g : VOL_GEOM) (a : spec_float) : VOL_GEOM :=
  mkVG (valid g) (width g) (height g) (depth g) (xsize g) (ysize g) (zsize g) (x_r g) a (x_s g) (y_r g) (y_a g) (y_s g) (z_r g) (z_a g) (z_s g) (c_r g) (c_a g) (c_s g).
Definition vg_set_x_s (g : VOL_GEOM) (a : spec_float) : VOL_GEOM :=
  mkVG (valid g) (width g) (height g) (depth g) (xsize g) (ysize g) (zsize g) (x_r g) (x_a g) a (y_r g) (y_a g) (y_s g) (z_r g) (z_a g) (z_s g) (c_r g) (c_a g) (c_s g).
Definition vg_set_y_r (g : VOL_GEOM) (a : spec_float) : VOL_GEOM :=
  mkVG (valid g) (width g) (height g) (depth g) (xsize g) (ysize g) (zsize g) (x_r g) (x_a g) (x_s g) a (y_a g) (y_s g) (z_r g) (z_a g) (z_s g) (c_r g) (c_a g) (c_s g).
Definition vg_set_y_a (g : VOL_GEOM) (a : spec_float) : VOL_GEOM :=
  mkVG (valid g) (width g) (height g) (depth g) (xsize g) (ysize g) (zsize g) (x_r g) (x_a g) (x_s g) (y_r g) a (y_s g) (z_r g) (z_a g) (z_s g) (c_r g) (c_a g) (c_s g).
Definition vg_set_y_s (g : VOL_GEOM) (a : spec_float) : VOL_GEOM :=
  mkVG (valid g) (width g) (height g) (depth g) (xsize g) (ysize g) (zsize g) (x_r g) (x_a g) (x_s g) (y_r g) (y_a g) a (z_r g) (z_a g) (z_s g) (c_r g) (c_a g) (c_s g).
Definition vg_set_z_r (g : VOL_GEOM) (a : spec_float) : VOL_GEOM :=
  mkVG (valid g) (width g) (height g) (depth g) (xsize g) (ysize g) (zsize g) (x_r g) (x_a g) (x_s g) (y_r g) (y_a g) (y_s g) a (z_a g) (z_s g) (c_r g) (c_a g) (c_s g).
Definition vg_set_z_a (g : VOL_GEOM) (a : spec_float) : VOL_GEOM :=
  mkVG (valid g) (width g) (height g) (depth g) (xsize g) (ysize g) (zsize g) (x_r g) (x_a g) (x_s g) (y_r g) (y_a g) (y_s g) (z_r g) a (z_s g) (c_r g) (c_a g) (c_s g).
Definition vg_set_z_s (g : VOL_GEOM) (a : spec_float) : VOL_GEOM :=
  mkVG (valid g) (width g) (height g) (depth g) (xsize g) (ysize g) (zsize g) (x_r g) (x_a g) (x_s g) (y_r g) (y_a g) (y_s g) (z_r g) (z_a g) a (c_r g) (c_a g) (c_s g).
Definition vg_set_c_r (g : VOL_GEOM) (a : spec_float) : VOL_GEOM :=
  mkVG (valid g) (width g) (height g) (depth g) (xsize g) (ysize g) (zsize g) (x_r g) (x_a g) (x_s g) (y_r g) (y_a g) (y_s g) (z_r g) (z_a g) (z_s g) a (c_a g) (c_s g).
Definition vg_set_c_a (g : VOL_GEOM) (a : spec_float) : VOL_GEOM :=
  mkVG (valid g) (width g) (height g) (depth g) (xsize g) (ysize g) (zsize g) (x_r g) (x_a g) (x_s g) (y_r g) (y_a g) (y_s g) (z_r g) (z_a g) (z_s g) (c_r g) a (c_s g).
Definition vg_set_c_s (g : VOL_GEOM) (a : spec_float) : VOL_GEOM :=
  mkVG (valid g) (width g) (height g) (depth g) (xsize g) (ysize g) (zsize g) (x_r g) (x_a g) (x_s g) (y_r g) (y_a g) (y_s g) (z_r g) (z_a g) (z_s g) (c_r g) (c_a g) a.

(** [(int)value] for a [double] or [float] value. *)
Definition to_int (value : spec_float) : M Z :=
  match IEEE.SFtrunc value with
  | Some i => if in_range (-2147483648, 2147483647) i then ret i else Undefined
  | None => Undefined
  end.

(** [for (i = 0; i < n; i++) body], where the body may [break] ([inr]). *)
Definition for_Z_break {S : Type} (n : Z) (body : Z -> S -> M (S + S)) (s : S) : M S :=
  let* r :=
    for_Z n
      (fun i (st : S * bool) =>
         if st.2 then ret st
         else let* r := body i st.1 in
              match r with
              | inl s' => ret (s', false)
              | inr s' => ret (s', true)
              end)
      (s, false) in
  ret r.1.

Section Reader.
Context `{Collaborators}.

Definition zero_vertex : VERTEX :=
  mkVertex IEEE.zero IEEE.zero IEEE.zero IEEE.zero false IEEE.zero IEEE.zero IEEE.zero 0
           IEEE.zero IEEE.zero IEEE.zero.

Definition zero_vg : VOL_GEOM :=
  mkVG 0 0 0 0 IEEE.zero IEEE.zero IEEE.zero IEEE.zero IEEE.zero IEEE.zero IEEE.zero
       IEEE.zero IEEE.zero IEEE.zero IEEE.zero IEEE.zero IEEE.zero IEEE.zero IEEE.zero.

(** Modelled from the spec: [MRISalloc] of the mesh collaborator
    (mrisurf is not among the sources), "allocate(nVertices, nFaces) ->
    MeshModel": a surface of that many vertices and faces, every field
    zero. *)
Definition MRISalloc (nv nf : Z) : MRIS :=
  mkMRIS nv nf
         (replicate (Z.to_nat nv) zero_vertex)
         (replicate (Z.to_nat nv) (mkVT [] [] 0))
         (replicate (Z.to_nat nf) (mkFace [0; 0; 0]))
         "" "" 0 0 0 zero_vg IEEE.zero IEEE.zero IEEE.zero IEEE.zero 0
         (replicate (Z.to_nat MAX_CMDS) None) None None.

(** [floor(c * 256)] stored in an [int] and capped at 255. *)
Definition color_byte (c : spec_float) : M Z :=
  let* i := to_int (IEEE.SFfloor32 (IEEE.SFmul32 c (IEEE.float_of_Z 256))) in
  ret (if 255 <? i then 255 else i).

Definition random_rgba (length : Z) : list spec_float :=
  flat_map (fun i => [randomNumber (3 * i); randomNumber (3 * i + 1);
                      randomNumber (3 * i + 2); one32])
           (seq 0 (Z.to_nat length)).

(** The colour table read from the label table of the image; the image
    is given the colours made up for a table that has none. *)
Definition read_colortable (image : gifti_image) (fname : string)
  : M (option COLOR_TABLE * gifti_image) :=
  let lt := labeltable image in
  if 0 <? lt_length lt then
    if negb (gifti_valid_LabelTable lt)
    then fail (DiagRead "mrisReadGIFTIfile: invalid labeltable found") 0
    else
      let rgba :=
        match lt_rgba lt with
        | Some r => r
        | None => random_rgba (lt_length lt)
        end in
      let image :=
        set_labeltable image (mkLT (lt_length lt) (lt_key lt) (lt_label lt) (Some rgba)) in
      let* es :=
        for_Z (lt_length lt)
          (fun label_index es =>
             let* nm := at_index (lt_label lt) label_index in
             let* r := at_index rgba (4 * label_index) in
             let* ri' := color_byte r in
             let* g := at_index rgba (4 * label_index + 1) in
             let* gi' := color_byte g in
             let* b := at_index rgba (4 * label_index + 2) in
             let* bi' := color_byte b in
             let* a := at_index rgba (4 * label_index + 3) in
             let* ai' := color_byte a in
             ret (es ++ [Some (mkCTE nm ri' gi' bi' ai' r g b a)]))
          [] in
      ret (Some (mkCT (es ++ [None]) (lt_length lt) fname 2), image)
  else ret (None, image).

(** The last POINTSET array and the last TRIANGLE array of the image. *)
Definition find_geometry (image : gifti_image)
  : option giiDataArray * option giiDataArray :=
  fold_left
    (fun (cf : option giiDataArray * option giiDataArray) da =>
       if intent da =? NIFTI_INTENT_POINTSET then (Some da, cf.2)
       else if intent da =? NIFTI_INTENT_TRIANGLE then (cf.1, Some da)
       else cf)
    (darray image) (None, None).

(** The numbers of records and of columns as the reader takes them:
    the two results of [gifti_DA_rows_cols], in the other order for a
    column-major array. *)
Definition records_cols (da : giiDataArray) : Z * Z :=
  let rc := gifti_DA_rows_cols da in
  if ind_ord da =? GIFTI_IND_ORD_ROW_MAJOR then (rc.1, rc.2) else (rc.2, rc.1).

Definition scan_d (md : gmap string string) (key : string) : option Z :=
  match gifti_get_meta_value md key with
  | Some stmp => sscanf_d stmp
  | None => None
  end.

Definition scan_f (md : gmap string string) (key : string) : option spec_float :=
  match gifti_get_meta_value md key with
  | Some stmp => sscanf_f stmp
  | None => None
  end.

(** [if (stmp && (1 == sscanf(stmp, fmt, &field))) vgvalid++;] *)
Definition vg_step {A} (scanned : option A) (assign_field : VOL_GEOM -> A -> VOL_GEOM)
    (st : VOL_GEOM * Z) : VOL_GEOM * Z :=
  match scanned with
  | Some a => (assign_field st.1 a, st.2 + 1)
  | None => st
  end.

Definition read_volgeom (md : gmap string string) (g : VOL_GEOM) : VOL_GEOM :=
  let st := (g, 0) in
  let st := vg_step (scan_d md "VolGeomWidth") vg_set_width st in
  let st := vg_step (scan_d md "VolGeomHeight") vg_set_height st in
  let st := vg_step (scan_d md "VolGeomDepth") vg_set_depth st in
  let st := vg_step (scan_f md "VolGeomXsize") vg_set_xsize st in
  let st := vg_step (scan_f md "VolGeomYsize") vg_set_ysize st in
  let st := vg_step (scan_f md "VolGeomZsize") vg_set_zsize st in
  let st := vg_step (scan_f md "VolGeomX_R") vg_set_x_r st in
  let st := vg_step (scan_f md "VolGeomX_A") vg_set_x_a st in
  let st := vg_step (scan_f md "VolGeomX_S") vg_set_x_s st in
  let st := vg_step (scan_f md "VolGeomY_R") vg_set_y_r st in
  let st := vg_step (scan_f md "VolGeomY_A") vg_set_y_a st in
  let st := vg_step (scan_f md "VolGeomY_S") vg_set_y_s st in
  let st := vg_step (scan_f md "VolGeomZ_R") vg_set_z_r st in
  let st := vg_step (scan_f md "VolGeomZ_A") vg_set_z_a st in
  let st := vg_step (scan_f md "VolGeomZ_S") vg_set_z_s st in
  let st := vg_step (scan_f md "VolGeomC_R") vg_set_c_r st in
  let st := vg_step (scan_f md "VolGeomC_A") vg_set_c_a st in
  let st := vg_step (scan_f md "VolGeomC_S") vg_set_c_s st in
  (* we got all 18 values *)
  if st.2 =? 18 then vg_set_valid st.1 1 else st.1.

Definition read_surface_center (md : gmap string string) (mris : MRIS) : MRIS :=
  let cx := default (xctr mris) (scan_f md "SurfaceCenterX") in
  let cy := default (yctr mris) (scan_f md "SurfaceCenterY") in
  let cz := default (zctr mris) (scan_f md "SurfaceCenterZ") in
  mris_set_ctr mris (cx, cy, cz).

(** The TAG_CMDLINE block. *)
Definition read_cmdlines (fuel : nat) (md : gmap string string) (mris : MRIS) : M MRIS :=
  let mris :=
    match scan_d md "NUM_TAG_CMDLINE" with
    | Some k => mris_set_ncmds mris k
    | None => mris
    end in
  let numcmds := ncmds mris in
  let* mris :=
    (if MAX_CMDS <? ncmds mris
     then warn (DiagTooManyCmds (ncmds mris) MAX_CMDS) ;;; ret (mris_set_ncmds mris MAX_CMDS)
     else ret mris) in
  let toskip := if MAX_CMDS <? numcmds then numcmds - MAX_CMDS else 0 in
  let* _ :=
    while_loop fuel (fun toskip => negb (toskip =? 0))
      (fun toskip =>
         (* the value looked up under "TAG_CMDLINE" is dropped *)
         let _ := gifti_get_meta_value md "TAG_CMDLINE" in
         ret (inl toskip))
      toskip in
  let* cs :=
    for_Z_break (ncmds mris)
      (fun ncmd cs =>
         match gifti_get_meta_value md (cmdline_tag ncmd) with
         | None => warn DiagCmdlineOutOfSync ;;; ret (inr cs)
         | Some cmdline =>
             (* memcpy reads TAG_CMDLINE_LEN bytes of the value, which has
                the bytes of its characters and the terminator *)
             if (String.length cmdline + 1 <? TAG_CMDLINE_LEN)%nat then Undefined
             else
               let* cs := put_index cs ncmd
                            (Some (String.substring 0 TAG_CMDLINE_LEN cmdline)) in
               ret (inl cs)
         end)
      (cmdlines mris) in
  ret (mris_set_cmdlines mris cs).

(** Modelled from the spec: [MRISsetXYZ] of the mesh collaborator
    stores the position of one vertex. *)
Definition MRISsetXYZ (mris : MRIS) (vno : Z) (x' y' z' : spec_float) : M MRIS :=
  let* vx := at_index (vertices mris) vno in
  let* vs := put_index (vertices mris) vno (vertex_set_xyz vx x' y' z') in
  ret (mris_set_vertices mris vs).

(** "Copy in the vertices." *)
Definition read_vertices (coords : giiDataArray) (num_vertices : Z) (mris : MRIS)
  : M MRIS :=
  for_Z num_vertices
    (fun vertex_index mris =>
       let* vt := at_index (vertices_topology mris) vertex_index in
       let* ts := put_index (vertices_topology mris) vertex_index
                    (mkVT (f vt) (n vt) 0) in
       let mris := mris_set_topology mris ts in
       let* xd := gifti_get_DA_value_2D (Some coords) vertex_index 0 in
       let* yd := gifti_get_DA_value_2D (Some coords) vertex_index 1 in
       let* zd := gifti_get_DA_value_2D (Some coords) vertex_index 2 in
       let* mris := MRISsetXYZ mris vertex_index (IEEE.float_of_double xd)
                      (IEEE.float_of_double yd) (IEEE.float_of_double zd) in
       let* vx := at_index (vertices mris) vertex_index in
       let* vs := put_index (vertices mris) vertex_index
                    (vertex_set_origarea vx (IEEE.float_of_Z (-1))) in
       ret (mris_set_vertices mris vs))
    mris.

(** "Copy in the faces." *)
Definition read_faces (faces_da : giiDataArray) (num_faces : Z) (mris : MRIS) : M MRIS :=
  for_Z num_faces
    (fun face_index mris =>
       for_Z VERTICES_PER_FACE
         (fun face_vertex_index mris =>
            let* d := gifti_get_DA_value_2D (Some faces_da) face_index face_vertex_index in
            let* vertex_index := to_int d in
            let* face := at_index (faces mris) face_index in
            let* vs := put_index (v face) face_vertex_index vertex_index in
            let* fs := put_index (faces mris) face_index (mkFace vs) in
            let mris := mris_set_faces mris fs in
            let* vt := at_index (vertices_topology mris) vertex_index in
            let* ts := put_index (vertices_topology mris) vertex_index
                         (mkVT (f vt) (n vt) (num vt + 1)) in
            ret (mris_set_topology mris ts))
         mris)
    mris.

(** "each vertex has a face list": the two arrays of every vertex are
    allocated for the faces counted and the count starts again. *)
Definition alloc_face_lists (num_vertices : Z) (mris : MRIS) : M MRIS :=
  for_Z num_vertices
    (fun vertex_index mris =>
       let* vt := at_index (vertices_topology mris) vertex_index in
       let* ts := put_index (vertices_topology mris) vertex_index
                    (mkVT (replicate (Z.to_nat (num vt)) 0)
                          (replicate (Z.to_nat (num vt)) 0) 0) in
       ret (mris_set_topology mris ts))
    mris.

Definition fill_face_lists (mris : MRIS) : M MRIS :=
  for_Z (nfaces mris)
    (fun face_index mris =>
       let* face := at_index (faces mris) face_index in
       for_Z VERTICES_PER_FACE
         (fun k mris =>
            let* vno := at_index (v face) k in
            let* vt := at_index (vertices_topology mris) vno in
            let* fl := put_index (f vt) (num vt) face_index in
            let* ts := put_index (vertices_topology mris) vno
                         (mkVT fl (n vt) (num vt + 1)) in
            ret (mris_set_topology mris ts))
         mris)
    mris.

Definition fill_face_slots (num_vertices : Z) (mris : MRIS) : M MRIS :=
  for_Z num_vertices
    (fun vertex_index mris =>
       let* vt0 := at_index (vertices_topology mris) vertex_index in
       for_Z (num vt0)
         (fun k mris =>
            for_Z VERTICES_PER_FACE
              (fun m mris =>
                 let* vt := at_index (vertices_topology mris) vertex_index in
                 let* fno := at_index (f vt) k in
                 let* face := at_index (faces mris) fno in
                 let* c := at_index (v face) m in
                 if c =? vertex_index then
                   let* nl := put_index (n vt) k m in
                   let* ts := put_index (vertices_topology mris) vertex_index
                                (mkVT (f vt) nl (num vt)) in
                   ret (mris_set_topology mris ts)
                 else ret mris)
              mris)
         mris)
    mris.

(** The 4x4 matrix of a coordinate system stored in a [MATRIX] of floats. *)
Definition matrix_of_xform (xf : list (list spec_float)) : M MATRIX :=
  let* rs :=
    mapM (fun r =>
            let* row := at_index xf r in
            mapM (fun c => let* e := at_index row c in ret (IEEE.float_of_double e))
                 [0; 1; 2; 3])
         [0; 1; 2; 3] in
  ret (mkMatrix 4 4 rs).

Definition read_coordsys (coords : giiDataArray) (mris : MRIS) : M MRIS :=
  for_Z (Z.of_nat (length (coordsys coords)))
    (fun idx mris =>
       let* cs := at_index (coordsys coords) idx in
       if String.eqb (dataspace cs) "NIFTI_XFORM_SCANNER_ANAT" then
         ret (mris_set_useRealRAS mris 1)
       else if String.eqb (dataspace cs) "NIFTI_XFORM_UNKNOWN" then
         if String.eqb (xformspace cs) "NIFTI_XFORM_TALAIRACH" then
           let* m := matrix_of_xform (xform cs) in
           ret (mris_set_xform mris (Some m))
         else ret mris
       else ret mris)
    mris.

(** The surface made from the coordinate and face arrays. *)
Definition read_geometry (fuel : nat) (fname : string)
    (coords faces_da : giiDataArray) : M MRIS :=
  let '(num_vertices, num_cols) := records_cols coords in
  if (num_vertices <=? 0) || negb (num_cols =? 3)
  then fail (DiagRead "mrisReadGIFTIfile: malformed coords data array") 0
  else
  let '(num_faces, num_cols) := records_cols faces_da in
  if (num_faces <=? 0) || negb (num_cols =? 3)
  then fail (DiagRead "mrisReadGIFTIfile: malformed faces data array") 0
  else
  let mris := MRISalloc num_vertices num_faces in
  let hemi := gifti_get_meta_value (meta coords) "AnatomicalStructurePrimary" in
  let hemisphere :=
    match hemi with
    | Some h => if String.eqb h "CortexRight" then RIGHT_HEMISPHERE
                else if String.eqb h "CortexLeft" then LEFT_HEMISPHERE
                else NO_HEMISPHERE
    | None => NO_HEMISPHERE
    end in
  let mris := mris_set_header mris fname hemisphere 0 in
  (* retrieve volume geometry info *)
  let mris := mris_set_vg mris (read_volgeom (meta coords) (vg mris)) in
  let mris := read_surface_center (meta coords) mris in
  (* retrieve TAG_GROUP_AVG_SURFACE_AREA info *)
  let mris :=
    match scan_f (meta coords) "TAG_GROUP_AVG_SURFACE_AREA" with
    | Some a => mris_set_group_avg mris a
    | None => mris
    end in
  (* retrieve TAG_CMDLINE info *)
  let* mris := read_cmdlines fuel (meta coords) mris in
  let* mris := read_vertices coords num_vertices mris in
  let mris := mris_set_ctr mris (surface_center (vertices mris)) in
  let* mris := read_faces faces_da num_faces mris in
  let* mris := alloc_face_lists num_vertices mris in
  let* mris := fill_face_lists mris in
  let* mris := fill_face_slots num_vertices mris in
  read_coordsys coords mris.

(** What the second pass over the arrays carries along. *)
Record overlay_state : Type := mkOS {
  os_mris : MRIS;
  os_outmri : option MRI;
  os_frame : Z;
  found_curv_data : Z;
  found_statval_data : Z;
  node_index : option giiDataArray;
  num_index_nodes : Z
}.

Definition os_set_mris (st : overlay_state) (m : MRIS) : overlay_state :=
  mkOS m (os_outmri st) (os_frame st) (found_curv_data st) (found_statval_data st)
       (node_index st) (num_index_nodes st).

Definition os_set_outmri (st : overlay_state) (o : option MRI) : overlay_state :=
  mkOS (os_mris st) o (os_frame st) (found_curv_data st) (found_statval_data st)
       (node_index st) (num_index_nodes st).

Definition vox (outmri : option MRI) (c r s' fr : Z) (value : spec_float) : option MRI :=
  match outmri with
  | Some mri => Some (MRIsetVoxVal mri c r s' fr value)
  | None => None
  end.

Definition set_vertex (mris : MRIS) (vno : Z) (vx : VERTEX) : M MRIS :=
  let* vs := put_index (vertices mris) vno vx in
  ret (mris_set_vertices mris vs).

Definition expected_cols (darr : giiDataArray) : Z :=
  if intent darr =? NIFTI_INTENT_VECTOR then 3
  else if intent darr =? NIFTI_INTENT_RGB_VECTOR then 3
  else if intent darr =? NIFTI_INTENT_RGBA_VECTOR then 4
  else if intent darr =? NIFTI_INTENT_GENMATRIX then 9
  else 1.

(** NIFTI_INTENT_SHAPE: the data goes in [curv]. *)
Definition read_shape (numDA_ : Z) (darr : giiDataArray) (st : overlay_state)
  : M overlay_state :=
  if negb (found_curv_data st =? 0) then
    warn (DiagRead "WARNING: a prior data array of shape data has already been read!") ;;;
    ret st
  else
    let* _ := (if 1 <=? os_frame st
               then warn (DiagRead "WARNING: Skip saving data in MRI")
               else ret tt) in
    let fr := os_frame st in
    let* '(mris, outmri) :=
      match node_index st with
      | Some ni =>   (* sparse data storage *)
          for_Z (num_index_nodes st)
            (fun nindex '(mris, outmri) =>
               let* d := gifti_get_DA_value_2D (Some ni) nindex 0 in
               let* vno := to_int d in
               let* vx := at_index (vertices mris) vno in
               if ripflag vx then ret (mris, outmri) else
               let* c := gifti_get_DA_value_2D (Some darr) nindex 0 in
               let c := IEEE.float_of_double c in
               let* mris := set_vertex mris vno (vertex_set_curv vx c) in
               ret (mris, vox outmri vno 0 0 fr c))
            (os_mris st, os_outmri st)
      | None =>      (* regular indexing *)
          for_Z (nvertices (os_mris st))
            (fun vno '(mris, outmri) =>
               let* vx := at_index (vertices mris) vno in
               if ripflag vx then ret (mris, outmri) else
               let* c := gifti_get_DA_value_2D (Some darr) vno 0 in
               let c := IEEE.float_of_double c in
               let* mris := set_vertex mris vno (vertex_set_curv vx c) in
               ret (mris, vox outmri vno 0 0 fr c))
            (os_mris st, os_outmri st)
      end in
    ret (mkOS mris outmri
              (match outmri with Some _ => os_frame st + 1 | None => os_frame st end)
              (found_curv_data st + 1) (found_statval_data st)
              (node_index st) (num_index_nodes st)).

(** The first index whose key is the one looked for, or [nentries]. *)
Definition find_key (keys : list Z) (nentries' : Z) (table_key : Z) : M Z :=
  for_Z_break nentries'
    (fun table_index (_ : Z) =>
       let* k := at_index keys table_index in
       if table_key =? k then ret (inr table_index) else ret (inl (table_index + 1)))
    0.

(** NIFTI_INTENT_LABEL: the data goes in [annotation].  The loop state
    is (mris, nindex, vno). *)
Definition read_label (fuel : nat) (image : gifti_image) (ctab : option COLOR_TABLE)
    (darr : giiDataArray) (st : overlay_state) : M overlay_state :=
  match ct (os_mris st), ctab with
  | Some _, Some ctab =>
      let* label_data :=
        match data darr with Some buf => ret buf | None => Undefined end in
      let* '(mris, _, _) :=
        while_loop fuel
          (fun '(mris, nindex, vno) => vno <? nvertices mris)
          (fun '(mris, nindex, vno) =>
             let* '(vno, da_index) :=
               match node_index st with
               | Some ni =>
                   let* d := gifti_get_DA_value_2D (Some ni) nindex 0 in
                   let* vno := to_int d in
                   ret (vno, nindex)
               | None => ret (vno, vno)
               end in
             let* vx := at_index (vertices mris) vno in
             if ripflag vx then ret (inl (mris, nindex, vno)) else
             let* c := at_index label_data da_index in
             let* table_key := match c with CInt k => ret k | _ => Undefined end in
             let* table_index :=
               find_key (lt_key (labeltable image)) (nentries ctab) table_key in
             let* annot :=
               (if (table_index <? nentries ctab) && (0 <=? table_index) then
                  let* e := at_index (entries ctab) table_index in
                  match e with
                  | Some e => ret (CTABrgb2Annotation (ri e) (gi e) (bi e))
                  | None => Undefined
                  end
                else ret 0) in
             let* mris := set_vertex mris vno (vertex_set_annotation vx annot) in
             (* cross-check *)
             let* mct := match ct mris with Some c => ret c | None => Undefined end in
             let '(result, index) := CTABfindAnnotation mct annot in
             if negb (result =? NO_ERROR) || (index <? 0)
                || (lt_length (labeltable image) <? index)
             then fail (DiagRead "mrisReadGIFTIfile: label node data not found in colortable!") 0
             else
               match node_index st with
               | Some _ =>
                   if num_index_nodes st <=? nindex + 1
                   then ret (inr (mris, nindex + 1, vno))
                   else ret (inl (mris, nindex + 1, vno))
               | None => ret (inl (mris, nindex, vno + 1))
               end)
          (os_mris st, 0, 0) in
      ret (os_set_mris st mris)
  | _, _ => fail (DiagRead "mrisReadGIFTIfile: NULL colortable") 0
  end.

(** NIFTI_INTENT_VECTOR: the data goes in [dx], [dy], [dz]. *)
Definition read_vector (darr : giiDataArray) (st : overlay_state) : M overlay_state :=
  let* mris :=
    for_Z (nvertices (os_mris st))
      (fun vno mris =>
         let* vx := at_index (vertices mris) vno in
         if ripflag vx then ret mris else
         let* a := gifti_get_DA_value_2D (Some darr) vno 0 in
         let* b := gifti_get_DA_value_2D (Some darr) vno 1 in
         let* c := gifti_get_DA_value_2D (Some darr) vno 2 in
         set_vertex mris vno
           (vertex_set_dxyz vx (IEEE.float_of_double a) (IEEE.float_of_double b)
                            (IEEE.float_of_double c)))
      (os_mris st) in
  ret (os_set_mris st mris).

(** One colour component as a byte: the value itself when it is above
    1, the value times 256 otherwise, and 255 at most. *)
Definition rgb_byte (c : spec_float) : M Z :=
  let* i :=
    (if IEEE.SFgtb c (IEEE.float_of_Z 1) then to_int c
     else to_int (IEEE.SFfloor32 (IEEE.SFmul32 c (IEEE.float_of_Z 256)))) in
  ret (if 255 <? i then 255 else i).

(** NIFTI_INTENT_RGB_VECTOR and NIFTI_INTENT_RGBA_VECTOR: the data goes
    in [annotation]. *)
Definition read_rgb (darr : giiDataArray) (st : overlay_state) : M overlay_state :=
  let* mris :=
    for_Z (nvertices (os_mris st))
      (fun vno mris =>
         let* vx := at_index (vertices mris) vno in
         if ripflag vx then ret mris else
         let* red := gifti_get_DA_value_2D (Some darr) vno 0 in
         let red := IEEE.float_of_double red in
         let* green := gifti_get_DA_value_2D (Some darr) vno 0 in
         let green := IEEE.float_of_double green in
         let* blue := gifti_get_DA_value_2D (Some darr) vno 0 in
         let blue := IEEE.float_of_double blue in
         let* r := rgb_byte red in
         let* g := rgb_byte green in
         let* b := rgb_byte blue in
         set_vertex mris vno (vertex_set_annotation vx (MRISRGBToAnnot r g b)))
      (os_mris st) in
  ret (os_set_mris st mris).

(** Statistics and every other kind of data: [val] and [stat]. *)
Definition read_statval (darr : giiDataArray) (st : overlay_state) : M overlay_state :=
  if negb (found_statval_data st =? 0) then
    warn (DiagRead "WARNING: a prior data array of stat/val data has already been read!") ;;;
    ret st
  else
    let* _ := (if 1 <=? os_frame st
               then warn (DiagRead "WARNING: Skip saving data in MRI")
               else ret tt) in
    let fr := os_frame st in
    let* '(mris, outmri) :=
      match node_index st with
      | Some ni =>
          for_Z (num_index_nodes st)
            (fun nindex '(mris, outmri) =>
               let* d := gifti_get_DA_value_2D (Some ni) nindex 0 in
               let* vno := to_int d in
               let* vx := at_index (vertices mris) vno in
               if ripflag vx then ret (mris, outmri) else
               let* a := gifti_get_DA_value_2D (Some darr) nindex 0 in
               let* b := gifti_get_DA_value_2D (Some darr) nindex 0 in
               let b := IEEE.float_of_double b in
               let* mris := set_vertex mris vno
                              (vertex_set_val_stat vx (IEEE.float_of_double a) b) in
               ret (mris, vox outmri vno 0 0 fr b))
            (os_mris st, os_outmri st)
      | None =>
          for_Z (nvertices (os_mris st))
            (fun vno '(mris, outmri) =>
               let* vx := at_index (vertices mris) vno in
               if ripflag vx then ret (mris, outmri) else
               let* a := gifti_get_DA_value_2D (Some darr) vno 0 in
               let* b := gifti_get_DA_value_2D (Some darr) vno 0 in
               let b := IEEE.float_of_double b in
               let* mris := set_vertex mris vno
                              (vertex_set_val_stat vx (IEEE.float_of_double a) b) in
               ret (mris, vox outmri vno 0 fr 0 b))
            (os_mris st, os_outmri st)
      end in
    ret (mkOS mris outmri
              (match outmri with Some _ => os_frame st + 1 | None => os_frame st end)
              (found_curv_data st) (found_statval_data st + 1)
              (node_index st) (num_index_nodes st)).

(** One round of the second pass: the array number [numDA_]. *)
Definition read_darray (fuel : nat) (image : gifti_image) (ctab : option COLOR_TABLE)
    (numDA_ : Z) (st : overlay_state) : M overlay_state :=
  let* darr := at_index (darray image) numDA_ in
  (* did these already *)
  if (intent darr =? NIFTI_INTENT_POINTSET) || (intent darr =? NIFTI_INTENT_TRIANGLE)
  then ret st
  else if intent darr =? NIFTI_INTENT_NODE_INDEX then
    if negb (numDA_ =? 0)
    then fail (DiagRead "mrisReadGIFTIfile: NODE_INDEX data array found but its not the first data array") 0
    else
      let '(nodes, num_cols) := records_cols darr in
      if (nodes <=? 0) || (nvertices (os_mris st) <? nodes) || (1 <? num_cols)
      then fail (DiagRead "mrisReadGIFTIfile: malformed NODE_INDEX data array") 0
      else ret (mkOS (os_mris st) (os_outmri st) (os_frame st) (found_curv_data st)
                     (found_statval_data st) (Some darr) nodes)
  else
    (* Check the number of vertices, so we dont trounce the mris struct *)
    let '(num_vertices, num_cols) := records_cols darr in
    if (num_vertices <=? 0) || negb (num_vertices =? nvertices (os_mris st))
       || (expected_cols darr <? num_cols)
    then fail (DiagRead "mrisReadGIFTIfile: malformed data array") 0
    else
      if intent darr =? NIFTI_INTENT_SHAPE then read_shape numDA_ darr st
      else if intent darr =? NIFTI_INTENT_LABEL then read_label fuel image ctab darr st
      else if intent darr =? NIFTI_INTENT_VECTOR then read_vector darr st
      else if (intent darr =? NIFTI_INTENT_RGB_VECTOR)
              || (intent darr =? NIFTI_INTENT_RGBA_VECTOR) then read_rgb darr st
      else if intent darr =? NIFTI_INTENT_GENMATRIX then
        warn (DiagRead "WARNING: ignoring unsupported data array NIFTI_INTENT_GENMATRIX") ;;;
        ret st
      else read_statval darr st.

(** [mrisReadGIFTIdanum], from the image [gifti_read_image] returned and
    found valid.  The result is the surface, the overlay volume and the
    frame counter; a NULL result is [Fail]. *)
Definition mrisReadGIFTIdanum (fuel : nat) (image : gifti_image) (fname : string)
    (mris : option MRIS) (daNum : Z) (outmri : option MRI) (frame : Z)
  : M (MRIS * option MRI * Z) :=
  (* check for 'LabelTable' data and read into our colortable if exists *)
  let* '(ctab, image) := read_colortable image fname in
  (* parse the DataArrays looking for coordinate and face data arrays *)
  let* mris :=
    match find_geometry image with
    | (Some coords, Some faces_da) =>
        let* m := read_geometry fuel fname coords faces_da in ret (Some m)
    | _ => ret mris
    end in
  match mris with
  | None => fail (DiagRead "mriseadGIFTIfile: mris is NULL!") 0
  | Some mris =>
      (* and dont forget to store the colortable (if one was found) *)
      let* mris :=
        match ctab with
        | Some c =>
            let mris := mris_set_ct mris (Some c) in
            if negb (CTABgetNumberOfValidEntries c =? lt_length (labeltable image))
            then fail (DiagRead "mrisReadGIFTIfile: ct_entries != labeltable_entries") 0
            else ret mris
        | None => ret mris
        end in
      (* Now re-parse the DataArrays looking for all the other data *)
      let startDAnum := if negb (daNum =? -1) then daNum else 0 in
      let endDAnum := if negb (daNum =? -1) then daNum + 1 else numDA image in
      let* st :=
        for_Z (endDAnum - startDAnum)
          (fun i st => read_darray fuel image ctab (startDAnum + i) st)
          (mkOS mris outmri frame 0 0 None 0) in
      ret (os_mris st, os_outmri st, os_frame st)
  end.

End Reader.

(* ===================================================================== *)
(** ** A reference environment *)
(* ===================================================================== *)

(** A reading of [sscanf] with "%d": blanks, an optional sign, decimal
    digits; nothing is read when there is no digit. *)
Definition digit_of (c : Ascii.ascii) : option Z :=
  let k := Z.of_nat (Ascii.nat_of_ascii c) in
  if (48 <=? k) && (k <=? 57) then Some (k - 48) else None.

Fixpoint scan_digits (s : string) (acc : option Z) : option Z :=
  match s with
  | EmptyString => acc
  | String c s' =>
      match digit_of c with
      | Some d => scan_digits s' (Some (10 * default 0 acc + d))
      | None => acc
      end
  end.

Fixpoint scan_decimal (s : string) : option Z :=
  match s with
  | String " "%char s' => scan_decimal s'
  | String "-"%char s' => Z.opp <$> scan_digits s' None
  | String "+"%char s' => scan_digits s' None
  | _ => scan_digits s None
  end.

Definition identity4 : MATRIX :=
  let o := IEEE.float_of_Z 1 in
  let z := IEEE.zero in
  mkMatrix 4 4 [[o; z; z; z]; [z; o; z; z]; [z; z; o; z]; [z; z; z; o]].

(** An environment to run the code in: 1000 command lines at most, whole
    numbers read and printed for "%f", no stored transform, matrices
    that stay the identity. *)
Definition reference_collaborators : Collaborators := {|
  MAX_CMDS := 1000;
  sscanf_d := scan_decimal;
  sscanf_f := fun s => IEEE.float_of_Z <$> scan_decimal s;
  sprintf_f := fun x => default "nan" (pretty <$> IEEE.SFtrunc x);
  sprintf_20f := fun x => default "nan" (pretty <$> IEEE.SFtrunc x);
  FZERO := fun x => match x with S754_zero _ => true | _ => false end;
  randomNumber := fun _ => IEEE.zero;
  gifti_valid_LabelTable := fun _ => true;
  vg_i_to_r := fun _ => identity4;
  TkrVox2RASfromVolGeom := fun _ => identity4;
  MatrixInverse := fun m => m;
  MatrixMultiply := fun a _ => a;
  MatrixIdentity := fun _ => identity4;
  MRISreadTransform := fun _ _ => None;
  surface_center := fun _ => (IEEE.zero, IEEE.zero, IEEE.zero)
|}.

(** The surface of the scenario of the design document: four vertices,
    two faces around vertex 0. *)
Definition vertex_at (a b c : Z) : VERTEX :=
  mkVertex (IEEE.float_of_Z a) (IEEE.float_of_Z b) (IEEE.float_of_Z c)
           IEEE.zero false IEEE.zero IEEE.zero IEEE.zero 0 IEEE.zero IEEE.zero IEEE.zero.

Definition tetra_mris : MRIS :=
  mkMRIS 4 2
         [vertex_at 0 0 0; vertex_at 1 0 0; vertex_at 0 1 0; vertex_at 0 0 1]
         [mkVT [0; 1] [0; 0] 2; mkVT [0] [1] 1; mkVT [0; 1] [2; 1] 2; mkVT [1] [2] 1]
         [mkFace [0; 1; 2]; mkFace [0; 2; 3]]
         "lh.white" "" 0 0 0
         (mkVG 0 0 0 0 IEEE.zero IEEE.zero IEEE.zero IEEE.zero IEEE.zero IEEE.zero IEEE.zero
               IEEE.zero IEEE.zero IEEE.zero IEEE.zero IEEE.zero IEEE.zero IEEE.zero IEEE.zero)
         IEEE.zero IEEE.zero IEEE.zero IEEE.zero 0 [] None None.

(* ===================================================================== *)
(** ** Statements of the design document, in its own words *)
(* ===================================================================== *)

(** "row-major -> physical offset = row*dims1 + col; column-major ->
    physical offset = row + col*dims0". *)
Definition spec_offset (ord row col dims0 dims1 : Z) : Z :=
  if ord =? GIFTI_IND_ORD_ROW_MAJOR then row * dims1 + col else row + col * dims0.

(** The nine element kinds of the design document and the C type each
    is read and written through. *)
Definition spec_kind (dt : Z) : option ctype :=
  if dt =? NIFTI_TYPE_INT8 then Some Tchar
  else if dt =? NIFTI_TYPE_UINT8 then Some Tuchar
  else if dt =? NIFTI_TYPE_INT16 then Some Tshort
  else if dt =? NIFTI_TYPE_UINT16 then Some Tushort
  else if dt =? NIFTI_TYPE_INT32 then Some Tint
  else if dt =? NIFTI_TYPE_UINT32 then Some Tuint
  else if dt =? NIFTI_TYPE_FLOAT32 then Some Tfloat
  else if dt =? NIFTI_TYPE_FLOAT64 then Some Tdouble
  else if dt =? NIFTI_TYPE_COMPLEX64 then Some Tdouble
  else None.

(** The seven element kinds the [switch] of [gifti_set_DA_value_2D] has. *)
Definition written_kind (dt : Z) : option ctype :=
  if dt =? NIFTI_TYPE_UINT8 then Some Tuchar
  else if dt =? NIFTI_TYPE_INT16 then Some Tshort
  else if dt =? NIFTI_TYPE_INT32 then Some Tint
  else if dt =? NIFTI_TYPE_FLOAT32 then Some Tfloat
  else if dt =? NIFTI_TYPE_INT8 then Some Tchar
  else if dt =? NIFTI_TYPE_UINT16 then Some Tushort
  else if dt =? NIFTI_TYPE_UINT32 then Some Tuint
  else None.


(** A zeroed two-dimensional array of 2 rows and 3 columns. *)
Definition array_2x3 (dt ord : Z) : giiDataArray :=
  mkDA NIFTI_INTENT_NONE dt ord 2 [2; 3; 0; 0; 0; 0] 6 (Some (calloc_data dt 6)) ∅ [].

(** A zeroed one-dimensional array of n elements. *)
Definition array_1d (it dt : Z) (cells : list cell) : giiDataArray :=
  mkDA it dt GIFTI_IND_ORD_ROW_MAJOR 1 [Z.of_nat (length cells); 0; 0; 0; 0; 0]
       (Z.of_nat (length cells)) (Some cells) ∅ [].

(** The reference environment with another bound on the command lines. *)
Definition collaborators_with_cap (cap : Z) : Collaborators := {|
  MAX_CMDS := cap;
  sscanf_d := scan_decimal;
  sscanf_f := fun s => IEEE.float_of_Z <$> scan_decimal s;
  sprintf_f := fun x => default "nan" (pretty <$> IEEE.SFtrunc x);
  sprintf_20f := fun x => default "nan" (pretty <$> IEEE.SFtrunc x);
  FZERO := fun x => match x with S754_zero _ => true | _ => false end;
  randomNumber := fun _ => IEEE.zero;
  gifti_valid_LabelTable := fun _ => true;
  vg_i_to_r := fun _ => identity4;
  TkrVox2RASfromVolGeom := fun _ => identity4;
  MatrixInverse := fun m => m;
  MatrixMultiply := fun a _ => a;
  MatrixIdentity := fun _ => identity4;
  MRISreadTransform := fun _ _ => None;
  surface_center := fun _ => (IEEE.zero, IEEE.zero, IEEE.zero)
|}.

(** The colour of the design document for a vertex: the three distinct
    components of its row, each as a byte. *)
Definition spec_rgb_annotation (red green blue : spec_float) : M Z :=
  let* r := rgb_byte red in
  let* g := rgb_byte green in
  let* b := rgb_byte blue in
  ret (MRISRGBToAnnot r g b).

(** A surface of nv vertices and no face, as [MRISalloc] leaves it. *)
Definition bare_mris (nv : Z) : MRIS := @MRISalloc (collaborators_with_cap 4) nv 0.

(** One RGB row (0.5, 0.25, 0.75) for a surface of one vertex. *)
Definition rgb_darray : giiDataArray :=
  mkDA NIFTI_INTENT_RGB_VECTOR NIFTI_TYPE_FLOAT32 GIFTI_IND_ORD_ROW_MAJOR 2
       [1; 3; 0; 0; 0; 0] 3
       (Some [CF32 (IEEE.float_of_dyadic 1 (-1)); CF32 (IEEE.float_of_dyadic 1 (-2));
              CF32 (IEEE.float_of_dyadic 3 (-2))]) ∅ [].

Definition rgb_image : gifti_image := mkImage [rgb_darray] empty_labeltable ∅.

(** A sparse node index listing vertices 0 and 2 of three, with a SHAPE
    array of as many elements as the index, and with one of as many
    elements as the surface has vertices. *)
Definition sparse_index : giiDataArray :=
  array_1d NIFTI_INTENT_NODE_INDEX NIFTI_TYPE_INT32 [CInt 0; CInt 2].

Definition sparse_shape_k : giiDataArray :=
  array_1d NIFTI_INTENT_SHAPE NIFTI_TYPE_FLOAT32
           [CF32 (IEEE.float_of_Z 5); CF32 (IEEE.float_of_Z 7)].

Definition sparse_shape_n : giiDataArray :=
  array_1d NIFTI_INTENT_SHAPE NIFTI_TYPE_FLOAT32
           [CF32 (IEEE.float_of_Z 5); CF32 (IEEE.float_of_Z 7); CF32 (IEEE.float_of_Z 9)].

Definition sparse_image_k : gifti_image :=
  mkImage [sparse_index; sparse_shape_k] empty_labeltable ∅.

Definition sparse_image_n : gifti_image :=
  mkImage [sparse_index; sparse_shape_n] empty_labeltable ∅.

(** The scenario surface with four recorded command lines. *)
Definition tetra_with_cmds : MRIS :=
  mris_set_cmdlines (mris_set_ncmds tetra_mris 4)
                    [Some "cmd0"; Some "cmd1"; Some "cmd2"; Some "cmd3"].

(** A surface of one vertex that carries the rip flag, with a colour
    table of one entry, and a container with a LABEL array for it. *)
Definition unknown_entry : COLOR_TABLE_ENTRY :=
  mkCTE "unknown" 0 0 0 0 IEEE.zero IEEE.zero IEEE.zero IEEE.zero.

Definition ripped_mris : MRIS :=
  mris_set_ct
    (mris_set_vertices (bare_mris 1)
       [mkVertex IEEE.zero IEEE.zero IEEE.zero IEEE.zero true IEEE.zero IEEE.zero IEEE.zero 0
                 IEEE.zero IEEE.zero IEEE.zero])
    (Some (mkCT [Some unknown_entry; None] 1 "" 2)).

Definition label_image : gifti_image :=
  mkImage [array_1d NIFTI_INTENT_LABEL NIFTI_TYPE_INT32 [CInt 0]]
          (mkLT 1 [0] ["unknown"] (Some [IEEE.zero; IEEE.zero; IEEE.zero; IEEE.zero])) ∅.

(** The container the surface writer makes of the scenario surface with
    its four command lines. *)
Definition cmds_image : gifti_image :=
  match @MRISwriteGIFTISurface reference_collaborators tetra_with_cmds empty_image
          "lh.white.gii" with
  | Ret _ image => image
  | _ => empty_image
  end.

(** The 18 named fields of the volume geometry: three read with "%d",
    fifteen with "%f". *)
Definition volgeom_keys_d : list string :=
  ["VolGeomWidth"; "VolGeomHeight"; "VolGeomDepth"].

Definition volgeom_keys_f : list string :=
  ["VolGeomXsize"; "VolGeomYsize"; "VolGeomZsize";
   "VolGeomX_R"; "VolGeomX_A"; "VolGeomX_S";
   "VolGeomY_R"; "VolGeomY_A"; "VolGeomY_S";
   "VolGeomZ_R"; "VolGeomZ_A"; "VolGeomZ_S";
   "VolGeomC_R"; "VolGeomC_A"; "VolGeomC_S"].

(** "all 18 must be present and parse as numbers". *)
Definition volgeom_complete `{Collaborators} (md : gmap string string) : Prop :=
  (forall key, key ∈ volgeom_keys_d ->
     exists stmp i, md !! key = Some stmp /\ sscanf_d stmp = Some i)
  /\ (forall key, key ∈ volgeom_keys_f ->
        exists stmp a, md !! key = Some stmp /\ sscanf_f stmp = Some a).

(** How many of the values scanned were found. *)
Definition hits {A} (l : list (option A)) : Z :=
  fold_right (fun o acc => (if o is Some _ then 1 else 0) + acc) 0 l.

(** The quadruple of colours of label i. *)
Definition rgba_at (lt : giiLabelTable) (i : nat) : list spec_float :=
  take 4 (drop (4 * i) (default [] (lt_rgba lt))).

(** The scenario surface with a valid volume geometry. *)
Definition tetra_with_vg : MRIS :=
  mris_set_vg tetra_mris
    (mkVG 1 256 256 256 (IEEE.float_of_Z 1) (IEEE.float_of_Z 1) (IEEE.float_of_Z 1)
          (IEEE.float_of_Z (-1)) IEEE.zero IEEE.zero
          IEEE.zero IEEE.zero (IEEE.float_of_Z (-1))
          IEEE.zero (IEEE.float_of_Z 1) IEEE.zero
          IEEE.zero IEEE.zero IEEE.zero).

Definition vg_image : gifti_image :=
  match @MRISwriteGIFTISurface reference_collaborators tetra_with_vg empty_image
          "lh.white.gii" with
  | Ret _ image => image
  | _ => empty_image
  end.

(** A colour table with an unnamed entry, an unknown one and a named one. *)
Definition three_entries : list COLOR_TABLE_ENTRY :=
  [mkCTE "" 10 20 30 0 (IEEE.float_of_dyadic 1 (-1)) IEEE.zero IEEE.zero IEEE.zero;
   mkCTE "Unknown" 1 2 3 0 (IEEE.float_of_dyadic 1 (-2)) IEEE.zero IEEE.zero IEEE.zero;
   mkCTE "V1" 255 0 0 255 (IEEE.float_of_dyadic 3 (-2)) IEEE.zero (IEEE.float_of_dyadic 1 (-1))
         IEEE.zero].

Definition three_table : COLOR_TABLE :=
  mkCT ((Some <$> three_entries) ++ [None]) 3 "" 2.

(** What the design document says of entry i of the label table made
    from the colour table entry e, with the diagnostics written. *)
Definition label_facts (i : nat) (e : COLOR_TABLE_ENTRY) (lt : giiLabelTable)
    (log : list diag) : Prop :=
  lt_key lt !! i = Some (Z.of_nat i)
  /\ (name e <> "" -> lt_label lt !! i = Some (name e))
  /\ (name e = "" ->
      lt_label lt !! i = Some ("unknown_" +:+ pretty (Z.of_nat i))
      /\ DiagLabelName (Z.of_nat i) ("unknown_" +:+ pretty (Z.of_nat i)) ∈ log)
  /\ (name e = "" \/ name e = "unknown" \/ name e = "Unknown" ->
      rgba_at lt i = [IEEE.zero; IEEE.zero; IEEE.zero; IEEE.zero])
  /\ (name e <> "" -> name e <> "unknown" -> name e <> "Unknown" ->
      rgba_at lt i = [rf e; gf e; bf e; one32]).

(** *** Valid surfaces and their topology *)

(** The pairs (face, slot) a vertex record holds: entry j of [f] with
    entry j of [n], for j below [num]. *)
Definition incidence (vt : VERTEX_TOPOLOGY) : gset (Z * Z) :=
  list_to_set (zip (take (Z.to_nat (num vt)) (f vt)) (take (Z.to_nat (num vt)) (n vt))).

(** Every corner of every face: the vertex with its (face, slot). *)
Definition corner_pairs (fs : list FACE) : list (Z * (Z * Z)) :=
  concat (imap (fun i fc => imap (fun k a => (a, (Z.of_nat i, Z.of_nat k))) (v fc)) fs).

(** The pairs (face, slot) at which the faces refer to the vertex vno. *)
Definition corners_of (fs : list FACE) (vno : Z) : gset (Z * Z) :=
  list_to_set (snd <$> filter (fun p => p.1 = vno) (corner_pairs fs)).

(** "a vertex's adjacency list exactly equals the set of faces referencing
    it, with matching local-slot records". *)
Definition topology_okb (m : MRIS) : bool :=
  bool_decide (length (vertices_topology m) = Z.to_nat (nvertices m))
  && forallb (fun i =>
                match vertices_topology m !! i with
                | Some vt => bool_decide (incidence vt = corners_of (faces m) (Z.of_nat i))
                | None => false
                end)
             (seq 0 (Z.to_nat (nvertices m))).

(** A vertex that is not excluded, at a position of three floats. *)
Definition vertex_okb (vx : VERTEX) : bool :=
  negb (ripflag vx) && IEEE.is_float (x vx) && IEEE.is_float (y vx) && IEEE.is_float (z vx).

(** A face of three different vertices of the surface. *)
Definition face_okb (nv : Z) (fc : FACE) : bool :=
  match v fc with
  | [a; b; c] =>
      (0 <=? a) && (a <? nv) && (0 <=? b) && (b <? nv) && (0 <=? c) && (c <? nv)
      && negb (a =? b) && negb (b =? c) && negb (a =? c)
  | _ => false
  end.

(** The recorded command lines fit the array of the surface and are there. *)
Definition cmdlines_okb `{Collaborators} (m : MRIS) : bool :=
  (0 <=? MAX_CMDS) && (ncmds m <=? MAX_CMDS)
  && forallb (fun i => match cmdlines m !! i with Some (Some _) => true | _ => false end)
             (seq 0 (Z.to_nat (ncmds m))).

(** Every recorded command line has the TAG_CMDLINE_LEN - 1 characters
    the writer keeps of it at most: the value stored for it then has the
    TAG_CMDLINE_LEN bytes the reader copies. *)
Definition cmdlines_fullb (m : MRIS) : bool :=
  forallb (fun i => match cmdlines m !! i with
                    | Some (Some s) => (TAG_CMDLINE_LEN - 1 <=? String.length s)%nat
                    | _ => true
                    end)
          (seq 0 (Z.to_nat (ncmds m))).

(** Metadata in which every value stored under a command-line key has
    the TAG_CMDLINE_LEN bytes (terminator included) the reader copies. *)
Definition values_full (md : gmap string string) : Prop :=
  forall j v, md !! cmdline_tag j = Some v -> (TAG_CMDLINE_LEN <= String.length v + 1)%nat.

(** A surface "with valid geometry and no excluded vertices": at least
    one vertex and one face, counts that agree with the arrays, element
    offsets (three per vertex and per face) that fit an [int], vertices
    and faces as above, the topology invariant. *)
Definition mesh_validb `{Collaborators} (m : MRIS) : bool :=
  (0 <? nvertices m) && (nvertices m * 3 <=? 2147483647)
  && (0 <? nfaces m) && (nfaces m * 3 <=? 2147483647)
  && bool_decide (length (vertices m) = Z.to_nat (nvertices m))
  && bool_decide (length (faces m) = Z.to_nat (nfaces m))
  && forallb vertex_okb (vertices m)
  && forallb (face_okb (nvertices m)) (faces m)
  && topology_okb m
  && cmdlines_okb m.

(** *** The round trip of a surface *)

(** One row of three elements stored in a buffer. *)
Definition put_row (buf : list cell) (r : Z) (c0 c1 c2 : cell) : list cell :=
  <[Z.to_nat (r * 3 + 2) := c2]> (<[Z.to_nat (r * 3 + 1) := c1]> (<[Z.to_nat (r * 3 + 0) := c0]> buf)).

(** What [mesh_validb] says, as facts. *)
Record valid_facts `{Collaborators} (m : MRIS) : Prop := {
  vf_nv : 0 < nvertices m /\ nvertices m * 3 <= 2147483647;
  vf_nf : 0 < nfaces m /\ nfaces m * 3 <= 2147483647;
  vf_vlen : length (vertices m) = Z.to_nat (nvertices m);
  vf_flen : length (faces m) = Z.to_nat (nfaces m);
  vf_vertex : forall i vx, vertices m !! i = Some vx -> vertex_okb vx = true;
  vf_face : forall i fc, faces m !! i = Some fc -> face_okb (nvertices m) fc = true;
  vf_topo : topology_okb m = true;
  vf_cmds : cmdlines_okb m = true
}.

(** An array of the surface writer: rows of three elements. *)
Record surface_array (da : giiDataArray) (it dt nrows : Z) (buf : list cell) : Prop := {
  sa_intent : intent da = it;
  sa_datatype : datatype da = dt;
  sa_ind_ord : ind_ord da = GIFTI_IND_ORD_ROW_MAJOR;
  sa_num_dim : num_dim da = 2;
  sa_dim0 : dim da 0 = nrows;
  sa_dim1 : dim da 1 = 3;
  sa_nvals : nvals da = nrows * 3;
  sa_data : data da = Some buf;
  sa_length : length buf = Z.to_nat (nrows * 3);
  sa_fits : nrows * 3 <= 2147483647          (* the offsets are [int]s *)
}.

(** The corners of the faces that refer to one vertex, in the order the
    loops of the reader meet them; their faces, their slots, their number. *)
Definition at_vertex (vno : Z) (Q : list (Z * (Z * Z))) : list (Z * (Z * Z)) :=
  filter (fun p => p.1 = vno) Q.
Definition flist (vno : Z) (Q : list (Z * (Z * Z))) : list Z :=
  (fun p => p.2.1) <$> at_vertex vno Q.
Definition slist (vno : Z) (Q : list (Z * (Z * Z))) : list Z :=
  (fun p => p.2.2) <$> at_vertex vno Q.
Definition deg (vno : Z) (Q : list (Z * (Z * Z))) : Z :=
  Z.of_nat (length (at_vertex vno Q)).

(** The topology record and the face [MRISalloc] starts with. *)
Definition vt0 : VERTEX_TOPOLOGY := mkVT [] [] 0.
Definition zero_face : FACE := mkFace [0; 0; 0].

(** The topology records of the vertices 0 .. nv-1, given by a function. *)
Definition topo_of (nv : Z) (g : Z -> VERTEX_TOPOLOGY) : list VERTEX_TOPOLOGY :=
  (fun i => g (Z.of_nat i)) <$> seq 0 (Z.to_nat nv).

(** The corners the loops over the faces have met after t steps. *)
Definition processed (fs0 : list FACE) (t : Z) : list (Z * (Z * Z)) :=
  take (Z.to_nat t) (corner_pairs fs0).

(** The stages of the topology of one vertex: the faces counted, the
    arrays allocated, the face numbers filled in, the slots filled in. *)
Definition counted (fs0 : list FACE) (t : Z) (u : Z) : VERTEX_TOPOLOGY :=
  mkVT [] [] (deg u (processed fs0 t)).

Definition zeros (fs0 : list FACE) (u : Z) : list Z :=
  replicate (Z.to_nat (deg u (corner_pairs fs0))) 0.

Definition filled (fs0 : list FACE) (t : Z) (u : Z) : VERTEX_TOPOLOGY :=
  mkVT (flist u (processed fs0 t)
        ++ replicate (Z.to_nat (deg u (corner_pairs fs0) - deg u (processed fs0 t))) 0)
       (zeros fs0 u) (deg u (processed fs0 t)).

Definition slotted (fs0 : list FACE) (v0 : Z) (u : Z) : VERTEX_TOPOLOGY :=
  mkVT (flist u (corner_pairs fs0))
       (if u <? v0 then slist u (corner_pairs fs0) else zeros fs0 u)
       (deg u (corner_pairs fs0)).

Definition slot_row (fs0 : list FACE) (v0 j m : Z) : list Z :=
  take (Z.to_nat j) (slist v0 (corner_pairs fs0))
  ++ (let sj := default 0 (slist v0 (corner_pairs fs0) !! Z.to_nat j) in
      if sj <? m then sj else 0)
     :: replicate (Z.to_nat (deg v0 (corner_pairs fs0) - j - 1)) 0.

Definition slotting (fs0 : list FACE) (v0 : Z) (row : list Z) (u : Z)
  : VERTEX_TOPOLOGY :=
  if u =? v0 then mkVT (flist v0 (corner_pairs fs0)) row (deg v0 (corner_pairs fs0))
  else slotted fs0 v0 u.

(** The topology record the reader ends with. *)
Definition rebuilt (fs0 : list FACE) (u : Z) : VERTEX_TOPOLOGY :=
  mkVT (flist u (corner_pairs fs0)) (slist u (corner_pairs fs0))
       (deg u (corner_pairs fs0)).

(** Every transform of the list is a 4x4 matrix the reader can copy. *)
Definition xforms_ok (cs : list giiCoordSystem) : Prop :=
  forall c, c ∈ cs -> exists mm, matrix_of_xform (xform c) = Ret [] mm.

(** The surface read back: the counts, the positions, the faces and the
    topology of the surface written. *)
Record read_back (N F : Z) (vs0 : list VERTEX) (fs0 : list FACE) (m : MRIS) : Prop := {
  rb_nvertices : nvertices m = N;
  rb_nfaces : nfaces m = F;
  rb_length : length (vertices m) = Z.to_nat N;
  rb_positions : forall i vx, vs0 !! i = Some vx ->
                   exists vx', vertices m !! i = Some vx'
                     /\ x vx' = x vx /\ y vx' = y vx /\ z vx' = z vx;
  rb_faces : faces m = fs0;
  rb_topology : vertices_topology m = topo_of N (rebuilt fs0)
}.

(* ===================================================================== *)
(** ** The other writers and readers of gifti.cpp *)
(* ===================================================================== *)

(** The statistics codes of nifti1.h, in the order of the test of
    [MRISwriteGIFTIIntent]. *)
Definition NIFTI_INTENT_CORREL : Z := 2.
Definition NIFTI_INTENT_TTEST : Z := 3.
Definition NIFTI_INTENT_FTEST : Z := 4.
Definition NIFTI_INTENT_ZSCORE : Z := 5.
Definition NIFTI_INTENT_CHISQ : Z := 6.
Definition NIFTI_INTENT_BETA : Z := 7.
Definition NIFTI_INTENT_BINOM : Z := 8.
Definition NIFTI_INTENT_GAMMA : Z := 9.
Definition NIFTI_INTENT_POISSON : Z := 10.
Definition NIFTI_INTENT_NORMAL : Z := 11.
Definition NIFTI_INTENT_FTEST_NONC : Z := 12.
Definition NIFTI_INTENT_CHISQ_NONC : Z := 13.
Definition NIFTI_INTENT_LOGISTIC : Z := 14.
Definition NIFTI_INTENT_LAPLACE : Z := 15.
Definition NIFTI_INTENT_UNIFORM : Z := 16.
Definition NIFTI_INTENT_TTEST_NONC : Z := 17.
Definition NIFTI_INTENT_WEIBULL : Z := 18.
Definition NIFTI_INTENT_CHI : Z := 19.
Definition NIFTI_INTENT_INVGAUSS : Z := 20.
Definition NIFTI_INTENT_EXTVAL : Z := 21.
Definition NIFTI_INTENT_PVAL : Z := 22.
Definition NIFTI_INTENT_LOGPVAL : Z := 23.
Definition NIFTI_INTENT_LOG10PVAL : Z := 24.
Definition NIFTI_INTENT_ESTIMATE : Z := 1001.

(** The test [intent_code == NIFTI_INTENT_CORREL || ... ||
    intent_code == NIFTI_INTENT_ESTIMATE] of the two dispatchers. *)
Definition stats_intent (intent_code : Z) : bool :=
  (intent_code =? NIFTI_INTENT_CORREL) || (intent_code =? NIFTI_INTENT_TTEST)
  || (intent_code =? NIFTI_INTENT_FTEST) || (intent_code =? NIFTI_INTENT_ZSCORE)
  || (intent_code =? NIFTI_INTENT_CHISQ) || (intent_code =? NIFTI_INTENT_BETA)
  || (intent_code =? NIFTI_INTENT_BINOM) || (intent_code =? NIFTI_INTENT_GAMMA)
  || (intent_code =? NIFTI_INTENT_POISSON) || (intent_code =? NIFTI_INTENT_NORMAL)
  || (intent_code =? NIFTI_INTENT_FTEST_NONC) || (intent_code =? NIFTI_INTENT_CHISQ_NONC)
  || (intent_code =? NIFTI_INTENT_LOGISTIC) || (intent_code =? NIFTI_INTENT_LAPLACE)
  || (intent_code =? NIFTI_INTENT_UNIFORM) || (intent_code =? NIFTI_INTENT_TTEST_NONC)
  || (intent_code =? NIFTI_INTENT_WEIBULL) || (intent_code =? NIFTI_INTENT_CHI)
  || (intent_code =? NIFTI_INTENT_INVGAUSS) || (intent_code =? NIFTI_INTENT_EXTVAL)
  || (intent_code =? NIFTI_INTENT_PVAL) || (intent_code =? NIFTI_INTENT_LOGPVAL)
  || (intent_code =? NIFTI_INTENT_LOG10PVAL) || (intent_code =? NIFTI_INTENT_ESTIMATE).

(** Modelled from the spec: the multi-frame volume collaborator (mri.h
    is not among the sources), "getVoxel(volume, x,y,z,frame),
    setVoxel(...), frame count / frame selection accessors": the extents,
    the number of frames, the repetition time and the voxels set, a
    voxel that was never set being zero. *)
Record MRI_VOLUME : Type := mkVol {
  vol_width : Z;
  vol_height : Z;
  vol_depth : Z;
  vol_nframes : Z;
  vol_tr : spec_float;
  vol_vox : MRI
}.

(** Modelled from the spec: [MRIgetVoxVal(mri, c, r, s, f)] of the
    volume collaborator, "getVoxel(volume, x,y,z,frame)"; outside the
    volume the C code reads past its arrays. *)
Definition MRIgetVoxVal (mri : MRI_VOLUME) (c r s f : Z) : M spec_float :=
  if (0 <=? c) && (c <? vol_width mri) && (0 <=? r) && (r <? vol_height mri)
     && (0 <=? s) && (s <? vol_depth mri) && (0 <=? f) && (f <? vol_nframes mri)
  then ret (default IEEE.zero (vol_vox mri !! (c, r, s, f)))
  else Undefined.

(** What gifti.cpp asks of the system, of the container library and of
    the surface library besides the [Collaborators]. *)
Class Services : Type := {
  (** [gifti_intent_to_string] of the container library *)
  gifti_intent_to_string : Z -> string;
  (** the surface after [MRISreadCurvatureFile(mris, fname)] loaded its
      [curv] values, [None] when the call returns an error *)
  MRISreadCurvatureFile : MRIS -> option string -> option MRIS;
  (** [getpwuid(geteuid())->pw_name], [None] when there is none *)
  pw_name : option string;
  currentDateTime : string;
  (** [gifti_valid_gifti_image(image, 1) != 0] *)
  gifti_valid_gifti_image : gifti_image -> bool;
  (** [gifti_write_image(image, fname, 1) == 0]: the file was written *)
  gifti_write_image : gifti_image -> string -> bool;
  (** [gifti_read_image(fname, 1)], [None] for NULL *)
  gifti_read_image : string -> option gifti_image;
  (** [gifti_find_DA(image, intent, index)], [None] for NULL *)
  gifti_find_DA : gifti_image -> Z -> Z -> option giiDataArray
}.

Section MoreWriters.
Context `{Collaborators} `{Services}.

(** [insertCommonMetaData]: the user name, if there is one, and the date. *)
Definition insertCommonMetaData (md : gmap string string) : gmap string string :=
  let md :=
    match pw_name with
    | Some name => gifti_add_to_meta md "UserName" name
    | None => md
    end in
  gifti_add_to_meta md "Date" currentDateTime.

(** The loop "Copy in all our data" of the shape and statistics
    writers: one [float] field of every vertex that is not ripped. *)
Definition copy_vertex_data (mris : MRIS) (field : VERTEX -> spec_float)
    (da : giiDataArray) : M giiDataArray :=
  for_Z (nvertices mris)
    (fun vno da =>
       let* vx := at_index (vertices mris) vno in
       if ripflag vx then ret da
       else gifti_set_DA_value_2D (Some da) vno 0 (IEEE.double_of_float (field vx)))
    da.

(** The attributes every one-dimensional [float] overlay array is given,
    with its zeroed data. *)
Definition overlay_darray (intent_code : Z) (dims_0 : Z) (md : gmap string string)
  : giiDataArray :=
  let dims_s := [dims_0; 0; 0; 0; 0; 0] in
  let nvals_s := gifti_darray_nvals 1 dims_s in
  mkDA intent_code NIFTI_TYPE_FLOAT32 GIFTI_IND_ORD_ROW_MAJOR 1 dims_s nvals_s
       (Some (calloc_data NIFTI_TYPE_FLOAT32 nvals_s)) md [].

(** [MRISwriteGIFTIShape(mris, image, intent_code, curv_fname)] *)
Definition MRISwriteGIFTIShape (mris : MRIS) (image : gifti_image) (intent_code : Z)
    (curv_fname : option string) : M gifti_image :=
  match MRISreadCurvatureFile mris curv_fname with
  | None => fail (DiagWrite "MRISwriteGIFTIShape: couldn't read") ERROR_BADFILE
  | Some mris =>
      match curv_fname with
      | None => Undefined           (* [strstr(NULL, ...)] *)
      | Some curv_fname =>
          (* include some metadata describing this shape *)
          let md := gifti_add_to_meta ∅ "Name" curv_fname in
          let meta_ :=
            pick curv_fname
              [(".thickness", "Thickness"); (".curv", "CurvatureRadial");
               (".sulc", "SulcalDepth"); (".area", "Area"); (".volume", "Volume");
               (".jacobian", "Jacobian")] in
          let md := add_opt md "ShapeDataType" meta_ in
          let shape := overlay_darray NIFTI_INTENT_SHAPE (nvertices mris) md in
          (* Copy in all our data. *)
          let* shape := copy_vertex_data mris curv shape in
          ret (add_darrays image [shape])
      end
  end.

(** [MRISwriteGIFTIStats(mris, image, intent_code)] *)
Definition MRISwriteGIFTIStats (mris : MRIS) (image : gifti_image) (intent_code : Z)
  : M gifti_image :=
  (* include some metadata describing this thing *)
  let md := gifti_add_to_meta ∅ "Intent_code" (gifti_intent_to_string intent_code) in
  let md :=
    if intent_code =? NIFTI_INTENT_UNIFORM
    then gifti_add_to_meta (gifti_add_to_meta md "Intent_p1" "0") "Intent_p2" "1"
    else md in
  let stats := overlay_darray intent_code (nvertices mris) md in
  (* Copy in all our data. *)
  let* stats := copy_vertex_data mris stat stats in
  ret (add_darrays image [stats]).

(** [MRISwriteGIFTIIntent(mris, intent_code, image, out_fname,
    curv_fname)], "write single intent". *)
Definition MRISwriteGIFTIIntent (mris : MRIS) (intent_code : Z) (image : gifti_image)
    (out_fname : string) (curv_fname : option string) : M gifti_image :=
  let* image :=
    (if (intent_code =? NIFTI_INTENT_POINTSET) || (intent_code =? NIFTI_INTENT_TRIANGLE)
     then MRISwriteGIFTISurface mris image out_fname
     else ret image) in
  let* image :=
    (if intent_code =? NIFTI_INTENT_SHAPE
     then MRISwriteGIFTIShape mris image intent_code curv_fname
     else ret image) in
  let* image :=
    (if intent_code =? NIFTI_INTENT_LABEL
     then MRISwriteGIFTILabel mris image intent_code
     else ret image) in
  if stats_intent intent_code
  then MRISwriteGIFTIStats mris image intent_code
  else ret image.

(** The end of the three functions that write a file: the image is
    checked and written.  The result is the image in the file. *)
Definition check_and_write (who : string) (image : gifti_image) (out_fname : string)
  : M gifti_image :=
  (* check for compliance *)
  if negb (gifti_valid_gifti_image image)
  then fail (DiagWrite (who +:+ ": GIFTI file is invalid!")) ERROR_BADFILE
  else
    (* Write the file. *)
    if negb (gifti_write_image image out_fname)
    then fail (DiagWrite (who +:+ ": couldn't write image")) ERROR_BADFILE
    else ret image.

(** The image the three functions start from: [calloc] and the common
    metadata. *)
Definition new_image : gifti_image :=
  mkImage [] empty_labeltable (insertCommonMetaData ∅).

Definition set_gim_meta (image : gifti_image) (md : gmap string string) : gifti_image :=
  mkImage (darray image) (labeltable image) md.

(** [MRISwriteGIFTI(mris, intent_code, out_fname, curv_fname)]; a NULL
    pointer is [None]. *)
Definition MRISwriteGIFTI (mris : option MRIS) (intent_code : Z)
    (out_fname curv_fname : option string) : M gifti_image :=
  match mris, out_fname with
  | Some mris, Some out_fname =>
      if (intent_code =? NIFTI_INTENT_SHAPE)
         && match curv_fname with None => true | Some _ => false end
      then fail (DiagWrite "MRISwriteGIFTI: invalid parameter: curv_fname is NULL")
                ERROR_BADPARM
      else
        let image := new_image in
        let image :=
          if negb (String.length (subject_name mris) =? 0)%nat
          then set_gim_meta image
                 (gifti_add_to_meta (gim_meta image) "SubjectID" (subject_name mris))
          else image in
        let* image := MRISwriteGIFTIIntent mris intent_code image out_fname curv_fname in
        check_and_write "MRISwriteGIFTI" image out_fname
  | _, _ => fail (DiagWrite "MRISwriteGIFTI: invalid parameter") ERROR_BADPARM
  end.

(** The array [mriWriteGifti] makes of one frame of the volume. *)
Definition write_frame (mri : MRI_VOLUME) (frame : Z) : M giiDataArray :=
  let intent_ :=
    if 1 <? vol_nframes mri then NIFTI_INTENT_TIME_SERIES else NIFTI_INTENT_NONE in
  let md :=
    if intent_ =? NIFTI_INTENT_TIME_SERIES
    then gifti_add_to_meta ∅ "TimeStep" (sprintf_f (vol_tr mri))
    else ∅ in
  let scalars := overlay_darray intent_ (vol_width mri) md in
  (* Copy in all our data. *)
  for_Z (vol_width mri)
    (fun scalar_index da =>
       let* val_ := MRIgetVoxVal mri scalar_index 0 0 frame in
       gifti_set_DA_value_2D (Some da) scalar_index 0 (IEEE.double_of_float val_))
    scalars.

(** "One DataArray for each 'frame' in the 'volume' data" *)
Definition write_frames (mri : MRI_VOLUME) : M gifti_image :=
  for_Z (vol_nframes mri)
    (fun frame image =>
       let* scalars := write_frame mri frame in
       ret (add_darrays image [scalars]))
    new_image.

(** [mriWriteGifti(mri, out_fname)]; a NULL pointer is [None]. *)
Definition mriWriteGifti (mri : option MRI_VOLUME) (out_fname : option string)
  : M gifti_image :=
  match mri, out_fname with
  | Some mri, Some out_fname =>
      let* image := write_frames mri in
      check_and_write "mriWriteGifti" image out_fname
  | _, _ => fail (DiagWrite "mriWriteGifti: invalid input parameters") ERROR_BADPARM
  end.

End MoreWriters.

Section MoreReaders.
Context `{Collaborators} `{Services}.

(** The start of [mrisReadGIFTIdanum] and of [MRISreadGiftiAsMRI]: the
    file is read and the image is checked for compliance. *)
Definition read_and_check (who : string) (fname : string) : M gifti_image :=
  match gifti_read_image fname with
  | None => fail (DiagRead (who +:+ ": gifti_read_image() returned NULL")) 0
  | Some image =>
      if negb (gifti_valid_gifti_image image)
      then fail (DiagRead (who +:+ ": GIFTI file is invalid!")) 0
      else ret image
  end.

(** [mrisReadGIFTIdanum(fname, mris, daNum, outmri, frame)] from the
    name of the file. *)
Definition mrisReadGIFTIdanum_fname (fuel : nat) (fname : string) (mris : option MRIS)
    (daNum : Z) (outmri : option MRI) (frame : Z) : M (MRIS * option MRI * Z) :=
  let* image := read_and_check "mrisReadGIFTIfile" fname in
  mrisReadGIFTIdanum fuel image fname mris daNum outmri frame.

(** [mrisReadGIFTIfile]: "default read routine (read all data arrays)". *)
Definition mrisReadGIFTIfile (fuel : nat) (fname : string) (mris : option MRIS)
    (outmri : option MRI) (frame : Z) : M (MRIS * option MRI * Z) :=
  mrisReadGIFTIdanum_fname fuel fname mris (-1) outmri frame.

(** "skip these intents" *)
Definition skipped_intent (i : Z) : bool :=
  (i =? NIFTI_INTENT_POINTSET) || (i =? NIFTI_INTENT_TRIANGLE)
  || (i =? NIFTI_INTENT_LABEL) || (i =? NIFTI_INTENT_GENMATRIX)
  || (i =? NIFTI_INTENT_VECTOR) || (i =? NIFTI_INTENT_RGB_VECTOR)
  || (i =? NIFTI_INTENT_RGBA_VECTOR).

(** [getShapeStatIntentCount(fgifti)]; a file that cannot be read or is
    not valid gives 0. *)
Definition getShapeStatIntentCount (fgifti : string) : M Z :=
  match gifti_read_image fgifti with
  | None =>
      warn (DiagRead "getShapeStatIntentCount(): gifti_read_image() returned NULL") ;;;
      ret 0
  | Some image =>
      if negb (gifti_valid_gifti_image image)
      then warn (DiagRead "getShapeStatIntentCount(): GIFTI file is invalid!") ;;; ret 0
      else
        for_Z (numDA image)
          (fun numDA_ count =>
             let* darr := at_index (darray image) numDA_ in
             if skipped_intent (intent darr) then ret count else ret (count + 1))
          0
  end.

(** [int intent_code[INTENT_CODE_MAX_IDX]] of [MRISreadGiftiAsMRI] *)
Definition intent_code_table : list Z :=
  [NIFTI_INTENT_TIME_SERIES; NIFTI_INTENT_SHAPE; NIFTI_INTENT_NONE; NIFTI_INTENT_NORMAL].

(** The variables of the search of [MRISreadGiftiAsMRI]. *)
Record search_state : Type := mkSearch {
  scalars : option giiDataArray;
  frame_count : Z;
  num_vertices : Z;
  num_cols : Z
}.

(** One round of the [do ... while (scalars)] loop for one intent.  A
    [continue] goes to the test of the loop, where [scalars] is NULL:
    the loop is left as by the [break]. *)
Definition search_step (image : gifti_image) (intent_ : Z)
  : Z * search_state -> M (Z * search_state + Z * search_state) :=
  fun '(da_num, st) =>
    match gifti_find_DA image intent_ da_num with
    | None =>
        ret (inr (da_num + 1,
                  mkSearch None (frame_count st) (num_vertices st) (num_cols st)))
    | Some sc =>
        let '(nvertices_, ncols) := records_cols sc in
        let* '(nv, nc) :=
          (if num_vertices st =? -1 then ret (nvertices_, ncols)
           else if (num_vertices st <=? 0) || negb (num_vertices st =? nvertices_)
                   || negb (ncols =? 1)
                then fail (DiagRead "MRISreadGiftiAsMRI: malformed time-series data array") 0
                else ret (num_vertices st, num_cols st)) in
        let st' := mkSearch (Some sc) (frame_count st + 1) nv nc in
        if numDA image <=? da_num + 1 then ret (inr (da_num + 1, st'))
        else if negb (intent_ =? NIFTI_INTENT_TIME_SERIES)
                && negb (intent_ =? NIFTI_INTENT_SHAPE)
                && negb (intent_ =? NIFTI_INTENT_NONE)
                && negb (intent_ =? NIFTI_INTENT_NORMAL)
             then ret (inr (da_num + 1, st'))
             else ret (inl (da_num + 1, st'))
    end.

(** The [do ... while (scalars)] loop for one intent, from [da_num = 0]. *)
Definition search_intent (fuel : nat) (image : gifti_image) (intent_ : Z)
    (st : search_state) : M search_state :=
  let* r := while_loop fuel (fun _ => true) (search_step image intent_) (0, st) in
  ret r.2.

(** [mri->tr] after the lines "not sure this is the best way to do
    this". *)
Definition read_TimeStep (image : gifti_image) (tr : spec_float) : M spec_float :=
  if 0 <? numDA image then
    let* da0 := at_index (darray image) 0 in
    match gifti_get_meta_value (meta da0) "TimeStep" with
    | Some stmp => ret (default tr (sscanf_f stmp))
    | None => ret tr
    end
  else ret tr.

(** [MRISreadGiftiAsMRI(fname, read_volume)].  Modelled from the spec:
    [MRIallocHeader] and [MRIallocSequence] of the volume collaborator
    (mri.h is not among the sources) give a volume of the extents asked
    for, with a zero repetition time and no voxel set. *)
Definition MRISreadGiftiAsMRI (fuel : nat) (fname : string) (read_volume : Z)
  : M MRI_VOLUME :=
  let* image := read_and_check "MRISreadGiftiAsMRI" fname in
  (* search all DAs for time series, then shape, then none, then normal *)
  let* '(st, intent_code_idx) :=
    for_Z_break 4
      (fun idx '(st, _) =>
         let* ic := at_index intent_code_table idx in
         let* st := search_intent fuel image ic st in
         match scalars st with
         | Some _ => ret (inr (st, idx))   (* found some data *)
         | None => ret (inl (st, idx + 1))
         end)
      (mkSearch None 0 (-1) 0, 0) in
  if frame_count st =? 0
  then fail (DiagRead "MRISreadGiftiAsMRI: no overlay data found") 0
  else
    if read_volume =? 0 then
      (* if we don't need to read the volume, just return a header *)
      let* tr := read_TimeStep image IEEE.zero in
      ret (mkVol (num_vertices st) 1 1 (frame_count st) tr ∅)
    else
      (* Copy in each scalar frame to 'volume' frame. *)
      let nframes := frame_count st in
      let* '(vox_, _) :=
        for_Z (numDA image)
          (fun da_num '(vox_, fc) =>
             let* ic := at_index intent_code_table intent_code_idx in
             match gifti_find_DA image ic da_num with
             | None => ret (vox_, fc)
             | Some sc =>
                 let* vox_ :=
                   for_Z (num_vertices st)
                     (fun vno vox_ =>
                        let* d := gifti_get_DA_value_2D (Some sc) vno 0 in
                        if (0 <=? fc) && (fc <? nframes)
                        then ret (MRIsetVoxVal vox_ vno 0 0 fc (IEEE.float_of_double d))
                        else Undefined)
                     vox_ in
                 ret (vox_, fc + 1)
             end)
          (∅, 0) in
      let* tr := read_TimeStep image IEEE.zero in
      ret (mkVol (num_vertices st) 1 1 nframes tr vox_).

End MoreReaders.

(** A one-dimensional row-major array of [float]s, as the overlay
    writers make it. *)
Record overlay_array (da : giiDataArray) (it nrows : Z) (buf : list cell) : Prop := {
  oa_intent : intent da = it;
  oa_datatype : datatype da = NIFTI_TYPE_FLOAT32;
  oa_ind_ord : ind_ord da = GIFTI_IND_ORD_ROW_MAJOR;
  oa_num_dim : num_dim da = 1;
  oa_dim0 : dim da 0 = nrows;
  oa_nvals : nvals da = nrows;
  oa_data : data da = Some buf;
  oa_length : length buf = Z.to_nat nrows;
  oa_coordsys : coordsys da = []
}.

(** The element an overlay writer stores for a vertex: zero, from
    [calloc], for a ripped one. *)
Definition stored (field : VERTEX -> spec_float) (vx : VERTEX) : cell :=
  CF32 (if ripflag vx then IEEE.zero else field vx).

(** The vertices after an overlay was read into the surface m0: [upd]
    applied, with the element of the array, to every vertex that is not
    ripped. *)
Definition overlaid (m0 : MRIS) (vals : list spec_float)
    (upd : VERTEX -> spec_float -> VERTEX) (vs' : list VERTEX) : Prop :=
  length vs' = length (vertices m0)
  /\ forall v vx0 a, vertices m0 !! v = Some vx0 -> vals !! v = Some a ->
       vs' !! v = Some (if ripflag vx0 then vx0 else upd vx0 a).

(** The intents the second pass of the reader sends to the branch of
    the statistics: every one that has no branch of its own. *)
Definition statval_intent (it : Z) : Prop :=
  it <> NIFTI_INTENT_POINTSET /\ it <> NIFTI_INTENT_TRIANGLE
  /\ it <> NIFTI_INTENT_NODE_INDEX /\ it <> NIFTI_INTENT_SHAPE
  /\ it <> NIFTI_INTENT_LABEL /\ it <> NIFTI_INTENT_VECTOR
  /\ it <> NIFTI_INTENT_RGB_VECTOR /\ it <> NIFTI_INTENT_RGBA_VECTOR
  /\ it <> NIFTI_INTENT_GENMATRIX.

(** The values an overlay writer stores for the vertices of a surface. *)
Definition written_vals (field : VERTEX -> spec_float) (vs : list VERTEX)
  : list spec_float :=
  (fun vx => if ripflag vx then IEEE.zero else field vx) <$> vs.

(** The number of arrays the dispatcher adds for an intent. *)
Definition arrays_written (intent_code : Z) : nat :=
  if (intent_code =? NIFTI_INTENT_POINTSET) || (intent_code =? NIFTI_INTENT_TRIANGLE)
  then 2
  else if (intent_code =? NIFTI_INTENT_SHAPE) || (intent_code =? NIFTI_INTENT_LABEL)
          || stats_intent intent_code
       then 1
       else 0.

(** The variables of the search of [MRISreadGiftiAsMRI] after i arrays
    of n rows and one column were found. *)
Definition found_state (found : list giiDataArray) (n : Z) (i : nat) : search_state :=
  match i with
  | O => mkSearch None 0 (-1) 0
  | Datatypes.S j => mkSearch (found !! j) (Z.of_nat i) n 1
  end.

(** The arrays of an image hold the frames of a volume: as many arrays
    as frames, each a one-dimensional array of the [float]s of its
    frame. *)
Definition holds_frames (das : list giiDataArray) (it n : Z)
    (frames : list (list spec_float)) : Prop :=
  length das = length frames
  /\ forall f da, das !! f = Some da ->
       exists vals, frames !! f = Some vals
         /\ overlay_array da it n (CF32 <$> vals)
         /\ forall i a, vals !! i = Some a -> IEEE.is_float a = true.

(** What the volume reader asks of [gifti_find_DA]: the array number
    [index], from 0, among the arrays of the intent. *)
Definition finds_by_intent `{Services} (image : gifti_image) : Prop :=
  forall it k, 0 <= k ->
    gifti_find_DA image it k
    = filter (fun da => intent da = it) (darray image) !! Z.to_nat k.

(** The voxels of a volume after an overlay was saved in it: the
    element of the array at the place of every vertex that is not
    ripped, and every other voxel as before. *)
Definition voxels_set (m0 : MRIS) (vals : list spec_float) (o o' : MRI)
    (place : Z -> Z * Z * Z * Z) : Prop :=
  (forall v vx0 a, vertices m0 !! v = Some vx0 -> ripflag vx0 = false ->
     vals !! v = Some a -> o' !! place (Z.of_nat v) = Some a)
  /\ (forall k, (forall v vx0, vertices m0 !! v = Some vx0 -> ripflag vx0 = false ->
                   k <> place (Z.of_nat v)) ->
        o' !! k = o !! k).

(** *** An environment for the file functions *)

(** A reading of [gifti_find_DA]: the array number [index], from 0,
    among the arrays of the intent. *)
Definition find_DA (image : gifti_image) (it index : Z) : option giiDataArray :=
  if index <? 0 then None
  else filter (fun da => intent da = it) (darray image) !! Z.to_nat index.

(** An environment with one file: every image is valid and can be
    written, the curvature file gives the values the surface has, and
    the file [name] reads as [content]. *)
Definition reference_services (name : string) (content : option gifti_image)
  : Services := {|
  gifti_intent_to_string := fun i => "NIFTI_INTENT_" +:+ pretty i;
  MRISreadCurvatureFile :=
    fun mris f => match f with Some _ => Some mris | None => None end;
  pw_name := Some "user";
  currentDateTime := "2000-01-01 00:00:00";
  gifti_valid_gifti_image := fun _ => true;
  gifti_write_image := fun _ _ => true;
  gifti_read_image := fun f => if String.eqb f name then content else None;
  gifti_find_DA := find_DA
|}.

(** A surface of three vertices with overlay values, the second vertex
    ripped. *)
Definition overlay_vertex (c s : Z) (rip : bool) : VERTEX :=
  mkVertex IEEE.zero IEEE.zero IEEE.zero IEEE.zero rip (IEEE.float_of_Z c) IEEE.zero
           (IEEE.float_of_Z s) 0 IEEE.zero IEEE.zero IEEE.zero.

Definition overlay_mris : MRIS :=
  mris_set_vertices (bare_mris 3)
    [overlay_vertex 5 7 false; overlay_vertex 6 8 true; overlay_vertex 9 11 false].

(** The file [MRISwriteGIFTI] makes of the scenario surface. *)
Definition surface_file : gifti_image :=
  match @MRISwriteGIFTI reference_collaborators (reference_services "" None)
          (Some tetra_with_cmds) NIFTI_INTENT_POINTSET (Some "lh.white.gii") None with
  | Ret _ image => image
  | _ => empty_image
  end.

(** The file [MRISwriteGIFTI] makes of the statistics of the surface
    with overlay values. *)
Definition stats_file : gifti_image :=
  match @MRISwriteGIFTI reference_collaborators (reference_services "" None)
          (Some overlay_mris) NIFTI_INTENT_TTEST (Some "lh.t.gii") None with
  | Ret _ image => image
  | _ => empty_image
  end.

(** A volume of two columns and two frames, and the file
    [mriWriteGifti] makes of it. *)
Definition two_frames : MRI_VOLUME :=
  mkVol 2 1 1 2 (IEEE.float_of_Z 2)
        (<[(0, 0, 0, 0) := IEEE.float_of_Z 1]> (<[(1, 0, 0, 1) := IEEE.float_of_Z 4]> ∅)).

Definition frames_file : gifti_image :=
  match @mriWriteGifti reference_collaborators (reference_services "" None)
          (Some two_frames) (Some "f.func.gii") with
  | Ret _ image => image
  | _ => empty_image
  end.

(** A time series beside an array of node indices. *)
Definition mixed_file : gifti_image :=
  mkImage [array_1d NIFTI_INTENT_TIME_SERIES NIFTI_TYPE_FLOAT32
             [CF32 (IEEE.float_of_Z 1); CF32 (IEEE.float_of_Z 2)];
           array_1d NIFTI_INTENT_NODE_INDEX NIFTI_TYPE_INT32 [CInt 0; CInt 1]]
          empty_labeltable ∅.

(** Two POINTSET arrays with different data, then an array of another
    intent, then two TRIANGLE arrays with different data. *)
Definition two_pointsets : gifti_image :=
  mkImage [array_1d NIFTI_INTENT_POINTSET NIFTI_TYPE_FLOAT32 [CF32 (IEEE.float_of_Z 1)];
           array_1d NIFTI_INTENT_POINTSET NIFTI_TYPE_FLOAT32 [CF32 (IEEE.float_of_Z 2)];
           array_2x3 NIFTI_TYPE_FLOAT32 GIFTI_IND_ORD_ROW_MAJOR;
           array_1d NIFTI_INTENT_TRIANGLE NIFTI_TYPE_INT32 [CInt 3];
           array_1d NIFTI_INTENT_TRIANGLE NIFTI_TYPE_INT32 [CInt 4]]
          empty_labeltable ∅.

(** An array of three vectors. *)
Definition vector_darray : giiDataArray :=
  mkDA NIFTI_INTENT_VECTOR NIFTI_TYPE_FLOAT32 GIFTI_IND_ORD_ROW_MAJOR 2
       [3; 3; 0; 0; 0; 0] 9
       (Some (CF32 <$> (IEEE.float_of_Z <$> [1; 2; 3; 4; 5; 6; 7; 8; 9]))) ∅ [].

(** The environments of the examples: no file at all, and the files
    above under their names. *)
Definition no_file : Services := reference_services "" None.

Definition surface_on_disk : Services :=
  reference_services "lh.white.gii" (Some surface_file).

Definition stats_on_disk : Services := reference_services "lh.t.gii" (Some stats_file).

Definition frames_on_disk : Services :=
  reference_services "f.func.gii" (Some frames_file).

Definition mixed_on_disk : Services := reference_services "mixed.gii" (Some mixed_file).

(** The image a writer returns, the empty image when it fails. *)
Definition written_image (m : M gifti_image) : gifti_image :=
  match m with Ret _ image => image | _ => empty_image end.

(** Three overlay values, and arrays that hold them. *)
Definition three_values : list spec_float := IEEE.float_of_Z <$> [5; 7; 9].

Definition ttest_darray : giiDataArray :=
  array_1d NIFTI_INTENT_TTEST NIFTI_TYPE_FLOAT32 (CF32 <$> three_values).

Definition three_rows : list (spec_float * spec_float * spec_float) :=
  [(IEEE.float_of_Z 1, IEEE.float_of_Z 2, IEEE.float_of_Z 3);
   (IEEE.float_of_Z 4, IEEE.float_of_Z 5, IEEE.float_of_Z 6);
   (IEEE.float_of_Z 7, IEEE.float_of_Z 8, IEEE.float_of_Z 9)].

(** A surface of three vertices with the colour table of three
    entries: the first vertex has the colour of the third entry, the
    second is ripped, the third has a colour that is in no entry. *)
Definition labelled_mris : MRIS :=
  mris_set_ct
    (mris_set_vertices (bare_mris 3)
       [mkVertex IEEE.zero IEEE.zero IEEE.zero IEEE.zero false IEEE.zero IEEE.zero IEEE.zero
                 255 IEEE.zero IEEE.zero IEEE.zero;
        mkVertex IEEE.zero IEEE.zero IEEE.zero IEEE.zero true IEEE.zero IEEE.zero IEEE.zero
                 77 IEEE.zero IEEE.zero IEEE.zero;
        mkVertex IEEE.zero IEEE.zero IEEE.zero IEEE.zero false IEEE.zero IEEE.zero IEEE.zero
                 12345 IEEE.zero IEEE.zero IEEE.zero])
    (Some three_table).

(** Two time series of different sizes, and the environment with this
    file. *)
Definition uneven_file : gifti_image :=
  mkImage [array_1d NIFTI_INTENT_TIME_SERIES NIFTI_TYPE_FLOAT32
             [CF32 (IEEE.float_of_Z 1); CF32 (IEEE.float_of_Z 2)];
           array_1d NIFTI_INTENT_TIME_SERIES NIFTI_TYPE_FLOAT32
             [CF32 (IEEE.float_of_Z 1); CF32 (IEEE.float_of_Z 2);
              CF32 (IEEE.float_of_Z 3)]]
          empty_labeltable ∅.

Definition uneven_on_disk : Services := reference_services "uneven.gii" (Some uneven_file).

(** A command line of 1152 characters, more than the TAG_CMDLINE_LEN - 1
    the writer keeps, and the scenario surface with it recorded. *)
Definition long_cmdline : string := String.concat "" (replicate 128 "lh.white ").

Definition tetra_with_long_cmd : MRIS :=
  mris_set_cmdlines (mris_set_ncmds tetra_mris 1) [Some long_cmdline].

(** The file [MRISwriteGIFTI] makes of that surface. *)
Definition long_cmd_file : gifti_image :=
  match @MRISwriteGIFTI reference_collaborators (reference_services "" None)
          (Some tetra_with_long_cmd) NIFTI_INTENT_POINTSET (Some "lh.long.gii") None with
  | Ret _ image => image
  | _ => empty_image
  end.

Definition long_cmd_on_disk : Services :=
  reference_services "lh.long.gii" (Some long_cmd_file).

(* ===================================================================== *)
(** ** The monad *)
(* ===================================================================== *)

#[global] Arguments bind : simpl never.
#[global] Arguments ret : simpl never.
#[global] Arguments die : simpl never.
#[global] Arguments fail : simpl never.
#[global] Arguments warn : simpl never.

Lemma bind_ret_l {A B} (a : A) (k : A -> M B) : bind (ret a) k = k a.
Proof. unfold bind, ret. destruct (k a); reflexivity. Qed.

Lemma bind_Ret_nil {A B} (a : A) (k : A -> M B) : bind (Ret [] a) k = k a.
Proof. apply bind_ret_l. Qed.

Lemma bind_ret_r {A} (m : M A) : bind m ret = m.
Proof. destruct m; unfold bind, ret; rewrite ?app_nil_r; reflexivity. Qed.

Lemma bind_assoc {A B C} (m : M A) (k : A -> M B) (h : B -> M C) :
  bind (bind m k) h = bind m (fun a => bind (k a) h).
Proof.
  unfold bind.
  destruct m as [l a| | | |]; try reflexivity.
  destruct (k a) as [l' b| | | |]; try reflexivity.
  destruct (h b); rewrite ?app_assoc; reflexivity.
Qed.

Lemma bind_Diverge {A B} (m : M A) (k : A -> M B) :
  (forall a, k a = Diverge) -> (exists l a, m = Ret l a) -> bind m k = Diverge.
Proof. intros Hk (l & a & ->). unfold bind. rewrite Hk. reflexivity. Qed.

Lemma for_loop_S {S} n (body : nat -> S -> M S) s :
  for_loop (Datatypes.S n) body s = bind (for_loop n body s) (body n).
Proof. reflexivity. Qed.

(** A loop whose every round keeps an invariant and logs nothing ends,
    logs nothing and keeps the invariant. *)
Lemma for_loop_inv {S} (I : nat -> S -> Prop) n (body : nat -> S -> M S) s :
  I O s ->
  (forall i st, (i < n)%nat -> I i st ->
                exists st', body i st = Ret [] st' /\ I (Datatypes.S i) st') ->
  exists st', for_loop n body s = Ret [] st' /\ I n st'.
Proof.
  intros H0 Hstep. induction n as [|n IH].
  - exists s. split; [reflexivity | exact H0].
  - destruct IH as (st & E & Hst).
    { intros i st Hi. apply Hstep. lia. }
    destruct (Hstep n st ltac:(lia) Hst) as (st' & E' & Hst').
    exists st'. split; [|exact Hst'].
    rewrite for_loop_S, E, bind_Ret_nil. exact E'.
Qed.

Lemma for_Z_inv {S} (I : Z -> S -> Prop) n (body : Z -> S -> M S) s :
  0 <= n ->
  I 0 s ->
  (forall i st, 0 <= i < n -> I i st ->
                exists st', body i st = Ret [] st' /\ I (i + 1) st') ->
  exists st', for_Z n body s = Ret [] st' /\ I n st'.
Proof.
  intros Hn H0 Hstep. unfold for_Z.
  destruct (for_loop_inv (fun i st => I (Z.of_nat i) st) (Z.to_nat n)
              (fun i => body (Z.of_nat i)) s) as (st & E & Hst).
  - exact H0.
  - intros i st Hi Hst.
    destruct (Hstep (Z.of_nat i) st ltac:(lia) Hst) as (st' & E' & Hst').
    exists st'. split; [exact E'|].
    replace (Z.of_nat (Datatypes.S i)) with (Z.of_nat i + 1) by lia. exact Hst'.
  - exists st. split; [exact E|]. rewrite Z2Nat.id in Hst by lia. exact Hst.
Qed.

(** A loop whose condition holds and whose body changes nothing never
    ends, whatever the fuel. *)
Lemma while_loop_stuck {S} fuel (cond : S -> bool) (body : S -> M (S + S)) s :
  cond s = true -> body s = Ret [] (inl s) ->
  while_loop fuel cond body s = Diverge.
Proof.
  intros Hc Hb. induction fuel as [|k IH]; simpl; rewrite Hc; [reflexivity|].
  rewrite Hb, bind_Ret_nil. exact IH.
Qed.

(* ===================================================================== *)
(** ** The typed element accessor *)
(* ===================================================================== *)

Lemma at_index_Some {A} (a : list A) (i : Z) (e : A) :
  0 <= i -> a !! Z.to_nat i = Some e -> at_index a i = ret e.
Proof.
  intros Hi E. unfold at_index.
  destruct (Z.ltb_spec i 0); [lia|]. rewrite E. reflexivity.
Qed.

Lemma put_index_lt {A} (a : list A) (i : Z) (e : A) :
  0 <= i < Z.of_nat (length a) -> put_index a i e = ret (<[Z.to_nat i := e]> a).
Proof.
  intros Hi. unfold put_index.
  destruct (Z.ltb_spec i 0); [lia|].
  destruct (Z.ltb_spec i (Z.of_nat (length a))); [reflexivity|lia].
Qed.

Ltac kinds :=
  unfold NIFTI_TYPE_UINT8, NIFTI_TYPE_INT16, NIFTI_TYPE_INT32, NIFTI_TYPE_FLOAT32,
    NIFTI_TYPE_FLOAT64, NIFTI_TYPE_COMPLEX64, NIFTI_TYPE_INT8, NIFTI_TYPE_UINT16,
    NIFTI_TYPE_UINT32 in *.

Ltac case_kinds :=
  repeat (match goal with
          | |- context [?a =? ?b] => destruct (Z.eqb_spec a b)
          end; try reflexivity; try (exfalso; kinds; lia)).

Lemma index_bad_false (r d0 c d1 : Z) :
  0 <= r < d0 -> 0 <= c < d1 -> index_bad r d0 c d1 = false.
Proof. intros. unfold index_bad. repeat (apply orb_false_intro); lia. Qed.

Lemma int_mul_in_range (a b : Z) :
  -2147483648 <= a * b <= 2147483647 -> int_mul a b = ret (a * b).
Proof.
  intros Hab. unfold int_mul, in_range. cbn [fst snd].
  destruct (Z.leb_spec (-2147483648) (a * b)); [|lia].
  destruct (Z.leb_spec (a * b) 2147483647); [|lia].
  rewrite !orb_true_r. reflexivity.
Qed.

Lemma int_mul_one (a : Z) : int_mul a 1 = ret a.
Proof. unfold int_mul. cbn [Z.eqb Pos.eqb]. rewrite orb_true_r, Z.mul_1_r. reflexivity. Qed.

Lemma int_mul_zero (b : Z) : int_mul 0 b = ret 0.
Proof. apply int_mul_in_range. lia. Qed.

(** Inside the bounds of an array of at most [INT_MAX] elements the
    product does not overflow: the offset is the one of the design
    document. *)
Lemma offset_in_bounds (da : giiDataArray) (row col d0 d1 : Z) :
  0 <= row < d0 -> 0 <= col < d1 -> d0 * d1 <= 2147483647 ->
  offset da row col d0 d1
  = ret (if GIFTI_IND_ORD_ROW_MAJOR =? ind_ord da then row * d1 + col else row + col * d0).
Proof.
  intros Hr Hc Hn. unfold offset.
  destruct (GIFTI_IND_ORD_ROW_MAJOR =? ind_ord da);
    rewrite int_mul_in_range by nia; rewrite bind_ret_l; reflexivity.
Qed.

(** Past that size the product overflows: in a row-major array of
    715827884 rows of three elements, the offset of row 715827883 is not
    an [int]. *)
Lemma offset_overflow (da : giiDataArray) :
  ind_ord da = GIFTI_IND_ORD_ROW_MAJOR -> offset da 715827883 0 715827884 3 = Undefined.
Proof. intros Ho. unfold offset. rewrite Ho. reflexivity. Qed.

(** Reading an element of a two-dimensional array inside its bounds: the
    cell at the offset of the design document, through the C type of the
    element kind; outside the nine kinds the read ends the program. *)
Lemma get_2D_in_bounds (da : giiDataArray) (buf : list cell) (row col : Z) :
  data da = Some buf ->
  num_dim da = 2 ->
  ind_ord da = GIFTI_IND_ORD_ROW_MAJOR \/ ind_ord da = GIFTI_IND_ORD_COL_MAJOR ->
  0 <= row < dim da 0 ->
  0 <= col < dim da 1 ->
  dim da 0 * dim da 1 <= 2147483647 ->
  gifti_get_DA_value_2D (Some da) row col =
    match spec_kind (datatype da) with
    | Some t => deref t buf (spec_offset (ind_ord da) row col (dim da 0) (dim da 1))
    | None => die (DiagGetType (datatype da))
    end.
Proof.
  intros Hd Hn Ho Hr Hc Hsz. unfold gifti_get_DA_value_2D. rewrite Hd, Hn. simpl.
  rewrite bind_ret_l.
  pose proof (index_bad_false _ _ _ _ Hr Hc) as Hbad.
  pose proof (offset_in_bounds da row col _ _ Hr Hc Hsz) as Hoff.
  unfold spec_offset, spec_kind.
  destruct Ho as [Ho|Ho]; rewrite Ho in *; simpl in Hoff |- *;
    rewrite bind_ret_l, Hbad, Hoff, !bind_ret_l; case_kinds.
Qed.

(** Writing an element of a row-major two-dimensional array inside its
    bounds: the cell at [row * dims1 + col], for the seven kinds the
    writer knows. *)
Lemma set_2D_row_major (da : giiDataArray) (buf : list cell) (row col : Z)
    (value : spec_float) (t : ctype) :
  data da = Some buf ->
  num_dim da = 2 ->
  ind_ord da = GIFTI_IND_ORD_ROW_MAJOR ->
  0 <= row < dim da 0 ->
  0 <= col < dim da 1 ->
  dim da 0 * dim da 1 <= 2147483647 ->
  written_kind (datatype da) = Some t ->
  gifti_set_DA_value_2D (Some da) row col value =
    bind (assign t buf (row * dim da 1 + col) value) (fun buf' => ret (set_data da buf')).
Proof.
  intros Hd Hn Ho Hr Hc Hsz Hk. unfold gifti_set_DA_value_2D. rewrite Hd, Hn, Ho. simpl.
  rewrite bind_ret_l, (index_bad_false _ _ _ _ Hr Hc).
  pose proof (offset_in_bounds da row col _ _ Hr Hc Hsz) as Hoff.
  rewrite Ho in Hoff. simpl in Hoff. rewrite Hoff, !bind_ret_l.
  unfold written_kind in Hk.
  repeat (match type of Hk with
          | context [?a =? ?b] => destruct (Z.eqb_spec a b)
          end; [injection Hk as <-; reflexivity|]).
  discriminate.
Qed.

Lemma index_bad_row_end (d0 c d1 : Z) : index_bad d0 d0 c d1 = true.
Proof.
  unfold index_bad. destruct (Z.geb_spec d0 d0); [|lia].
  rewrite orb_true_r. reflexivity.
Qed.


(** A write one row past the end of a row-major or one-dimensional array
    changes nothing and leaves a diagnostic. *)
Lemma set_row_past_end_row_major (da : giiDataArray) (buf : list cell) (col : Z)
    (value : spec_float) :
  data da = Some buf ->
  (num_dim da = 2 /\ ind_ord da = GIFTI_IND_ORD_ROW_MAJOR) \/ (num_dim da = 1 /\ col = 0) ->
  exists d, gifti_set_DA_value_2D (Some da) (dim da 0) col value = Ret [d] da.
Proof.
  intros Hd Hcase. unfold gifti_set_DA_value_2D. rewrite Hd.
  destruct Hcase as [[Hn Ho]|[Hn ->]]; rewrite Hn; cbn [Z.eqb Pos.eqb negb]; rewrite bind_ret_l.
  - rewrite Ho. cbn [Z.eqb Pos.eqb GIFTI_IND_ORD_ROW_MAJOR]. rewrite index_bad_row_end. eexists. reflexivity.
  - destruct (GIFTI_IND_ORD_ROW_MAJOR =? ind_ord da); rewrite index_bad_row_end; eexists; reflexivity.
Qed.

(** A write to an array of doubles or of complex numbers changes nothing
    and reports the element kind as unsupported. *)
Lemma set_double_unsupported (da : giiDataArray) (buf : list cell) (row col : Z)
    (value : spec_float) :
  data da = Some buf ->
  num_dim da = 2 ->
  0 <= row < dim da 0 ->
  0 <= col < dim da 1 ->
  ind_ord da = GIFTI_IND_ORD_ROW_MAJOR ->
  datatype da = NIFTI_TYPE_FLOAT64 \/ datatype da = NIFTI_TYPE_COMPLEX64 ->
  gifti_set_DA_value_2D (Some da) row col value = Ret [DiagSetType (datatype da)] da.
Proof.
  intros Hd Hn Hr Hc Ho Hk. unfold gifti_set_DA_value_2D. rewrite Hd, Hn, Ho. simpl.
  rewrite bind_ret_l, (index_bad_false _ _ _ _ Hr Hc).
  destruct Hk as [Hk|Hk]; rewrite Hk; reflexivity.
Qed.

(** The seven kinds the writer knows are among the nine, with the same
    C type. *)
Lemma written_kind_spec_kind (dt : Z) (t : ctype) :
  written_kind dt = Some t -> spec_kind dt = Some t.
Proof.
  unfold written_kind, spec_kind. intros Hk.
  repeat match type of Hk with
         | context [?a =? ?b] => destruct (Z.eqb_spec a b) as [->|?]
         end; try discriminate Hk; try exact Hk; try (exfalso; kinds; lia).
Qed.










(* ===================================================================== *)
(** ** The reader: loops that never end *)
(* ===================================================================== *)

Lemma bind_diverge_after {A B} (m : M A) (k : A -> M B) l a :
  m = Ret l a -> k a = Diverge -> bind m k = Diverge.
Proof. intros -> Hk. unfold bind. rewrite Hk. reflexivity. Qed.

Section ReaderLoops.
Context `{Collaborators}.

(** With more commands stored than [MAX_CMDS], the loop that should
    skip the surplus never ends: [toskip] is not decremented. *)
Lemma read_cmdlines_over_cap fuel md mris k :
  scan_d md "NUM_TAG_CMDLINE" = Some k -> MAX_CMDS < k ->
  read_cmdlines fuel md mris = Diverge.
Proof.
  intros Hs Hk. unfold read_cmdlines. rewrite Hs. cbn [ncmds mris_set_ncmds].
  destruct (Z.ltb_spec MAX_CMDS k); [|lia].
  eapply bind_diverge_after; [reflexivity|].
  rewrite while_loop_stuck; [reflexivity| |reflexivity].
  destruct (Z.eqb_spec (k - MAX_CMDS) 0); [lia|reflexivity].
Qed.

Lemma read_geometry_over_cap fuel fname coords faces_da k :
  0 < (records_cols coords).1 -> (records_cols coords).2 = 3 ->
  0 < (records_cols faces_da).1 -> (records_cols faces_da).2 = 3 ->
  scan_d (meta coords) "NUM_TAG_CMDLINE" = Some k -> MAX_CMDS < k ->
  read_geometry fuel fname coords faces_da = Diverge.
Proof.
  intros Hv Hc Hf Hc' Hs Hk. unfold read_geometry.
  destruct (records_cols coords) as [nv nc]. destruct (records_cols faces_da) as [nf nc'].
  simpl in *. subst nc nc'.
  destruct (Z.leb_spec nv 0); [lia|]. destruct (Z.leb_spec nf 0); [lia|]. simpl.
  erewrite read_cmdlines_over_cap by eassumption. reflexivity.
Qed.

Lemma reader_diverges_in_geometry fuel image fname mris daNum outmri frame
    l ctab image' coords faces_da :
  read_colortable image fname = Ret l (ctab, image') ->
  find_geometry image' = (Some coords, Some faces_da) ->
  read_geometry fuel fname coords faces_da = Diverge ->
  mrisReadGIFTIdanum fuel image fname mris daNum outmri frame = Diverge.
Proof.
  intros Hc Hg Hd. unfold mrisReadGIFTIdanum.
  eapply bind_diverge_after; [exact Hc|]. cbv beta iota.
  rewrite Hg, Hd. reflexivity.
Qed.

(** With regular indexing, a ripped vertex at the head of the LABEL
    loop is met again and again: [continue] is taken before [vno] is
    advanced. *)
Lemma read_label_ripped fuel image ctab c0 darr buf st vx :
  ct (os_mris st) = Some c0 ->
  data darr = Some buf ->
  node_index st = None ->
  0 < nvertices (os_mris st) ->
  vertices (os_mris st) !! 0%nat = Some vx ->
  ripflag vx = true ->
  read_label fuel image (Some ctab) darr st = Diverge.
Proof.
  intros Hct Hd Hn Hnv Hv Hr. unfold read_label. rewrite Hct, Hd, bind_ret_l.
  rewrite while_loop_stuck; [reflexivity| |].
  - destruct (Z.ltb_spec 0 (nvertices (os_mris st))); [reflexivity|lia].
  - rewrite Hn, bind_ret_l.
    rewrite (at_index_Some _ 0 vx) by (try lia; exact Hv).
    rewrite bind_ret_l, Hr. reflexivity.
Qed.

End ReaderLoops.

Lemma cmds_image_written :
  @MRISwriteGIFTISurface reference_collaborators tetra_with_cmds empty_image "lh.white.gii"
  = Ret [] cmds_image.
Proof. vm_compute. reflexivity. Qed.

Lemma cmds_image_diverges fuel :
  @mrisReadGIFTIdanum (collaborators_with_cap 2) fuel cmds_image "lh.white.gii"
    None (-1) None 0 = Diverge.
Proof.
  eapply reader_diverges_in_geometry; [vm_compute; reflexivity | vm_compute; reflexivity|].
  apply read_geometry_over_cap with (k := 4); vm_compute; reflexivity.
Qed.

Lemma label_image_diverges fuel :
  @mrisReadGIFTIdanum reference_collaborators fuel label_image "lh.aparc.gii"
    (Some ripped_mris) (-1) None 0 = Diverge.
Proof.
  unfold mrisReadGIFTIdanum.
  eapply bind_diverge_after; [vm_compute; reflexivity|]. cbv beta iota.
  match goal with |- context [find_geometry ?i] =>
    let r := eval vm_compute in (find_geometry i) in change (find_geometry i) with r end.
  cbv beta iota. rewrite bind_ret_l.
  eapply bind_diverge_after; [vm_compute; reflexivity|].
  match goal with |- bind ?m _ = _ => assert (E : m = Diverge); [| rewrite E; reflexivity] end.
  unfold for_Z.
  match goal with |- for_loop ?n _ _ = _ =>
    let r := eval vm_compute in n in change n with r end.
  cbn [for_loop]. rewrite bind_ret_l.
  match goal with |- read_darray _ _ _ ?i _ = _ =>
    let r := eval vm_compute in i in change i with r end.
  unfold read_darray.
  erewrite at_index_Some; [|lia|reflexivity]. rewrite bind_ret_l.
  cbn -[read_label].
  eapply read_label_ripped; try reflexivity.
Qed.

(** C5: with more command lines stored than the cap, the reader keeps
    nothing: it never returns. The surface writer, given the scenario
    surface with four command lines, stores the count 4 and the four
    lines; the reader with a cap of 2 then spins in the loop meant to
    skip the first two, whatever the fuel. *)
Theorem cmdline_cap_never_returns :
  @MRISwriteGIFTISurface reference_collaborators tetra_with_cmds empty_image "lh.white.gii"
    = Ret [] cmds_image
  /\ (forall coords, darray cmds_image !! 0%nat = Some coords ->
        gifti_get_meta_value (meta coords) "NUM_TAG_CMDLINE" = Some "4"
        /\ gifti_get_meta_value (meta coords) (cmdline_tag 2) = Some "cmd2"
        /\ gifti_get_meta_value (meta coords) (cmdline_tag 3) = Some "cmd3")
  /\ forall fuel,
       @mrisReadGIFTIdanum (collaborators_with_cap 2) fuel cmds_image "lh.white.gii"
         None (-1) None 0 = Diverge.
Proof.
  split; [exact cmds_image_written|]. split; [|exact cmds_image_diverges].
  intros coords Hc. vm_compute in Hc. injection Hc as <-.
  repeat split; vm_compute; reflexivity.
Qed.

(** C10: the reader does not end on every input. Reading a LABEL array
    onto a surface whose vertex 0 carries the rip flag never returns, and
    neither does reading a surface whose stored command count exceeds the
    cap: both loops run out of any fuel. *)
Theorem reader_loops_forever :
  (forall fuel,
     @mrisReadGIFTIdanum reference_collaborators fuel label_image "lh.aparc.gii"
       (Some ripped_mris) (-1) None 0 = Diverge)
  /\ (forall fuel,
        @mrisReadGIFTIdanum (collaborators_with_cap 2) fuel cmds_image "lh.white.gii"
          None (-1) None 0 = Diverge).
Proof. split; [exact label_image_diverges | exact cmds_image_diverges]. Qed.

(* ===================================================================== *)
(** ** The reader: overlays *)
(* ===================================================================== *)

(** C6: the three colour components of a vertex all come from column 0.
    For the row (0.5, 0.25, 0.75) the reader stores the grey
    (128, 128, 128), where the three distinct components of the design
    document give (128, 64, 192). *)
Theorem rgb_reads_first_column_thrice :
  exists m,
    @mrisReadGIFTIdanum reference_collaborators 0 rgb_image "lh.rgb.gii"
      (Some (bare_mris 1)) (-1) None 0 = Ret [] (m, None, 0)
    /\ annotation <$> vertices m !! 0%nat = Some (MRISRGBToAnnot 128 128 128)
    /\ spec_rgb_annotation (IEEE.float_of_dyadic 1 (-1)) (IEEE.float_of_dyadic 1 (-2))
         (IEEE.float_of_dyadic 3 (-2)) = Ret [] (MRISRGBToAnnot 128 64 192)
    /\ MRISRGBToAnnot 128 128 128 <> MRISRGBToAnnot 128 64 192.
Proof.
  eexists. split; [vm_compute; reflexivity|].
  repeat split; try (vm_compute; reflexivity). vm_compute. discriminate.
Qed.

(** C4: with a sparse node index of k < N entries, a SHAPE array of k
    elements is refused and no vertex is touched: every array but the
    index must have N rows.  For N = 3 and the index (0, 2), the array
    (5, 7) makes the whole read fail; only the array (5, 7, 9) of N
    elements is read, its first k elements going to vertices 0 and 2. *)
Theorem sparse_shape_rows_rejected :
  @mrisReadGIFTIdanum reference_collaborators 0 sparse_image_k "lh.curv.gii"
    (Some (bare_mris 3)) (-1) None 0
    = Fail [DiagRead "mrisReadGIFTIfile: malformed data array"] 0
  /\ exists m,
       @mrisReadGIFTIdanum reference_collaborators 0 sparse_image_n "lh.curv.gii"
         (Some (bare_mris 3)) (-1) None 0 = Ret [] (m, None, 0)
       /\ curv <$> vertices m = [IEEE.float_of_Z 5; IEEE.zero; IEEE.float_of_Z 7].
Proof.
  split; [vm_compute; reflexivity|].
  eexists. split; vm_compute; reflexivity.
Qed.

(* ===================================================================== *)
(** ** What holds of a result that was returned *)
(* ===================================================================== *)

Lemma bind_Ret_inv {A B} (m : M A) (k : A -> M B) l b :
  bind m k = Ret l b -> exists l1 a l2, m = Ret l1 a /\ k a = Ret l2 b /\ l = l1 ++ l2.
Proof.
  unfold bind. destruct m as [l1 a| | | |]; try discriminate.
  destruct (k a) as [l2 b'| | | |] eqn:E; try discriminate.
  intros [= <- <-]. eauto 6.
Qed.

Lemma ret_Ret_inv {A} (a b : A) l : ret a = Ret l b -> a = b.
Proof. intros [= _ ->]. reflexivity. Qed.

(** Decompose a hypothesis saying that a monadic computation returned. *)
Ltac minv_step :=
  match goal with
  | H : bind _ _ = Ret _ _ |- _ =>
      let l1 := fresh "l" in let a := fresh "a" in let l2 := fresh "l" in
      let E := fresh "E" in
      apply bind_Ret_inv in H as (l1 & a & l2 & E & H & ->)
  | H : ret _ = Ret _ _ |- _ => apply ret_Ret_inv in H; subst
  | H : Undefined = Ret _ _ |- _ => discriminate H
  | H : Diverge = Ret _ _ |- _ => discriminate H
  | H : fail _ _ = Ret _ _ |- _ => discriminate H
  | H : die _ = Ret _ _ |- _ => discriminate H
  | H : Fail _ _ = Ret _ _ |- _ => discriminate H
  | H : Exit _ _ = Ret _ _ |- _ => discriminate H
  | H : warn _ = Ret _ _ |- _ => clear H
  | H : (let '(_, _) := ?x in _) = Ret _ _ |- _ => destruct x
  | H : (if ?b then _ else _) = Ret _ _ |- _ => destruct b
  | H : match ?x with _ => _ end = Ret _ _ |- _ => destruct x
  end.
Ltac minv := repeat minv_step.
Ltac use lem := match goal with H : _ = Ret _ _ |- _ => apply lem in H end.

Lemma for_loop_post {S} (P : S -> Prop) n (body : nat -> S -> M S) s l s' :
  P s ->
  (forall i st l' st', P st -> body i st = Ret l' st' -> P st') ->
  for_loop n body s = Ret l s' -> P s'.
Proof.
  intros H0 Hstep. revert l s'. induction n as [|n IH]; intros l s' E.
  - apply ret_Ret_inv in E. subst. exact H0.
  - rewrite for_loop_S in E. apply bind_Ret_inv in E as (l1 & a & l2 & E1 & E2 & ->).
    eapply Hstep; [|exact E2]. eapply IH. exact E1.
Qed.

Lemma for_Z_post {S} (P : S -> Prop) n (body : Z -> S -> M S) s l s' :
  P s ->
  (forall i st l' st', P st -> body i st = Ret l' st' -> P st') ->
  for_Z n body s = Ret l s' -> P s'.
Proof. intros H0 Hstep. unfold for_Z. apply for_loop_post; [exact H0|]. intros i. apply Hstep. Qed.

Lemma for_Z_break_post {S} (P : S -> Prop) n (body : Z -> S -> M (S + S)) s l s' :
  P s ->
  (forall i st l' r, P st -> body i st = Ret l' r -> P (match r with inl a | inr a => a end)) ->
  for_Z_break n body s = Ret l s' -> P s'.
Proof.
  intros H0 Hstep E. unfold for_Z_break in E.
  apply bind_Ret_inv in E as (l1 & [st b] & l2 & E1 & E2 & ->).
  apply ret_Ret_inv in E2. subst. revert E1.
  apply (for_Z_post (fun st => P st.1)); [exact H0|].
  intros i [st0 b0] l' st' Hst Eb. simpl in *. destruct b0.
  - apply ret_Ret_inv in Eb. subst. exact Hst.
  - apply bind_Ret_inv in Eb as (l3 & r & l4 & E3 & E4 & ->).
    specialize (Hstep _ _ _ _ Hst E3).
    destruct r; apply ret_Ret_inv in E4; subst; exact Hstep.
Qed.

Lemma while_loop_post {S} (P : S -> Prop) fuel cond (body : S -> M (S + S)) s l s' :
  P s ->
  (forall st l' r, P st -> body st = Ret l' r -> P (match r with inl a | inr a => a end)) ->
  while_loop fuel cond body s = Ret l s' -> P s'.
Proof.
  intros H0 Hstep. revert s l H0. induction fuel as [|k IH]; intros s l H0 E; simpl in E.
  - destruct (cond s); [discriminate|]. apply ret_Ret_inv in E. subst. exact H0.
  - destruct (cond s); [|apply ret_Ret_inv in E; subst; exact H0].
    apply bind_Ret_inv in E as (l3 & r & l4 & E3 & E4 & ->).
    specialize (Hstep _ _ _ H0 E3). destruct r.
    + eapply IH; [exact Hstep|exact E4].
    + apply ret_Ret_inv in E4. subst. exact Hstep.
Qed.


(* ===================================================================== *)
(** ** The reader: volume geometry *)
(* ===================================================================== *)

Lemma hits_bound {A} (l : list (option A)) : 0 <= hits l <= Z.of_nat (length l).
Proof. induction l as [|[a|] l IH]; simpl in *; lia. Qed.

Lemma hits_cons {A} (o : option A) (l : list (option A)) :
  hits (o :: l) = (if o is Some _ then 1 else 0) + hits l.
Proof. reflexivity. Qed.

Lemma hits_all {A K} (g : K -> option A) (l : list K) :
  hits (g <$> l) = Z.of_nat (length l) <-> (forall k, k ∈ l -> is_Some (g k)).
Proof.
  induction l as [|k0 l IH].
  - split; [intros _ k Hk; inversion Hk|reflexivity].
  - pose proof (hits_bound (g <$> l)) as B. rewrite length_fmap in B.
    rewrite fmap_cons, hits_cons, length_cons, Nat2Z.inj_succ.
    split.
    + intros Hs k Hk. destruct (g k0) as [a|] eqn:E; [|lia].
      apply elem_of_cons in Hk as [->|Hk]; [rewrite E; eauto|].
      apply IH; [lia|exact Hk].
    + intros Hall. destruct (Hall k0) as [a Ha]; [left|]. rewrite Ha.
      assert (hits (g <$> l) = Z.of_nat (length l)); [|lia].
      apply IH. intros k Hk. apply Hall. right. exact Hk.
Qed.

Section VolumeGeometry.
Context `{Collaborators}.

Lemma vg_step_snd {A} (o : option A) g (st : VOL_GEOM * Z) :
  (vg_step o g st).2 = st.2 + hits [o].
Proof. destruct o; simpl; lia. Qed.

Lemma vg_step_valid {A} (o : option A) g (st : VOL_GEOM * Z) :
  (forall k a, valid (g k a) = valid k) -> valid (vg_step o g st).1 = valid st.1.
Proof. intros Hg. destruct o; simpl; [apply Hg|reflexivity]. Qed.

Lemma scan_d_Some md key :
  is_Some (scan_d md key) <-> exists stmp i, md !! key = Some stmp /\ sscanf_d stmp = Some i.
Proof.
  unfold scan_d, gifti_get_meta_value. destruct (md !! key) as [s|].
  - split; [intros [i Hi]; eauto | intros (s' & i & [= <-] & Hi); eauto].
  - split; [intros [? ?]; discriminate | intros (? & ? & ? & _); discriminate].
Qed.

Lemma scan_f_Some md key :
  is_Some (scan_f md key) <-> exists stmp a, md !! key = Some stmp /\ sscanf_f stmp = Some a.
Proof.
  unfold scan_f, gifti_get_meta_value. destruct (md !! key) as [s|].
  - split; [intros [i Hi]; eauto | intros (s' & i & [= <-] & Hi); eauto].
  - split; [intros [? ?]; discriminate | intros (? & ? & ? & _); discriminate].
Qed.

Lemma volgeom_complete_hits md :
  volgeom_complete md <->
  hits (scan_d md <$> volgeom_keys_d) + hits (scan_f md <$> volgeom_keys_f) = 18.
Proof.
  pose proof (hits_bound (scan_d md <$> volgeom_keys_d)) as Bd.
  pose proof (hits_bound (scan_f md <$> volgeom_keys_f)) as Bf.
  pose proof (hits_all (scan_d md) volgeom_keys_d) as Ad.
  pose proof (hits_all (scan_f md) volgeom_keys_f) as Af.
  rewrite length_fmap in Bd. rewrite length_fmap in Bf.
  change (Z.of_nat (length volgeom_keys_d)) with 3 in *.
  change (Z.of_nat (length volgeom_keys_f)) with 15 in *.
  unfold volgeom_complete. split.
  - intros [Hd Hf].
    assert (hits (scan_d md <$> volgeom_keys_d) = 3).
    { apply Ad. intros k Hk. apply scan_d_Some, Hd, Hk. }
    assert (hits (scan_f md <$> volgeom_keys_f) = 15).
    { apply Af. intros k Hk. apply scan_f_Some, Hf, Hk. }
    lia.
  - intros Hs. split.
    + intros k Hk. apply scan_d_Some. apply Ad; [lia|exact Hk].
    + intros k Hk. apply scan_f_Some. apply Af; [lia|exact Hk].
Qed.

Lemma read_volgeom_valid md g :
  valid (read_volgeom md g) =
    if hits (scan_d md <$> volgeom_keys_d) + hits (scan_f md <$> volgeom_keys_f) =? 18
    then 1 else valid g.
Proof.
  unfold read_volgeom.
  match goal with |- context [if ?s.2 =? 18 then _ else _] => set (S := s) end.
  assert (Hn : S.2 = hits (scan_d md <$> volgeom_keys_d) + hits (scan_f md <$> volgeom_keys_f)).
  { subst S. rewrite !vg_step_snd. simpl. lia. }
  assert (Hv : valid S.1 = valid g).
  { subst S. rewrite !vg_step_valid by reflexivity. reflexivity. }
  rewrite Hn. destruct (_ =? 18); [reflexivity|exact Hv].
Qed.

Lemma read_cmdlines_vg fuel md mris l m :
  read_cmdlines fuel md mris = Ret l m -> vg m = vg mris.
Proof.
  unfold read_cmdlines. intros E. minv; simpl; destruct (scan_d md "NUM_TAG_CMDLINE"); reflexivity.
Qed.

Lemma MRISsetXYZ_vg mris vno a b c l m :
  MRISsetXYZ mris vno a b c = Ret l m -> vg m = vg mris.
Proof. unfold MRISsetXYZ. intros E. minv. reflexivity. Qed.

Lemma read_vertices_vg coords nv mris l m :
  read_vertices coords nv mris = Ret l m -> vg m = vg mris.
Proof.
  unfold read_vertices. apply (for_Z_post (fun m => vg m = vg mris)); [reflexivity|].
  intros i st l' st' Hst E. minv. use MRISsetXYZ_vg. simpl in *. congruence.
Qed.

Lemma read_faces_vg da nf mris l m :
  read_faces da nf mris = Ret l m -> vg m = vg mris.
Proof.
  unfold read_faces. apply (for_Z_post (fun m => vg m = vg mris)); [reflexivity|].
  intros i st l' st' Hst. apply (for_Z_post (fun m => vg m = vg mris)); [exact Hst|].
  clear. intros j st l' st' Hst E. minv. exact Hst.
Qed.

Lemma alloc_face_lists_vg nv mris l m :
  alloc_face_lists nv mris = Ret l m -> vg m = vg mris.
Proof.
  unfold alloc_face_lists. apply (for_Z_post (fun m => vg m = vg mris)); [reflexivity|].
  intros i st l' st' Hst E. minv. exact Hst.
Qed.

Lemma fill_face_lists_vg mris l m :
  fill_face_lists mris = Ret l m -> vg m = vg mris.
Proof.
  unfold fill_face_lists. apply (for_Z_post (fun m => vg m = vg mris)); [reflexivity|].
  intros i st l' st' Hst E. minv.
  match goal with E : for_Z _ _ _ = _ |- _ => revert E end.
  apply (for_Z_post (fun m => vg m = vg mris)); [exact Hst|].
  clear. intros j st l' st' Hst E. minv. exact Hst.
Qed.

Lemma fill_face_slots_vg nv mris l m :
  fill_face_slots nv mris = Ret l m -> vg m = vg mris.
Proof.
  unfold fill_face_slots. apply (for_Z_post (fun m => vg m = vg mris)); [reflexivity|].
  intros i st l' st' Hst E. minv.
  match goal with E : for_Z _ _ _ = _ |- _ => revert E end.
  apply (for_Z_post (fun m => vg m = vg mris)); [exact Hst|].
  intros j st1 ll st1' Hst1. apply (for_Z_post (fun m => vg m = vg mris)); [exact Hst1|].
  clear. intros k st l' st' Hst E. minv; exact Hst.
Qed.

Lemma read_coordsys_vg coords mris l m :
  read_coordsys coords mris = Ret l m -> vg m = vg mris.
Proof.
  unfold read_coordsys. apply (for_Z_post (fun m => vg m = vg mris)); [reflexivity|].
  intros i st l' st' Hst E. minv; exact Hst.
Qed.

Lemma read_geometry_vg fuel fname coords faces_da l m :
  read_geometry fuel fname coords faces_da = Ret l m ->
  vg m = read_volgeom (meta coords) zero_vg.
Proof.
  unfold read_geometry. intros E. minv.
  use read_cmdlines_vg. use read_vertices_vg. use read_faces_vg.
  use alloc_face_lists_vg. use fill_face_lists_vg.
  use fill_face_slots_vg. use read_coordsys_vg.
  simpl in *.
  destruct (scan_f (meta coords) "TAG_GROUP_AVG_SURFACE_AREA"); simpl in *; congruence.
Qed.

Lemma set_vertex_vg mris vno vx l m :
  set_vertex mris vno vx = Ret l m -> vg m = vg mris.
Proof. unfold set_vertex. intros E. minv. reflexivity. Qed.

Lemma read_shape_vg k darr st l st' :
  read_shape k darr st = Ret l st' -> vg (os_mris st') = vg (os_mris st).
Proof.
  unfold read_shape. intros E.
  destruct (negb (found_curv_data st =? 0)); minv; try reflexivity; simpl;
    match goal with E : for_Z _ _ _ = _ |- _ => revert E end;
    apply (for_Z_post (fun p => vg p.1 = vg (os_mris st))); try reflexivity;
    clear; intros i [m o] l' st' Hst E; minv; simpl in *; try exact Hst;
    use set_vertex_vg; congruence.
Qed.

Lemma read_statval_vg darr st l st' :
  read_statval darr st = Ret l st' -> vg (os_mris st') = vg (os_mris st).
Proof.
  unfold read_statval. intros E.
  destruct (negb (found_statval_data st =? 0)); minv; try reflexivity; simpl;
    match goal with E : for_Z _ _ _ = _ |- _ => revert E end;
    apply (for_Z_post (fun p => vg p.1 = vg (os_mris st))); try reflexivity;
    clear; intros i [m o] l' st' Hst E; minv; simpl in *; try exact Hst;
    use set_vertex_vg; congruence.
Qed.

Lemma read_vector_vg darr st l st' :
  read_vector darr st = Ret l st' -> vg (os_mris st') = vg (os_mris st).
Proof.
  unfold read_vector. intros E. minv. simpl.
  match goal with E : for_Z _ _ _ = _ |- _ => revert E end.
  apply (for_Z_post (fun m => vg m = vg (os_mris st))); [reflexivity|].
  clear. intros i m l' st' Hst E. minv; try exact Hst.
  use set_vertex_vg. congruence.
Qed.

Lemma read_rgb_vg darr st l st' :
  read_rgb darr st = Ret l st' -> vg (os_mris st') = vg (os_mris st).
Proof.
  unfold read_rgb. intros E. minv. simpl.
  match goal with E : for_Z _ _ _ = _ |- _ => revert E end.
  apply (for_Z_post (fun m => vg m = vg (os_mris st))); [reflexivity|].
  clear. intros i m l' st' Hst E. minv; try exact Hst.
  use set_vertex_vg. congruence.
Qed.

Lemma read_label_vg fuel image ctab darr st l st' :
  read_label fuel image ctab darr st = Ret l st' -> vg (os_mris st') = vg (os_mris st).
Proof.
  unfold read_label. intros E.
  destruct (ct (os_mris st)); [|discriminate]. destruct ctab; [|discriminate].
  apply bind_Ret_inv in E as (l1 & buf & l2 & _ & E & ->).
  apply bind_Ret_inv in E as (l3 & [[m ni] vno] & l4 & E & E' & ->).
  apply ret_Ret_inv in E'. subst. simpl. revert E.
  apply (while_loop_post (fun p => vg p.1.1 = vg (os_mris st))); [reflexivity|].
  clear. intros [[m ni] vno] l' r Hst E. simpl in Hst.
  minv; simpl; try exact Hst; use set_vertex_vg; congruence.
Qed.

Lemma read_darray_vg fuel image ctab k st l st' :
  read_darray fuel image ctab k st = Ret l st' -> vg (os_mris st') = vg (os_mris st).
Proof.
  unfold read_darray. intros E.
  apply bind_Ret_inv in E as (l1 & darr & l2 & _ & E & ->).
  destruct ((intent darr =? NIFTI_INTENT_POINTSET) || (intent darr =? NIFTI_INTENT_TRIANGLE)).
  { apply ret_Ret_inv in E. subst. reflexivity. }
  destruct (intent darr =? NIFTI_INTENT_NODE_INDEX).
  { minv. reflexivity. }
  destruct (records_cols darr) as [nv nc].
  destruct ((nv <=? 0) || negb (nv =? nvertices (os_mris st)) || (expected_cols darr <? nc));
    [discriminate|].
  destruct (intent darr =? NIFTI_INTENT_SHAPE); [exact (read_shape_vg _ _ _ _ _ E)|].
  destruct (intent darr =? NIFTI_INTENT_LABEL); [exact (read_label_vg _ _ _ _ _ _ _ E)|].
  destruct (intent darr =? NIFTI_INTENT_VECTOR); [exact (read_vector_vg _ _ _ _ E)|].
  destruct ((intent darr =? NIFTI_INTENT_RGB_VECTOR) || (intent darr =? NIFTI_INTENT_RGBA_VECTOR));
    [exact (read_rgb_vg _ _ _ _ E)|].
  destruct (intent darr =? NIFTI_INTENT_GENMATRIX); [minv; reflexivity|].
  exact (read_statval_vg _ _ _ _ E).
Qed.

Lemma read_colortable_darray image fname l c image' :
  read_colortable image fname = Ret l (c, image') -> darray image' = darray image.
Proof.
  unfold read_colortable. intros E.
  destruct (0 <? lt_length (labeltable image)); [|apply ret_Ret_inv in E; congruence].
  destruct (negb (gifti_valid_LabelTable (labeltable image))); [discriminate|].
  apply bind_Ret_inv in E as (l1 & es & l2 & _ & E & ->).
  apply ret_Ret_inv in E. injection E as _ <-. reflexivity.
Qed.

Lemma find_geometry_darray image image' :
  darray image' = darray image -> find_geometry image' = find_geometry image.
Proof. intros E. unfold find_geometry. rewrite E. reflexivity. Qed.

(** The volume geometry of the surface read is the one scanned from the
    metadata of the coordinate array. *)
Lemma reader_vg fuel image fname mris daNum outmri frame coords faces_da l m o fr :
  find_geometry image = (Some coords, Some faces_da) ->
  mrisReadGIFTIdanum fuel image fname mris daNum outmri frame = Ret l (m, o, fr) ->
  vg m = read_volgeom (meta coords) zero_vg.
Proof.
  intros Hg E. unfold mrisReadGIFTIdanum in E.
  apply bind_Ret_inv in E as (l1 & [c image'] & l2 & Ec & E & ->).
  rewrite (find_geometry_darray _ _ (read_colortable_darray _ _ _ _ _ Ec)), Hg in E.
  apply bind_Ret_inv in E as (l3 & om & l4 & Eg & E & ->).
  apply bind_Ret_inv in Eg as (l5 & m0 & l6 & Eg & Er & ->).
  apply ret_Ret_inv in Er. subst om.
  apply read_geometry_vg in Eg.
  apply bind_Ret_inv in E as (l7 & m1 & l8 & E1 & E & ->).
  apply bind_Ret_inv in E as (l9 & st & l10 & E2 & E & ->).
  apply ret_Ret_inv in E. injection E as <- <- <-.
  assert (vg m1 = vg m0) as Hm1 by (minv; reflexivity).
  rewrite <- Eg, <- Hm1. revert E2.
  apply (for_Z_post (fun st => vg (os_mris st) = vg m1)); [reflexivity|].
  intros i st0 l' st' Hst E'. apply read_darray_vg in E'. congruence.
Qed.

(** C8: the surface read from a container with coordinates and faces
    has its volume geometry marked valid ([valid] = 1) exactly when all
    18 named fields are present in the metadata of the coordinate array
    and are read by [sscanf]; when one is missing or is not read, the
    geometry is left unmarked ([valid] = 0). *)
Theorem volgeom_valid_iff_complete fuel image fname mris daNum outmri frame
    coords faces_da l m o fr :
  find_geometry image = (Some coords, Some faces_da) ->
  mrisReadGIFTIdanum fuel image fname mris daNum outmri frame = Ret l (m, o, fr) ->
  (valid (vg m) = 1 <-> volgeom_complete (meta coords))
  /\ (~ volgeom_complete (meta coords) -> valid (vg m) = 0).
Proof.
  intros Hg E. rewrite (reader_vg _ _ _ _ _ _ _ _ _ _ _ _ _ Hg E).
  rewrite read_volgeom_valid, volgeom_complete_hits.
  destruct (Z.eqb_spec
              (hits (scan_d (meta coords) <$> volgeom_keys_d)
               + hits (scan_f (meta coords) <$> volgeom_keys_f)) 18) as [E18|E18].
  - split; [tauto|]. intros Hn. contradiction.
  - simpl. split; [|reflexivity]. split; [discriminate|]. intros E'. contradiction.
Qed.

End VolumeGeometry.

(* ===================================================================== *)
(** ** The label writer *)
(* ===================================================================== *)

Lemma bind_Ret {A B} (k : A -> M B) l a l' b :
  k a = Ret l' b -> bind (Ret l a) k = Ret (l ++ l') b.
Proof. intros E. unfold bind. rewrite E. reflexivity. Qed.

Lemma for_loop_inv_log {S} (I : nat -> list diag -> S -> Prop) n
    (body : nat -> S -> M S) s :
  I O [] s ->
  (forall i l st, (i < n)%nat -> I i l st ->
     exists l' st', body i st = Ret l' st' /\ I (Datatypes.S i) (l ++ l') st') ->
  exists l st', for_loop n body s = Ret l st' /\ I n l st'.
Proof.
  intros H0 Hstep. induction n as [|n IH].
  - exists [], s. split; [reflexivity | exact H0].
  - destruct IH as (l & st & E & Hst).
    { intros i l st Hi. apply Hstep. lia. }
    destruct (Hstep n l st ltac:(lia) Hst) as (l' & st' & E' & Hst').
    exists (l ++ l'), st'. split; [|exact Hst'].
    rewrite for_loop_S, E. apply bind_Ret. exact E'.
Qed.

Lemma for_Z_inv_log {S} (I : Z -> list diag -> S -> Prop) n (body : Z -> S -> M S) s :
  0 <= n ->
  I 0 [] s ->
  (forall i l st, 0 <= i < n -> I i l st ->
     exists l' st', body i st = Ret l' st' /\ I (i + 1) (l ++ l') st') ->
  exists l st', for_Z n body s = Ret l st' /\ I n l st'.
Proof.
  intros Hn H0 Hstep. unfold for_Z.
  destruct (for_loop_inv_log (fun i l st => I (Z.of_nat i) l st) (Z.to_nat n)
              (fun i => body (Z.of_nat i)) s) as (l & st & E & Hst).
  - exact H0.
  - intros i l st Hi Hst.
    destruct (Hstep (Z.of_nat i) l st ltac:(lia) Hst) as (l' & st' & E' & Hst').
    exists l', st'. split; [exact E'|].
    replace (Z.of_nat (Datatypes.S i)) with (Z.of_nat i + 1) by lia. exact Hst'.
  - exists l, st. split; [exact E|]. rewrite Z2Nat.id in Hst by lia. exact Hst.
Qed.

Lemma length_zero_iff (s : string) : (String.length s =? 0)%nat = true <-> s = "".
Proof. destruct s; simpl; split; intros; congruence. Qed.

Lemma rgba_at_app_old lt_len k l rg new (i : nat) :
  (4 * i + 4 <= length rg)%nat ->
  rgba_at (mkLT lt_len k l (Some (rg ++ new))) i = rgba_at (mkLT lt_len k l (Some rg)) i.
Proof.
  intros Hi. unfold rgba_at. cbn [lt_rgba from_option]. unfold id.
  rewrite drop_app_le by lia. rewrite take_app_le; [reflexivity|].
  rewrite length_drop. lia.
Qed.

Lemma rgba_at_app_new lt_len k l rg new (i : nat) :
  length rg = (4 * i)%nat -> length new = 4%nat ->
  rgba_at (mkLT lt_len k l (Some (rg ++ new))) i = new.
Proof.
  intros Hi Hn. unfold rgba_at. cbn [lt_rgba from_option]. unfold id.
  rewrite drop_app_length'; [|symmetry; exact Hi]. apply take_ge. lia.
Qed.

Lemma write_labeltable_spec (ctab : COLOR_TABLE) (es : list COLOR_TABLE_ENTRY)
    (rest : list (option COLOR_TABLE_ENTRY)) :
  entries ctab = (Some <$> es) ++ rest ->
  nentries ctab = Z.of_nat (length es) ->
  exists log lt,
    write_labeltable ctab = Ret log lt
    /\ lt_length lt = nentries ctab
    /\ forall i e, es !! i = Some e -> label_facts i e lt log.
Proof.
  intros He Hn. unfold write_labeltable.
  destruct (for_Z_inv_log
    (fun i log lt =>
       lt_length lt = nentries ctab
       /\ length (lt_key lt) = Z.to_nat i
       /\ length (lt_label lt) = Z.to_nat i
       /\ (exists rg, lt_rgba lt = Some rg /\ length rg = (4 * Z.to_nat i)%nat)
       /\ forall j e, es !! j = Some e -> (j < Z.to_nat i)%nat -> label_facts j e lt log)
    (nentries ctab)
    (fun idx lt =>
         let* entry := at_index (entries ctab) idx in
         match entry with
         | None => Undefined
         | Some e =>
             let* label :=
               (if negb (String.length (name e) =? 0)%nat then ret (name e)
                else
                  let tmpname := "unknown_" +:+ pretty idx in
                  warn (DiagLabelName idx tmpname) ;;; ret tmpname) in
             let rgba :=
               if (String.length (name e) =? 0)%nat
                  || String.eqb label "unknown" || String.eqb label "Unknown"
               then [IEEE.zero; IEEE.zero; IEEE.zero; IEEE.zero]
               else [rf e; gf e; bf e; one32] in
             ret (mkLT (lt_length lt) (lt_key lt ++ [idx]) (lt_label lt ++ [label])
                       (Some (default [] (lt_rgba lt) ++ rgba)))
         end)
    (mkLT (nentries ctab) [] [] (Some []))) as (log & lt & E & Hlen & _ & _ & _ & Hall).
  - lia.
  - simpl. split; [reflexivity|]. split; [reflexivity|]. split; [reflexivity|].
    split; [exists []; split; reflexivity|]. intros j e _ Hj. lia.
  - intros i log lt Hi (Hlen & Hk & Hl & (rg & Hrg & Hrgl) & Hall).
    assert (Hlk : es !! Z.to_nat i = Some (default unknown_entry (es !! Z.to_nat i))).
    { destruct (es !! Z.to_nat i) eqn:E; [reflexivity|].
      apply lookup_ge_None in E. lia. }
    set (e := default unknown_entry (es !! Z.to_nat i)) in *.
    rewrite (at_index_Some _ i (Some e));
      [|lia|rewrite He, lookup_app_l, list_lookup_fmap, Hlk by (rewrite length_fmap; lia); reflexivity].
    rewrite bind_ret_l. rewrite Hrg. simpl default.
    replace (Z.to_nat (i + 1)) with (Datatypes.S (Z.to_nat i)) by lia.
    assert (Hold : forall lab col l', length col = 4%nat ->
      forall j e0, es !! j = Some e0 -> (j < Z.to_nat i)%nat ->
        label_facts j e0 (mkLT (lt_length lt) (lt_key lt ++ [i]) (lt_label lt ++ [lab])
                               (Some (rg ++ col))) (log ++ l')).
    { intros lab col l' Hcol j e0 Hj Hlt. destruct (Hall j e0 Hj Hlt) as (F1 & F2 & F3 & F4 & F5).
      assert (Hrgj : forall q, rgba_at lt j = q ->
                rgba_at (mkLT (lt_length lt) (lt_key lt ++ [i]) (lt_label lt ++ [lab])
                               (Some (rg ++ col))) j = q).
      { intros q <-. rewrite rgba_at_app_old by lia. unfold rgba_at. simpl. rewrite Hrg. reflexivity. }
      unfold label_facts. simpl.
      rewrite !lookup_app_l by lia. repeat split; auto.
      - apply F3; assumption.
      - apply elem_of_app. left. apply F3. assumption. }
    destruct (String.length (name e) =? 0)%nat eqn:En; simpl negb; cbv iota.
    + apply length_zero_iff in En.
      eexists _, _. split.
      { unfold warn. unfold bind at 2. unfold ret at 1. rewrite app_nil_r.
        apply (bind_Ret _ _ _ []). reflexivity. }
      rewrite app_nil_r. simpl orb. cbv iota.
      split; [exact Hlen|].
      split; [simpl; rewrite length_app, Hk; simpl; lia|].
      split; [simpl; rewrite length_app, Hl; simpl; lia|].
      split; [eexists; split; [reflexivity|rewrite length_app, Hrgl; simpl; lia]|].
      intros j e0 Hj Hlt. destruct (decide (j = Z.to_nat i)) as [->|Hne].
      * rewrite Hlk in Hj. injection Hj as <-. unfold label_facts. simpl.
        rewrite !list_lookup_middle by lia. rewrite Z2Nat.id by lia.
        rewrite rgba_at_app_new by (try reflexivity; lia).
        repeat split; try congruence. apply elem_of_app. right. left.
      * apply Hold; [reflexivity|exact Hj|lia].
    + assert (Hne : name e <> "").
      { intros Hc. apply length_zero_iff in Hc. congruence. }
      rewrite bind_ret_l. simpl orb.
      eexists [], _. split; [reflexivity|].
      split; [exact Hlen|].
      split; [simpl; rewrite length_app, Hk; simpl; lia|].
      split; [simpl; rewrite length_app, Hl; simpl; lia|].
      split.
      { eexists; split; [reflexivity|]. rewrite length_app, Hrgl.
        destruct (_ || _); simpl; lia. }
      intros j e0 Hj Hlt. destruct (decide (j = Z.to_nat i)) as [->|Hne'].
      * rewrite Hlk in Hj. injection Hj as <-. unfold label_facts. simpl.
        rewrite !list_lookup_middle by lia. rewrite Z2Nat.id by lia.
        rewrite rgba_at_app_new; [|exact Hrgl|destruct (_ || _); reflexivity].
        repeat split; try congruence.
        -- intros [Hc|[Hc|Hc]]; [congruence| |]; rewrite Hc; reflexivity.
        -- intros _ Hu HU.
           destruct (String.eqb_spec (name e) "unknown"); [congruence|].
           destruct (String.eqb_spec (name e) "Unknown"); [congruence|]. reflexivity.
      * apply Hold; [destruct (_ || _); reflexivity|exact Hj|lia].
  - exists log, lt. split; [exact E|]. split; [exact Hlen|].
    intros i e Hi. apply Hall; [exact Hi|]. apply lookup_lt_Some in Hi. lia.
Qed.

Lemma label_facts_mono i e lt log log' :
  label_facts i e lt log -> label_facts i e lt (log ++ log').
Proof.
  intros (F1 & F2 & F3 & F4 & F5). repeat split; auto.
  - apply F3; assumption.
  - apply elem_of_app. left. apply F3. assumption.
Qed.

(** The colour-table lookup reports no error; the index it gives is one
    of the table or -1. *)
Lemma CTABfindAnnotation_result (ctab : COLOR_TABLE) (annot : Z) :
  (CTABfindAnnotation ctab annot).1 = NO_ERROR.
Proof. unfold CTABfindAnnotation. destruct (find_annotation _ _ _ _); reflexivity. Qed.

Lemma find_annotation_range (es : list (option COLOR_TABLE_ENTRY)) (k : nat) (idx annot i : Z) :
  find_annotation es k idx annot = Some i -> idx <= i < idx + Z.of_nat k.
Proof.
  revert k idx. induction es as [|[c|] es IH]; intros [|k] idx; cbn [find_annotation];
    try discriminate.
  - destruct (_ =? _); [intros [= <-]; lia|]. intros Hf. apply IH in Hf. lia.
  - intros Hf. apply IH in Hf. lia.
Qed.

(** The loop "Copy our 'annotation' data for each vertex": after k
    rounds every vertex met that is not ripped has the index of its
    annotation stored. *)
Lemma label_loop (mris : MRIS) (ctab : COLOR_TABLE) (init : list cell) (k : nat) :
  length (vertices mris) = length init -> (k <= length init)%nat ->
  exists buf,
    for_loop k
      (fun i label_data =>
         let* vx := at_index (vertices mris) (Z.of_nat i) in
         if ripflag vx then ret label_data else
         let '(result, theIdx) := CTABfindAnnotation ctab (annotation vx) in
         if negb (result =? 0) then Fail [] ERROR_BADFILE
         else put_index label_data (Z.of_nat i) (CInt (uint_of_int theIdx)))
      init = Ret [] buf
    /\ length buf = length init
    /\ (forall v vx, (v < k)%nat -> vertices mris !! v = Some vx ->
          buf !! v = if ripflag vx then init !! v
                     else Some (CInt (uint_of_int
                                        (CTABfindAnnotation ctab (annotation vx)).2)))
    /\ (forall v, (k <= v)%nat -> buf !! v = init !! v).
Proof.
  intros Hlen. induction k as [|k IH]; intros Hk.
  - exists init. split; [reflexivity|]. split; [reflexivity|].
    split; [intros; lia|reflexivity].
  - rewrite for_loop_S.
    destruct (IH ltac:(lia)) as (buf & E & Hl & Hdone & Hrest).
    rewrite E, bind_Ret_nil.
    destruct (lookup_lt_is_Some_2 (vertices mris) k ltac:(lia)) as (vx & Hvx).
    rewrite (at_index_Some _ (Z.of_nat k) vx ltac:(lia))
      by (rewrite Nat2Z.id; exact Hvx).
    rewrite bind_ret_l. destruct (ripflag vx) eqn:Hrip.
    + exists buf. split; [reflexivity|]. split; [exact Hl|]. split.
      * intros v vx' Hv Hvx'. destruct (decide (v = k)) as [->|Hne].
        -- rewrite Hvx in Hvx'. injection Hvx' as <-. rewrite Hrip. apply Hrest. lia.
        -- apply Hdone; [lia|exact Hvx'].
      * intros v Hv. apply Hrest. lia.
    + pose proof (CTABfindAnnotation_result ctab (annotation vx)) as Hres.
      destruct (CTABfindAnnotation ctab (annotation vx)) as [result theIdx] eqn:Hfind.
      cbn [fst] in Hres. subst result. cbn [NO_ERROR Z.eqb negb].
      rewrite put_index_lt by lia. rewrite Nat2Z.id.
      exists (<[k := CInt (uint_of_int theIdx)]> buf). split; [reflexivity|].
      split; [rewrite length_insert; exact Hl|]. split.
      * intros v vx' Hv Hvx'. destruct (decide (v = k)) as [->|Hne].
        -- rewrite Hvx in Hvx'. injection Hvx' as <-. rewrite Hrip, Hfind.
           apply list_lookup_insert_eq. lia.
        -- rewrite list_lookup_insert_ne by lia. apply Hdone; [lia|exact Hvx'].
      * intros v Hv. rewrite list_lookup_insert_ne by lia. apply Hrest. lia.
Qed.

(** The label writer on a colour table of at least one entry, none of
    them NULL: it returns, with the table of [write_labeltable] in the
    image and one new array that holds an element per vertex. *)
Lemma label_writer_spec (mris : MRIS) (image : gifti_image) (intent_code : Z)
    (ctab : COLOR_TABLE) (es : list COLOR_TABLE_ENTRY)
    (rest : list (option COLOR_TABLE_ENTRY)) :
  ct mris = Some ctab ->
  entries ctab = (Some <$> es) ++ rest ->
  nentries ctab = Z.of_nat (length es) -> (0 < length es)%nat ->
  0 <= nvertices mris ->
  length (vertices mris) = Z.to_nat (nvertices mris) ->
  exists log lt md buf,
    write_labeltable ctab = Ret log lt
    /\ MRISwriteGIFTILabel mris image intent_code
       = Ret log (add_darrays (set_labeltable image lt)
                    [mkDA NIFTI_INTENT_LABEL NIFTI_TYPE_INT32 GIFTI_IND_ORD_ROW_MAJOR 1
                          [nvertices mris; 0; 0; 0; 0; 0] (nvertices mris)
                          (Some buf) md []])
    /\ md !! "Name" = (if (length es =? 2)%nat then lt_label lt !! 1%nat
                       else Some "node label")
    /\ length buf = Z.to_nat (nvertices mris)
    /\ forall v vx, vertices mris !! v = Some vx ->
         buf !! v = Some (CInt (if ripflag vx then 0
                                else uint_of_int
                                       (CTABfindAnnotation ctab (annotation vx)).2)).
Proof.
  intros Hct Hent Hn Hpos HN Hlen.
  destruct (write_labeltable_spec ctab es rest Hent Hn) as (log & lt & Elt & Hll & Hfacts).
  assert (Hnv : gifti_darray_nvals 1 [nvertices mris; 0; 0; 0; 0; 0] = nvertices mris)
    by (unfold gifti_darray_nvals; change (Z.to_nat 1) with 1%nat;
        cbn [take fold_right]; lia).
  assert (Hmd : exists md,
    (if lt_length lt =? 2
     then let* l1 := at_index (lt_label lt) 1 in
          ret (gifti_add_to_meta (gifti_add_to_meta ∅ "Name" "node label") "Name" l1)
     else ret (gifti_add_to_meta ∅ "Name" "node label")) = Ret [] md
    /\ md !! "Name" = if (length es =? 2)%nat then lt_label lt !! 1%nat
                      else Some "node label").
  { rewrite Hll, Hn. destruct (Nat.eqb_spec (length es) 2) as [H2|H2].
    - rewrite H2. cbn [Z.of_nat Pos.of_succ_nat Pos.succ Z.eqb Pos.eqb].
      destruct (lookup_lt_is_Some_2 es 1 ltac:(lia)) as (e & He).
      destruct (Hfacts 1%nat e He) as (_ & Hnamed & Hunnamed & _).
      assert (Hl1 : exists l1, lt_label lt !! 1%nat = Some l1).
      { destruct (decide (name e = "")) as [Hemp|Hne].
        - destruct (Hunnamed Hemp) as (Hl1 & _). eexists. exact Hl1.
        - eexists. apply Hnamed. exact Hne. }
      destruct Hl1 as (l1 & Hl1).
      rewrite (at_index_Some _ 1 l1 ltac:(lia) Hl1), bind_ret_l.
      eexists. split; [reflexivity|]. rewrite Hl1. apply lookup_insert_eq.
    - destruct (Z.eqb_spec (Z.of_nat (length es)) 2); [lia|].
      eexists. split; [reflexivity|]. apply lookup_insert_eq. }
  destruct Hmd as (md & Emd & Hname).
  assert (Hne0 : (nentries ctab =? 0) = false) by (apply Z.eqb_neq; lia).
  pose proof (label_loop mris ctab
                (calloc_data NIFTI_TYPE_INT32 (nvertices mris))
                (Z.to_nat (nvertices mris))) as Hloop.
  unfold calloc_data in Hloop. rewrite length_replicate in Hloop.
  destruct (Hloop Hlen (Nat.le_refl _)) as (buf & E & Hl & Hdone & _).
  exists log, lt, md, buf.
  split; [exact Elt|]. split; [|split; [exact Hname|split; [exact Hl|]]].
  - unfold MRISwriteGIFTILabel. rewrite Hct, Hne0, Elt.
    rewrite <- (app_nil_r log) at 2. apply bind_Ret. cbv zeta. rewrite Emd, bind_Ret_nil.
    unfold for_Z, calloc_data. rewrite Hnv, E, bind_Ret_nil. reflexivity.
  - intros v vx Hvx. pose proof (lookup_lt_Some _ _ _ Hvx) as Hlt.
    rewrite (Hdone v vx ltac:(lia) Hvx).
    destruct (ripflag vx); [|reflexivity].
    apply lookup_replicate_2. lia.
Qed.

(** C9: the label table [MRISwriteGIFTILabel] builds. For a surface
    whose colour table has at least one entry, none of them NULL, the
    writer returns an image with a label table of as many entries as the
    colour table. Every key is the index of its entry; a named entry
    keeps its name; an unnamed entry is called unknown_<i> and a
    diagnostic of the writer says so; an entry that is unnamed or called
    "unknown" or "Unknown" gets the colour (0,0,0,0); any other entry
    gets its own colour with alpha 1. *)
Theorem label_table_emission (mris : MRIS) (image : gifti_image) (intent_code : Z)
    (ctab : COLOR_TABLE) (es : list COLOR_TABLE_ENTRY)
    (rest : list (option COLOR_TABLE_ENTRY)) :
  ct mris = Some ctab ->
  entries ctab = (Some <$> es) ++ rest ->
  nentries ctab = Z.of_nat (length es) -> (0 < length es)%nat ->
  0 <= nvertices mris ->
  length (vertices mris) = Z.to_nat (nvertices mris) ->
  exists log image',
    MRISwriteGIFTILabel mris image intent_code = Ret log image'
    /\ lt_length (labeltable image') = nentries ctab
    /\ forall i e, es !! i = Some e -> label_facts i e (labeltable image') log.
Proof.
  intros Hct Hent Hn Hpos HN Hlen.
  destruct (label_writer_spec mris image intent_code ctab es rest Hct Hent Hn Hpos HN Hlen)
    as (log & lt & md & buf & Elt & Ew & _).
  destruct (write_labeltable_spec ctab es rest Hent Hn) as (log0 & lt0 & E0 & Hll & Hfacts).
  rewrite Elt in E0. injection E0 as <- <-.
  eexists log, _. split; [exact Ew|]. cbn [labeltable add_darrays set_labeltable].
  split; [exact Hll|exact Hfacts].
Qed.

Lemma label_table_emission_witness :
  ct labelled_mris = Some three_table
  /\ entries three_table = (Some <$> three_entries) ++ [None]
  /\ nentries three_table = Z.of_nat (length three_entries)
  /\ exists log image',
       MRISwriteGIFTILabel labelled_mris empty_image NIFTI_INTENT_LABEL = Ret log image'
       /\ lt_length (labeltable image') = nentries three_table
       /\ forall i e, three_entries !! i = Some e ->
                      label_facts i e (labeltable image') log.
Proof.
  split; [reflexivity|]. split; [reflexivity|]. split; [reflexivity|].
  apply (label_table_emission labelled_mris empty_image NIFTI_INTENT_LABEL three_table
           three_entries [None] eq_refl eq_refl eq_refl).
  - simpl. lia.
  - vm_compute. discriminate.
  - reflexivity.
Defined.

Lemma volgeom_valid_iff_complete_witness :
  exists coords faces_da m,
    find_geometry vg_image = (Some coords, Some faces_da)
    /\ @mrisReadGIFTIdanum reference_collaborators 0 vg_image "lh.white.gii"
         None (-1) None 0 = Ret [] (m, None, 0)
    /\ (valid (vg m) = 1 <-> @volgeom_complete reference_collaborators (meta coords))
    /\ (~ @volgeom_complete reference_collaborators (meta coords) -> valid (vg m) = 0).
Proof.
  eexists _, _, _.
  split; [vm_compute; reflexivity|]. split; [vm_compute; reflexivity|].
  eapply (@volgeom_valid_iff_complete reference_collaborators 0 vg_image "lh.white.gii"
            None (-1) None 0); vm_compute; reflexivity.
Defined.

(* ===================================================================== *)
(** ** IEEE-754: conversions that are exact *)
(* ===================================================================== *)

Lemma digits2_pos_xO_iter (m d : positive) :
  digits2_pos (Pos.iter xO m d) = (digits2_pos m + d)%positive.
Proof.
  induction d as [|d IH] using Pos.peano_ind.
  - simpl. lia.
  - rewrite Pos.iter_succ. simpl. rewrite IH. lia.
Qed.

Lemma iter_pos_iter {A} (g : A -> A) (p : positive) (a : A) :
  SpecFloat.iter_pos g p a = Pos.iter g a p.
Proof.
  revert a. induction p as [p IH|p IH|]; intros a; simpl.
  - rewrite !IH. rewrite !Pos.iter_swap. reflexivity.
  - rewrite !IH. reflexivity.
  - reflexivity.
Qed.

Lemma shr_1_undoes_xO (m d : positive) :
  SpecFloat.iter_pos shr_1 d (Build_shr_record (Zpos (Pos.iter xO m d)) false false)
  = Build_shr_record (Zpos m) false false.
Proof.
  rewrite iter_pos_iter. revert m.
  induction d as [|d IH] using Pos.peano_ind; intros m.
  - reflexivity.
  - rewrite (Pos.iter_succ_r d _ xO), (Pos.iter_succ d _ shr_1), IH. reflexivity.
Qed.

Lemma pos_iter_xO_value (m d : positive) :
  Zpos (Pos.iter xO m d) = Zpos m * 2 ^ Zpos d.
Proof.
  change (Pos.iter xO m d) with (shift_pos d m).
  rewrite shift_pos_correct. change (2 ^ Zpos d) with (Z.pow_pos 2 d). lia.
Qed.

Section Round.
Variables prec emax : Z.

(** Rounding a number that is already in its canonical form. *)
Lemma binary_round_aux_canonical (s : bool) (m : positive) (e : Z) :
  fexp prec emax (Zpos (digits2_pos m) + e) = e ->
  e <= emax - prec ->
  binary_round_aux prec emax s (Zpos m) e loc_Exact = S754_finite s m e.
Proof.
  intros Hc He. unfold binary_round_aux, shr_fexp. simpl Zdigits2. rewrite Hc.
  rewrite Z.sub_diag. simpl. rewrite Hc, Z.sub_diag. simpl.
  destruct (Z.leb_spec e (emax - prec)); [reflexivity|lia].
Qed.

(** A number with few digits is widened by shifting its mantissa. *)
Lemma binary_round_shl (s : bool) (m : positive) (e : Z) (d : positive) :
  fexp prec emax (Zpos (digits2_pos m) + e) = e - Zpos d ->
  e - Zpos d <= emax - prec ->
  binary_round prec emax s m e = S754_finite s (Pos.iter xO m d) (e - Zpos d).
Proof.
  intros Hc He. unfold binary_round, shl_align. rewrite Hc.
  replace (e - Zpos d - e) with (Zneg d) by lia.
  apply binary_round_aux_canonical; [|exact He].
  rewrite digits2_pos_xO_iter, <- Hc. f_equal. lia.
Qed.

(** A mantissa with d zero bits too many is narrowed by dropping them. *)
Lemma binary_round_shr (s : bool) (m : positive) (e : Z) (d : positive) :
  fexp prec emax (Zpos (digits2_pos m) + (e + Zpos d)) = e + Zpos d ->
  e + Zpos d <= emax - prec ->
  binary_round prec emax s (Pos.iter xO m d) e = S754_finite s m (e + Zpos d).
Proof.
  intros Hc He.
  assert (Hf : fexp prec emax (Zpos (digits2_pos (Pos.iter xO m d)) + e) = e + Zpos d).
  { rewrite digits2_pos_xO_iter, <- Hc. f_equal. lia. }
  unfold binary_round, shl_align. rewrite Hf.
  replace (e + Zpos d - e) with (Zpos d) by lia.
  unfold binary_round_aux, shr_fexp. simpl Zdigits2. rewrite Hf.
  replace (e + Zpos d - e) with (Zpos d) by lia.
  unfold shr_record_of_loc, shr. rewrite shr_1_undoes_xO.
  simpl. rewrite Hc, Z.sub_diag. simpl.
  destruct (Z.leb_spec (e + Zpos d) (emax - prec)); [reflexivity|lia].
Qed.
End Round.

(** Widening a [float] to [double] and narrowing it again is exact. *)
Lemma float_of_double_of_float (x : spec_float) :
  IEEE.is_float x = true -> IEEE.float_of_double (IEEE.double_of_float x) = x.
Proof.
  destruct x as [s|s| |s m e]; try reflexivity.
  unfold IEEE.is_float, valid_binary, bounded, canonical_mantissa. intros Hb.
  apply andb_true_iff in Hb as [Hc He].
  apply Z.eqb_eq in Hc. apply Z.leb_le in He.
  unfold IEEE.prec32, IEEE.emax32 in *.
  unfold fexp, emin in Hc.
  set (e64 := fexp 53 1024 (Zpos (digits2_pos m) + e)).
  assert (H64 : e64 < e) by (subst e64; unfold fexp, emin; lia).
  destruct (e - e64) as [|d|d] eqn:Ed; try lia.
  unfold IEEE.double_of_float, IEEE.float_of_double, IEEE.renorm.
  unfold IEEE.prec64, IEEE.emax64, IEEE.prec32, IEEE.emax32.
  rewrite (binary_round_shl 53 1024 s m e d) by (fold e64; lia).
  replace e with (e - Zpos d + Zpos d) at 2 by lia.
  apply binary_round_shr.
  - replace (e - Zpos d + Zpos d) with e by lia. unfold fexp, emin. lia.
  - lia.
Qed.

Lemma pow2_pos_exponent (p : positive) (k : Z) : Zpos p < 2 ^ k -> 0 < k.
Proof.
  intros Hk. destruct (Z.lt_trichotomy k 0) as [Hn|[->|Hp]]; [|simpl in Hk; lia|exact Hp].
  rewrite Z.pow_neg_r in Hk by exact Hn. lia.
Qed.

Lemma digits2_pos_bound (m : positive) (k : Z) :
  Zpos m < 2 ^ k -> Zpos (digits2_pos m) <= k.
Proof.
  revert k. induction m as [m IH|m IH|]; intros k Hk;
    pose proof (pow2_pos_exponent _ _ Hk) as Hpos.
  - replace k with (Z.succ (k - 1)) in Hk by lia. rewrite Z.pow_succ_r in Hk by lia.
    specialize (IH (k - 1) ltac:(lia)). simpl. lia.
  - replace k with (Z.succ (k - 1)) in Hk by lia. rewrite Z.pow_succ_r in Hk by lia.
    specialize (IH (k - 1) ltac:(lia)). simpl. lia.
  - simpl. lia.
Qed.

Lemma double_of_positive (s : bool) (m : positive) :
  Zpos m < 2 ^ 52 ->
  exists d, binary_round 53 1024 s m 0 = S754_finite s (Pos.iter xO m d) (Zneg d).
Proof.
  intros Hm. pose proof (digits2_pos_bound m 52 Hm) as Hd.
  destruct (53 - Zpos (digits2_pos m)) as [|d|d] eqn:Ed; try lia.
  exists d. change (Zneg d) with (0 - Zpos d).
  apply binary_round_shl; [|lia]. unfold fexp, emin. lia.
Qed.

(** The integer part of the [double] made from an integer is that integer. *)
Lemma trunc_double_of_Z (i : Z) :
  - 2 ^ 52 < i < 2 ^ 52 -> IEEE.SFtrunc (IEEE.double_of_Z i) = Some i.
Proof.
  intros Hi. unfold IEEE.double_of_Z, binary_normalize, IEEE.prec64, IEEE.emax64.
  destruct i as [|m|m]; [reflexivity| |].
  - destruct (double_of_positive false m ltac:(lia)) as (d & ->).
    unfold IEEE.SFtrunc, IEEE.mag_trunc, cond_Zopp. f_equal.
    rewrite pos_iter_xO_value. apply Z.div_mul. lia.
  - destruct (double_of_positive true m ltac:(lia)) as (d & ->).
    unfold IEEE.SFtrunc, IEEE.mag_trunc, cond_Zopp. f_equal.
    rewrite pos_iter_xO_value, Z.div_mul by lia. reflexivity.
Qed.

Lemma to_int_double_of_Z (i : Z) :
  -2147483648 <= i <= 2147483647 -> to_int (IEEE.double_of_Z i) = ret i.
Proof.
  intros Hi. unfold to_int. rewrite trunc_double_of_Z by lia.
  unfold in_range. simpl fst. simpl snd.
  destruct (Z.leb_spec (-2147483648) i); [|lia].
  destruct (Z.leb_spec i 2147483647); [reflexivity|lia].
Qed.

Lemma narrow_int_double_of_Z (i : Z) :
  -2147483648 <= i <= 2147483647 -> narrow Tint (IEEE.double_of_Z i) = ret (CInt i).
Proof.
  intros Hi. unfold narrow. rewrite trunc_double_of_Z by lia.
  unfold int_range, in_range. simpl fst. simpl snd.
  destruct (Z.leb_spec (-2147483648) i); [|lia].
  destruct (Z.leb_spec i 2147483647); [reflexivity|lia].
Qed.

Lemma widen_int (i : Z) :
  -2147483648 <= i <= 2147483647 -> widen Tint (CInt i) = ret (IEEE.double_of_Z i).
Proof.
  intros Hi. unfold widen, int_range, in_range. simpl fst. simpl snd.
  destruct (Z.leb_spec (-2147483648) i); [|lia].
  destruct (Z.leb_spec i 2147483647); [reflexivity|lia].
Qed.

(* ===================================================================== *)
(** ** The surface writer: what it stores *)
(* ===================================================================== *)

(** *** Rows of three cells *)

(** The buffer after the three cells of row r were stored. *)

Lemma put_row_length buf r c0 c1 c2 : length (put_row buf r c0 c1 c2) = length buf.
Proof. unfold put_row. rewrite !length_insert. reflexivity. Qed.

Lemma put_row_other buf r c0 c1 c2 (r' c : Z) :
  0 <= r -> 0 <= r' -> r' <> r -> 0 <= c < 3 ->
  put_row buf r c0 c1 c2 !! Z.to_nat (r' * 3 + c) = buf !! Z.to_nat (r' * 3 + c).
Proof.
  intros. unfold put_row. rewrite !list_lookup_insert_ne by lia. reflexivity.
Qed.

Lemma put_row_same buf r c0 c1 c2 :
  0 <= r -> r * 3 + 2 < Z.of_nat (length buf) ->
  put_row buf r c0 c1 c2 !! Z.to_nat (r * 3 + 0) = Some c0
  /\ put_row buf r c0 c1 c2 !! Z.to_nat (r * 3 + 1) = Some c1
  /\ put_row buf r c0 c1 c2 !! Z.to_nat (r * 3 + 2) = Some c2.
Proof.
  intros. unfold put_row. repeat split.
  - rewrite !list_lookup_insert_ne by lia. apply list_lookup_insert_eq. lia.
  - rewrite list_lookup_insert_ne by lia. apply list_lookup_insert_eq.
    rewrite length_insert. lia.
  - apply list_lookup_insert_eq. rewrite !length_insert. lia.
Qed.

Lemma set_row_major_cell (da0 : giiDataArray) (buf : list cell) row col value t c :
  num_dim da0 = 2 -> ind_ord da0 = GIFTI_IND_ORD_ROW_MAJOR ->
  written_kind (datatype da0) = Some t ->
  narrow t value = ret c ->
  0 <= row < dim da0 0 -> 0 <= col < dim da0 1 ->
  dim da0 0 * dim da0 1 <= 2147483647 ->
  row * dim da0 1 + col < Z.of_nat (length buf) ->
  gifti_set_DA_value_2D (Some (set_data da0 buf)) row col value
  = ret (set_data da0 (<[Z.to_nat (row * dim da0 1 + col) := c]> buf)).
Proof.
  intros Hn Ho Hk Hv Hr Hc Hsz Hlen.
  rewrite (set_2D_row_major (set_data da0 buf) buf row col value t eq_refl Hn Ho Hr Hc Hsz Hk).
  change (dim (set_data da0 buf) 1) with (dim da0 1).
  unfold assign.
  destruct (Z.ltb_spec (row * dim da0 1 + col) 0); [nia|].
  destruct (Z.ltb_spec (row * dim da0 1 + col) (Z.of_nat (length buf))); [|lia].
  rewrite Hv, !bind_ret_l. reflexivity.
Qed.

(** Storing the three values of a row of a row-major array of three
    columns. *)
Lemma set_row3 (da0 : giiDataArray) (buf : list cell) r v0 v1 v2 t c0 c1 c2 :
  num_dim da0 = 2 -> ind_ord da0 = GIFTI_IND_ORD_ROW_MAJOR -> dim da0 1 = 3 ->
  written_kind (datatype da0) = Some t ->
  narrow t v0 = ret c0 -> narrow t v1 = ret c1 -> narrow t v2 = ret c2 ->
  0 <= r < dim da0 0 ->
  dim da0 0 * 3 <= 2147483647 ->
  r * 3 + 2 < Z.of_nat (length buf) ->
  (let* da := gifti_set_DA_value_2D (Some (set_data da0 buf)) r 0 v0 in
   let* da := gifti_set_DA_value_2D (Some da) r 1 v1 in
   gifti_set_DA_value_2D (Some da) r 2 v2)
  = ret (set_data da0 (put_row buf r c0 c1 c2)).
Proof.
  intros Hn Ho H3 Hk E0 E1 E2 Hr Hsz Hlen.
  rewrite (set_row_major_cell da0 buf r 0 v0 t c0) by (try assumption; lia).
  rewrite bind_ret_l.
  rewrite (set_row_major_cell da0 _ r 1 v1 t c1)
    by (try assumption; rewrite ?length_insert; lia).
  rewrite bind_ret_l.
  rewrite (set_row_major_cell da0 _ r 2 v2 t c2)
    by (try assumption; rewrite ?length_insert; lia).
  rewrite H3. reflexivity.
Qed.

Lemma get_row_major_cell (da : giiDataArray) (buf : list cell) row col t c :
  data da = Some buf -> num_dim da = 2 -> ind_ord da = GIFTI_IND_ORD_ROW_MAJOR ->
  spec_kind (datatype da) = Some t ->
  0 <= row < dim da 0 -> 0 <= col < dim da 1 ->
  dim da 0 * dim da 1 <= 2147483647 ->
  buf !! Z.to_nat (row * dim da 1 + col) = Some c ->
  gifti_get_DA_value_2D (Some da) row col = widen t c.
Proof.
  intros Hd Hn Ho Hk Hr Hc Hsz Hb.
  rewrite (get_2D_in_bounds da buf row col) by (try assumption; left; assumption).
  rewrite Hk, Ho. unfold spec_offset. simpl. unfold deref.
  destruct (Z.ltb_spec (row * dim da 1 + col) 0); [nia|]. rewrite Hb. reflexivity.
Qed.

(** *** What a valid surface gives *)

Lemma face_okb_inv nv fc :
  face_okb nv fc = true ->
  exists a b c, v fc = [a; b; c]
    /\ 0 <= a < nv /\ 0 <= b < nv /\ 0 <= c < nv /\ a <> b /\ b <> c /\ a <> c.
Proof.
  unfold face_okb. destruct (v fc) as [|a [|b [|c [|? ?]]]]; try discriminate.
  intros Hb. repeat (apply andb_true_iff in Hb as [Hb ?]).
  exists a, b, c. split; [reflexivity|].
  repeat match goal with
         | H : negb _ = true |- _ => apply negb_true_iff in H
         | H : (_ =? _) = false |- _ => apply Z.eqb_neq in H
         | H : (_ <=? _) = true |- _ => apply Z.leb_le in H
         | H : (_ <? _) = true |- _ => apply Z.ltb_lt in H
         end.
  lia.
Qed.

Lemma vertex_okb_inv vx :
  vertex_okb vx = true ->
  ripflag vx = false /\ IEEE.is_float (x vx) = true /\ IEEE.is_float (y vx) = true
  /\ IEEE.is_float (z vx) = true.
Proof.
  unfold vertex_okb. intros Hb. repeat (apply andb_true_iff in Hb as [Hb ?]).
  apply negb_true_iff in Hb. auto.
Qed.


Lemma mesh_validb_facts `{Collaborators} m : mesh_validb m = true -> valid_facts m.
Proof.
  unfold mesh_validb. intros Hb. repeat (apply andb_true_iff in Hb as [Hb ?]).
  repeat match goal with
         | H : bool_decide _ = true |- _ => apply bool_decide_eq_true in H
         | H : (_ <=? _) = true |- _ => apply Z.leb_le in H
         | H : (_ <? _) = true |- _ => apply Z.ltb_lt in H
         end.
  apply Z.ltb_lt in Hb.
  split; try assumption; try lia.
  - intros i vx Hi. eapply forallb_forall; [eassumption|].
    apply list_elem_of_In. eapply list_elem_of_lookup_2. exact Hi.
  - intros i fc Hi. eapply forallb_forall; [eassumption|].
    apply list_elem_of_In. eapply list_elem_of_lookup_2. exact Hi.
Qed.

(** *** The writer *)

Lemma narrow_float_exact (a : spec_float) :
  IEEE.is_float a = true -> narrow Tfloat (IEEE.double_of_float a) = ret (CF32 a).
Proof. intros Ha. unfold narrow. rewrite float_of_double_of_float by exact Ha. reflexivity. Qed.

Section Writer.
Context `{Collaborators}.
Variable M : MRIS.
Hypothesis HM : valid_facts M.

Lemma vertex_lookup (i : Z) :
  0 <= i < nvertices M -> exists vx, vertices M !! Z.to_nat i = Some vx.
Proof.
  intros Hi. apply lookup_lt_is_Some. rewrite (vf_vlen _ HM). lia.
Qed.

Lemma face_lookup (i : Z) :
  0 <= i < nfaces M -> exists fc, faces M !! Z.to_nat i = Some fc.
Proof.
  intros Hi. apply lookup_lt_is_Some. rewrite (vf_flen _ HM). lia.
Qed.

Lemma write_coords_data_spec (coords0 : giiDataArray) (buf0 : list cell) :
  num_dim coords0 = 2 -> ind_ord coords0 = GIFTI_IND_ORD_ROW_MAJOR ->
  datatype coords0 = NIFTI_TYPE_FLOAT32 ->
  dim coords0 0 = nvertices M -> dim coords0 1 = 3 ->
  length buf0 = Z.to_nat (nvertices M * 3) ->
  exists buf,
    write_coords_data M (set_data coords0 buf0) = Ret [] (set_data coords0 buf)
    /\ length buf = length buf0
    /\ forall i vx, vertices M !! Z.to_nat i = Some vx -> 0 <= i ->
         buf !! Z.to_nat (i * 3 + 0) = Some (CF32 (x vx))
         /\ buf !! Z.to_nat (i * 3 + 1) = Some (CF32 (y vx))
         /\ buf !! Z.to_nat (i * 3 + 2) = Some (CF32 (z vx)).
Proof.
  intros Hn Ho Hd H0 H1 Hlen. unfold write_coords_data.
  pose proof (vf_nv _ HM) as Hnv.
  destruct (for_Z_inv
    (fun k st => exists buf, st = set_data coords0 buf /\ length buf = length buf0
       /\ forall i vx, vertices M !! Z.to_nat i = Some vx -> 0 <= i < k ->
            buf !! Z.to_nat (i * 3 + 0) = Some (CF32 (x vx))
            /\ buf !! Z.to_nat (i * 3 + 1) = Some (CF32 (y vx))
            /\ buf !! Z.to_nat (i * 3 + 2) = Some (CF32 (z vx)))
    (nvertices M)
    (fun vertex_index coords =>
       let* vx := at_index (vertices M) vertex_index in
       if ripflag vx then ret coords else
       let* coords := gifti_set_DA_value_2D (Some coords) vertex_index 0
                        (IEEE.double_of_float (x vx)) in
       let* coords := gifti_set_DA_value_2D (Some coords) vertex_index 1
                        (IEEE.double_of_float (y vx)) in
       gifti_set_DA_value_2D (Some coords) vertex_index 2
                        (IEEE.double_of_float (z vx)))
    (set_data coords0 buf0)) as (st & E & buf & -> & Hl & Hall).
  - lia.
  - exists buf0. split; [reflexivity|]. split; [reflexivity|]. intros; lia.
  - intros k st Hk (buf & -> & Hl & Hall).
    destruct (vertex_lookup k Hk) as (vx & Hvx).
    destruct (vertex_okb_inv vx (vf_vertex _ HM _ _ Hvx)) as (Hrip & Fx & Fy & Fz).
    rewrite (at_index_Some _ k vx) by (try lia; exact Hvx).
    rewrite bind_ret_l, Hrip.
    rewrite (set_row3 coords0 buf k _ _ _ Tfloat (CF32 (x vx)) (CF32 (y vx)) (CF32 (z vx)));
      try assumption; try (apply narrow_float_exact; assumption);
      try (rewrite Hd; reflexivity); try lia.
    eexists. split; [reflexivity|]. eexists. split; [reflexivity|].
    rewrite put_row_length. split; [exact Hl|].
    intros i vx' Hi Hik. destruct (Z.eq_dec i k) as [->|Hne].
    + rewrite Hvx in Hi. injection Hi as <-. apply put_row_same; lia.
    + rewrite !put_row_other by lia. apply Hall; [exact Hi|lia].
  - exists buf. split; [exact E|]. split; [exact Hl|].
    intros i vx Hi Hi0. apply Hall; [exact Hi|].
    apply lookup_lt_Some in Hi. rewrite (vf_vlen _ HM) in Hi. lia.
Qed.

Lemma face_corners (i : Z) :
  0 <= i < nfaces M ->
  exists a b c, faces M !! Z.to_nat i = Some (mkFace [a; b; c])
    /\ 0 <= a < nvertices M /\ 0 <= b < nvertices M /\ 0 <= c < nvertices M
    /\ a <> b /\ b <> c /\ a <> c.
Proof.
  intros Hi. destruct (face_lookup i Hi) as (fc & Hfc).
  destruct (face_okb_inv _ _ (vf_face _ HM _ _ Hfc)) as (a & b & c & Hv & Hr).
  exists a, b, c. split; [|exact Hr]. rewrite Hfc. destruct fc as [vs]. simpl in Hv.
  rewrite Hv. reflexivity.
Qed.

Lemma face_ripped_false (i : Z) : 0 <= i < nfaces M -> face_ripped M i = ret false.
Proof.
  intros Hi. destruct (face_corners i Hi) as (a & b & c & Hfc & Ha & Hb & Hc & _).
  unfold face_ripped.
  rewrite (at_index_Some _ i _ ltac:(lia) Hfc), bind_ret_l. cbn [v].
  assert (Hrip : forall u, 0 <= u < nvertices M ->
            (let* vx := at_index (vertices M) u in ret (ripflag vx)) = ret false).
  { intros u Hu. destruct (vertex_lookup u Hu) as (vx & Hvx).
    rewrite (at_index_Some _ u vx) by (try lia; exact Hvx). rewrite bind_ret_l.
    destruct (vertex_okb_inv vx (vf_vertex _ HM _ _ Hvx)) as (-> & _). reflexivity. }
  rewrite (at_index_Some [a; b; c] 0 a) by (try lia; reflexivity).
  rewrite bind_ret_l, (Hrip a Ha), bind_ret_l.
  rewrite (at_index_Some [a; b; c] 1 b) by (try lia; reflexivity).
  rewrite bind_ret_l, (Hrip b Hb), bind_ret_l.
  rewrite (at_index_Some [a; b; c] 2 c) by (try lia; reflexivity).
  rewrite bind_ret_l, (Hrip c Hc), bind_ret_l. reflexivity.
Qed.

Lemma count_faces_spec : count_faces M = Ret [] (nfaces M).
Proof.
  unfold count_faces. pose proof (vf_nf _ HM) as Hnf.
  destruct (for_Z_inv (fun k st => st = k) (nfaces M)
    (fun face_index numFaces =>
       let* r := face_ripped M face_index in
       if r then ret numFaces else ret (numFaces + 1)) 0) as (st & E & ->).
  - lia.
  - reflexivity.
  - intros k st Hk ->. rewrite (face_ripped_false k Hk), bind_ret_l.
    eexists. split; reflexivity.
  - exact E.
Qed.

Lemma narrow_index (a : Z) :
  0 <= a < nvertices M -> narrow Tint (IEEE.double_of_Z a) = ret (CInt a).
Proof.
  intros Ha. pose proof (vf_nv _ HM). apply narrow_int_double_of_Z. lia.
Qed.

Lemma write_faces_data_spec (faces0 : giiDataArray) (buf0 : list cell) :
  num_dim faces0 = 2 -> ind_ord faces0 = GIFTI_IND_ORD_ROW_MAJOR ->
  datatype faces0 = NIFTI_TYPE_INT32 ->
  dim faces0 0 = nfaces M -> dim faces0 1 = 3 ->
  length buf0 = Z.to_nat (nfaces M * 3) ->
  exists buf,
    write_faces_data M (set_data faces0 buf0) = Ret [] (set_data faces0 buf, nfaces M)
    /\ length buf = length buf0
    /\ forall i a b c, faces M !! Z.to_nat i = Some (mkFace [a; b; c]) -> 0 <= i ->
         buf !! Z.to_nat (i * 3 + 0) = Some (CInt a)
         /\ buf !! Z.to_nat (i * 3 + 1) = Some (CInt b)
         /\ buf !! Z.to_nat (i * 3 + 2) = Some (CInt c).
Proof.
  intros Hn Ho Hd H0 H1 Hlen. unfold write_faces_data.
  pose proof (vf_nf _ HM) as Hnf.
  destruct (for_Z_inv
    (fun k (st : giiDataArray * Z) =>
       exists buf, st = (set_data faces0 buf, k) /\ length buf = length buf0
       /\ forall i a b c, faces M !! Z.to_nat i = Some (mkFace [a; b; c]) -> 0 <= i < k ->
            buf !! Z.to_nat (i * 3 + 0) = Some (CInt a)
            /\ buf !! Z.to_nat (i * 3 + 1) = Some (CInt b)
            /\ buf !! Z.to_nat (i * 3 + 2) = Some (CInt c))
    (nfaces M)
    (fun face_index (st : giiDataArray * Z) =>
       let '(fa, faceNum) := st in
       let* r := face_ripped M face_index in
       if r then ret (fa, faceNum) else
       let* face := at_index (faces M) face_index in
       let* v0 := at_index (v face) 0 in
       let* fa := gifti_set_DA_value_2D (Some fa) faceNum 0 (IEEE.double_of_Z v0) in
       let* v1 := at_index (v face) 1 in
       let* fa := gifti_set_DA_value_2D (Some fa) faceNum 1 (IEEE.double_of_Z v1) in
       let* v2 := at_index (v face) 2 in
       let* fa := gifti_set_DA_value_2D (Some fa) faceNum 2 (IEEE.double_of_Z v2) in
       ret (fa, faceNum + 1))
    (set_data faces0 buf0, 0)) as (st & E & buf & -> & Hl & Hall).
  - lia.
  - exists buf0. split; [reflexivity|]. split; [reflexivity|]. intros; lia.
  - intros k st Hk (buf & -> & Hl & Hall).
    destruct (face_corners k Hk) as (a & b & c & Hfc & Ha & Hb & Hc & _).
    rewrite (face_ripped_false k Hk), bind_ret_l.
    rewrite (at_index_Some _ k _ ltac:(lia) Hfc), bind_ret_l. cbn [v].
    rewrite (at_index_Some [a; b; c] 0 a) by (try lia; reflexivity). rewrite bind_ret_l.
    rewrite (set_row_major_cell faces0 buf k 0 _ Tint (CInt a));
      try assumption; try (rewrite Hd; reflexivity); try (apply narrow_index; assumption);
      try lia.
    rewrite bind_ret_l.
    rewrite (at_index_Some [a; b; c] 1 b) by (try lia; reflexivity). rewrite bind_ret_l.
    rewrite (set_row_major_cell faces0 _ k 1 _ Tint (CInt b));
      try assumption; try (rewrite Hd; reflexivity); try (apply narrow_index; assumption);
      try (rewrite ?length_insert; lia).
    rewrite bind_ret_l.
    rewrite (at_index_Some [a; b; c] 2 c) by (try lia; reflexivity). rewrite bind_ret_l.
    rewrite (set_row_major_cell faces0 _ k 2 _ Tint (CInt c));
      try assumption; try (rewrite Hd; reflexivity); try (apply narrow_index; assumption);
      try (rewrite ?length_insert; lia).
    rewrite bind_ret_l, H1. fold (put_row buf k (CInt a) (CInt b) (CInt c)).
    eexists. split; [reflexivity|]. eexists. split; [reflexivity|].
    rewrite put_row_length. split; [exact Hl|].
    intros i a' b' c' Hi Hik. destruct (Z.eq_dec i k) as [->|Hne].
    + rewrite Hfc in Hi. injection Hi as <- <- <-. apply put_row_same; lia.
    + rewrite !put_row_other by lia. apply Hall; [exact Hi|lia].
  - exists buf. split; [exact E|]. split; [exact Hl|].
    intros i a b c Hi Hi0. apply Hall; [exact Hi|].
    apply lookup_lt_Some in Hi. rewrite (vf_flen _ HM) in Hi. lia.
Qed.
End Writer.


Lemma substring_length (n : nat) (s : string) :
  String.length (String.substring 0 n s) = Nat.min n (String.length s).
Proof.
  revert s. induction n as [|n IH]; intros [|c s]; cbn; try reflexivity.
  rewrite IH. reflexivity.
Qed.

Section WriterWhole.
Context `{Collaborators}.
Variable M : MRIS.
Hypothesis HM : valid_facts M.

Lemma cmdline_lookup (i : Z) :
  0 <= i < ncmds M -> exists s, cmdlines M !! Z.to_nat i = Some (Some s).
Proof.
  intros Hi. pose proof (vf_cmds _ HM) as Hc. unfold cmdlines_okb in Hc.
  apply andb_true_iff in Hc as [_ Hc].
  assert (Hin : In (Z.to_nat i) (seq 0 (Z.to_nat (ncmds M)))) by (apply in_seq; lia).
  pose proof (proj1 (forallb_forall _ _) Hc _ Hin) as Hi'. simpl in Hi'.
  destruct (cmdlines M !! Z.to_nat i) as [[s|]|]; try discriminate. eauto.
Qed.

Lemma cmdline_full (i : Z) (s : string) :
  cmdlines_fullb M = true -> 0 <= i < ncmds M ->
  cmdlines M !! Z.to_nat i = Some (Some s) ->
  (TAG_CMDLINE_LEN - 1 <= String.length s)%nat.
Proof.
  intros Hf Hi Hs. unfold cmdlines_fullb in Hf.
  assert (Hin : In (Z.to_nat i) (seq 0 (Z.to_nat (ncmds M)))) by (apply in_seq; lia).
  pose proof (proj1 (forallb_forall _ _) Hf _ Hin) as Hi'. cbv beta in Hi'.
  rewrite Hs in Hi'. apply Nat.leb_le in Hi'. exact Hi'.
Qed.

Lemma write_cmdlines_meta_spec (md : gmap string string) :
  exists md',
    write_cmdlines_meta M md = Ret [] md'
    /\ md' !! "NUM_TAG_CMDLINE" =
         (if 0 <? ncmds M then Some (pretty (ncmds M)) else md !! "NUM_TAG_CMDLINE")
    /\ (cmdlines_fullb M = true -> values_full md -> values_full md').
Proof.
  unfold write_cmdlines_meta. destruct (Z.ltb_spec 0 (ncmds M)) as [Hpos|Hneg].
  - destruct (for_Z_inv
      (fun (k : Z) (st : gmap string string) =>
         st !! "NUM_TAG_CMDLINE" = Some (pretty (ncmds M))
         /\ (cmdlines_fullb M = true -> values_full md -> values_full st))
      (ncmds M)
      (fun ncmd md0 =>
         let* line := at_index (cmdlines M) ncmd in
         match line with
         | None => Undefined
         | Some s =>
             let cmdline := String.substring 0 (TAG_CMDLINE_LEN - 1) s in
             ret (gifti_add_to_meta md0 (cmdline_tag ncmd) cmdline)
         end)
      (gifti_add_to_meta md "NUM_TAG_CMDLINE" (pretty (ncmds M)))) as (st & E & Hst).
    + lia.
    + unfold gifti_add_to_meta. split; [apply lookup_insert_eq|].
      intros _ Hmd j v. rewrite lookup_insert_ne; [apply Hmd|].
      unfold cmdline_tag. simpl. discriminate.
    + intros k st Hk (Hst & Hfull). destruct (cmdline_lookup k Hk) as (s & Hs).
      rewrite (at_index_Some _ k _ ltac:(lia) Hs), bind_ret_l.
      eexists. split; [reflexivity|]. unfold gifti_add_to_meta. split.
      * rewrite lookup_insert_ne; [exact Hst|]. unfold cmdline_tag. simpl. discriminate.
      * intros Hf Hmd j v Hv. apply lookup_insert_Some in Hv as [[_ <-]|[_ Hv]].
        -- pose proof (cmdline_full k s Hf Hk Hs) as Hlen.
           rewrite substring_length. lia.
        -- exact (Hfull Hf Hmd j v Hv).
    + exists st. split; [exact E|exact Hst].
  - exists md. split; [reflexivity|]. split; [reflexivity|]. intros _ Hmd. exact Hmd.
Qed.

Lemma no_cmdline_count_yet (coords : giiDataArray) (faces1 : giiDataArray) :
  meta coords = ∅ ->
  let md := write_volgeom_meta M (meta (write_standard_meta M coords faces1).1) in
  (if negb (FZERO (group_avg_surface_area M))
   then gifti_add_to_meta md "TAG_GROUP_AVG_SURFACE_AREA"
          (sprintf_20f (group_avg_surface_area M))
   else md) !! "NUM_TAG_CMDLINE" = None.
Proof.
  intros Hmd. cbv zeta.
  assert (H1 : meta (write_standard_meta M coords faces1).1 !! "NUM_TAG_CMDLINE" = None).
  { unfold write_standard_meta. destruct (negb _); [|simpl; rewrite Hmd; apply lookup_empty].
    cbn [fst meta set_meta]. unfold gifti_add_to_meta, add_opt.
    rewrite lookup_insert_ne by discriminate.
    repeat match goal with
           | |- context [match ?o with Some _ => _ | None => _ end] => destruct o
           end;
      unfold gifti_add_to_meta; rewrite ?lookup_insert_ne by discriminate;
      rewrite Hmd; apply lookup_empty. }
  assert (H2 : write_volgeom_meta M (meta (write_standard_meta M coords faces1).1)
               !! "NUM_TAG_CMDLINE" = None).
  { unfold write_volgeom_meta. destruct (negb _); [|exact H1].
    unfold gifti_add_to_meta. rewrite !lookup_insert_ne by discriminate. exact H1. }
  destruct (negb _); [|exact H2].
  unfold gifti_add_to_meta. rewrite lookup_insert_ne by discriminate. exact H2.
Qed.

(** Nor is a command line recorded before the command-line block. *)
Lemma no_cmdline_yet (coords : giiDataArray) (faces1 : giiDataArray) (j : Z) :
  meta coords = ∅ ->
  let md := write_volgeom_meta M (meta (write_standard_meta M coords faces1).1) in
  (if negb (FZERO (group_avg_surface_area M))
   then gifti_add_to_meta md "TAG_GROUP_AVG_SURFACE_AREA"
          (sprintf_20f (group_avg_surface_area M))
   else md) !! cmdline_tag j = None.
Proof.
  intros Hmd. cbv zeta.
  assert (Hne : forall k : string,
            match k with
            | String "T" (String "A" (String "G" (String "_" (String "C" _)))) => False
            | _ => True
            end -> k <> cmdline_tag j).
  { intros k Hk ->. unfold cmdline_tag in Hk. simpl in Hk. exact Hk. }
  assert (H1 : meta (write_standard_meta M coords faces1).1 !! cmdline_tag j = None).
  { unfold write_standard_meta. destruct (negb _); [|simpl; rewrite Hmd; apply lookup_empty].
    cbn [fst meta set_meta]. unfold gifti_add_to_meta, add_opt.
    rewrite lookup_insert_ne by (apply Hne; exact I).
    repeat match goal with
           | |- context [match ?o with Some _ => _ | None => _ end] => destruct o
           end;
      unfold gifti_add_to_meta; rewrite ?lookup_insert_ne by (apply Hne; exact I);
      rewrite Hmd; apply lookup_empty. }
  assert (H2 : write_volgeom_meta M (meta (write_standard_meta M coords faces1).1)
               !! cmdline_tag j = None).
  { unfold write_volgeom_meta. destruct (negb _); [|exact H1].
    unfold gifti_add_to_meta. rewrite !lookup_insert_ne by (apply Hne; exact I). exact H1. }
  destruct (negb _); [|exact H2].
  unfold gifti_add_to_meta. rewrite lookup_insert_ne by (apply Hne; exact I). exact H2.
Qed.

Lemma write_standard_meta_arrays (coords faces1 : giiDataArray) it dt nrows buf it' dt' nrows' buf' :
  surface_array coords it dt nrows buf ->
  surface_array faces1 it' dt' nrows' buf' ->
  surface_array (write_standard_meta M coords faces1).1 it dt nrows buf
  /\ surface_array (write_standard_meta M coords faces1).2 it' dt' nrows' buf'
  /\ coordsys (write_standard_meta M coords faces1).1 = coordsys coords.
Proof.
  intros [] []. unfold write_standard_meta.
  destruct (negb _); cbn [fst snd]; repeat split; assumption.
Qed.

Lemma MRISwriteGIFTISurface_spec (out_fname : string) (cs : list giiCoordSystem) :
  write_coordsys M out_fname = Ret [] cs ->
  exists coordsF facesF bufC bufF,
    MRISwriteGIFTISurface M empty_image out_fname
      = Ret [] (mkImage [coordsF; facesF] empty_labeltable ∅)
    /\ surface_array coordsF NIFTI_INTENT_POINTSET NIFTI_TYPE_FLOAT32 (nvertices M) bufC
    /\ surface_array facesF NIFTI_INTENT_TRIANGLE NIFTI_TYPE_INT32 (nfaces M) bufF
    /\ coordsys coordsF = cs
    /\ meta coordsF !! "NUM_TAG_CMDLINE"
       = (if 0 <? ncmds M then Some (pretty (ncmds M)) else None)
    /\ (cmdlines_fullb M = true -> values_full (meta coordsF))
    /\ (forall i vx, vertices M !! Z.to_nat i = Some vx -> 0 <= i ->
          bufC !! Z.to_nat (i * 3 + 0) = Some (CF32 (x vx))
          /\ bufC !! Z.to_nat (i * 3 + 1) = Some (CF32 (y vx))
          /\ bufC !! Z.to_nat (i * 3 + 2) = Some (CF32 (z vx)))
    /\ (forall i a b c, faces M !! Z.to_nat i = Some (mkFace [a; b; c]) -> 0 <= i ->
          bufF !! Z.to_nat (i * 3 + 0) = Some (CInt a)
          /\ bufF !! Z.to_nat (i * 3 + 1) = Some (CInt b)
          /\ bufF !! Z.to_nat (i * 3 + 2) = Some (CInt c)).
Proof.
  intros Hcs. unfold MRISwriteGIFTISurface. rewrite Hcs, bind_Ret_nil. cbv zeta.
  pose proof (vf_nv _ HM) as Hnv. pose proof (vf_nf _ HM) as Hnf.
  set (nvC := gifti_darray_nvals 2 [nvertices M; 3; 0; 0; 0; 0]).
  set (coords0 := mkDA NIFTI_INTENT_POINTSET NIFTI_TYPE_FLOAT32 GIFTI_IND_ORD_ROW_MAJOR 2
                       [nvertices M; 3; 0; 0; 0; 0] nvC
                       (Some (calloc_data NIFTI_TYPE_FLOAT32 nvC)) ∅ cs).
  assert (HnvC : nvC = nvertices M * 3) by (subst nvC; unfold gifti_darray_nvals; simpl; lia).
  destruct (write_coords_data_spec M HM coords0 (calloc_data NIFTI_TYPE_FLOAT32 nvC))
    as (bufC & EC & HlC & HC); try reflexivity.
  { unfold calloc_data. rewrite length_replicate, HnvC. reflexivity. }
  change (set_data coords0 (calloc_data NIFTI_TYPE_FLOAT32 nvC)) with coords0 in EC.
  rewrite EC, bind_Ret_nil, count_faces_spec, bind_Ret_nil by exact HM.
  set (nvF := gifti_darray_nvals 2 [nfaces M; 3; 0; 0; 0; 0]).
  set (faces0 := mkDA NIFTI_INTENT_TRIANGLE NIFTI_TYPE_INT32 GIFTI_IND_ORD_ROW_MAJOR 2
                      [nfaces M; 3; 0; 0; 0; 0] nvF
                      (Some (calloc_data NIFTI_TYPE_INT32 nvF)) ∅ []).
  assert (HnvF : nvF = nfaces M * 3) by (subst nvF; unfold gifti_darray_nvals; simpl; lia).
  destruct (write_faces_data_spec M HM faces0 (calloc_data NIFTI_TYPE_INT32 nvF))
    as (bufF & EF & HlF & HF); try reflexivity.
  { unfold calloc_data. rewrite length_replicate, HnvF. reflexivity. }
  change (set_data faces0 (calloc_data NIFTI_TYPE_INT32 nvF)) with faces0 in EF.
  rewrite EF, bind_Ret_nil.
  assert (SC : surface_array (set_data coords0 bufC) NIFTI_INTENT_POINTSET
                 NIFTI_TYPE_FLOAT32 (nvertices M) bufC).
  { split; try reflexivity; try exact HnvC; [|lia].
    rewrite HlC. unfold calloc_data. rewrite length_replicate, HnvC. reflexivity. }
  assert (SF : surface_array (set_data faces0 bufF) NIFTI_INTENT_TRIANGLE
                 NIFTI_TYPE_INT32 (nfaces M) bufF).
  { split; try reflexivity; try exact HnvF; [|lia].
    rewrite HlF. unfold calloc_data. rewrite length_replicate, HnvF. reflexivity. }
  destruct (write_standard_meta_arrays _ _ _ _ _ _ _ _ _ _ SC SF) as (SC' & SF' & Hcs').
  pose proof (no_cmdline_count_yet (set_data coords0 bufC) (set_data faces0 bufF) eq_refl)
    as Hnone. cbv zeta in Hnone.
  pose proof (fun j => no_cmdline_yet (set_data coords0 bufC) (set_data faces0 bufF) j eq_refl)
    as Hnot. cbv zeta in Hnot.
  destruct (write_standard_meta M (set_data coords0 bufC) (set_data faces0 bufF))
    as [coords1 faces1] eqn:Ew. cbn [fst snd] in *.
  match goal with
  | |- context [write_cmdlines_meta M ?md] =>
      destruct (write_cmdlines_meta_spec md) as (md' & Em & Hmd' & Hfull)
  end.
  rewrite Em, bind_Ret_nil. rewrite Hnone in Hmd'.
  exists (set_meta coords1 md'), faces1, bufC, bufF.
  split; [reflexivity|].
  split; [destruct SC'; split; assumption|].
  split; [exact SF'|]. split; [exact Hcs'|].
  split; [exact Hmd'|].
  split; [intros Hf; apply (Hfull Hf); intros j v Hv; rewrite Hnot in Hv; discriminate|].
  split; [exact HC|exact HF].
Qed.
End WriterWhole.

(* ===================================================================== *)
(** ** The corners of the faces *)
(* ===================================================================== *)

Lemma concat_imap_lookup {A B} (g : nat -> A -> list B) (l : list A) (k j : nat) :
  (forall i a, In a l -> length (g i a) = 3%nat) -> (j < 3)%nat ->
  concat (imap g l) !! (3 * k + j)%nat = l !! k ≫= fun a => g k a !! j.
Proof.
  intros Hg Hj. revert g k Hg. induction l as [|a l IH]; intros g k Hg.
  - reflexivity.
  - cbn [imap concat]. destruct k as [|k].
    + replace (3 * 0 + j)%nat with j by lia.
      rewrite lookup_app_l by (rewrite Hg by (left; reflexivity); lia). reflexivity.
    + rewrite lookup_app_r by (rewrite Hg by (left; reflexivity); lia).
      rewrite Hg by (left; reflexivity).
      replace (3 * S k + j - 3)%nat with (3 * k + j)%nat by lia.
      rewrite IH by (intros; apply Hg; right; assumption). reflexivity.
Qed.

Lemma concat_imap_length {A B} (g : nat -> A -> list B) (l : list A) :
  (forall i a, In a l -> length (g i a) = 3%nat) ->
  length (concat (imap g l)) = (3 * length l)%nat.
Proof.
  revert g. induction l as [|a l IH]; intros g Hg; [reflexivity|].
  cbn [imap concat]. rewrite length_app, Hg by (left; reflexivity).
  rewrite IH by (intros; apply Hg; right; assumption). cbn [length]. lia.
Qed.

Section Corners.
Variable fs : list FACE.
Hypothesis Hfs : forall fc, In fc fs -> length (v fc) = 3%nat.

Lemma corner_pairs_length : length (corner_pairs fs) = (3 * length fs)%nat.
Proof.
  unfold corner_pairs. apply concat_imap_length.
  intros i fc Hin. rewrite length_imap. apply Hfs, Hin.
Qed.

Lemma corner_pairs_lookup (k j : nat) (fc : FACE) (a : Z) :
  fs !! k = Some fc -> v fc !! j = Some a ->
  corner_pairs fs !! (3 * k + j)%nat = Some (a, (Z.of_nat k, Z.of_nat j)).
Proof.
  intros Hk Hj.
  assert (Hj3 : (j < 3)%nat).
  { apply lookup_lt_Some in Hj. rewrite Hfs in Hj; [exact Hj|].
    apply list_elem_of_In. eapply list_elem_of_lookup_2. exact Hk. }
  unfold corner_pairs. rewrite concat_imap_lookup;
    [|intros i fc' Hin; rewrite length_imap; apply Hfs, Hin|exact Hj3].
  rewrite Hk. cbn [mbind option_bind]. rewrite list_lookup_imap, Hj. reflexivity.
Qed.
End Corners.

Lemma at_vertex_snoc vno Q p :
  at_vertex vno (Q ++ [p]) = at_vertex vno Q ++ (if decide (p.1 = vno) then [p] else []).
Proof.
  unfold at_vertex. rewrite filter_app. reflexivity.
Qed.

Lemma deg_snoc vno Q p :
  deg vno (Q ++ [p]) = deg vno Q + (if decide (p.1 = vno) then 1 else 0).
Proof.
  unfold deg. rewrite at_vertex_snoc, length_app. destruct (decide _); simpl; lia.
Qed.

Lemma flist_snoc vno Q p :
  flist vno (Q ++ [p]) = flist vno Q ++ (if decide (p.1 = vno) then [p.2.1] else []).
Proof.
  unfold flist. rewrite at_vertex_snoc, fmap_app. destruct (decide _); reflexivity.
Qed.

Lemma deg_take_le vno Q (t : nat) : deg vno (take t Q) <= deg vno Q.
Proof.
  unfold deg, at_vertex. rewrite <- (take_drop t Q) at 2. rewrite filter_app, length_app. lia.
Qed.

Lemma deg_nonneg vno Q : 0 <= deg vno Q.
Proof. unfold deg. lia. Qed.

Lemma flist_length vno Q : Z.of_nat (length (flist vno Q)) = deg vno Q.
Proof. unfold flist, deg. rewrite length_fmap. reflexivity. Qed.

Lemma slist_length vno Q : Z.of_nat (length (slist vno Q)) = deg vno Q.
Proof. unfold slist, deg. rewrite length_fmap. reflexivity. Qed.

(** The record the reader ends with holds the corners of the vertex. *)
Lemma incidence_final vno fs :
  incidence (mkVT (flist vno (corner_pairs fs)) (slist vno (corner_pairs fs))
                  (deg vno (corner_pairs fs)))
  = corners_of fs vno.
Proof.
  unfold incidence, corners_of. cbn [f n num].
  rewrite !take_ge by (pose proof (flist_length vno (corner_pairs fs));
                        pose proof (slist_length vno (corner_pairs fs)); lia).
  f_equal. unfold flist, slist. fold (at_vertex vno (corner_pairs fs)).
  induction (at_vertex vno (corner_pairs fs)) as [|[a [b c]] l IH]; [reflexivity|].
  simpl. f_equal. exact IH.
Qed.

(* ===================================================================== *)
(** ** The reader: the steps of the geometry pass *)
(* ===================================================================== *)

Ltac mris_simpl :=
  cbn [nvertices nfaces vertices vertices_topology faces ncmds cmdlines
       mris_set_vertices mris_set_topology mris_set_faces mris_set_header
       mris_set_useRealRAS mris_set_vg mris_set_ctr mris_set_group_avg
       mris_set_ncmds mris_set_cmdlines mris_set_xform mris_set_ct] in *.

Lemma while_loop_done {S} fuel (cond : S -> bool) (body : S -> M (S + S)) s :
  cond s = false -> while_loop fuel cond body s = ret s.
Proof. intros Hc. destruct fuel; simpl; rewrite Hc; reflexivity. Qed.

Lemma for_Z_break_total {S} (P : S -> Prop) n (body : Z -> S -> M (S + S)) s :
  0 <= n -> P s ->
  (forall i st, 0 <= i < n -> P st ->
     exists l r, body i st = Ret l r /\ P (match r with inl s' | inr s' => s' end)) ->
  exists l s', for_Z_break n body s = Ret l s' /\ P s'.
Proof.
  intros Hn H0 Hstep. unfold for_Z_break.
  destruct (for_Z_inv_log (fun _ _ (st : S * bool) => P st.1) n
    (fun i (st : S * bool) =>
       if st.2 then ret st
       else let* r := body i st.1 in
            match r with
            | inl s' => ret (s', false)
            | inr s' => ret (s', true)
            end) (s, false)) as (l & st & E & Hst).
  - exact Hn.
  - exact H0.
  - intros i l [st b] Hi Hst. cbn [fst snd] in *. destruct b.
    + exists [], (st, true). split; [reflexivity | exact Hst].
    + destruct (Hstep i st Hi Hst) as (l' & r & E & Hr). rewrite E.
      destruct r as [s'|s'].
      * exists (l' ++ []), (s', false). split; [apply bind_Ret; reflexivity | exact Hr].
      * exists (l' ++ []), (s', true). split; [apply bind_Ret; reflexivity | exact Hr].
  - rewrite E. exists (l ++ []), st.1. split; [apply bind_Ret; reflexivity | exact Hst].
Qed.

Ltac loop_inv I HL :=
  match goal with
  | |- exists st', for_Z ?n ?body ?s = Ret [] st' /\ _ =>
      pose proof (for_Z_inv I n body s) as HL
  end.

Section ReaderSteps.
Context `{Collaborators}.

(** The command-line block of the reader ends and leaves the geometry
    alone when the count it finds fits the array of the surface. *)
Lemma read_cmdlines_ok fuel md mris :
  length (cmdlines mris) = Z.to_nat MAX_CMDS ->
  0 <= default (ncmds mris) (scan_d md "NUM_TAG_CMDLINE") <= MAX_CMDS ->
  values_full md ->
  exists l m', read_cmdlines fuel md mris = Ret l m'
    /\ nvertices m' = nvertices mris /\ nfaces m' = nfaces mris
    /\ vertices m' = vertices mris /\ vertices_topology m' = vertices_topology mris
    /\ faces m' = faces mris.
Proof.
  intros Hlen Hk Hfull. unfold read_cmdlines.
  set (m1 := match scan_d md "NUM_TAG_CMDLINE" with
             | Some k => mris_set_ncmds mris k
             | None => mris
             end).
  assert (Hm1 : ncmds m1 = default (ncmds mris) (scan_d md "NUM_TAG_CMDLINE")
                /\ cmdlines m1 = cmdlines mris
                /\ nvertices m1 = nvertices mris /\ nfaces m1 = nfaces mris
                /\ vertices m1 = vertices mris
                /\ vertices_topology m1 = vertices_topology mris
                /\ faces m1 = faces mris).
  { unfold m1. destruct (scan_d md "NUM_TAG_CMDLINE"); repeat split; reflexivity. }
  destruct Hm1 as (Hn & Hc & G1 & G2 & G3 & G4 & G5). rewrite <- Hn in Hk.
  clearbody m1.
  destruct (Z.ltb_spec MAX_CMDS (ncmds m1)) as [?|_]; [lia|].
  rewrite bind_ret_l.
  rewrite while_loop_done by reflexivity. rewrite bind_ret_l.
  destruct (for_Z_break_total
    (fun cs : list (option string) => length cs = Z.to_nat MAX_CMDS) (ncmds m1)
    (fun ncmd cs =>
       match gifti_get_meta_value md (cmdline_tag ncmd) with
       | None => warn DiagCmdlineOutOfSync ;;; ret (inr cs)
       | Some cmdline =>
           if (String.length cmdline + 1 <? TAG_CMDLINE_LEN)%nat then Undefined
           else
             let* cs := put_index cs ncmd
                          (Some (String.substring 0 TAG_CMDLINE_LEN cmdline)) in
             ret (inl cs)
       end) (cmdlines m1)) as (l & cs & E & Hcs).
  - lia.
  - rewrite Hc. exact Hlen.
  - intros i st Hi Hst.
    destruct (gifti_get_meta_value md (cmdline_tag i)) as [v|] eqn:Hv.
    + pose proof (Hfull i v Hv) as Hv'.
      destruct (Nat.ltb_spec (String.length v + 1) TAG_CMDLINE_LEN); [lia|].
      rewrite put_index_lt by lia. rewrite bind_ret_l.
      eexists _, _. split; [reflexivity|]. cbv beta iota. rewrite length_insert. exact Hst.
    + eexists _, _. split; [reflexivity|]. exact Hst.
  - rewrite E. exists (l ++ []), (mris_set_cmdlines m1 cs).
    split; [apply bind_Ret; reflexivity|]. mris_simpl. auto.
Qed.

Lemma records_cols_surface da it dt nrows buf :
  surface_array da it dt nrows buf -> 0 < nrows -> records_cols da = (nrows, 3).
Proof.
  intros [_ _ Hord Hnd Hd0 _ Hnv _ _] Hn. unfold records_cols, gifti_DA_rows_cols.
  rewrite Hord, Hnd, Hd0, Hnv. cbn [Z.eqb Pos.eqb negb].
  destruct (Z.eqb_spec nrows 0); [lia|].
  replace (nrows * 3) with (3 * nrows) by lia. rewrite Z.div_mul by lia.
  rewrite Z.eqb_refl. reflexivity.
Qed.

Lemma get_cell3 da it dt nrows buf t row col c :
  surface_array da it dt nrows buf -> spec_kind dt = Some t ->
  0 <= row < nrows -> 0 <= col < 3 ->
  buf !! Z.to_nat (row * 3 + col) = Some c ->
  gifti_get_DA_value_2D (Some da) row col = widen t c.
Proof.
  intros [_ Hdt Hord Hnd Hd0 Hd1 _ Hdata _ Hfits] Ht Hr Hc Hb.
  apply (get_row_major_cell da buf row col t c); try assumption.
  - rewrite Hdt. exact Ht.
  - lia.
  - lia.
  - rewrite Hd0, Hd1. exact Hfits.
  - rewrite Hd1. exact Hb.
Qed.


Lemma read_vertices_spec coords bufC N (vs0 : list VERTEX) mris :
  surface_array coords NIFTI_INTENT_POINTSET NIFTI_TYPE_FLOAT32 N bufC ->
  0 <= N ->
  (forall i vx, vs0 !! Z.to_nat i = Some vx -> 0 <= i ->
     bufC !! Z.to_nat (i * 3 + 0) = Some (CF32 (x vx))
     /\ bufC !! Z.to_nat (i * 3 + 1) = Some (CF32 (y vx))
     /\ bufC !! Z.to_nat (i * 3 + 2) = Some (CF32 (z vx))) ->
  length vs0 = Z.to_nat N ->
  (forall i vx, vs0 !! i = Some vx -> vertex_okb vx = true) ->
  length (vertices mris) = Z.to_nat N ->
  vertices_topology mris = replicate (Z.to_nat N) vt0 ->
  exists m', read_vertices coords N mris = Ret [] m'
    /\ (nvertices m' = nvertices mris /\ nfaces m' = nfaces mris
        /\ faces m' = faces mris
        /\ vertices_topology m' = vertices_topology mris
        /\ length (vertices m') = Z.to_nat N
        /\ forall i vx, Z.of_nat i < N -> vs0 !! i = Some vx ->
             exists vx', vertices m' !! i = Some vx'
               /\ x vx' = x vx /\ y vx' = y vx /\ z vx' = z vx).
Proof.
  intros Hsa HN Hbuf Hl0 Hok Hlv HT. unfold read_vertices.
  apply (for_Z_inv (fun k m' =>
    nvertices m' = nvertices mris /\ nfaces m' = nfaces mris
    /\ faces m' = faces mris
    /\ vertices_topology m' = vertices_topology mris
    /\ length (vertices m') = Z.to_nat N
    /\ forall i vx, Z.of_nat i < k -> vs0 !! i = Some vx ->
         exists vx', vertices m' !! i = Some vx'
           /\ x vx' = x vx /\ y vx' = y vx /\ z vx' = z vx)).
  - exact HN.
  - repeat split; try reflexivity; try assumption. intros i vx Hi. lia.
  - intros k st Hk (G1 & G2 & G3 & G4 & G5 & G6).
    rewrite G4, HT.
    rewrite (at_index_Some _ k vt0) by (try lia; apply lookup_replicate_2; lia).
    rewrite bind_ret_l.
    rewrite put_index_lt by (rewrite length_replicate; lia). rewrite bind_ret_l.
    rewrite list_insert_id by (apply lookup_replicate_2; lia).
    destruct (lookup_lt_is_Some_2 vs0 (Z.to_nat k) ltac:(lia)) as (vx & Hvx).
    destruct (Hbuf k vx Hvx ltac:(lia)) as (Bx & By & Bz).
    destruct (vertex_okb_inv vx (Hok _ _ Hvx)) as (_ & Fx & Fy & Fz).
    rewrite (get_cell3 _ _ _ _ _ Tfloat k 0 _ Hsa eq_refl ltac:(lia) ltac:(lia) Bx).
    cbn [widen]. rewrite bind_ret_l.
    rewrite (get_cell3 _ _ _ _ _ Tfloat k 1 _ Hsa eq_refl ltac:(lia) ltac:(lia) By).
    cbn [widen]. rewrite bind_ret_l.
    rewrite (get_cell3 _ _ _ _ _ Tfloat k 2 _ Hsa eq_refl ltac:(lia) ltac:(lia) Bz).
    cbn [widen]. rewrite bind_ret_l.
    rewrite !float_of_double_of_float by assumption.
    unfold MRISsetXYZ. mris_simpl.
    destruct (lookup_lt_is_Some_2 (vertices st) (Z.to_nat k) ltac:(lia)) as (v0 & Hv0).
    rewrite (at_index_Some _ k v0) by (try lia; exact Hv0). rewrite bind_ret_l.
    rewrite put_index_lt by lia. rewrite !bind_ret_l. mris_simpl.
    rewrite (at_index_Some _ k (vertex_set_xyz v0 (x vx) (y vx) (z vx)))
      by (try lia; apply list_lookup_insert_eq; lia).
    rewrite bind_ret_l.
    rewrite put_index_lt by (rewrite length_insert; lia). rewrite bind_ret_l.
    eexists. split; [reflexivity|]. mris_simpl.
    repeat split; try assumption.
    + rewrite !length_insert. exact G5.
    + intros i vx' Hi Hvx'.
      destruct (decide (i = Z.to_nat k)) as [->|Hne].
      * rewrite Hvx in Hvx'. injection Hvx' as <-.
        eexists. split; [apply list_lookup_insert_eq; rewrite length_insert; lia|].
        repeat split; reflexivity.
      * rewrite !list_lookup_insert_ne by lia. apply G6; [lia | exact Hvx'].
Qed.

End ReaderSteps.

(* ===================================================================== *)
(** ** The topology as a list of records *)
(* ===================================================================== *)

Lemma topo_length nv g : length (topo_of nv g) = Z.to_nat nv.
Proof. unfold topo_of. rewrite length_fmap, length_seq. reflexivity. Qed.

Lemma topo_lookup nv g u :
  0 <= u < nv -> topo_of nv g !! Z.to_nat u = Some (g u).
Proof.
  intros Hu. unfold topo_of. rewrite list_lookup_fmap, lookup_seq_lt by lia.
  cbn [fmap option_fmap option_map Nat.add]. rewrite Z2Nat.id by lia. reflexivity.
Qed.

Lemma topo_ext nv g g' :
  (forall u, 0 <= u < nv -> g u = g' u) -> topo_of nv g = topo_of nv g'.
Proof.
  intros Hg. unfold topo_of. apply list_fmap_ext.
  intros i x Hx. apply lookup_seq in Hx as [-> Hi]. apply Hg. lia.
Qed.

Lemma topo_insert nv g g' u :
  0 <= u < nv -> (forall w, 0 <= w < nv -> w <> u -> g' w = g w) ->
  <[Z.to_nat u := g' u]> (topo_of nv g) = topo_of nv g'.
Proof.
  intros Hu Hg. apply list_eq. intros i.
  destruct (decide (i = Z.to_nat u)) as [->|Hne].
  - rewrite list_lookup_insert_eq by (rewrite topo_length; lia).
    rewrite topo_lookup by lia. reflexivity.
  - rewrite list_lookup_insert_ne by lia.
    destruct (decide (i < Z.to_nat nv)%nat) as [Hi|Hi].
    + replace i with (Z.to_nat (Z.of_nat i)) by lia.
      rewrite !topo_lookup by lia. f_equal. symmetry. apply Hg; lia.
    + rewrite !lookup_ge_None_2 by (rewrite topo_length; lia). reflexivity.
Qed.

Lemma topo_replicate nv x : replicate (Z.to_nat nv) x = topo_of nv (fun _ => x).
Proof.
  unfold topo_of. generalize 0%nat. induction (Z.to_nat nv) as [|k IH]; intros s.
  - reflexivity.
  - cbn [replicate seq fmap list_fmap]. f_equal. apply IH.
Qed.

Section Faces.
Variable fs0 : list FACE.
Variable N : Z.
Hypothesis Hfaces : forall i fc, fs0 !! i = Some fc -> face_okb N fc = true.


Lemma faces_three : forall fc, In fc fs0 -> length (v fc) = 3%nat.
Proof.
  intros fc Hin. apply list_elem_of_In, list_elem_of_lookup in Hin as (i & Hi).
  destruct (face_okb_inv _ _ (Hfaces _ _ Hi)) as (a & b & c & -> & _). reflexivity.
Qed.

Lemma corner_at (k j : Z) fc cj :
  fs0 !! Z.to_nat k = Some fc -> v fc !! Z.to_nat j = Some cj -> 0 <= k -> 0 <= j ->
  corner_pairs fs0 !! Z.to_nat (3 * k + j) = Some (cj, (k, j)).
Proof.
  intros Hk Hj H0k H0j.
  replace (Z.to_nat (3 * k + j)) with (3 * Z.to_nat k + Z.to_nat j)%nat by lia.
  rewrite (corner_pairs_lookup fs0 faces_three _ _ fc cj Hk Hj).
  rewrite !Z2Nat.id by lia. reflexivity.
Qed.

Lemma processed_step (k j : Z) fc cj :
  fs0 !! Z.to_nat k = Some fc -> v fc !! Z.to_nat j = Some cj -> 0 <= k -> 0 <= j ->
  processed fs0 (3 * k + j + 1) = processed fs0 (3 * k + j) ++ [(cj, (k, j))].
Proof.
  intros Hk Hj H0k H0j. unfold processed.
  replace (Z.to_nat (3 * k + j + 1)) with (S (Z.to_nat (3 * k + j))) by lia.
  apply take_S_r. apply (corner_at k j fc cj); assumption.
Qed.

Lemma processed_all : processed fs0 (3 * Z.of_nat (length fs0)) = corner_pairs fs0.
Proof.
  unfold processed. apply take_ge. rewrite (corner_pairs_length fs0 faces_three). lia.
Qed.

Lemma processed_0 : processed fs0 0 = [].
Proof. reflexivity. Qed.

(** A pair of the list is a corner of a face. *)
Lemma corner_pairs_elem p :
  p ∈ corner_pairs fs0 ->
  exists fc, fs0 !! Z.to_nat p.2.1 = Some fc /\ v fc !! Z.to_nat p.2.2 = Some p.1
    /\ 0 <= p.2.1 /\ 0 <= p.2.2 < 3.
Proof.
  intros Hp. apply list_elem_of_lookup in Hp as (t & Ht).
  pose proof (lookup_lt_Some _ _ _ Ht) as Hlt.
  rewrite (corner_pairs_length fs0 faces_three) in Hlt.
  pose proof (Nat.div_mod_eq t 3) as Hdm.
  pose proof (Nat.mod_upper_bound t 3 ltac:(lia)) as Hm.
  destruct (lookup_lt_is_Some_2 fs0 (t / 3)%nat ltac:(lia)) as (fc & Hfc).
  pose proof (faces_three fc) as H3.
  rewrite <- list_elem_of_In in H3. specialize (H3 (list_elem_of_lookup_2 _ _ _ Hfc)).
  destruct (lookup_lt_is_Some_2 (v fc) (t mod 3)%nat ltac:(lia)) as (cj & Hcj).
  pose proof (corner_pairs_lookup fs0 faces_three _ _ fc cj Hfc Hcj) as E.
  rewrite <- Hdm, Ht in E. injection E as ->. cbn [fst snd].
  exists fc. rewrite !Nat2Z.id. repeat split; try assumption; lia.
Qed.

End Faces.

(* ===================================================================== *)
(** ** The coordinate systems *)
(* ===================================================================== *)

Lemma mapM_length {A B} (g : A -> M B) (l : list A) lg bs :
  mapM g l = Ret lg bs -> length bs = length l.
Proof.
  revert lg bs. induction l as [|a l IH]; intros lg bs E; cbn [mapM] in E.
  - apply ret_Ret_inv in E. subst. reflexivity.
  - minv. cbn [length]. f_equal. eapply IH. eassumption.
Qed.

Lemma mapM_elem {A B} (g : A -> M B) (l : list A) lg bs b :
  mapM g l = Ret lg bs -> b ∈ bs -> exists a l', g a = Ret l' b.
Proof.
  revert lg bs. induction l as [|a l IH]; intros lg bs E Hb; cbn [mapM] in E.
  - apply ret_Ret_inv in E. subst. inversion Hb.
  - minv. apply elem_of_cons in Hb as [->|Hb].
    + eexists _, _. eassumption.
    + eapply IH; eassumption.
Qed.

Lemma matrix_of_xform_total (xf : list (list spec_float)) :
  length xf = 4%nat -> (forall r, r ∈ xf -> length r = 4%nat) ->
  exists mm, matrix_of_xform xf = Ret [] mm.
Proof.
  intros Hl Hr.
  destruct xf as [|r0 [|r1 [|r2 [|r3 [|]]]]]; try discriminate Hl.
  assert (H0 := Hr r0 ltac:(set_solver)). assert (H1 := Hr r1 ltac:(set_solver)).
  assert (H2 := Hr r2 ltac:(set_solver)). assert (H3 := Hr r3 ltac:(set_solver)).
  destruct r0 as [|? [|? [|? [|? [|]]]]]; try discriminate H0.
  destruct r1 as [|? [|? [|? [|? [|]]]]]; try discriminate H1.
  destruct r2 as [|? [|? [|? [|? [|]]]]]; try discriminate H2.
  destruct r3 as [|? [|? [|? [|? [|]]]]]; try discriminate H3.
  eexists. reflexivity.
Qed.

Lemma copy_xform_shape (m : MATRIX) l xf :
  copy_xform m = Ret l xf -> exists mm, matrix_of_xform xf = Ret [] mm.
Proof.
  intros E. unfold copy_xform in E. apply matrix_of_xform_total.
  - apply mapM_length in E. exact E.
  - intros r Hr. destruct (mapM_elem _ _ _ _ _ E Hr) as (a & l' & Ea).
    apply bind_Ret_inv in Ea as (l1 & row & l2 & _ & Ea & _).
    apply mapM_length in Ea. exact Ea.
Qed.


Section Assemble.
Context `{Collaborators}.

Lemma write_coordsys_ok (M : MRIS) out_fname l cs :
  write_coordsys M out_fname = Ret l cs -> xforms_ok cs.
Proof.
  intros E c Hc. unfold write_coordsys in E.
  repeat match type of E with
         | (if ?b then _ else _) = _ => destruct b
         | match ?o with Some _ => _ | None => _ end = _ => destruct o
         end;
    try (apply ret_Ret_inv in E; subst; inversion Hc);
    apply bind_Ret_inv in E as (l1 & xf & l2 & E1 & E2 & _);
    apply ret_Ret_inv in E2; subst;
    apply list_elem_of_singleton in Hc; subst; cbn [xform];
    eapply copy_xform_shape; exact E1.
Qed.

Lemma read_coordsys_spec coords mris :
  xforms_ok (coordsys coords) ->
  exists m', read_coordsys coords mris = Ret [] m'
    /\ (nvertices m' = nvertices mris /\ nfaces m' = nfaces mris
        /\ vertices m' = vertices mris /\ faces m' = faces mris
        /\ vertices_topology m' = vertices_topology mris).
Proof.
  intros Hok. unfold read_coordsys.
  loop_inv (fun (_ : Z) m' =>
    nvertices m' = nvertices mris /\ nfaces m' = nfaces mris
    /\ vertices m' = vertices mris /\ faces m' = faces mris
    /\ vertices_topology m' = vertices_topology mris) HL.
  apply HL; clear HL.
  - lia.
  - repeat split; reflexivity.
  - intros i st Hi Hst.
    destruct (lookup_lt_is_Some_2 (coordsys coords) (Z.to_nat i) ltac:(lia)) as (c & Hc).
    rewrite (at_index_Some _ i c ltac:(lia) Hc). rewrite bind_ret_l.
    destruct (String.eqb (dataspace c) "NIFTI_XFORM_SCANNER_ANAT").
    { eexists. split; [reflexivity|]. mris_simpl. exact Hst. }
    destruct (String.eqb (dataspace c) "NIFTI_XFORM_UNKNOWN");
      [|eexists; split; [reflexivity | exact Hst]].
    destruct (String.eqb (xformspace c) "NIFTI_XFORM_TALAIRACH");
      [|eexists; split; [reflexivity | exact Hst]].
    destruct (Hok c (list_elem_of_lookup_2 _ _ _ Hc)) as (mm & ->).
    rewrite bind_Ret_nil. eexists. split; [reflexivity|]. mris_simpl. exact Hst.
Qed.

End Assemble.

(* ===================================================================== *)
(** ** The reader: faces and topology *)
(* ===================================================================== *)

Section ReadFaces.
Context `{Collaborators}.
Variable fs0 : list FACE.
Variables N F : Z.
Hypothesis Hfaces : forall i fc, fs0 !! i = Some fc -> face_okb N fc = true.
Hypothesis HF : length fs0 = Z.to_nat F.
Hypothesis HN : 0 < N <= 2147483647.
Hypothesis HF0 : 0 <= F.

Lemma face_at (k : Z) :
  0 <= k < F ->
  exists a b c, fs0 !! Z.to_nat k = Some (mkFace [a; b; c])
    /\ 0 <= a < N /\ 0 <= b < N /\ 0 <= c < N /\ a <> b /\ b <> c /\ a <> c.
Proof.
  intros Hk. destruct (lookup_lt_is_Some_2 fs0 (Z.to_nat k) ltac:(lia)) as (fc & Hfc).
  destruct (face_okb_inv _ _ (Hfaces _ _ Hfc)) as (a & b & c & Hv & Hr).
  exists a, b, c. split; [|exact Hr]. rewrite Hfc. destruct fc as [vs]. simpl in Hv.
  rewrite Hv. reflexivity.
Qed.


Lemma read_faces_spec faces_da bufF mris :
  surface_array faces_da NIFTI_INTENT_TRIANGLE NIFTI_TYPE_INT32 F bufF ->
  (forall i a b c, fs0 !! Z.to_nat i = Some (mkFace [a; b; c]) -> 0 <= i ->
     bufF !! Z.to_nat (i * 3 + 0) = Some (CInt a)
     /\ bufF !! Z.to_nat (i * 3 + 1) = Some (CInt b)
     /\ bufF !! Z.to_nat (i * 3 + 2) = Some (CInt c)) ->
  faces mris = replicate (Z.to_nat F) zero_face ->
  vertices_topology mris = replicate (Z.to_nat N) vt0 ->
  exists m', read_faces faces_da F mris = Ret [] m'
    /\ (nvertices m' = nvertices mris /\ nfaces m' = nfaces mris
        /\ vertices m' = vertices mris
        /\ faces m' = fs0
        /\ vertices_topology m' = topo_of N (fun u => mkVT [] [] (deg u (corner_pairs fs0)))).
Proof.
  intros Hsa Hbuf Hfs HT. unfold read_faces.
  loop_inv (fun k m' =>
    nvertices m' = nvertices mris /\ nfaces m' = nfaces mris
    /\ vertices m' = vertices mris
    /\ faces m' = take (Z.to_nat k) fs0 ++ replicate (Z.to_nat (F - k)) zero_face
    /\ vertices_topology m' = topo_of N (counted fs0 (3 * k))) HL.
  destruct HL as (m' & E & G1 & G2 & G3 & G4 & G5).
  - exact HF0.
  - repeat split; try reflexivity.
    + rewrite Hfs, Z.sub_0_r. reflexivity.
    + rewrite HT, topo_replicate. apply topo_ext. intros u Hu. reflexivity.
  - intros k st Hk (G1 & G2 & G3 & G4 & G5).
    destruct (face_at k Hk) as (a & b & c & Hfc & Ha & Hb & Hc & _).
    destruct (Hbuf k a b c Hfc ltac:(lia)) as (B0 & B1 & B2).
    loop_inv (fun j m' =>
      nvertices m' = nvertices mris /\ nfaces m' = nfaces mris
      /\ vertices m' = vertices mris
      /\ faces m' = take (Z.to_nat k) fs0
                    ++ mkFace (take (Z.to_nat j) [a; b; c] ++ drop (Z.to_nat j) [0; 0; 0])
                       :: replicate (Z.to_nat (F - k - 1)) zero_face
      /\ vertices_topology m' = topo_of N (counted fs0 (3 * k + j))) HL.
    destruct HL as (st' & E' & I1 & I2 & I3 & I4 & I5); cycle 3.
    { exists st'. split; [exact E'|]. repeat split; try assumption.
      - rewrite I4. unfold VERTICES_PER_FACE. cbn [Z.to_nat Pos.to_nat Pos.iter_op Nat.add take drop].
        rewrite app_nil_r.
        replace (Z.to_nat (k + 1)) with (S (Z.to_nat k)) by lia.
        rewrite (take_S_r _ _ _ Hfc), <- app_assoc.
        replace (F - (k + 1)) with (F - k - 1) by lia. reflexivity.
      - rewrite I5. unfold VERTICES_PER_FACE. f_equal. f_equal. lia. }
    + unfold VERTICES_PER_FACE. lia.
    + repeat split; try assumption.
      * rewrite G4. f_equal.
        replace (Z.to_nat (F - k)) with (S (Z.to_nat (F - k - 1))) by lia. reflexivity.
      * rewrite G5, Z.add_0_r. reflexivity.
    + unfold VERTICES_PER_FACE. intros j st' Hj (I1 & I2 & I3 & I4 & I5).
      assert (Hcj : exists cj, [a; b; c] !! Z.to_nat j = Some cj /\ 0 <= cj < N
                     /\ bufF !! Z.to_nat (k * 3 + j) = Some (CInt cj)
                     /\ <[Z.to_nat j := cj]>
                          (take (Z.to_nat j) [a; b; c] ++ drop (Z.to_nat j) [0; 0; 0])
                        = take (Z.to_nat (j + 1)) [a; b; c]
                          ++ drop (Z.to_nat (j + 1)) [0; 0; 0]).
      { assert (Hj3 : j = 0 \/ j = 1 \/ j = 2) by lia.
        destruct Hj3 as [-> | [-> | ->]].
        - exists a. repeat split; try assumption; lia.
        - exists b. repeat split; try assumption; lia.
        - exists c. repeat split; try assumption; lia. }
      destruct Hcj as (cj & Lj & Rj & Bj & Ij).
      rewrite (get_cell3 _ _ _ _ _ Tint k j _ Hsa eq_refl ltac:(lia) ltac:(lia) Bj).
      rewrite widen_int by lia. rewrite bind_ret_l.
      rewrite to_int_double_of_Z by lia. rewrite bind_ret_l.
      rewrite I4.
      assert (Ltk : length (take (Z.to_nat k) fs0) = Z.to_nat k)
        by (rewrite length_take; lia).
      rewrite (at_index_Some _ k
                 (mkFace (take (Z.to_nat j) [a; b; c] ++ drop (Z.to_nat j) [0; 0; 0])))
        by (try lia; rewrite lookup_app_r by lia; rewrite Ltk, Nat.sub_diag; reflexivity).
      rewrite bind_ret_l. cbn [v].
      rewrite put_index_lt
        by (rewrite length_app, length_take, length_drop; cbn [length]; lia).
      rewrite bind_ret_l, Ij.
      rewrite put_index_lt by (rewrite length_app, Ltk; cbn [length]; lia).
      rewrite bind_ret_l. cbv zeta. mris_simpl. rewrite I5.
      rewrite (at_index_Some _ cj (counted fs0 (3 * k + j) cj))
        by (try lia; apply topo_lookup; lia).
      rewrite bind_ret_l.
      rewrite put_index_lt by (rewrite topo_length; lia). rewrite bind_ret_l.
      eexists. split; [reflexivity|]. mris_simpl.
      repeat split; try assumption.
      * rewrite insert_app_r_alt by lia. rewrite Ltk, Nat.sub_diag. reflexivity.
      * cbn [f n num counted].
        replace (3 * k + (j + 1)) with (3 * k + j + 1) by lia.
        assert (Hd : forall w, deg w (processed fs0 (3 * k + j + 1))
                     = deg w (processed fs0 (3 * k + j))
                       + if decide (cj = w) then 1 else 0).
        { intros w.
          rewrite (processed_step fs0 N Hfaces k j (mkFace [a; b; c]) cj Hfc Lj)
            by lia.
          rewrite deg_snoc. reflexivity. }
        rewrite <- (topo_insert N (counted fs0 (3 * k + j)) (counted fs0 (3 * k + j + 1)) cj).
        -- unfold counted. rewrite Hd. destruct (decide (cj = cj)); [reflexivity|congruence].
        -- lia.
        -- intros w Hw Hne. unfold counted. rewrite Hd.
           destruct (decide (cj = w)); [congruence|]. f_equal. lia.
  - exists m'. split; [exact E|]. repeat split; try assumption.
    + rewrite G4, Z.sub_diag. cbn [Z.to_nat replicate]. rewrite app_nil_r.
      apply take_ge. lia.
    + rewrite G5. apply topo_ext. intros u Hu. unfold counted. f_equal.
      replace F with (Z.of_nat (length fs0)) by lia.
      rewrite (processed_all fs0 N Hfaces). reflexivity.
Qed.


Lemma alloc_face_lists_spec mris :
  vertices_topology mris = topo_of N (fun u => mkVT [] [] (deg u (corner_pairs fs0))) ->
  exists m', alloc_face_lists N mris = Ret [] m'
    /\ (nvertices m' = nvertices mris /\ nfaces m' = nfaces mris
        /\ vertices m' = vertices mris /\ faces m' = faces mris
        /\ vertices_topology m' = topo_of N (fun u => mkVT (zeros fs0 u) (zeros fs0 u) 0)).
Proof.
  intros HT. unfold alloc_face_lists.
  loop_inv (fun k m' =>
    nvertices m' = nvertices mris /\ nfaces m' = nfaces mris
    /\ vertices m' = vertices mris /\ faces m' = faces mris
    /\ vertices_topology m'
       = topo_of N (fun u => if u <? k then mkVT (zeros fs0 u) (zeros fs0 u) 0
                             else mkVT [] [] (deg u (corner_pairs fs0)))) HL.
  destruct HL as (m' & E & G1 & G2 & G3 & G4 & G5).
  - lia.
  - repeat split; try reflexivity. rewrite HT. apply topo_ext. intros u Hu.
    destruct (Z.ltb_spec u 0); [lia|reflexivity].
  - intros k st Hk (G1 & G2 & G3 & G4 & G5). rewrite G5.
    rewrite (at_index_Some _ k (mkVT [] [] (deg k (corner_pairs fs0)))).
    2: lia.
    2: { rewrite topo_lookup by lia. rewrite Z.ltb_irrefl. reflexivity. }
    rewrite bind_ret_l. cbn [num].
    rewrite put_index_lt by (rewrite topo_length; lia). rewrite bind_ret_l.
    eexists. split; [reflexivity|]. mris_simpl. repeat split; try assumption.
    rewrite <- (topo_insert N
      (fun u => if u <? k then mkVT (zeros fs0 u) (zeros fs0 u) 0 else mkVT [] [] (deg u (corner_pairs fs0)))
      (fun u => if u <? k + 1 then mkVT (zeros fs0 u) (zeros fs0 u) 0 else mkVT [] [] (deg u (corner_pairs fs0)))
      k).
    + destruct (Z.ltb_spec k (k + 1)); [reflexivity|lia].
    + lia.
    + intros w Hw Hne.
      destruct (Z.ltb_spec w k), (Z.ltb_spec w (k + 1)); try reflexivity; lia.
  - exists m'. split; [exact E|]. repeat split; try assumption.
    rewrite G5. apply topo_ext. intros u Hu.
    destruct (Z.ltb_spec u N); [reflexivity|lia].
Qed.


Lemma fill_face_lists_spec mris :
  nfaces mris = F -> faces mris = fs0 ->
  vertices_topology mris = topo_of N (fun u => mkVT (zeros fs0 u) (zeros fs0 u) 0) ->
  exists m', fill_face_lists mris = Ret [] m'
    /\ (nvertices m' = nvertices mris /\ nfaces m' = nfaces mris
        /\ vertices m' = vertices mris /\ faces m' = faces mris
        /\ vertices_topology m'
           = topo_of N (fun u => mkVT (flist u (corner_pairs fs0)) (zeros fs0 u) (deg u (corner_pairs fs0)))).
Proof.
  intros HnF Hfs HT. unfold fill_face_lists. rewrite HnF.
  loop_inv (fun k m' =>
    nvertices m' = nvertices mris /\ nfaces m' = nfaces mris
    /\ vertices m' = vertices mris /\ faces m' = faces mris
    /\ vertices_topology m' = topo_of N (filled fs0 (3 * k))) HL.
  destruct HL as (m' & E & G1 & G2 & G3 & G4 & G5).
  - exact HF0.
  - repeat split; try reflexivity. rewrite HT. apply topo_ext. intros u Hu.
    unfold filled. rewrite Z.mul_0_r. unfold processed, deg at 2 3.
    cbn [Z.to_nat take at_vertex filter list_filter length Z.of_nat flist fmap list_fmap app].
    rewrite Z.sub_0_r. reflexivity.
  - intros k st Hk (G1 & G2 & G3 & G4 & G5).
    destruct (face_at k Hk) as (a & b & c & Hfc & Ha & Hb & Hc & _).
    rewrite G4, Hfs.
    rewrite (at_index_Some _ k _ ltac:(lia) Hfc). rewrite bind_ret_l. cbn [v].
    loop_inv (fun j m' =>
      nvertices m' = nvertices mris /\ nfaces m' = nfaces mris
      /\ vertices m' = vertices mris /\ faces m' = faces mris
      /\ vertices_topology m' = topo_of N (filled fs0 (3 * k + j))) HL.
    destruct HL as (st' & E' & I1 & I2 & I3 & I4 & I5); cycle 3.
    { exists st'. split; [exact E'|]. repeat split; try assumption; try congruence.
      rewrite I5. unfold VERTICES_PER_FACE. f_equal. f_equal. lia. }
    + unfold VERTICES_PER_FACE. lia.
    + repeat split; try assumption. rewrite G5, Z.add_0_r. reflexivity.
    + unfold VERTICES_PER_FACE. intros j st' Hj (I1 & I2 & I3 & I4 & I5).
      assert (Hcj : exists cj, [a; b; c] !! Z.to_nat j = Some cj /\ 0 <= cj < N).
      { assert (Hj3 : j = 0 \/ j = 1 \/ j = 2) by lia.
        destruct Hj3 as [-> | [-> | ->]].
        - exists a. split; [reflexivity|lia].
        - exists b. split; [reflexivity|lia].
        - exists c. split; [reflexivity|lia]. }
      destruct Hcj as (cj & Lj & Rj).
      rewrite (at_index_Some _ j cj ltac:(lia) Lj). rewrite bind_ret_l.
      rewrite I5.
      rewrite (at_index_Some _ cj (filled fs0 (3 * k + j) cj))
        by (try lia; apply topo_lookup; lia).
      rewrite bind_ret_l.
      assert (Hd : forall w, deg w (processed fs0 (3 * k + j + 1))
                   = deg w (processed fs0 (3 * k + j))
                     + if decide (cj = w) then 1 else 0).
      { intros w.
        rewrite (processed_step fs0 N Hfaces k j (mkFace [a; b; c]) cj Hfc Lj)
          by lia.
        rewrite deg_snoc. reflexivity. }
      assert (Hfl : forall w, flist w (processed fs0 (3 * k + j + 1))
                   = flist w (processed fs0 (3 * k + j))
                     ++ if decide (cj = w) then [k] else []).
      { intros w.
        rewrite (processed_step fs0 N Hfaces k j (mkFace [a; b; c]) cj Hfc Lj)
          by lia.
        rewrite flist_snoc. reflexivity. }
      pose proof (deg_take_le cj (corner_pairs fs0) (Z.to_nat (3 * k + j + 1))) as Hle.
      fold (processed fs0 (3 * k + j + 1)) in Hle.
      pose proof (Hd cj) as Hdc. destruct (decide (cj = cj)); [|congruence].
      pose proof (deg_nonneg cj (processed fs0 (3 * k + j))) as Hge.
      pose proof (flist_length cj (processed fs0 (3 * k + j))) as Hfl_len.
      unfold filled at 1 2. cbn [f n num].
      rewrite put_index_lt by (rewrite length_app, length_replicate; lia).
      rewrite bind_ret_l.
      rewrite put_index_lt by (rewrite topo_length; lia). rewrite bind_ret_l.
      eexists. split; [reflexivity|]. mris_simpl. repeat split; try assumption.
      replace (3 * k + (j + 1)) with (3 * k + j + 1) by lia.
      rewrite <- (topo_insert N (filled fs0 (3 * k + j)) (filled fs0 (3 * k + j + 1)) cj).
      * f_equal. unfold filled. rewrite Hdc. f_equal.
        rewrite Hfl. destruct (decide (cj = cj)); [|congruence].
        rewrite insert_app_r_alt by lia.
        replace (Z.to_nat (deg cj (processed fs0 (3 * k + j)))
                 - length (flist cj (processed fs0 (3 * k + j))))%nat with 0%nat by lia.
        replace (Z.to_nat (deg cj (corner_pairs fs0) - deg cj (processed fs0 (3 * k + j))))
          with (S (Z.to_nat (deg cj (corner_pairs fs0) - (deg cj (processed fs0 (3 * k + j)) + 1))))
          by lia.
        cbn [replicate]. rewrite <- app_assoc. reflexivity.
      * lia.
      * intros w Hw Hne. unfold filled. rewrite Hd, Hfl.
        destruct (decide (cj = w)); [congruence|].
        rewrite Z.add_0_r, app_nil_r. reflexivity.
  - exists m'. split; [exact E|]. repeat split; try assumption; try congruence.
    rewrite G5. apply topo_ext. intros u Hu. unfold filled.
    replace F with (Z.of_nat (length fs0)) by lia.
    rewrite (processed_all fs0 N Hfaces). rewrite Z.sub_diag.
    cbn [Z.to_nat replicate]. rewrite app_nil_r. reflexivity.
Qed.

Lemma slot_facts (v0 j : Z) :
  0 <= j < deg v0 (corner_pairs fs0) ->
  exists fj sj a b c,
    flist v0 (corner_pairs fs0) !! Z.to_nat j = Some fj /\ slist v0 (corner_pairs fs0) !! Z.to_nat j = Some sj
    /\ 0 <= fj /\ fs0 !! Z.to_nat fj = Some (mkFace [a; b; c])
    /\ 0 <= sj < 3 /\ [a; b; c] !! Z.to_nat sj = Some v0
    /\ a <> b /\ b <> c /\ a <> c.
Proof.
  intros Hj. unfold deg in Hj.
  destruct (lookup_lt_is_Some_2 (at_vertex v0 (corner_pairs fs0)) (Z.to_nat j) ltac:(lia)) as (p & Hp).
  assert (Hin : p ∈ at_vertex v0 (corner_pairs fs0)) by (eapply list_elem_of_lookup_2; exact Hp).
  unfold at_vertex in Hin. apply list_elem_of_filter in Hin as (Hv0 & Hin).
  destruct (corner_pairs_elem fs0 N Hfaces p Hin) as (fc & Hfc & Hc & Hf0 & Hs).
  destruct (face_okb_inv _ _ (Hfaces _ _ Hfc)) as (a & b & c & Hv & _ & _ & _ & Hd).
  exists p.2.1, p.2.2, a, b, c.
  unfold flist, slist. rewrite !list_lookup_fmap, Hp. cbn [fmap option_fmap option_map].
  repeat split; try lia; try apply Hd.
  - rewrite Hfc. destruct fc as [vs]. simpl in Hv. rewrite Hv. reflexivity.
  - rewrite <- Hv, <- Hv0. exact Hc.
Qed.




Lemma fill_face_slots_spec mris :
  faces mris = fs0 ->
  vertices_topology mris = topo_of N (fun u => mkVT (flist u (corner_pairs fs0)) (zeros fs0 u) (deg u (corner_pairs fs0))) ->
  exists m', fill_face_slots N mris = Ret [] m'
    /\ (nvertices m' = nvertices mris /\ nfaces m' = nfaces mris
        /\ vertices m' = vertices mris /\ faces m' = faces mris
        /\ vertices_topology m'
           = topo_of N (fun u => mkVT (flist u (corner_pairs fs0)) (slist u (corner_pairs fs0)) (deg u (corner_pairs fs0)))).
Proof.
  intros Hfs HT. unfold fill_face_slots.
  loop_inv (fun v0 m' =>
    nvertices m' = nvertices mris /\ nfaces m' = nfaces mris
    /\ vertices m' = vertices mris /\ faces m' = faces mris
    /\ vertices_topology m' = topo_of N (slotted fs0 v0)) HL.
  destruct HL as (m' & E & G1 & G2 & G3 & G4 & G5).
  - lia.
  - repeat split; try reflexivity. rewrite HT. apply topo_ext. intros u Hu.
    unfold slotted. destruct (Z.ltb_spec u 0); [lia|reflexivity].
  - intros v0 st Hv0 (G1 & G2 & G3 & G4 & G5). rewrite G5.
    rewrite (at_index_Some _ v0 (slotted fs0 v0 v0)) by (try lia; apply topo_lookup; lia).
    rewrite bind_ret_l. unfold slotted at 1. cbn [num].
    pose proof (deg_nonneg v0 (corner_pairs fs0)) as Hdeg.
    pose proof (slist_length v0 (corner_pairs fs0)) as Hsl.
    loop_inv (fun j m' =>
      nvertices m' = nvertices mris /\ nfaces m' = nfaces mris
      /\ vertices m' = vertices mris /\ faces m' = faces mris
      /\ vertices_topology m'
         = topo_of N (slotting fs0 v0 (take (Z.to_nat j) (slist v0 (corner_pairs fs0))
                                   ++ replicate (Z.to_nat (deg v0 (corner_pairs fs0) - j)) 0))) HL.
    destruct HL as (st' & E' & I1 & I2 & I3 & I4 & I5); cycle 3.
    { exists st'. split; [exact E'|]. repeat split; try assumption.
      rewrite I5. apply topo_ext. intros u Hu. unfold slotting, slotted.
      rewrite Z.sub_diag. cbn [Z.to_nat replicate]. rewrite app_nil_r.
      rewrite take_ge by lia.
      destruct (Z.eqb_spec u v0) as [->|Hne].
      - destruct (Z.ltb_spec v0 (v0 + 1)); [reflexivity|lia].
      - destruct (Z.ltb_spec u v0), (Z.ltb_spec u (v0 + 1)); try reflexivity; lia. }
    + exact Hdeg.
    + repeat split; try assumption. rewrite G5. apply topo_ext. intros u Hu.
      unfold slotting, slotted. rewrite Z.sub_0_r. cbn [Z.to_nat take app].
      destruct (Z.eqb_spec u v0) as [->|Hne]; [|reflexivity].
      rewrite Z.ltb_irrefl. reflexivity.
    + intros j st' Hj (I1 & I2 & I3 & I4 & I5).
      destruct (slot_facts v0 j Hj) as (fj & sj & a & b & c & Lf & Ls & Hf0 & Hfc
                                        & Hs & Hc & Hab & Hbc & Hac).
      loop_inv (fun m m' =>
        nvertices m' = nvertices mris /\ nfaces m' = nfaces mris
        /\ vertices m' = vertices mris /\ faces m' = faces mris
        /\ vertices_topology m' = topo_of N (slotting fs0 v0 (slot_row fs0 v0 j m))) HL.
      destruct HL as (st'' & E'' & J1 & J2 & J3 & J4 & J5); cycle 3.
      { exists st''. split; [exact E''|]. repeat split; try assumption.
        rewrite J5. f_equal. f_equal. unfold slot_row, VERTICES_PER_FACE.
        rewrite Ls. cbn [default from_option id].
        destruct (Z.ltb_spec sj 3); [|lia].
        replace (Z.to_nat (j + 1)) with (S (Z.to_nat j)) by lia.
        rewrite (take_S_r _ _ _ Ls), <- app_assoc.
        replace (deg v0 (corner_pairs fs0) - (j + 1)) with (deg v0 (corner_pairs fs0) - j - 1) by lia. reflexivity. }
      * unfold VERTICES_PER_FACE. lia.
      * repeat split; try assumption. rewrite I5. f_equal. f_equal.
        unfold slot_row. rewrite Ls. cbn [default from_option id].
        destruct (Z.ltb_spec sj 0); [lia|].
        replace (Z.to_nat (deg v0 (corner_pairs fs0) - j)) with (S (Z.to_nat (deg v0 (corner_pairs fs0) - j - 1))) by lia.
        reflexivity.
      * unfold VERTICES_PER_FACE. intros m st'' Hm (J1 & J2 & J3 & J4 & J5).
        rewrite J5.
        rewrite (at_index_Some _ v0 (slotting fs0 v0 (slot_row fs0 v0 j m) v0))
          by (try lia; apply topo_lookup; lia).
        rewrite bind_ret_l. unfold slotting at 1 2 3. rewrite Z.eqb_refl. cbn [f n num].
        rewrite (at_index_Some _ j fj ltac:(lia) Lf). rewrite bind_ret_l.
        rewrite J4, Hfs.
        rewrite (at_index_Some _ fj _ Hf0 Hfc). rewrite bind_ret_l. cbn [v].
        assert (Hcm : exists cm, [a; b; c] !! Z.to_nat m = Some cm
                                 /\ (cm = v0 <-> m = sj)).
        { assert (Hm3 : m = 0 \/ m = 1 \/ m = 2) by lia.
          assert (Hs3 : sj = 0 \/ sj = 1 \/ sj = 2) by lia.
          destruct Hm3 as [-> | [-> | ->]]; destruct Hs3 as [-> | [-> | ->]];
            cbn in Hc; injection Hc as Hc; eexists; (split; [reflexivity|]);
            split; intros; try lia; try congruence. }
        destruct Hcm as (cm & Lm & Hiff).
        rewrite (at_index_Some _ m cm ltac:(lia) Lm). rewrite bind_ret_l.
        assert (Hrow_len : length (slot_row fs0 v0 j m) = Z.to_nat (deg v0 (corner_pairs fs0))).
        { unfold slot_row. rewrite length_app, length_take. cbn [length].
          rewrite length_replicate. lia. }
        destruct (Z.eqb_spec cm v0) as [Heq|Hne].
        -- apply Hiff in Heq. subst m.
           rewrite put_index_lt by lia. rewrite bind_ret_l.
           rewrite put_index_lt by (rewrite topo_length; lia). rewrite bind_ret_l.
           eexists. split; [reflexivity|]. mris_simpl.
           repeat split; try assumption; try congruence.
           rewrite <- (topo_insert N (slotting fs0 v0 (slot_row fs0 v0 j sj))
                         (slotting fs0 v0 (slot_row fs0 v0 j (sj + 1))) v0).
           ++ f_equal. unfold slotting. rewrite Z.eqb_refl. f_equal.
              unfold slot_row. rewrite Ls. cbn [default from_option id].
              rewrite insert_app_r_alt by (rewrite length_take; lia).
              rewrite length_take.
              replace (Z.to_nat j - Z.to_nat j `min` length (slist v0 (corner_pairs fs0)))%nat
                with 0%nat by lia.
              destruct (Z.ltb_spec sj (sj + 1)); [reflexivity|lia].
           ++ lia.
           ++ intros w Hw Hnew. unfold slotting.
              destruct (Z.eqb_spec w v0); [lia|reflexivity].
        -- eexists. split; [reflexivity|].
           repeat split; try assumption; try congruence.
           rewrite J5. f_equal. f_equal. unfold slot_row.
           rewrite Ls. cbn [default from_option id].
           assert (m <> sj) by (intros Hx; apply Hne, Hiff, Hx).
           destruct (Z.ltb_spec sj m), (Z.ltb_spec sj (m + 1)); try reflexivity; lia.
  - exists m'. split; [exact E|]. repeat split; try assumption.
    rewrite G5. apply topo_ext. intros u Hu. unfold slotted.
    destruct (Z.ltb_spec u N); [reflexivity|lia].
Qed.

Variable vs0 : list VERTEX.
Hypothesis Hvs_len : length vs0 = Z.to_nat N.
Hypothesis Hvs_ok : forall i vx, vs0 !! i = Some vx -> vertex_okb vx = true.
Hypothesis HFpos : 0 < F.
Variables coordsF facesF : giiDataArray.
Variables bufC bufF : list cell.
Hypothesis HsaC : surface_array coordsF NIFTI_INTENT_POINTSET NIFTI_TYPE_FLOAT32 N bufC.
Hypothesis HsaF : surface_array facesF NIFTI_INTENT_TRIANGLE NIFTI_TYPE_INT32 F bufF.
Hypothesis HbufC : forall i vx, vs0 !! Z.to_nat i = Some vx -> 0 <= i ->
  bufC !! Z.to_nat (i * 3 + 0) = Some (CF32 (x vx))
  /\ bufC !! Z.to_nat (i * 3 + 1) = Some (CF32 (y vx))
  /\ bufC !! Z.to_nat (i * 3 + 2) = Some (CF32 (z vx)).
Hypothesis HbufF : forall i a b c, fs0 !! Z.to_nat i = Some (mkFace [a; b; c]) -> 0 <= i ->
  bufF !! Z.to_nat (i * 3 + 0) = Some (CInt a)
  /\ bufF !! Z.to_nat (i * 3 + 1) = Some (CInt b)
  /\ bufF !! Z.to_nat (i * 3 + 2) = Some (CInt c).
Hypothesis Hcmds :
  0 <= default 0 (scan_d (meta coordsF) "NUM_TAG_CMDLINE") <= MAX_CMDS.
Hypothesis Hfull : values_full (meta coordsF).
Hypothesis Hxf : xforms_ok (coordsys coordsF).

Lemma read_geometry_spec fuel fname :
  exists l m', read_geometry fuel fname coordsF facesF = Ret l m'
               /\ read_back N F vs0 fs0 m'.
Proof.
  unfold read_geometry.
  rewrite (records_cols_surface _ _ _ _ _ HsaC) by lia.
  rewrite (records_cols_surface _ _ _ _ _ HsaF) by lia.
  destruct (Z.leb_spec N 0); [lia|]. destruct (Z.leb_spec F 0); [lia|].
  cbn [Z.eqb Pos.eqb negb orb]. cbv zeta.
  match goal with
  | |- context [read_cmdlines fuel ?md ?m] =>
      destruct (read_cmdlines_ok fuel md m) as (l & m1 & E1 & A1 & A2 & A3 & A4 & A5)
  end.
  { destruct (scan_f (meta coordsF) "TAG_GROUP_AVG_SURFACE_AREA"); mris_simpl;
      apply length_replicate. }
  { destruct (scan_f (meta coordsF) "TAG_GROUP_AVG_SURFACE_AREA"); mris_simpl;
      exact Hcmds. }
  { exact Hfull. }
  assert (B3 : vertices m1 = replicate (Z.to_nat N) zero_vertex)
    by (rewrite A3; destruct (scan_f (meta coordsF) "TAG_GROUP_AVG_SURFACE_AREA");
        reflexivity).
  assert (B4 : vertices_topology m1 = replicate (Z.to_nat N) vt0)
    by (rewrite A4; destruct (scan_f (meta coordsF) "TAG_GROUP_AVG_SURFACE_AREA");
        reflexivity).
  assert (B5 : faces m1 = replicate (Z.to_nat F) zero_face)
    by (rewrite A5; destruct (scan_f (meta coordsF) "TAG_GROUP_AVG_SURFACE_AREA");
        reflexivity).
  assert (B1 : nvertices m1 = N)
    by (rewrite A1; destruct (scan_f (meta coordsF) "TAG_GROUP_AVG_SURFACE_AREA");
        reflexivity).
  assert (B2 : nfaces m1 = F)
    by (rewrite A2; destruct (scan_f (meta coordsF) "TAG_GROUP_AVG_SURFACE_AREA");
        reflexivity).
  clear A1 A2 A3 A4 A5. rewrite E1. clear E1.
  destruct (read_vertices_spec coordsF bufC N vs0 m1 HsaC ltac:(lia) HbufC Hvs_len Hvs_ok)
    as (m2 & E2 & C1 & C2 & C5 & C4 & C3 & Cpos).
  { rewrite B3. apply length_replicate. }
  { exact B4. }
  destruct (read_faces_spec facesF bufF
              (mris_set_ctr m2 (surface_center (vertices m2))) HsaF HbufF)
    as (m3 & E3 & D1 & D2 & D3 & D5 & D4).
  { mris_simpl. rewrite C5. exact B5. }
  { mris_simpl. rewrite C4. exact B4. }
  mris_simpl.
  destruct (alloc_face_lists_spec m3 D4) as (m4 & E4 & F1 & F2 & F3 & F5 & F4).
  destruct (fill_face_lists_spec m4) as (m5 & E5 & G1 & G2 & G3 & G5 & G4).
  { congruence. }
  { congruence. }
  { exact F4. }
  destruct (fill_face_slots_spec m5) as (m6 & E6 & I1 & I2 & I3 & I5 & I4).
  { congruence. }
  { exact G4. }
  destruct (read_coordsys_spec coordsF m6 Hxf) as (m7 & E7 & J1 & J2 & J3 & J5 & J4).
  exists (l ++ []), m7. split.
  - apply bind_Ret. rewrite E2, bind_Ret_nil. cbv zeta.
    rewrite E3, bind_Ret_nil, E4, bind_Ret_nil, E5, bind_Ret_nil, E6, bind_Ret_nil.
    exact E7.
  - split.
    + congruence.
    + congruence.
    + rewrite J3, I3, G3, F3, D3. exact C3.
    + intros i vx Hvx. rewrite J3, I3, G3, F3, D3. apply Cpos; [|exact Hvx].
      apply lookup_lt_Some in Hvx. lia.
    + congruence.
    + rewrite J4, I4. reflexivity.
Qed.

Lemma reader_spec fuel fname (mris0 : option MRIS) (outmri : option MRI) (frame : Z) :
  exists l m',
    mrisReadGIFTIdanum fuel (mkImage [coordsF; facesF] empty_labeltable ∅) fname
                       mris0 (-1) outmri frame
    = Ret l (m', outmri, frame)
    /\ read_back N F vs0 fs0 m'.
Proof.
  destruct (read_geometry_spec fuel fname) as (l & m' & E & Hm').
  exists (l ++ []), m'. split; [|exact Hm'].
  unfold mrisReadGIFTIdanum.
  assert (Ec : read_colortable (mkImage [coordsF; facesF] empty_labeltable ∅) fname
               = ret (None, mkImage [coordsF; facesF] empty_labeltable ∅))
    by reflexivity.
  rewrite Ec, bind_ret_l. clear Ec.
  assert (Ef : find_geometry (mkImage [coordsF; facesF] empty_labeltable ∅)
               = (Some coordsF, Some facesF)).
  { unfold find_geometry. cbn [darray fold_left fst snd].
    rewrite (sa_intent _ _ _ _ _ HsaC), (sa_intent _ _ _ _ _ HsaF). reflexivity. }
  rewrite Ef, E. clear Ef E.
  rewrite bind_assoc. apply bind_Ret. rewrite !bind_ret_l.
  cbn [negb Z.eqb Pos.eqb]. unfold for_Z.
  match goal with
  | |- context [for_loop ?k] => let r := eval vm_compute in k in change k with r
  end.
  cbn [for_loop]. rewrite bind_ret_l.
  unfold read_darray. cbn [Z.of_nat Pos.of_succ_nat Z.add darray].
  rewrite (at_index_Some _ 0 coordsF) by (try lia; reflexivity). rewrite bind_ret_l.
  rewrite (sa_intent _ _ _ _ _ HsaC), Z.eqb_refl. cbn [orb].
  rewrite bind_ret_l.
  rewrite (at_index_Some _ 1 facesF) by (try lia; reflexivity). rewrite bind_ret_l.
  rewrite (sa_intent _ _ _ _ _ HsaF), Z.eqb_refl, orb_true_r.
  rewrite bind_ret_l. reflexivity.
Qed.

End ReadFaces.

(* ===================================================================== *)
(** ** The round trip of a surface *)
(* ===================================================================== *)

Lemma topology_okb_inv (m : MRIS) :
  topology_okb m = true ->
  length (vertices_topology m) = Z.to_nat (nvertices m)
  /\ forall i vt, vertices_topology m !! i = Some vt ->
       incidence vt = corners_of (faces m) (Z.of_nat i).
Proof.
  unfold topology_okb. intros Hb. apply andb_true_iff in Hb as (Hl & Hall).
  apply bool_decide_eq_true in Hl. split; [exact Hl|].
  intros i vt Hvt. rewrite forallb_forall in Hall.
  specialize (Hall i). rewrite Hvt in Hall.
  apply lookup_lt_Some in Hvt.
  assert (Hin : In i (seq 0 (Z.to_nat (nvertices m)))) by (apply in_seq; lia).
  apply Hall in Hin. apply bool_decide_eq_true in Hin. exact Hin.
Qed.

Lemma cmdlines_okb_inv `{Collaborators} (m : MRIS) :
  cmdlines_okb m = true -> 0 <= MAX_CMDS /\ ncmds m <= MAX_CMDS.
Proof.
  unfold cmdlines_okb. intros Hb.
  apply andb_true_iff in Hb as (Hb & _). apply andb_true_iff in Hb as (H0 & H1).
  apply Z.leb_le in H0, H1. lia.
Qed.

(** X25: for every surface with valid geometry and no excluded vertex
    whose recorded command lines, if there are any, have at least
    TAG_CMDLINE_LEN - 1 characters, writing it as a surface container
    and reading the result returns a surface of the same numbers of
    vertices and faces, the same position at every vertex, the same
    three vertex numbers in every face and, at every vertex, the same
    set of (incident face, slot in that face). *)
Theorem surface_container_round_trip `{Collaborators} (mris : MRIS)
    (out_fname fname : string) (cs : list giiCoordSystem) (fuel : nat)
    (mris0 : option MRIS) (outmri : option MRI) (frame : Z) :
  mesh_validb mris = true ->
  cmdlines_fullb mris = true ->
  write_coordsys mris out_fname = Ret [] cs ->
  (0 < ncmds mris -> sscanf_d (pretty (ncmds mris)) = Some (ncmds mris)) ->
  exists image log mris',
    MRISwriteGIFTISurface mris empty_image out_fname = Ret [] image
    /\ mrisReadGIFTIdanum fuel image fname mris0 (-1) outmri frame
       = Ret log (mris', outmri, frame)
    /\ nvertices mris' = nvertices mris
    /\ nfaces mris' = nfaces mris
    /\ length (vertices mris') = length (vertices mris)
    /\ (forall i vx, vertices mris !! i = Some vx ->
          exists vx', vertices mris' !! i = Some vx'
            /\ x vx' = x vx /\ y vx' = y vx /\ z vx' = z vx)
    /\ faces mris' = faces mris
    /\ length (vertices_topology mris') = length (vertices_topology mris)
    /\ (forall i vt, vertices_topology mris !! i = Some vt ->
          exists vt', vertices_topology mris' !! i = Some vt'
            /\ incidence vt' = incidence vt).
Proof.
  intros Hvalid Hfull Hcs Hscan.
  pose proof (mesh_validb_facts mris Hvalid) as HM.
  destruct (MRISwriteGIFTISurface_spec mris HM out_fname cs Hcs)
    as (coordsF & facesF & bufC & bufF & Ew & HsaC & HsaF & Hcoordsys & Hmeta & Hvals
        & HbufC & HbufF).
  destruct HM as [Hnv Hnf Hvlen Hflen Hvx Hfc Htopo Hcmd].
  destruct (cmdlines_okb_inv mris Hcmd) as (Hmax0 & Hmax).
  destruct (topology_okb_inv mris Htopo) as (Htlen & Hinc).
  destruct (reader_spec (faces mris) (nvertices mris) (nfaces mris) Hfc Hflen ltac:(lia)
              ltac:(lia) (vertices mris) Hvlen Hvx ltac:(lia) coordsF facesF bufC bufF
              HsaC HsaF HbufC HbufF) with (fuel := fuel) (fname := fname)
              (mris0 := mris0) (outmri := outmri) (frame := frame)
    as (log & mris' & Er & Hrb).
  - unfold scan_d, gifti_get_meta_value. rewrite Hmeta.
    destruct (Z.ltb_spec 0 (ncmds mris)) as [Hpos|Hle].
    + rewrite (Hscan Hpos). cbn [default from_option id]. lia.
    + cbn [default from_option id]. lia.
  - exact (Hvals Hfull).
  - rewrite Hcoordsys. eapply write_coordsys_ok. exact Hcs.
  - exists (mkImage [coordsF; facesF] empty_labeltable ∅), log, mris'.
    destruct Hrb as [R1 R2 R3 R4 R5 R6].
    split; [exact Ew|]. split; [exact Er|].
    split; [exact R1|]. split; [exact R2|].
    split; [rewrite R3, Hvlen; reflexivity|].
    split; [exact R4|]. split; [exact R5|].
    split; [rewrite R6, topo_length, Htlen; reflexivity|].
    intros i vt Hvt. pose proof (lookup_lt_Some _ _ _ Hvt) as Hi.
    exists (rebuilt (faces mris) (Z.of_nat i)). split.
    + rewrite R6. rewrite <- (Nat2Z.id i) at 1. apply topo_lookup. lia.
    + rewrite (Hinc i vt Hvt). apply incidence_final.
Qed.

Lemma surface_container_round_trip_witness :
  @mesh_validb reference_collaborators tetra_with_long_cmd = true
  /\ cmdlines_fullb tetra_with_long_cmd = true
  /\ exists image log mris',
       @MRISwriteGIFTISurface reference_collaborators tetra_with_long_cmd empty_image
         "lh.white.gii" = Ret [] image
       /\ @mrisReadGIFTIdanum reference_collaborators 0 image "lh.white.gii" None (-1) None 0
          = Ret log (mris', None, 0)
       /\ nvertices mris' = nvertices tetra_with_long_cmd
       /\ nfaces mris' = nfaces tetra_with_long_cmd
       /\ length (vertices mris') = length (vertices tetra_with_long_cmd)
       /\ (forall i vx, vertices tetra_with_long_cmd !! i = Some vx ->
             exists vx', vertices mris' !! i = Some vx'
               /\ x vx' = x vx /\ y vx' = y vx /\ z vx' = z vx)
       /\ faces mris' = faces tetra_with_long_cmd
       /\ length (vertices_topology mris') = length (vertices_topology tetra_with_long_cmd)
       /\ (forall i vt, vertices_topology tetra_with_long_cmd !! i = Some vt ->
             exists vt', vertices_topology mris' !! i = Some vt'
               /\ incidence vt' = incidence vt).
Proof.
  split; [vm_compute; reflexivity|]. split; [vm_compute; reflexivity|].
  eapply (@surface_container_round_trip reference_collaborators tetra_with_long_cmd
            "lh.white.gii" "lh.white.gii" _ 0 None None 0).
  - vm_compute. reflexivity.
  - vm_compute. reflexivity.
  - vm_compute. reflexivity.
  - intros _. vm_compute. reflexivity.
Defined.

Lemma bind_undefined_after {A B} (m : M A) (k : A -> M B) l a :
  m = Ret l a -> k a = Undefined -> bind m k = Undefined.
Proof. intros -> Hk. unfold bind. rewrite Hk. reflexivity. Qed.

Lemma for_loop_first_undefined {S} (n : nat) (body : nat -> S -> M S) (s : S) :
  (0 < n)%nat -> body 0%nat s = Undefined -> for_loop n body s = Undefined.
Proof.
  intros Hn Hb. induction n as [|k IH]; [lia|]. rewrite for_loop_S.
  destruct k as [|k'].
  - cbn [for_loop]. rewrite bind_ret_l. exact Hb.
  - rewrite IH by lia. reflexivity.
Qed.

Section ShortCommandLine.
Context `{Collaborators}.

(** A first command line stored with fewer than TAG_CMDLINE_LEN bytes:
    the copy of TAG_CMDLINE_LEN bytes reads past the end of the value. *)
Lemma read_cmdlines_short fuel md mris k v :
  scan_d md "NUM_TAG_CMDLINE" = Some k -> 0 < k <= MAX_CMDS ->
  gifti_get_meta_value md (cmdline_tag 0) = Some v ->
  (String.length v + 1 < TAG_CMDLINE_LEN)%nat ->
  read_cmdlines fuel md mris = Undefined.
Proof.
  intros Hs Hk Hv Hlen. unfold read_cmdlines. rewrite Hs. cbn [ncmds mris_set_ncmds].
  destruct (Z.ltb_spec MAX_CMDS k); [lia|].
  rewrite bind_ret_l, while_loop_done by reflexivity. rewrite bind_ret_l.
  match goal with
  | |- bind ?m _ = _ => assert (E : m = Undefined); [|rewrite E; reflexivity]
  end.
  unfold for_Z_break.
  match goal with
  | |- bind ?m _ = _ => assert (E : m = Undefined); [|rewrite E; reflexivity]
  end.
  unfold for_Z. apply for_loop_first_undefined; [mris_simpl; lia|].
  cbv beta. cbn [fst snd]. change (Z.of_nat 0) with 0. rewrite Hv.
  destruct (Nat.ltb_spec (String.length v + 1) TAG_CMDLINE_LEN); [reflexivity|lia].
Qed.

Lemma read_geometry_short fuel fname coords faces_da k v :
  0 < (records_cols coords).1 -> (records_cols coords).2 = 3 ->
  0 < (records_cols faces_da).1 -> (records_cols faces_da).2 = 3 ->
  scan_d (meta coords) "NUM_TAG_CMDLINE" = Some k -> 0 < k <= MAX_CMDS ->
  gifti_get_meta_value (meta coords) (cmdline_tag 0) = Some v ->
  (String.length v + 1 < TAG_CMDLINE_LEN)%nat ->
  read_geometry fuel fname coords faces_da = Undefined.
Proof.
  intros Hv Hc Hf Hc' Hs Hk Hval Hlen. unfold read_geometry.
  destruct (records_cols coords) as [nv nc]. destruct (records_cols faces_da) as [nf nc'].
  simpl in *. subst nc nc'.
  destruct (Z.leb_spec nv 0); [lia|]. destruct (Z.leb_spec nf 0); [lia|]. simpl.
  erewrite read_cmdlines_short by eassumption. reflexivity.
Qed.

Lemma reader_undefined_in_geometry fuel image fname mris daNum outmri frame
    l ctab image' coords faces_da :
  read_colortable image fname = Ret l (ctab, image') ->
  find_geometry image' = (Some coords, Some faces_da) ->
  read_geometry fuel fname coords faces_da = Undefined ->
  mrisReadGIFTIdanum fuel image fname mris daNum outmri frame = Undefined.
Proof.
  intros Hc Hg Hd. unfold mrisReadGIFTIdanum.
  eapply bind_undefined_after; [exact Hc|]. cbv beta iota.
  rewrite Hg, Hd. reflexivity.
Qed.

End ShortCommandLine.

(** C1: a surface with valid geometry and no excluded vertex is not
    always read back. The scenario surface with four recorded command
    lines is written with the value "cmd0" (five bytes with its
    terminator) under TAG_CMDLINE#0; the reader copies TAG_CMDLINE_LEN =
    1024 bytes from that value, which is undefined, before it copies a
    vertex. The same surface without command lines is read back with
    its positions and faces. *)
Theorem surface_round_trip_cmdline_overread :
  @mesh_validb reference_collaborators tetra_with_cmds = true
  /\ @MRISwriteGIFTISurface reference_collaborators tetra_with_cmds empty_image
       "lh.white.gii" = Ret [] cmds_image
  /\ (forall coords, darray cmds_image !! 0%nat = Some coords ->
        gifti_get_meta_value (meta coords) "NUM_TAG_CMDLINE" = Some "4"
        /\ gifti_get_meta_value (meta coords) (cmdline_tag 0) = Some "cmd0")
  /\ (forall fuel,
        @mrisReadGIFTIdanum reference_collaborators fuel cmds_image "lh.white.gii"
          None (-1) None 0 = Undefined)
  /\ exists image m,
       @MRISwriteGIFTISurface reference_collaborators tetra_mris empty_image
         "lh.white.gii" = Ret [] image
       /\ @mrisReadGIFTIdanum reference_collaborators 0 image "lh.white.gii"
            None (-1) None 0 = Ret [] (m, None, 0)
       /\ ((fun vx => (x vx, y vx, z vx)) <$> vertices m)
          = ((fun vx => (x vx, y vx, z vx)) <$> vertices tetra_mris)
       /\ faces m = faces tetra_mris.
Proof.
  split; [vm_compute; reflexivity|].
  split; [vm_compute; reflexivity|].
  split.
  { intros coords Hc. vm_compute in Hc. injection Hc as <-.
    split; vm_compute; reflexivity. }
  split.
  { intros fuel.
    eapply reader_undefined_in_geometry; [vm_compute; reflexivity | vm_compute; reflexivity|].
    apply read_geometry_short with (k := 4) (v := "cmd0");
      try (vm_compute; reflexivity).
    - split; [reflexivity|discriminate].
    - apply Nat.ltb_lt. vm_compute. reflexivity. }
  eexists _, _. split; [vm_compute; reflexivity|].
  split; [vm_compute; reflexivity|].
  split; vm_compute; reflexivity.
Qed.

(* ===================================================================== *)
(** ** The typed element accessor: what is written is read back *)
(* ===================================================================== *)

(** In a one-dimensional array the offset is the row: one factor of the
    product is 1 or 0. *)
Lemma offset_1D (da : giiDataArray) (row : Z) : offset da row 0 (dim da 0) 1 = ret row.
Proof.
  unfold offset. destruct (_ =? _).
  - rewrite int_mul_one, bind_ret_l, Z.add_0_r. reflexivity.
  - rewrite int_mul_zero, bind_ret_l, Z.add_0_r. reflexivity.
Qed.

(** Writing an element of a one-dimensional array: the cell at [row],
    whatever the index order. *)
Lemma set_1D_assign (da : giiDataArray) (buf : list cell) (row : Z) (value : spec_float)
    (t : ctype) :
  data da = Some buf -> num_dim da = 1 ->
  written_kind (datatype da) = Some t ->
  0 <= row < dim da 0 ->
  gifti_set_DA_value_2D (Some da) row 0 value
  = bind (assign t buf row value) (fun buf' => ret (set_data da buf')).
Proof.
  intros Hd Hn Hk Hr. unfold gifti_set_DA_value_2D. rewrite Hd, Hn.
  cbn [Z.eqb Pos.eqb negb]. rewrite bind_ret_l.
  destruct (GIFTI_IND_ORD_ROW_MAJOR =? ind_ord da) eqn:Ho;
    rewrite (index_bad_false row (dim da 0) 0 1 Hr ltac:(lia));
    rewrite offset_1D, !bind_ret_l;
    unfold written_kind in Hk;
    repeat (match type of Hk with
            | context [?a =? ?b] => destruct (Z.eqb_spec a b)
            end; [injection Hk as <-; reflexivity|]);
    discriminate.
Qed.

Lemma assign_cell (t : ctype) (buf : list cell) (off : Z) (value : spec_float) (c : cell) :
  narrow t value = ret c -> 0 <= off < Z.of_nat (length buf) ->
  assign t buf off value = ret (<[Z.to_nat off := c]> buf).
Proof.
  intros Hv Ho. unfold assign.
  destruct (Z.ltb_spec off 0); [lia|].
  destruct (Z.ltb_spec off (Z.of_nat (length buf))); [|lia].
  rewrite Hv, bind_ret_l. reflexivity.
Qed.

Lemma set_1D (da : giiDataArray) (buf : list cell) (row : Z) (value : spec_float)
    (t : ctype) (c : cell) :
  data da = Some buf -> num_dim da = 1 ->
  written_kind (datatype da) = Some t ->
  narrow t value = ret c ->
  0 <= row < dim da 0 -> row < Z.of_nat (length buf) ->
  gifti_set_DA_value_2D (Some da) row 0 value
  = ret (set_data da (<[Z.to_nat row := c]> buf)).
Proof.
  intros Hd Hn Hk Hv Hr Hlen.
  rewrite (set_1D_assign da buf row value t Hd Hn Hk Hr).
  rewrite (assign_cell t buf row value c Hv) by lia. rewrite bind_ret_l. reflexivity.
Qed.

(** Reading an element of a one-dimensional array: the cell at [row]. *)
Lemma get_1D_deref (da : giiDataArray) (buf : list cell) (row : Z) :
  data da = Some buf -> num_dim da = 1 ->
  ind_ord da = GIFTI_IND_ORD_ROW_MAJOR \/ ind_ord da = GIFTI_IND_ORD_COL_MAJOR ->
  0 <= row < dim da 0 ->
  gifti_get_DA_value_2D (Some da) row 0 =
    match spec_kind (datatype da) with
    | Some t => deref t buf row
    | None => die (DiagGetType (datatype da))
    end.
Proof.
  intros Hd Hn Ho Hr. unfold gifti_get_DA_value_2D. rewrite Hd, Hn.
  cbn [Z.eqb Pos.eqb negb]. rewrite bind_ret_l.
  pose proof (index_bad_false row (dim da 0) 0 1 Hr ltac:(lia)) as Hbad.
  pose proof (offset_1D da row) as Hoff.
  unfold spec_kind.
  destruct Ho as [Ho|Ho]; rewrite Ho in *; simpl;
    rewrite bind_ret_l, Hbad, Hoff, !bind_ret_l; case_kinds.
Qed.

Lemma get_1D (da : giiDataArray) (buf : list cell) (row : Z) (t : ctype) (c : cell) :
  data da = Some buf -> num_dim da = 1 ->
  ind_ord da = GIFTI_IND_ORD_ROW_MAJOR \/ ind_ord da = GIFTI_IND_ORD_COL_MAJOR ->
  spec_kind (datatype da) = Some t ->
  0 <= row < dim da 0 ->
  buf !! Z.to_nat row = Some c ->
  gifti_get_DA_value_2D (Some da) row 0 = widen t c.
Proof.
  intros Hd Hn Ho Hk Hr Hb. rewrite (get_1D_deref da buf row Hd Hn Ho Hr), Hk.
  unfold deref. destruct (Z.ltb_spec row 0); [lia|]. rewrite Hb. reflexivity.
Qed.

(** X1: in a row-major two-dimensional array of one of the seven kinds
    the writer knows and of at most 2147483647 elements (the offset
    [row * dims1] is computed in [int]), an element written inside the
    bounds is the element read back at the same place, converted to the
    element kind, and every other element reads as before. *)
Theorem set_then_get_row_major (da : giiDataArray) (buf : list cell) (row col : Z)
    (value : spec_float) (t : ctype) (c : cell) :
  data da = Some buf -> num_dim da = 2 -> ind_ord da = GIFTI_IND_ORD_ROW_MAJOR ->
  written_kind (datatype da) = Some t ->
  narrow t value = ret c ->
  0 <= row < dim da 0 -> 0 <= col < dim da 1 ->
  dim da 0 * dim da 1 <= 2147483647 ->
  dim da 0 * dim da 1 <= Z.of_nat (length buf) ->
  exists da',
    gifti_set_DA_value_2D (Some da) row col value = ret da'
    /\ gifti_get_DA_value_2D (Some da') row col = widen t c
    /\ forall row' col', 0 <= row' < dim da 0 -> 0 <= col' < dim da 1 ->
         (row', col') <> (row, col) ->
         gifti_get_DA_value_2D (Some da') row' col'
         = gifti_get_DA_value_2D (Some da) row' col'.
Proof.
  intros Hd Hn Ho Hk Hv Hr Hc Hsz Hlen.
  assert (Hoff : 0 <= row * dim da 1 + col < Z.of_nat (length buf)) by nia.
  exists (set_data da (<[Z.to_nat (row * dim da 1 + col) := c]> buf)).
  split; [|split].
  - rewrite (set_2D_row_major da buf row col value t Hd Hn Ho Hr Hc Hsz Hk).
    rewrite (assign_cell t buf _ value c Hv Hoff), bind_ret_l. reflexivity.
  - apply (get_row_major_cell _ (<[Z.to_nat (row * dim da 1 + col) := c]> buf));
      try assumption; try reflexivity.
    + apply written_kind_spec_kind, Hk.
    + apply list_lookup_insert_eq. lia.
  - intros row' col' Hr' Hc' Hne.
    rewrite (get_2D_in_bounds _ (<[Z.to_nat (row * dim da 1 + col) := c]> buf) row' col')
      by (try assumption; try reflexivity; left; assumption).
    rewrite (get_2D_in_bounds da buf row' col') by (try assumption; left; assumption).
    cbn [datatype set_data ind_ord]. destruct (spec_kind (datatype da)); [|reflexivity].
    change (dim (set_data da (<[Z.to_nat (row * dim da 1 + col) := c]> buf)) 0)
      with (dim da 0).
    change (dim (set_data da (<[Z.to_nat (row * dim da 1 + col) := c]> buf)) 1)
      with (dim da 1).
    rewrite Ho. unfold spec_offset. cbn [Z.eqb Pos.eqb GIFTI_IND_ORD_ROW_MAJOR].
    unfold deref. destruct (Z.ltb_spec (row' * dim da 1 + col') 0); [reflexivity|].
    rewrite list_lookup_insert_ne; [reflexivity|].
    intros Heq. apply Hne.
    assert (row * dim da 1 + col = row' * dim da 1 + col') by lia.
    assert (row = row') by nia. subst row'. f_equal. lia.
Qed.

(** X2: a one-dimensional array is written and read at [row] whatever
    its index order says: also for a column-major array, an element
    written at (row, 0) is the element read back there, and every other
    element reads as before. *)
Theorem set_then_get_1D (da : giiDataArray) (buf : list cell) (row : Z)
    (value : spec_float) (t : ctype) (c : cell) :
  data da = Some buf -> num_dim da = 1 ->
  ind_ord da = GIFTI_IND_ORD_ROW_MAJOR \/ ind_ord da = GIFTI_IND_ORD_COL_MAJOR ->
  written_kind (datatype da) = Some t ->
  narrow t value = ret c ->
  0 <= row < dim da 0 ->
  dim da 0 <= Z.of_nat (length buf) ->
  exists da',
    gifti_set_DA_value_2D (Some da) row 0 value = ret da'
    /\ gifti_get_DA_value_2D (Some da') row 0 = widen t c
    /\ forall row', 0 <= row' < dim da 0 -> row' <> row ->
         gifti_get_DA_value_2D (Some da') row' 0
         = gifti_get_DA_value_2D (Some da) row' 0.
Proof.
  intros Hd Hn Ho Hk Hv Hr Hlen.
  exists (set_data da (<[Z.to_nat row := c]> buf)). split; [|split].
  - apply (set_1D da buf row value t c); try assumption. lia.
  - apply (get_1D _ (<[Z.to_nat row := c]> buf)); try assumption; try reflexivity.
    + apply written_kind_spec_kind, Hk.
    + apply list_lookup_insert_eq. lia.
  - intros row' Hr' Hne.
    rewrite (get_1D_deref _ (<[Z.to_nat row := c]> buf) row')
      by (try assumption; reflexivity).
    rewrite (get_1D_deref da buf row') by assumption.
    cbn [datatype set_data]. destruct (spec_kind (datatype da)); [|reflexivity].
    unfold deref. destruct (Z.ltb_spec row' 0); [reflexivity|].
    rewrite list_lookup_insert_ne by lia. reflexivity.
Qed.

Lemma assign_length (t : ctype) (buf : list cell) (off : Z) (value : spec_float) l buf' :
  assign t buf off value = Ret l buf' -> length buf' = length buf.
Proof.
  unfold assign. intros E.
  destruct (off <? 0); [discriminate|].
  destruct (off <? Z.of_nat (length buf)); [|discriminate].
  minv. apply length_insert.
Qed.

Lemma set_data_same (da : giiDataArray) (buf : list cell) :
  data da = Some buf -> set_data da buf = da.
Proof. destruct da. cbn. intros ->. reflexivity. Qed.

(** A call of the writer that returns gives back the array with a data
    buffer of the same length. *)
Lemma set_DA_keeps (da : giiDataArray) (row col : Z) (value : spec_float)
    (l : list diag) (da' : giiDataArray) :
  gifti_set_DA_value_2D (Some da) row col value = Ret l da' ->
  exists buf buf', data da = Some buf /\ da' = set_data da buf'
                   /\ length buf' = length buf.
Proof.
  unfold gifti_set_DA_value_2D. intros E.
  destruct (data da) as [buf|] eqn:Hd; [|discriminate].
  apply bind_Ret_inv in E as (l1 & [d0 d1] & l2 & _ & E & _).
  assert (Hstore : forall t l' da'',
    (let* off := offset da
                   (if num_dim da =? 1 then (row, col)
                    else if GIFTI_IND_ORD_ROW_MAJOR =? ind_ord da
                         then (row, col) else (col, row)).1
                   (if num_dim da =? 1 then (row, col)
                    else if GIFTI_IND_ORD_ROW_MAJOR =? ind_ord da
                         then (row, col) else (col, row)).2 d0 d1 in
     let* buf' := assign t buf off value in
     ret (set_data da buf')) = Ret l' da'' ->
    exists buf0 buf', Some buf = Some buf0 /\ da'' = set_data da buf'
                      /\ length buf' = length buf0).
  { intros t l' da'' E'. apply bind_Ret_inv in E' as (l0 & off & l5 & _ & E' & _).
    apply bind_Ret_inv in E' as (l3 & buf' & l4 & Ea & E' & _).
    apply ret_Ret_inv in E'. subst da''. apply assign_length in Ea. eauto. }
  assert (Hsame : exists buf0 buf', Some buf = Some buf0 /\ da = set_data da buf'
                                    /\ length buf' = length buf0).
  { exists buf, buf. split; [reflexivity|]. split; [|reflexivity].
    symmetry. apply set_data_same, Hd. }
  destruct (num_dim da =? 1); destruct (GIFTI_IND_ORD_ROW_MAJOR =? ind_ord da);
    cbn [fst snd] in Hstore;
    match type of E with
    | (if ?b then _ else _) = _ => destruct b
    end;
    try (apply bind_Ret_inv in E as (? & ? & ? & _ & E & _);
         apply ret_Ret_inv in E; subst da'; exact Hsame);
    repeat match type of E with
           | (if ?b then _ else _) = _ => destruct b; [eapply Hstore; exact E|]
           end;
    apply bind_Ret_inv in E as (? & ? & ? & _ & E & _);
    apply ret_Ret_inv in E; subst da'; exact Hsame.
Qed.

(** X3: whatever the position, the value and the kind, a call of the
    writer that returns leaves the intent, the type, the order, the
    extents, the metadata and the coordinate systems of the array as
    they were, and the data buffer at its length. *)
Theorem set_keeps_the_array (da : giiDataArray) (row col : Z) (value : spec_float)
    (l : list diag) (da' : giiDataArray) :
  gifti_set_DA_value_2D (Some da) row col value = Ret l da' ->
  intent da' = intent da /\ datatype da' = datatype da /\ ind_ord da' = ind_ord da
  /\ num_dim da' = num_dim da /\ dims da' = dims da /\ nvals da' = nvals da
  /\ meta da' = meta da /\ coordsys da' = coordsys da
  /\ exists buf buf', data da = Some buf /\ data da' = Some buf'
                      /\ length buf' = length buf.
Proof.
  intros E. apply set_DA_keeps in E as (buf & buf' & Hd & -> & Hl).
  repeat (split; [reflexivity|]).
  exists buf, buf'. split; [exact Hd|]. split; [reflexivity|exact Hl].
Qed.

(* ===================================================================== *)
(** ** The shape and statistics writers *)
(* ===================================================================== *)

Lemma overlay_darray_array (it n : Z) (md : gmap string string) :
  0 <= n ->
  overlay_array (overlay_darray it n md) it n (replicate (Z.to_nat n) (CF32 IEEE.zero)).
Proof.
  intros Hn. unfold overlay_darray.
  assert (E : gifti_darray_nvals 1 [n; 0; 0; 0; 0; 0] = n)
    by (unfold gifti_darray_nvals; change (Z.to_nat 1) with 1%nat;
        cbn [take fold_right]; lia).
  rewrite E. split; try reflexivity. apply length_replicate.
Qed.

Section OverlayWriters.
Context `{Collaborators} `{Services}.

(** The copy loop stores the field of every vertex that is not ripped
    and leaves the other elements alone. *)
Lemma copy_vertex_data_spec (mris : MRIS) (field : VERTEX -> spec_float)
    (da0 : giiDataArray) (it : Z) (buf0 : list cell) :
  0 <= nvertices mris ->
  length (vertices mris) = Z.to_nat (nvertices mris) ->
  (forall v vx, vertices mris !! v = Some vx -> ripflag vx = false ->
                IEEE.is_float (field vx) = true) ->
  overlay_array da0 it (nvertices mris) buf0 ->
  exists buf,
    copy_vertex_data mris field da0 = Ret [] (set_data da0 buf)
    /\ length buf = length buf0
    /\ forall v vx, vertices mris !! v = Some vx ->
         buf !! v = if ripflag vx then buf0 !! v else Some (CF32 (field vx)).
Proof.
  intros HN Hlen Hfl [Hit Hdt Hord Hnd Hd0 Hnv Hdata Hbl Hcs].
  unfold copy_vertex_data.
  destruct (for_Z_inv
    (fun k st => exists buf, st = set_data da0 buf /\ length buf = length buf0
       /\ (forall v vx, Z.of_nat v < k -> vertices mris !! v = Some vx ->
             buf !! v = if ripflag vx then buf0 !! v else Some (CF32 (field vx)))
       /\ (forall v, k <= Z.of_nat v -> buf !! v = buf0 !! v))
    (nvertices mris)
    (fun vno da =>
       let* vx := at_index (vertices mris) vno in
       if ripflag vx then ret da
       else gifti_set_DA_value_2D (Some da) vno 0 (IEEE.double_of_float (field vx)))
    da0) as (st & E & buf & -> & Hl & Hdone & _).
  - exact HN.
  - exists buf0. split; [symmetry; apply set_data_same, Hdata|].
    split; [reflexivity|]. split; [intros; lia|reflexivity].
  - intros k st Hk (buf & -> & Hl & Hdone & Hrest).
    destruct (lookup_lt_is_Some_2 (vertices mris) (Z.to_nat k) ltac:(lia)) as (vx & Hvx).
    rewrite (at_index_Some _ k vx ltac:(lia) Hvx), bind_ret_l.
    destruct (ripflag vx) eqn:Hrip.
    + exists (set_data da0 buf). split; [reflexivity|]. exists buf.
      split; [reflexivity|]. split; [exact Hl|]. split.
      * intros v vx' Hv Hvx'. destruct (decide (v = Z.to_nat k)) as [->|Hne].
        -- rewrite Hvx in Hvx'. injection Hvx' as <-. rewrite Hrip. apply Hrest. lia.
        -- apply Hdone; [lia|exact Hvx'].
      * intros v Hv. apply Hrest. lia.
    + rewrite (set_1D (set_data da0 buf) buf k _ Tfloat (CF32 (field vx)));
        try reflexivity; try assumption.
      * eexists. split; [reflexivity|]. exists (<[Z.to_nat k := CF32 (field vx)]> buf).
        split; [destruct da0; reflexivity|]. split; [rewrite length_insert; exact Hl|].
        split.
        -- intros v vx' Hv Hvx'. destruct (decide (v = Z.to_nat k)) as [->|Hne].
           ++ rewrite Hvx in Hvx'. injection Hvx' as <-. rewrite Hrip.
              apply list_lookup_insert_eq. lia.
           ++ rewrite list_lookup_insert_ne by lia. apply Hdone; [lia|exact Hvx'].
        -- intros v Hv. rewrite list_lookup_insert_ne by lia. apply Hrest. lia.
      * cbn [datatype set_data]. rewrite Hdt. reflexivity.
      * apply narrow_float_exact. eapply Hfl; eassumption.
      * change (dim (set_data da0 buf) 0) with (dim da0 0). lia.
      * lia.
  - exists buf. split; [exact E|]. split; [exact Hl|].
    intros v vx Hvx. apply Hdone; [|exact Hvx]. apply lookup_lt_Some in Hvx. lia.
Qed.

Lemma zeroed_lookup (n : Z) (v : nat) (vx : VERTEX) (field : VERTEX -> spec_float)
    (vs : list VERTEX) :
  length vs = Z.to_nat n -> vs !! v = Some vx ->
  (if ripflag vx then replicate (Z.to_nat n) (CF32 IEEE.zero) !! v
   else Some (CF32 (field vx))) = Some (stored field vx).
Proof.
  intros Hl Hv. unfold stored. destruct (ripflag vx); [|reflexivity].
  apply lookup_replicate_2. apply lookup_lt_Some in Hv. lia.
Qed.

(** The array the statistics writer appends. *)
Lemma stats_writer_spec (mris : MRIS) (image : gifti_image) (intent_code : Z) :
  0 <= nvertices mris ->
  length (vertices mris) = Z.to_nat (nvertices mris) ->
  (forall v vx, vertices mris !! v = Some vx -> ripflag vx = false ->
                IEEE.is_float (stat vx) = true) ->
  exists stats buf,
    MRISwriteGIFTIStats mris image intent_code = Ret [] (add_darrays image [stats])
    /\ overlay_array stats intent_code (nvertices mris) buf
    /\ (forall v vx, vertices mris !! v = Some vx -> buf !! v = Some (stored stat vx))
    /\ meta stats
       = if intent_code =? NIFTI_INTENT_UNIFORM
         then gifti_add_to_meta
                (gifti_add_to_meta
                   (gifti_add_to_meta ∅ "Intent_code" (gifti_intent_to_string intent_code))
                   "Intent_p1" "0")
                "Intent_p2" "1"
         else gifti_add_to_meta ∅ "Intent_code" (gifti_intent_to_string intent_code).
Proof.
  intros HN Hlen Hfl. unfold MRISwriteGIFTIStats. cbv zeta.
  set (md := if intent_code =? NIFTI_INTENT_UNIFORM
             then gifti_add_to_meta
                    (gifti_add_to_meta
                       (gifti_add_to_meta ∅ "Intent_code"
                          (gifti_intent_to_string intent_code)) "Intent_p1" "0")
                    "Intent_p2" "1"
             else gifti_add_to_meta ∅ "Intent_code" (gifti_intent_to_string intent_code)).
  pose proof (overlay_darray_array intent_code (nvertices mris) md HN) as Harr.
  destruct (copy_vertex_data_spec mris stat _ _ _ HN Hlen Hfl Harr)
    as (buf & E & Hl & Hcells).
  rewrite E, bind_Ret_nil.
  exists (set_data (overlay_darray intent_code (nvertices mris) md) buf), buf.
  split; [reflexivity|]. split; [|split].
  - destruct Harr as [Hit Hdt Hord Hnd Hd0 Hnv Hdata Hbl Hcs].
    split; try assumption; try reflexivity. rewrite Hl. exact Hbl.
  - intros v vx Hvx. rewrite (Hcells v vx Hvx). eapply zeroed_lookup; eassumption.
  - reflexivity.
Qed.

(** The array the shape writer appends once the curvature file is
    loaded. *)
Lemma shape_writer_spec (mris mris_c : MRIS) (image : gifti_image) (intent_code : Z)
    (curv_fname : string) :
  MRISreadCurvatureFile mris (Some curv_fname) = Some mris_c ->
  0 <= nvertices mris_c ->
  length (vertices mris_c) = Z.to_nat (nvertices mris_c) ->
  (forall v vx, vertices mris_c !! v = Some vx -> ripflag vx = false ->
                IEEE.is_float (curv vx) = true) ->
  exists shape buf,
    MRISwriteGIFTIShape mris image intent_code (Some curv_fname)
    = Ret [] (add_darrays image [shape])
    /\ overlay_array shape NIFTI_INTENT_SHAPE (nvertices mris_c) buf
    /\ (forall v vx, vertices mris_c !! v = Some vx -> buf !! v = Some (stored curv vx))
    /\ meta shape
       = add_opt (gifti_add_to_meta ∅ "Name" curv_fname) "ShapeDataType"
           (pick curv_fname
              [(".thickness", "Thickness"); (".curv", "CurvatureRadial");
               (".sulc", "SulcalDepth"); (".area", "Area"); (".volume", "Volume");
               (".jacobian", "Jacobian")]).
Proof.
  intros E HN Hlen Hfl. unfold MRISwriteGIFTIShape. rewrite E. cbv zeta.
  set (kind := pick curv_fname _).
  set (md := add_opt (gifti_add_to_meta ∅ "Name" curv_fname) "ShapeDataType" kind).
  pose proof (overlay_darray_array NIFTI_INTENT_SHAPE (nvertices mris_c) md HN) as Harr.
  destruct (copy_vertex_data_spec mris_c curv _ _ _ HN Hlen Hfl Harr)
    as (buf & Ec & Hl & Hcells).
  rewrite Ec, bind_Ret_nil.
  exists (set_data (overlay_darray NIFTI_INTENT_SHAPE (nvertices mris_c) md) buf), buf.
  split; [reflexivity|]. split; [|split].
  - destruct Harr as [Hit Hdt Hord Hnd Hd0 Hnv Hdata Hbl Hcs].
    split; try assumption; try reflexivity. rewrite Hl. exact Hbl.
  - intros v vx Hvx. rewrite (Hcells v vx Hvx). eapply zeroed_lookup; eassumption.
  - reflexivity.
Qed.

(** X4: the statistics writer appends one array to the image and
    touches nothing else of it: a one-dimensional row-major array of
    [float]s with the intent asked for, one element per vertex, which
    holds [stat] for a vertex that is not ripped and zero for a ripped
    one; its metadata name the intent, and give the two bounds for
    NIFTI_INTENT_UNIFORM only. *)
Theorem stats_writer_array (mris : MRIS) (image : gifti_image) (intent_code : Z) :
  0 <= nvertices mris ->
  length (vertices mris) = Z.to_nat (nvertices mris) ->
  (forall v vx, vertices mris !! v = Some vx -> ripflag vx = false ->
                IEEE.is_float (stat vx) = true) ->
  exists stats buf,
    MRISwriteGIFTIStats mris image intent_code = Ret [] (add_darrays image [stats])
    /\ overlay_array stats intent_code (nvertices mris) buf
    /\ (forall v vx, vertices mris !! v = Some vx -> buf !! v = Some (stored stat vx))
    /\ meta stats !! "Intent_code" = Some (gifti_intent_to_string intent_code)
    /\ (meta stats !! "Intent_p1", meta stats !! "Intent_p2")
       = if intent_code =? NIFTI_INTENT_UNIFORM then (Some "0", Some "1")
         else (None, None).
Proof.
  intros HN Hlen Hfl.
  destruct (stats_writer_spec mris image intent_code HN Hlen Hfl)
    as (stats & buf & E & Harr & Hcells & Hmd).
  exists stats, buf. split; [exact E|]. split; [exact Harr|]. split; [exact Hcells|].
  rewrite Hmd. unfold gifti_add_to_meta.
  destruct (intent_code =? NIFTI_INTENT_UNIFORM); split.
  - rewrite !lookup_insert_ne by discriminate. apply lookup_insert_eq.
  - rewrite (lookup_insert_ne _ "Intent_p2" "Intent_p1") by discriminate.
    rewrite !lookup_insert_eq. reflexivity.
  - apply lookup_insert_eq.
  - rewrite !lookup_insert_ne by discriminate. rewrite !lookup_empty. reflexivity.
Qed.

(** X5: the shape writer first loads the curvature file into the
    surface; when that fails it returns ERROR_BADFILE.  Otherwise it
    appends one array to the image: one-dimensional, row-major, of
    [float]s, always of intent NIFTI_INTENT_SHAPE, with [curv] for every
    vertex that is not ripped and zero for a ripped one.  Its metadata
    give the file name as Name and, as ShapeDataType, the kind that goes
    with the last of the six patterns found in the name, none when no
    pattern is found. *)
Theorem shape_writer_array (mris : MRIS) (image : gifti_image) (intent_code : Z)
    (curv_fname : string) :
  (MRISreadCurvatureFile mris (Some curv_fname) = None ->
   MRISwriteGIFTIShape mris image intent_code (Some curv_fname)
   = Fail [DiagWrite "MRISwriteGIFTIShape: couldn't read"] ERROR_BADFILE)
  /\ forall mris_c,
       MRISreadCurvatureFile mris (Some curv_fname) = Some mris_c ->
       0 <= nvertices mris_c ->
       length (vertices mris_c) = Z.to_nat (nvertices mris_c) ->
       (forall v vx, vertices mris_c !! v = Some vx -> ripflag vx = false ->
                     IEEE.is_float (curv vx) = true) ->
       exists shape buf,
         MRISwriteGIFTIShape mris image intent_code (Some curv_fname)
         = Ret [] (add_darrays image [shape])
         /\ overlay_array shape NIFTI_INTENT_SHAPE (nvertices mris_c) buf
         /\ (forall v vx, vertices mris_c !! v = Some vx ->
               buf !! v = Some (stored curv vx))
         /\ meta shape !! "Name" = Some curv_fname
         /\ meta shape !! "ShapeDataType"
            = if strstr curv_fname ".jacobian" then Some "Jacobian"
              else if strstr curv_fname ".volume" then Some "Volume"
              else if strstr curv_fname ".area" then Some "Area"
              else if strstr curv_fname ".sulc" then Some "SulcalDepth"
              else if strstr curv_fname ".curv" then Some "CurvatureRadial"
              else if strstr curv_fname ".thickness" then Some "Thickness"
              else None.
Proof.
  split.
  - intros E. unfold MRISwriteGIFTIShape. rewrite E. reflexivity.
  - intros mris_c E HN Hlen Hfl.
    destruct (shape_writer_spec mris mris_c image intent_code curv_fname E HN Hlen Hfl)
      as (shape & buf & Ew & Harr & Hcells & Hmd).
    exists shape, buf. split; [exact Ew|]. split; [exact Harr|]. split; [exact Hcells|].
    rewrite Hmd. set (kind := pick curv_fname _).
    assert (Hk : kind
      = if strstr curv_fname ".jacobian" then Some "Jacobian"
        else if strstr curv_fname ".volume" then Some "Volume"
        else if strstr curv_fname ".area" then Some "Area"
        else if strstr curv_fname ".sulc" then Some "SulcalDepth"
        else if strstr curv_fname ".curv" then Some "CurvatureRadial"
        else if strstr curv_fname ".thickness" then Some "Thickness"
        else None).
    { unfold kind, pick. cbn [fold_left fst snd].
      destruct (strstr curv_fname ".jacobian"), (strstr curv_fname ".volume"),
        (strstr curv_fname ".area"), (strstr curv_fname ".sulc"),
        (strstr curv_fname ".curv"), (strstr curv_fname ".thickness"); reflexivity. }
    rewrite <- Hk. unfold add_opt, gifti_add_to_meta. split.
    + destruct kind; [rewrite lookup_insert_ne by discriminate|]; apply lookup_insert_eq.
    + destruct kind; [apply lookup_insert_eq|].
      rewrite lookup_insert_ne by discriminate. apply lookup_empty.
Qed.

End OverlayWriters.

(* ===================================================================== *)
(** ** The reader: containers without geometry *)
(* ===================================================================== *)

Lemma filter_none {A} (P : A -> Prop) `{forall x, Decision (P x)} (l : list A) :
  (forall x, x ∈ l -> ~ P x) -> filter P l = [].
Proof.
  induction l as [|a l IH]; intros Hl; [reflexivity|].
  rewrite filter_cons. destruct (decide (P a)) as [Ha|_].
  - exfalso. apply (Hl a); [left|exact Ha].
  - apply IH. intros x Hx. apply Hl. right. exact Hx.
Qed.

Lemma find_geometry_step (das : list giiDataArray) (c f : option giiDataArray) :
  fold_left
    (fun (cf : option giiDataArray * option giiDataArray) da =>
       if intent da =? NIFTI_INTENT_POINTSET then (Some da, cf.2)
       else if intent da =? NIFTI_INTENT_TRIANGLE then (cf.1, Some da)
       else cf) das (c, f)
  = (match last (filter (fun da => intent da = NIFTI_INTENT_POINTSET) das) with
     | Some d => Some d
     | None => c
     end,
     match last (filter (fun da => intent da = NIFTI_INTENT_TRIANGLE) das) with
     | Some d => Some d
     | None => f
     end).
Proof.
  revert c f. induction das as [|da das IH]; intros c f; [reflexivity|].
  cbn [fold_left]. rewrite !filter_cons.
  destruct (Z.eqb_spec (intent da) NIFTI_INTENT_POINTSET) as [Hp|Hp].
  - rewrite IH. cbn [fst snd].
    destruct (decide (intent da = NIFTI_INTENT_POINTSET)); [|contradiction].
    destruct (decide (intent da = NIFTI_INTENT_TRIANGLE)) as [Ht|_];
      [rewrite Hp in Ht; discriminate|].
    rewrite last_cons. destruct (last (filter _ das)); reflexivity.
  - destruct (decide (intent da = NIFTI_INTENT_POINTSET)); [contradiction|].
    destruct (Z.eqb_spec (intent da) NIFTI_INTENT_TRIANGLE) as [Ht|Ht].
    + rewrite IH. cbn [fst snd].
      destruct (decide (intent da = NIFTI_INTENT_TRIANGLE)); [|contradiction].
      rewrite last_cons.
      destruct (last (filter (fun da => intent da = NIFTI_INTENT_POINTSET) das)),
        (last (filter (fun da => intent da = NIFTI_INTENT_TRIANGLE) das)); reflexivity.
    + destruct (decide (intent da = NIFTI_INTENT_TRIANGLE)); [contradiction|].
      rewrite IH. reflexivity.
Qed.

(** The geometry pass keeps the last array of coordinates and the last
    array of faces. *)
Lemma find_geometry_last (image : gifti_image) :
  find_geometry image
  = (last (filter (fun da => intent da = NIFTI_INTENT_POINTSET) (darray image)),
     last (filter (fun da => intent da = NIFTI_INTENT_TRIANGLE) (darray image))).
Proof.
  unfold find_geometry. rewrite find_geometry_step.
  destruct (last (filter _ _)), (last (filter _ _)); reflexivity.
Qed.

(** X11: when a container holds several arrays of coordinates, or
    several arrays of faces, the geometry pass of the reader keeps the
    last one of each kind: an array that no later array of its intent
    follows is the one the surface is built from. *)
Theorem geometry_pass_keeps_last (image : gifti_image) (pre post : list giiDataArray)
    (a : giiDataArray) :
  darray image = pre ++ a :: post ->
  (intent a = NIFTI_INTENT_POINTSET ->
   (forall da, da ∈ post -> intent da <> NIFTI_INTENT_POINTSET) ->
   (find_geometry image).1 = Some a)
  /\ (intent a = NIFTI_INTENT_TRIANGLE ->
      (forall da, da ∈ post -> intent da <> NIFTI_INTENT_TRIANGLE) ->
      (find_geometry image).2 = Some a).
Proof.
  intros Hd. rewrite find_geometry_last, Hd. cbn [fst snd].
  rewrite !filter_app, !filter_cons. split; intros Ha Hpost.
  - destruct (decide (intent a = NIFTI_INTENT_POINTSET)); [|contradiction].
    rewrite (filter_none _ post) by exact Hpost. apply last_snoc.
  - destruct (decide (intent a = NIFTI_INTENT_TRIANGLE)); [|contradiction].
    rewrite (filter_none _ post) by exact Hpost. apply last_snoc.
Qed.

Ltac loop_within I HL :=
  match goal with
  | |- context [for_Z ?n ?body ?s] => pose proof (for_Z_inv I n body s) as HL
  end.

Section OverlayReader.
Context `{Collaborators}.

(** Without a label table and without both geometry arrays, the reader
    goes straight to the second pass with the surface it was given. *)
Lemma reader_overlay_pass fuel (image : gifti_image) fname (m0 : MRIS)
    (outmri : option MRI) (frame : Z) :
  lt_length (labeltable image) <= 0 ->
  (find_geometry image).1 = None \/ (find_geometry image).2 = None ->
  mrisReadGIFTIdanum fuel image fname (Some m0) (-1) outmri frame
  = bind (for_Z (numDA image)
            (fun i st => read_darray fuel image None (0 + i) st)
            (mkOS m0 outmri frame 0 0 None 0))
         (fun st => ret (os_mris st, os_outmri st, os_frame st)).
Proof.
  intros Hlt Hg. unfold mrisReadGIFTIdanum, read_colortable.
  destruct (Z.ltb_spec 0 (lt_length (labeltable image))); [lia|].
  rewrite bind_ret_l.
  assert (E : match find_geometry image with
              | (Some coords, Some faces_da) =>
                  let* m := read_geometry fuel fname coords faces_da in ret (Some m)
              | _ => ret (Some m0)
              end = ret (Some m0)).
  { destruct (find_geometry image) as [[c|] [f|]]; cbn [fst snd] in Hg;
      try reflexivity. destruct Hg; discriminate. }
  rewrite E, !bind_ret_l. cbn [negb Z.eqb Pos.eqb]. rewrite Z.sub_0_r. reflexivity.
Qed.

(** X6: a container that lacks the coordinates or the faces gives no
    surface when none is passed in: the reader never returns one, and
    without a label table it prints that the surface is NULL and returns
    NULL. *)
Theorem reader_needs_geometry fuel (image : gifti_image) fname (daNum : Z)
    (outmri : option MRI) (frame : Z) :
  (forall da, da ∈ darray image -> intent da <> NIFTI_INTENT_POINTSET)
  \/ (forall da, da ∈ darray image -> intent da <> NIFTI_INTENT_TRIANGLE) ->
  (forall l r, mrisReadGIFTIdanum fuel image fname None daNum outmri frame <> Ret l r)
  /\ (lt_length (labeltable image) <= 0 ->
      mrisReadGIFTIdanum fuel image fname None daNum outmri frame
      = Fail [DiagRead "mriseadGIFTIfile: mris is NULL!"] 0).
Proof.
  intros Hno.
  assert (Hg : forall image', darray image' = darray image ->
            match find_geometry image' with
            | (Some coords, Some faces_da) =>
                let* m := read_geometry fuel fname coords faces_da in ret (Some m)
            | _ => ret None
            end = ret (@None MRIS)).
  { intros image' Hd. rewrite find_geometry_last, Hd.
    destruct Hno as [Hno|Hno].
    - replace (filter (fun da => intent da = NIFTI_INTENT_POINTSET) (darray image))
        with (@nil giiDataArray); [reflexivity|].
      symmetry. apply filter_none. exact Hno.
    - replace (filter (fun da => intent da = NIFTI_INTENT_TRIANGLE) (darray image))
        with (@nil giiDataArray); [destruct (last _); reflexivity|].
      symmetry. apply filter_none. exact Hno. }
  split.
  - intros l r E. unfold mrisReadGIFTIdanum in E.
    apply bind_Ret_inv in E as (l1 & [ctab image'] & l2 & Ec & E & _).
    pose proof (read_colortable_darray _ _ _ _ _ Ec) as Hd.
    rewrite (Hg image' Hd), bind_ret_l in E. discriminate E.
  - intros Hlt. unfold mrisReadGIFTIdanum, read_colortable.
    destruct (Z.ltb_spec 0 (lt_length (labeltable image))); [lia|].
    rewrite bind_ret_l, (Hg image eq_refl), bind_ret_l. reflexivity.
Qed.

Lemma mris_set_vertices_same (m : MRIS) : mris_set_vertices m (vertices m) = m.
Proof. destruct m. reflexivity. Qed.

(** Reading one element of an overlay array of [float]s. *)
Lemma get_overlay (darr : giiDataArray) (it n : Z) (vals : list spec_float) (v : Z)
    (a : spec_float) :
  overlay_array darr it n (CF32 <$> vals) ->
  0 <= v < n -> vals !! Z.to_nat v = Some a ->
  gifti_get_DA_value_2D (Some darr) v 0 = ret (IEEE.double_of_float a).
Proof.
  intros [Hit Hdt Hord Hnd Hd0 Hnv Hdata Hbl Hcs] Hv Ha.
  rewrite (get_1D darr (CF32 <$> vals) v Tfloat (CF32 a)); try assumption.
  - reflexivity.
  - left. exact Hord.
  - rewrite Hdt. reflexivity.
  - lia.
  - rewrite list_lookup_fmap, Ha. reflexivity.
Qed.

Section Dense.
Variable m0 : MRIS.
Variable vals : list spec_float.
Variable darr : giiDataArray.
Variable it : Z.
Hypothesis HN : 0 <= nvertices m0.
Hypothesis Hlen : length (vertices m0) = Z.to_nat (nvertices m0).
Hypothesis Hvals : length vals = Z.to_nat (nvertices m0).
Hypothesis Hfl : forall v a, vals !! v = Some a -> IEEE.is_float a = true.
Hypothesis Harr : overlay_array darr it (nvertices m0) (CF32 <$> vals).


(** A dense array of statistics: [val] and [stat] of every vertex that
    is not ripped. *)
Lemma read_statval_dense (st : overlay_state) :
  os_mris st = m0 -> os_outmri st = None -> node_index st = None ->
  found_statval_data st = 0 ->
  exists vs',
    read_statval darr st
    = Ret (if 1 <=? os_frame st then [DiagRead "WARNING: Skip saving data in MRI"] else [])
          (mkOS (mris_set_vertices m0 vs') None (os_frame st) (found_curv_data st) 1
                None (num_index_nodes st))
    /\ overlaid m0 vals (fun vx a => vertex_set_val_stat vx a a) vs'.
Proof.
  intros Hm Ho Hni Hf. unfold read_statval. rewrite Hf, Hni, Hm, Ho.
  cbn [negb Z.eqb].
  loop_within (fun k (s : MRIS * option MRI) =>
    exists vs, s = (mris_set_vertices m0 vs, None)
      /\ length vs = length (vertices m0)
      /\ (forall v vx0 a, Z.of_nat v < k -> vertices m0 !! v = Some vx0 ->
            vals !! v = Some a ->
            vs !! v = Some (if ripflag vx0 then vx0 else vertex_set_val_stat vx0 a a))
      /\ (forall v, k <= Z.of_nat v -> vs !! v = vertices m0 !! v)) HL.
  destruct HL as ([m' o'] & E & vs & Es & Hl & Hdone & _).
  - exact HN.
  - exists (vertices m0). split; [rewrite mris_set_vertices_same; reflexivity|].
    split; [reflexivity|]. split; [intros; lia|reflexivity].
  - intros k [m o] Hk (vs & Es & Hl & Hdone & Hrest). injection Es as -> ->.
    cbn [vertices mris_set_vertices].
    destruct (lookup_lt_is_Some_2 (vertices m0) (Z.to_nat k) ltac:(lia)) as (vx0 & Hvx0).
    assert (Hvk : vs !! Z.to_nat k = Some vx0) by (rewrite Hrest by lia; exact Hvx0).
    rewrite (at_index_Some _ k vx0 ltac:(lia) Hvk), bind_ret_l.
    destruct (ripflag vx0) eqn:Hrip.
    + eexists. split; [reflexivity|]. exists vs. split; [reflexivity|].
      split; [exact Hl|]. split.
      * intros v vx a Hv Hvx Ha. destruct (decide (v = Z.to_nat k)) as [->|Hne].
        -- rewrite Hvx0 in Hvx. injection Hvx as <-. rewrite Hrip. exact Hvk.
        -- apply Hdone; [lia|exact Hvx|exact Ha].
      * intros v Hv. apply Hrest. lia.
    + destruct (lookup_lt_is_Some_2 vals (Z.to_nat k) ltac:(lia)) as (a & Ha).
      rewrite (get_overlay darr it (nvertices m0) vals k a Harr Hk Ha), !bind_ret_l.
      rewrite (float_of_double_of_float a (Hfl _ _ Ha)).
      unfold set_vertex. cbn [vertices mris_set_vertices].
      rewrite put_index_lt by lia. rewrite !bind_ret_l.
      eexists. split; [reflexivity|].
      exists (<[Z.to_nat k := vertex_set_val_stat vx0 a a]> vs).
      split; [reflexivity|]. split; [rewrite length_insert; exact Hl|]. split.
      * intros v vx a' Hv Hvx Ha'. destruct (decide (v = Z.to_nat k)) as [->|Hne].
        -- rewrite Hvx0 in Hvx. injection Hvx as <-. rewrite Ha in Ha'.
           injection Ha' as <-. rewrite Hrip. apply list_lookup_insert_eq. lia.
        -- rewrite list_lookup_insert_ne by lia. apply Hdone; [lia|exact Hvx|exact Ha'].
      * intros v Hv. rewrite list_lookup_insert_ne by lia. apply Hrest. lia.
  - injection Es as -> ->. rewrite E. exists vs. split.
    + destruct (1 <=? os_frame st); reflexivity.
    + split; [exact Hl|]. intros v vx0 a Hvx0 Ha. apply Hdone; [|exact Hvx0|exact Ha].
      apply lookup_lt_Some in Hvx0. lia.
Qed.

(** A dense array of shape data: [curv] of every vertex that is not
    ripped. *)
Lemma read_shape_dense (numDA_ : Z) (st : overlay_state) :
  os_mris st = m0 -> os_outmri st = None -> node_index st = None ->
  found_curv_data st = 0 ->
  exists vs',
    read_shape numDA_ darr st
    = Ret (if 1 <=? os_frame st then [DiagRead "WARNING: Skip saving data in MRI"] else [])
          (mkOS (mris_set_vertices m0 vs') None (os_frame st) 1 (found_statval_data st)
                None (num_index_nodes st))
    /\ overlaid m0 vals vertex_set_curv vs'.
Proof.
  intros Hm Ho Hni Hf. unfold read_shape. rewrite Hf, Hni, Hm, Ho.
  cbn [negb Z.eqb].
  loop_within (fun k (s : MRIS * option MRI) =>
    exists vs, s = (mris_set_vertices m0 vs, None)
      /\ length vs = length (vertices m0)
      /\ (forall v vx0 a, Z.of_nat v < k -> vertices m0 !! v = Some vx0 ->
            vals !! v = Some a ->
            vs !! v = Some (if ripflag vx0 then vx0 else vertex_set_curv vx0 a))
      /\ (forall v, k <= Z.of_nat v -> vs !! v = vertices m0 !! v)) HL.
  destruct HL as ([m' o'] & E & vs & Es & Hl & Hdone & _).
  - exact HN.
  - exists (vertices m0). split; [rewrite mris_set_vertices_same; reflexivity|].
    split; [reflexivity|]. split; [intros; lia|reflexivity].
  - intros k [m o] Hk (vs & Es & Hl & Hdone & Hrest). injection Es as -> ->.
    cbn [vertices mris_set_vertices].
    destruct (lookup_lt_is_Some_2 (vertices m0) (Z.to_nat k) ltac:(lia)) as (vx0 & Hvx0).
    assert (Hvk : vs !! Z.to_nat k = Some vx0) by (rewrite Hrest by lia; exact Hvx0).
    rewrite (at_index_Some _ k vx0 ltac:(lia) Hvk), bind_ret_l.
    destruct (ripflag vx0) eqn:Hrip.
    + eexists. split; [reflexivity|]. exists vs. split; [reflexivity|].
      split; [exact Hl|]. split.
      * intros v vx a Hv Hvx Ha. destruct (decide (v = Z.to_nat k)) as [->|Hne].
        -- rewrite Hvx0 in Hvx. injection Hvx as <-. rewrite Hrip. exact Hvk.
        -- apply Hdone; [lia|exact Hvx|exact Ha].
      * intros v Hv. apply Hrest. lia.
    + destruct (lookup_lt_is_Some_2 vals (Z.to_nat k) ltac:(lia)) as (a & Ha).
      rewrite (get_overlay darr it (nvertices m0) vals k a Harr Hk Ha), !bind_ret_l.
      rewrite (float_of_double_of_float a (Hfl _ _ Ha)).
      unfold set_vertex. cbn [vertices mris_set_vertices].
      rewrite put_index_lt by lia. rewrite !bind_ret_l.
      eexists. split; [reflexivity|].
      exists (<[Z.to_nat k := vertex_set_curv vx0 a]> vs).
      split; [reflexivity|]. split; [rewrite length_insert; exact Hl|]. split.
      * intros v vx a' Hv Hvx Ha'. destruct (decide (v = Z.to_nat k)) as [->|Hne].
        -- rewrite Hvx0 in Hvx. injection Hvx as <-. rewrite Ha in Ha'.
           injection Ha' as <-. rewrite Hrip. apply list_lookup_insert_eq. lia.
        -- rewrite list_lookup_insert_ne by lia. apply Hdone; [lia|exact Hvx|exact Ha'].
      * intros v Hv. rewrite list_lookup_insert_ne by lia. apply Hrest. lia.
  - injection Es as -> ->. rewrite E. exists vs. split.
    + destruct (1 <=? os_frame st); reflexivity.
    + split; [exact Hl|]. intros v vx0 a Hvx0 Ha. apply Hdone; [|exact Hvx0|exact Ha].
      apply lookup_lt_Some in Hvx0. lia.
Qed.


Lemma records_cols_overlay (da : giiDataArray) (it' n : Z) (buf : list cell) :
  overlay_array da it' n buf -> records_cols da = (n, 1).
Proof.
  intros [Hit Hdt Hord Hnd Hd0 Hnv Hdata Hbl Hcs].
  unfold records_cols, gifti_DA_rows_cols. rewrite Hnd, Hord, Hd0. reflexivity.
Qed.

Lemma expected_cols_pos (da : giiDataArray) : (expected_cols da <? 1) = false.
Proof.
  unfold expected_cols.
  repeat match goal with |- context [if ?b then _ else _] => destruct b end; reflexivity.
Qed.

End Dense.

(** The round of the second pass for a one-dimensional overlay array. *)
Lemma read_darray_statval fuel (image : gifti_image) ctab (k : Z) (st : overlay_state)
    (darr : giiDataArray) (it n : Z) (buf : list cell) :
  overlay_array darr it n buf ->
  0 <= k -> darray image !! Z.to_nat k = Some darr ->
  statval_intent it -> 0 < n -> nvertices (os_mris st) = n ->
  read_darray fuel image ctab k st = read_statval darr st.
Proof.
  intros Harr Hk Hd (H1 & H2 & H3 & H4 & H5 & H6 & H7 & H8 & H9) Hpos Hm.
  unfold read_darray. rewrite (at_index_Some _ k darr Hk Hd), bind_ret_l.
  rewrite (records_cols_overlay _ _ _ _ Harr), Hm, expected_cols_pos.
  pose proof (oa_intent _ _ _ _ Harr) as Hit. rewrite Hit.
  repeat match goal with
         | |- context [it =? ?c] => destruct (Z.eqb_spec it c); [contradiction|]
         end.
  cbn [orb negb]. destruct (Z.leb_spec n 0); [lia|].
  rewrite Z.eqb_refl. reflexivity.
Qed.

Lemma read_darray_shape fuel (image : gifti_image) ctab (k : Z) (st : overlay_state)
    (darr : giiDataArray) (n : Z) (buf : list cell) :
  overlay_array darr NIFTI_INTENT_SHAPE n buf ->
  0 <= k -> darray image !! Z.to_nat k = Some darr ->
  0 < n -> nvertices (os_mris st) = n ->
  read_darray fuel image ctab k st = read_shape k darr st.
Proof.
  intros Harr Hk Hd Hpos Hm.
  unfold read_darray. rewrite (at_index_Some _ k darr Hk Hd), bind_ret_l.
  rewrite (records_cols_overlay _ _ _ _ Harr), Hm, expected_cols_pos.
  pose proof (oa_intent _ _ _ _ Harr) as Hit. rewrite Hit.
  cbn [Z.eqb Pos.eqb NIFTI_INTENT_SHAPE NIFTI_INTENT_POINTSET NIFTI_INTENT_TRIANGLE
       NIFTI_INTENT_NODE_INDEX orb negb].
  destruct (Z.leb_spec n 0); [lia|].
  rewrite Z.eqb_refl. reflexivity.
Qed.

Lemma find_geometry_no_coords (image : gifti_image) :
  (forall da, da ∈ darray image -> intent da <> NIFTI_INTENT_POINTSET) ->
  (find_geometry image).1 = None.
Proof.
  intros Hno. rewrite find_geometry_last. cbn [fst].
  rewrite filter_none by exact Hno. reflexivity.
Qed.

(** The whole read of a container of one overlay array and no label
    table is the round of the second pass for that array. *)
Lemma reader_single fuel (darr : giiDataArray) (lt : giiLabelTable)
    (md : gmap string string) fname (m0 : MRIS) (outmri : option MRI) (frame : Z) :
  lt_length lt <= 0 -> intent darr <> NIFTI_INTENT_POINTSET ->
  mrisReadGIFTIdanum fuel (mkImage [darr] lt md) fname (Some m0) (-1) outmri frame
  = bind (read_darray fuel (mkImage [darr] lt md) None 0
            (mkOS m0 outmri frame 0 0 None 0))
         (fun st => ret (os_mris st, os_outmri st, os_frame st)).
Proof.
  intros Hlt Hi. rewrite reader_overlay_pass.
  - unfold for_Z.
    match goal with
    | |- context [for_loop ?k] => let r := eval vm_compute in k in change k with r
    end.
    cbn [for_loop]. rewrite bind_ret_l. reflexivity.
  - exact Hlt.
  - left. apply find_geometry_no_coords. intros da Hda.
    apply list_elem_of_singleton in Hda. subst da. exact Hi.
Qed.

End OverlayReader.

(* ===================================================================== *)
(** ** Overlays written and read back *)
(* ===================================================================== *)

Lemma written_buffer (field : VERTEX -> spec_float) (vs : list VERTEX) (n : Z)
    (buf : list cell) :
  length vs = Z.to_nat n -> length buf = Z.to_nat n ->
  (forall v vx, vs !! v = Some vx -> buf !! v = Some (stored field vx)) ->
  buf = CF32 <$> written_vals field vs.
Proof.
  intros Hl Hb Hc. apply list_eq. intros i. unfold written_vals.
  rewrite !list_lookup_fmap. destruct (vs !! i) as [vx|] eqn:Hi.
  - rewrite (Hc i vx Hi). reflexivity.
  - apply lookup_ge_None in Hi. cbn. apply lookup_ge_None. lia.
Qed.

Lemma written_vals_float (field : VERTEX -> spec_float) (vs : list VERTEX) :
  (forall v vx, vs !! v = Some vx -> ripflag vx = false -> IEEE.is_float (field vx) = true) ->
  forall v a, written_vals field vs !! v = Some a -> IEEE.is_float a = true.
Proof.
  intros Hf v a. unfold written_vals. rewrite list_lookup_fmap.
  destruct (vs !! v) as [vx|] eqn:Hv; [|discriminate]. cbn. intros [= <-].
  destruct (ripflag vx) eqn:Hr; [reflexivity|]. eapply Hf; eassumption.
Qed.

Lemma overlay_array_vals (da : giiDataArray) (it n : Z) (buf buf' : list cell) :
  overlay_array da it n buf -> buf = buf' -> overlay_array da it n buf'.
Proof. intros Ha <-. exact Ha. Qed.

Section RoundTrips.
Context `{Collaborators} `{Services}.

(** X7: statistics written by [MRISwriteGIFTIStats] for one surface and
    read by [mrisReadGIFTIdanum] into a surface of as many vertices:
    every vertex of the second that is not ripped gets, as [val] and as
    [stat], the [stat] of the same vertex of the first (zero where that
    one is ripped); a ripped vertex and every other field stay as they
    are, and nothing is printed. *)
Theorem stats_round_trip (mris m0 : MRIS) (intent_code : Z) (md : gmap string string)
    (fuel : nat) (fname : string) :
  0 < nvertices mris ->
  length (vertices mris) = Z.to_nat (nvertices mris) ->
  (forall v vx, vertices mris !! v = Some vx -> ripflag vx = false ->
                IEEE.is_float (stat vx) = true) ->
  nvertices m0 = nvertices mris ->
  length (vertices m0) = Z.to_nat (nvertices m0) ->
  statval_intent intent_code ->
  exists image vs',
    MRISwriteGIFTIStats mris (mkImage [] empty_labeltable md) intent_code = Ret [] image
    /\ mrisReadGIFTIdanum fuel image fname (Some m0) (-1) None 0
       = Ret [] (mris_set_vertices m0 vs', None, 0)
    /\ length vs' = length (vertices m0)
    /\ forall v vx0 vx, vertices m0 !! v = Some vx0 -> vertices mris !! v = Some vx ->
         vs' !! v = Some (if ripflag vx0 then vx0
                          else let a := if ripflag vx then IEEE.zero else stat vx in
                               vertex_set_val_stat vx0 a a).
Proof.
  intros HN Hlen Hfl Hn0 Hlen0 Hit.
  destruct (stats_writer_spec mris (mkImage [] empty_labeltable md) intent_code
              ltac:(lia) Hlen Hfl) as (stats & buf & Ew & Harr & Hcells & _).
  pose proof (written_buffer stat (vertices mris) (nvertices mris) buf Hlen
                (oa_length _ _ _ _ Harr) Hcells) as Hbuf.
  rewrite <- Hn0 in Harr.
  pose proof (overlay_array_vals _ _ _ _ _ Harr Hbuf) as Harr'.
  assert (Hvl : length (written_vals stat (vertices mris)) = Z.to_nat (nvertices m0))
    by (unfold written_vals; rewrite length_fmap; lia).
  destruct (read_statval_dense m0 (written_vals stat (vertices mris)) stats intent_code
              ltac:(lia) Hlen0 Hvl (written_vals_float stat _ Hfl) Harr'
              (mkOS m0 None 0 0 0 None 0) eq_refl eq_refl eq_refl eq_refl)
    as (vs' & Er & Hl & Hvs).
  exists (add_darrays (mkImage [] empty_labeltable md) [stats]), vs'.
  split; [exact Ew|]. split; [|split; [exact Hl|]].
  - change (add_darrays (mkImage [] empty_labeltable md) [stats])
      with (mkImage [stats] empty_labeltable md).
    rewrite reader_single;
      [|cbn; lia|rewrite (oa_intent _ _ _ _ Harr); apply Hit].
    rewrite (read_darray_statval fuel (mkImage [stats] empty_labeltable md) None 0
               (mkOS m0 None 0 0 0 None 0) stats intent_code (nvertices m0) _ Harr'
               ltac:(lia) eq_refl Hit ltac:(lia) eq_refl).
    rewrite Er. reflexivity.
  - intros v vx0 vx Hvx0 Hvx. apply (Hvs v vx0); [exact Hvx0|].
    unfold written_vals. rewrite list_lookup_fmap, Hvx. reflexivity.
Qed.

(** X8: a curvature file written by [MRISwriteGIFTIShape] and read by
    [mrisReadGIFTIdanum] into a surface of as many vertices: every
    vertex of that surface that is not ripped gets, as [curv], the
    [curv] the curvature file gave the same vertex (zero where that one
    is ripped); a ripped vertex and every other field stay as they are. *)
Theorem shape_round_trip (mris mris_c m0 : MRIS) (intent_code : Z) (curv_fname : string)
    (md : gmap string string) (fuel : nat) (fname : string) :
  MRISreadCurvatureFile mris (Some curv_fname) = Some mris_c ->
  0 < nvertices mris_c ->
  length (vertices mris_c) = Z.to_nat (nvertices mris_c) ->
  (forall v vx, vertices mris_c !! v = Some vx -> ripflag vx = false ->
                IEEE.is_float (curv vx) = true) ->
  nvertices m0 = nvertices mris_c ->
  length (vertices m0) = Z.to_nat (nvertices m0) ->
  exists image vs',
    MRISwriteGIFTIShape mris (mkImage [] empty_labeltable md) intent_code (Some curv_fname)
    = Ret [] image
    /\ mrisReadGIFTIdanum fuel image fname (Some m0) (-1) None 0
       = Ret [] (mris_set_vertices m0 vs', None, 0)
    /\ length vs' = length (vertices m0)
    /\ forall v vx0 vx, vertices m0 !! v = Some vx0 -> vertices mris_c !! v = Some vx ->
         vs' !! v = Some (if ripflag vx0 then vx0
                          else vertex_set_curv vx0
                                 (if ripflag vx then IEEE.zero else curv vx)).
Proof.
  intros Hc HN Hlen Hfl Hn0 Hlen0.
  destruct (shape_writer_spec mris mris_c (mkImage [] empty_labeltable md) intent_code
              curv_fname Hc ltac:(lia) Hlen Hfl) as (shape & buf & Ew & Harr & Hcells & _).
  pose proof (written_buffer curv (vertices mris_c) (nvertices mris_c) buf Hlen
                (oa_length _ _ _ _ Harr) Hcells) as Hbuf.
  rewrite <- Hn0 in Harr.
  pose proof (overlay_array_vals _ _ _ _ _ Harr Hbuf) as Harr'.
  assert (Hvl : length (written_vals curv (vertices mris_c)) = Z.to_nat (nvertices m0))
    by (unfold written_vals; rewrite length_fmap; lia).
  destruct (read_shape_dense m0 (written_vals curv (vertices mris_c)) shape
              NIFTI_INTENT_SHAPE
              ltac:(lia) Hlen0 Hvl (written_vals_float curv _ Hfl) Harr' 0
              (mkOS m0 None 0 0 0 None 0) eq_refl eq_refl eq_refl eq_refl)
    as (vs' & Er & Hl & Hvs).
  exists (add_darrays (mkImage [] empty_labeltable md) [shape]), vs'.
  split; [exact Ew|]. split; [|split; [exact Hl|]].
  - change (add_darrays (mkImage [] empty_labeltable md) [shape])
      with (mkImage [shape] empty_labeltable md).
    rewrite reader_single;
      [|cbn; lia|rewrite (oa_intent _ _ _ _ Harr); discriminate].
    rewrite (read_darray_shape fuel (mkImage [shape] empty_labeltable md) None 0
               (mkOS m0 None 0 0 0 None 0) shape (nvertices m0) _ Harr'
               ltac:(lia) eq_refl ltac:(lia) eq_refl).
    rewrite Er. reflexivity.
  - intros v vx0 vx Hvx0 Hvx. apply (Hvs v vx0); [exact Hvx0|].
    unfold written_vals. rewrite list_lookup_fmap, Hvx. reflexivity.
Qed.

End RoundTrips.

Section MoreOverlays.
Context `{Collaborators}.

(** X9: of two arrays of shape data in one container the first is
    read into [curv] and the second is skipped with a warning. *)
Theorem first_shape_wins (m0 : MRIS) (A B : giiDataArray) (vals : list spec_float)
    (bufB : list cell) (lt : giiLabelTable) (md : gmap string string)
    (fuel : nat) (fname : string) :
  0 < nvertices m0 ->
  length (vertices m0) = Z.to_nat (nvertices m0) ->
  length vals = Z.to_nat (nvertices m0) ->
  (forall v a, vals !! v = Some a -> IEEE.is_float a = true) ->
  overlay_array A NIFTI_INTENT_SHAPE (nvertices m0) (CF32 <$> vals) ->
  overlay_array B NIFTI_INTENT_SHAPE (nvertices m0) bufB ->
  lt_length lt <= 0 ->
  exists vs',
    mrisReadGIFTIdanum fuel (mkImage [A; B] lt md) fname (Some m0) (-1) None 0
    = Ret [DiagRead "WARNING: a prior data array of shape data has already been read!"]
          (mris_set_vertices m0 vs', None, 0)
    /\ overlaid m0 vals vertex_set_curv vs'.
Proof.
  intros HN Hlen Hvl Hfl HA HB Hlt.
  destruct (read_shape_dense m0 vals A NIFTI_INTENT_SHAPE ltac:(lia) Hlen Hvl Hfl HA 0
              (mkOS m0 None 0 0 0 None 0) eq_refl eq_refl eq_refl eq_refl)
    as (vs' & Er & Hvs).
  exists vs'. split; [|exact Hvs].
  rewrite reader_overlay_pass; [|exact Hlt|].
  2: { left. apply find_geometry_no_coords. intros da Hda. cbn [darray] in Hda.
       apply elem_of_cons in Hda as [->|Hda];
         [rewrite (oa_intent _ _ _ _ HA); discriminate|].
       apply list_elem_of_singleton in Hda. subst da.
       rewrite (oa_intent _ _ _ _ HB). discriminate. }
  unfold for_Z.
  match goal with
  | |- context [for_loop ?k] => let r := eval vm_compute in k in change k with r
  end.
  cbn [for_loop]. rewrite bind_ret_l.
  change (0 + Z.of_nat 0) with 0. change (0 + Z.of_nat 1) with 1.
  rewrite (read_darray_shape fuel (mkImage [A; B] lt md) None 0
             (mkOS m0 None 0 0 0 None 0) A (nvertices m0) _ HA
             ltac:(lia) eq_refl ltac:(lia) eq_refl).
  rewrite Er. cbn [Z.leb Z.compare]. rewrite bind_Ret_nil.
  rewrite (read_darray_shape fuel (mkImage [A; B] lt md) None 1 _ B (nvertices m0) bufB HB);
    [reflexivity|lia|reflexivity|lia|reflexivity].
Qed.

(** The round of the second pass for an array of vectors. *)
Lemma read_darray_vector fuel (image : gifti_image) ctab (k : Z) (st : overlay_state)
    (darr : giiDataArray) (n : Z) (buf : list cell) :
  surface_array darr NIFTI_INTENT_VECTOR NIFTI_TYPE_FLOAT32 n buf ->
  0 <= k -> darray image !! Z.to_nat k = Some darr ->
  0 < n -> nvertices (os_mris st) = n ->
  read_darray fuel image ctab k st = read_vector darr st.
Proof.
  intros Harr Hk Hd Hpos Hm.
  unfold read_darray. rewrite (at_index_Some _ k darr Hk Hd), bind_ret_l.
  rewrite (records_cols_surface _ _ _ _ _ Harr Hpos), Hm.
  unfold expected_cols.
  pose proof (sa_intent _ _ _ _ _ Harr) as Hit. rewrite Hit.
  cbn [Z.eqb Pos.eqb NIFTI_INTENT_SHAPE NIFTI_INTENT_POINTSET NIFTI_INTENT_TRIANGLE
       NIFTI_INTENT_NODE_INDEX NIFTI_INTENT_VECTOR NIFTI_INTENT_LABEL orb negb Z.ltb
       Z.compare Pos.compare Pos.compare_cont].
  destruct (Z.leb_spec n 0); [lia|].
  rewrite Z.eqb_refl. reflexivity.
Qed.

(** X10: an array of vectors, of three [float]s per vertex and of at
    most 2147483647 elements (the offset [vertex * 3] is computed in
    [int]), is read into the displacement of every vertex that is not
    ripped: [dx] from column 0, [dy] from column 1 and [dz] from column
    2; a ripped vertex and every other field stay as they are. *)
Theorem vector_read (m0 : MRIS) (darr : giiDataArray) (buf : list cell)
    (rows_ : list (spec_float * spec_float * spec_float))
    (lt : giiLabelTable) (md : gmap string string) (fuel : nat) (fname : string) :
  0 < nvertices m0 ->
  nvertices m0 * 3 <= 2147483647 ->
  length (vertices m0) = Z.to_nat (nvertices m0) ->
  length rows_ = Z.to_nat (nvertices m0) ->
  surface_array darr NIFTI_INTENT_VECTOR NIFTI_TYPE_FLOAT32 (nvertices m0) buf ->
  (forall v a b c, rows_ !! Z.to_nat v = Some (a, b, c) -> 0 <= v ->
     IEEE.is_float a = true /\ IEEE.is_float b = true /\ IEEE.is_float c = true
     /\ buf !! Z.to_nat (v * 3 + 0) = Some (CF32 a)
     /\ buf !! Z.to_nat (v * 3 + 1) = Some (CF32 b)
     /\ buf !! Z.to_nat (v * 3 + 2) = Some (CF32 c)) ->
  lt_length lt <= 0 ->
  exists vs',
    mrisReadGIFTIdanum fuel (mkImage [darr] lt md) fname (Some m0) (-1) None 0
    = Ret [] (mris_set_vertices m0 vs', None, 0)
    /\ length vs' = length (vertices m0)
    /\ forall v vx0 a b c, vertices m0 !! v = Some vx0 -> rows_ !! v = Some (a, b, c) ->
         vs' !! v = Some (if ripflag vx0 then vx0 else vertex_set_dxyz vx0 a b c).
Proof.
  intros HN Hfits Hlen Hrl Harr Hrows Hlt.
  rewrite reader_single; [|exact Hlt|rewrite (sa_intent _ _ _ _ _ Harr); discriminate].
  rewrite (read_darray_vector fuel (mkImage [darr] lt md) None 0
             (mkOS m0 None 0 0 0 None 0) darr (nvertices m0) buf Harr
             ltac:(lia) eq_refl HN eq_refl).
  unfold read_vector. cbn [os_mris].
  loop_within (fun k (m : MRIS) =>
    exists vs, m = mris_set_vertices m0 vs
      /\ length vs = length (vertices m0)
      /\ (forall v vx0 a b c, Z.of_nat v < k -> vertices m0 !! v = Some vx0 ->
            rows_ !! v = Some (a, b, c) ->
            vs !! v = Some (if ripflag vx0 then vx0 else vertex_set_dxyz vx0 a b c))
      /\ (forall v, k <= Z.of_nat v -> vs !! v = vertices m0 !! v)) HL.
  destruct HL as (m' & E & vs & -> & Hl & Hdone & _).
  - lia.
  - exists (vertices m0). split; [rewrite mris_set_vertices_same; reflexivity|].
    split; [reflexivity|]. split; [intros; lia|reflexivity].
  - intros k m Hk (vs & -> & Hl & Hdone & Hrest).
    cbn [vertices mris_set_vertices].
    destruct (lookup_lt_is_Some_2 (vertices m0) (Z.to_nat k) ltac:(lia)) as (vx0 & Hvx0).
    assert (Hvk : vs !! Z.to_nat k = Some vx0) by (rewrite Hrest by lia; exact Hvx0).
    rewrite (at_index_Some _ k vx0 ltac:(lia) Hvk), bind_ret_l.
    destruct (ripflag vx0) eqn:Hrip.
    + eexists. split; [reflexivity|]. exists vs. split; [reflexivity|].
      split; [exact Hl|]. split.
      * intros v vx a b c Hv Hvx Ha. destruct (decide (v = Z.to_nat k)) as [->|Hne].
        -- rewrite Hvx0 in Hvx. injection Hvx as <-. rewrite Hrip. exact Hvk.
        -- apply (Hdone v vx a b c); [lia|exact Hvx|exact Ha].
      * intros v Hv. apply Hrest. lia.
    + destruct (lookup_lt_is_Some_2 rows_ (Z.to_nat k) ltac:(lia)) as ([[a b] c] & Hr).
      destruct (Hrows k a b c Hr ltac:(lia)) as (Fa & Fb & Fc & Ba & Bb & Bc).
      rewrite (get_cell3 _ _ _ _ _ Tfloat k 0 _ Harr eq_refl ltac:(lia) ltac:(lia) Ba).
      cbn [widen]. rewrite bind_ret_l.
      rewrite (get_cell3 _ _ _ _ _ Tfloat k 1 _ Harr eq_refl ltac:(lia) ltac:(lia) Bb).
      cbn [widen]. rewrite bind_ret_l.
      rewrite (get_cell3 _ _ _ _ _ Tfloat k 2 _ Harr eq_refl ltac:(lia) ltac:(lia) Bc).
      cbn [widen]. rewrite bind_ret_l.
      rewrite !float_of_double_of_float by assumption.
      unfold set_vertex. cbn [vertices mris_set_vertices].
      rewrite put_index_lt by lia. rewrite !bind_ret_l.
      eexists. split; [reflexivity|].
      exists (<[Z.to_nat k := vertex_set_dxyz vx0 a b c]> vs).
      split; [reflexivity|]. split; [rewrite length_insert; exact Hl|]. split.
      * intros v vx a' b' c' Hv Hvx Ha'. destruct (decide (v = Z.to_nat k)) as [->|Hne].
        -- rewrite Hvx0 in Hvx. injection Hvx as <-. rewrite Hr in Ha'.
           injection Ha' as <- <- <-. rewrite Hrip. apply list_lookup_insert_eq. lia.
        -- rewrite list_lookup_insert_ne by lia.
           apply (Hdone v vx a' b' c'); [lia|exact Hvx|exact Ha'].
      * intros v Hv. rewrite list_lookup_insert_ne by lia. apply Hrest. lia.
  - rewrite E. exists vs. split; [reflexivity|]. split; [exact Hl|].
    intros v vx0 a b c Hvx0 Hr. apply (Hdone v vx0 a b c); [|exact Hvx0|exact Hr].
    apply lookup_lt_Some in Hvx0. lia.
Qed.

End MoreOverlays.

(* ===================================================================== *)
(** ** The dispatcher and the file writers *)
(* ===================================================================== *)

Section Dispatch.
Context `{Collaborators} `{Services}.

Lemma surface_writer_appends (mris : MRIS) (image image' : gifti_image) out_fname l :
  MRISwriteGIFTISurface mris image out_fname = Ret l image' ->
  exists c f, image' = add_darrays image [c; f].
Proof.
  unfold MRISwriteGIFTISurface. intros E. minv. eexists _, _. reflexivity.
Qed.

Lemma shape_writer_appends (mris : MRIS) (image image' : gifti_image) code curv_fname l :
  MRISwriteGIFTIShape mris image code curv_fname = Ret l image' ->
  exists s, image' = add_darrays image [s].
Proof.
  unfold MRISwriteGIFTIShape. intros E. minv. eexists. reflexivity.
Qed.

Lemma stats_writer_appends (mris : MRIS) (image image' : gifti_image) code l :
  MRISwriteGIFTIStats mris image code = Ret l image' ->
  exists s, image' = add_darrays image [s].
Proof.
  unfold MRISwriteGIFTIStats. intros E. minv. eexists. reflexivity.
Qed.

Lemma label_writer_appends (mris : MRIS) (image image' : gifti_image) code l :
  MRISwriteGIFTILabel mris image code = Ret l image' ->
  exists lt s, image' = add_darrays (set_labeltable image lt) [s].
Proof.
  unfold MRISwriteGIFTILabel. intros E. minv; eexists _, _; reflexivity.
Qed.

Lemma stats_intent_range (c : Z) :
  stats_intent c = true -> 2 <= c <= 24 \/ c = 1001.
Proof.
  unfold stats_intent. rewrite !orb_true_iff, !Z.eqb_eq.
  unfold NIFTI_INTENT_CORREL, NIFTI_INTENT_TTEST, NIFTI_INTENT_FTEST, NIFTI_INTENT_ZSCORE,
    NIFTI_INTENT_CHISQ, NIFTI_INTENT_BETA, NIFTI_INTENT_BINOM, NIFTI_INTENT_GAMMA,
    NIFTI_INTENT_POISSON, NIFTI_INTENT_NORMAL, NIFTI_INTENT_FTEST_NONC,
    NIFTI_INTENT_CHISQ_NONC, NIFTI_INTENT_LOGISTIC, NIFTI_INTENT_LAPLACE,
    NIFTI_INTENT_UNIFORM, NIFTI_INTENT_TTEST_NONC, NIFTI_INTENT_WEIBULL, NIFTI_INTENT_CHI,
    NIFTI_INTENT_INVGAUSS, NIFTI_INTENT_EXTVAL, NIFTI_INTENT_PVAL, NIFTI_INTENT_LOGPVAL,
    NIFTI_INTENT_LOG10PVAL, NIFTI_INTENT_ESTIMATE.
  lia.
Qed.

(** The statistics codes go to the branch of the statistics in the
    reader as well. *)
Lemma stats_intent_statval (c : Z) : stats_intent c = true -> statval_intent c.
Proof.
  intros Hc. apply stats_intent_range in Hc.
  unfold statval_intent, NIFTI_INTENT_POINTSET, NIFTI_INTENT_TRIANGLE,
    NIFTI_INTENT_NODE_INDEX, NIFTI_INTENT_SHAPE, NIFTI_INTENT_LABEL, NIFTI_INTENT_VECTOR,
    NIFTI_INTENT_RGB_VECTOR, NIFTI_INTENT_RGBA_VECTOR, NIFTI_INTENT_GENMATRIX.
  lia.
Qed.

(** What the dispatcher does to the image, branch by branch. *)
Lemma intent_writer_appends (mris : MRIS) (intent_code : Z) (image image' : gifti_image)
    (out_fname : string) (curv_fname : option string) (l : list diag) :
  MRISwriteGIFTIIntent mris intent_code image out_fname curv_fname = Ret l image' ->
  gim_meta image' = gim_meta image
  /\ (intent_code <> NIFTI_INTENT_LABEL -> labeltable image' = labeltable image)
  /\ exists das, darray image' = darray image ++ das
                 /\ length das = arrays_written intent_code.
Proof.
  unfold MRISwriteGIFTIIntent, arrays_written. intros E.
  destruct (stats_intent intent_code) eqn:Hst.
  - pose proof (stats_intent_range _ Hst) as Hr.
    destruct (Z.eqb_spec intent_code NIFTI_INTENT_POINTSET) as [->|_];
      [unfold NIFTI_INTENT_POINTSET in Hr; lia|].
    destruct (Z.eqb_spec intent_code NIFTI_INTENT_TRIANGLE) as [->|_];
      [unfold NIFTI_INTENT_TRIANGLE in Hr; lia|].
    destruct (Z.eqb_spec intent_code NIFTI_INTENT_SHAPE) as [->|_];
      [unfold NIFTI_INTENT_SHAPE in Hr; lia|].
    destruct (Z.eqb_spec intent_code NIFTI_INTENT_LABEL) as [->|_];
      [unfold NIFTI_INTENT_LABEL in Hr; lia|].
    cbn [orb] in E |- *. rewrite !bind_ret_l in E.
    apply stats_writer_appends in E as (s & ->).
    split; [reflexivity|]. split; [reflexivity|].
    exists [s]. split; reflexivity.
  - destruct (Z.eqb_spec intent_code NIFTI_INTENT_POINTSET) as [->|Hp].
    { cbn [orb Z.eqb Pos.eqb NIFTI_INTENT_POINTSET NIFTI_INTENT_SHAPE NIFTI_INTENT_LABEL]
        in E |- *.
      apply bind_Ret_inv in E as (l1 & im1 & l2 & E1 & E & ->).
      rewrite !bind_ret_l in E. apply ret_Ret_inv in E. subst im1.
      apply surface_writer_appends in E1 as (c & f & ->).
      split; [reflexivity|]. split; [reflexivity|].
      exists [c; f]. split; reflexivity. }
    destruct (Z.eqb_spec intent_code NIFTI_INTENT_TRIANGLE) as [->|Ht].
    { cbn [orb Z.eqb Pos.eqb NIFTI_INTENT_TRIANGLE NIFTI_INTENT_SHAPE NIFTI_INTENT_LABEL]
        in E |- *.
      apply bind_Ret_inv in E as (l1 & im1 & l2 & E1 & E & ->).
      rewrite !bind_ret_l in E. apply ret_Ret_inv in E. subst im1.
      apply surface_writer_appends in E1 as (c & f & ->).
      split; [reflexivity|]. split; [reflexivity|].
      exists [c; f]. split; reflexivity. }
    cbn [orb] in E |- *. rewrite bind_ret_l in E.
    destruct (Z.eqb_spec intent_code NIFTI_INTENT_SHAPE) as [->|Hs].
    { cbn [orb Z.eqb Pos.eqb NIFTI_INTENT_SHAPE NIFTI_INTENT_LABEL] in E |- *.
      apply bind_Ret_inv in E as (l1 & im1 & l2 & E1 & E & ->).
      rewrite !bind_ret_l in E. apply ret_Ret_inv in E. subst im1.
      apply shape_writer_appends in E1 as (s & ->).
      split; [reflexivity|]. split; [reflexivity|].
      exists [s]. split; reflexivity. }
    rewrite bind_ret_l in E.
    destruct (Z.eqb_spec intent_code NIFTI_INTENT_LABEL) as [->|Hl].
    { cbn [orb] in E |- *.
      apply bind_Ret_inv in E as (l1 & im1 & l2 & E1 & E & ->).
      apply ret_Ret_inv in E. subst im1.
      apply label_writer_appends in E1 as (lt & s & ->).
      split; [reflexivity|]. split; [intros Hne; contradiction|].
      exists [s]. split; reflexivity. }
    rewrite bind_ret_l in E. apply ret_Ret_inv in E. subst image'.
    cbn [orb]. split; [reflexivity|]. split; [reflexivity|].
    exists []. split; [rewrite app_nil_r; reflexivity|reflexivity].
Qed.


(** X12: the dispatcher only appends.  Whenever it returns, the arrays
    the image had are still there, in front and in their order, followed
    by two new ones for the intents POINTSET and TRIANGLE, by one for
    SHAPE, for LABEL and for the 24 statistics codes, and by none for
    any other intent, for which the image comes back as it was; the
    metadata of the image are untouched, and so is its label table
    unless the intent is LABEL. *)
Theorem dispatcher_appends (mris : MRIS) (intent_code : Z) (image image' : gifti_image)
    (out_fname : string) (curv_fname : option string) (l : list diag) :
  MRISwriteGIFTIIntent mris intent_code image out_fname curv_fname = Ret l image' ->
  gim_meta image' = gim_meta image
  /\ (intent_code <> NIFTI_INTENT_LABEL -> labeltable image' = labeltable image)
  /\ (arrays_written intent_code = 0%nat -> image' = image)
  /\ exists das, darray image' = darray image ++ das
                 /\ length das = arrays_written intent_code.
Proof.
  intros E. apply intent_writer_appends in E as (Hmd & Hlt & das & Hd & Hlen).
  split; [exact Hmd|]. split; [exact Hlt|]. split; [|exists das; split; assumption].
  intros Hz. rewrite Hz in Hlen. destruct das; [|discriminate Hlen].
  rewrite app_nil_r in Hd.
  assert (Hne : intent_code <> NIFTI_INTENT_LABEL).
  { intros ->. vm_compute in Hz. discriminate Hz. }
  specialize (Hlt Hne). destruct image, image'. cbn in *. congruence.
Qed.

End Dispatch.

Lemma bind_ext {A B} (m : M A) (k k' : A -> M B) :
  (forall a, k a = k' a) -> bind m k = bind m k'.
Proof. intros Hk. destruct m; unfold bind; try reflexivity. rewrite Hk. reflexivity. Qed.

Section FileLevel.
Context `{Collaborators} `{Services}.

(** The surface writer uses the image it is given only to append to it. *)
Lemma surface_writer_any_image (mris : MRIS) (image : gifti_image) (out_fname : string) :
  MRISwriteGIFTISurface mris image out_fname
  = bind (MRISwriteGIFTISurface mris empty_image out_fname)
         (fun e => ret (add_darrays image (darray e))).
Proof.
  unfold MRISwriteGIFTISurface.
  repeat (rewrite bind_assoc; apply bind_ext; intros ?).
  repeat match goal with
         | |- context [let '(_, _) := ?p in _] => destruct p
         end.
  repeat (rewrite bind_assoc; apply bind_ext; intros ?).
  rewrite bind_ret_l. reflexivity.
Qed.

(** The reader never looks at the metadata of the image. *)
Lemma read_darray_image_meta fuel (das : list giiDataArray) (lt : giiLabelTable)
    (md md' : gmap string string) ctab k st :
  read_darray fuel (mkImage das lt md) ctab k st
  = read_darray fuel (mkImage das lt md') ctab k st.
Proof. reflexivity. Qed.

Lemma reader_image_meta fuel (das : list giiDataArray) (lt : giiLabelTable)
    (md md' : gmap string string) fname mris daNum outmri frame :
  mrisReadGIFTIdanum fuel (mkImage das lt md) fname mris daNum outmri frame
  = mrisReadGIFTIdanum fuel (mkImage das lt md') fname mris daNum outmri frame.
Proof.
  unfold mrisReadGIFTIdanum, read_colortable. cbn [labeltable].
  destruct (0 <? lt_length lt); [|reflexivity].
  destruct (negb (gifti_valid_LabelTable lt)); [reflexivity|].
  rewrite !bind_assoc. apply bind_ext. intros es. rewrite !bind_ret_l. reflexivity.
Qed.

Lemma check_and_write_inv who (image image' : gifti_image) out_fname l :
  check_and_write who image out_fname = Ret l image' ->
  image' = image /\ l = [] /\ gifti_valid_gifti_image image = true
  /\ gifti_write_image image out_fname = true.
Proof.
  unfold check_and_write. intros E.
  destruct (gifti_valid_gifti_image image); [|discriminate].
  destruct (gifti_write_image image out_fname); [|discriminate].
  cbn [negb] in E. injection E as <- <-. repeat split; reflexivity.
Qed.

(** X13: [MRISwriteGIFTI] refuses a NULL surface or file name, and the
    intent SHAPE without a curvature file, with ERROR_BADPARM.  When it
    returns success, the image in the file passed the check of the
    container library and was written by it; its metadata hold the
    date, the user name when there is one, and the subject name when it
    is not empty; and it holds two arrays for the intents POINTSET and
    TRIANGLE, one for SHAPE, LABEL and the statistics codes, and no
    array at all for any other intent. *)
Theorem write_file_result (mris : MRIS) (intent_code : Z) (out_fname : string)
    (curv_fname : option string) :
  (forall o c, MRISwriteGIFTI None intent_code o c
               = Fail [DiagWrite "MRISwriteGIFTI: invalid parameter"] ERROR_BADPARM)
  /\ (forall c, MRISwriteGIFTI (Some mris) intent_code None c
                = Fail [DiagWrite "MRISwriteGIFTI: invalid parameter"] ERROR_BADPARM)
  /\ (MRISwriteGIFTI (Some mris) NIFTI_INTENT_SHAPE (Some out_fname) None
      = Fail [DiagWrite "MRISwriteGIFTI: invalid parameter: curv_fname is NULL"]
             ERROR_BADPARM)
  /\ forall l image,
       MRISwriteGIFTI (Some mris) intent_code (Some out_fname) curv_fname = Ret l image ->
       gifti_valid_gifti_image image = true
       /\ gifti_write_image image out_fname = true
       /\ gim_meta image !! "Date" = Some currentDateTime
       /\ gim_meta image !! "UserName" = pw_name
       /\ gim_meta image !! "SubjectID"
          = (if (String.length (subject_name mris) =? 0)%nat then None
             else Some (subject_name mris))
       /\ length (darray image) = arrays_written intent_code.
Proof.
  split; [reflexivity|]. split; [reflexivity|]. split; [reflexivity|].
  intros l image E. unfold MRISwriteGIFTI in E.
  destruct ((intent_code =? NIFTI_INTENT_SHAPE)
            && match curv_fname with None => true | Some _ => false end);
    [discriminate|].
  cbv zeta in E. apply bind_Ret_inv in E as (l1 & im & l2 & Ei & Ew & ->).
  apply check_and_write_inv in Ew as (-> & -> & Hv & Hw).
  apply intent_writer_appends in Ei as (Hmd & _ & das & Hd & Hlen).
  split; [exact Hv|]. split; [exact Hw|].
  rewrite Hmd, Hd. unfold new_image, insertCommonMetaData, gifti_add_to_meta.
  destruct (String.length (subject_name mris) =? 0)%nat;
    cbn [negb gim_meta set_gim_meta darray app];
    (split; [|split; [|split; [|exact Hlen]]]).
  - apply lookup_insert_eq.
  - rewrite lookup_insert_ne by discriminate.
    destruct pw_name; [apply lookup_insert_eq|apply lookup_empty].
  - rewrite lookup_insert_ne by discriminate.
    destruct pw_name; [rewrite lookup_insert_ne by discriminate|]; apply lookup_empty.
  - rewrite lookup_insert_ne by discriminate. apply lookup_insert_eq.
  - rewrite !lookup_insert_ne by discriminate.
    destruct pw_name; [apply lookup_insert_eq|apply lookup_empty].
  - apply lookup_insert_eq.
Qed.

End FileLevel.

(* ===================================================================== *)
(** ** A surface written to a file and read from it *)
(* ===================================================================== *)

Section SurfaceFile.
Context `{Collaborators} `{Services}.

(** The two arrays of a valid surface whose command lines fill their
    records, read from an image of any metadata. *)
Lemma surface_arrays_read_back (mris : MRIS) (out_fname : string)
    (cs : list giiCoordSystem) :
  mesh_validb mris = true ->
  cmdlines_fullb mris = true ->
  write_coordsys mris out_fname = Ret [] cs ->
  (0 < ncmds mris -> sscanf_d (pretty (ncmds mris)) = Some (ncmds mris)) ->
  exists coordsF facesF,
    MRISwriteGIFTISurface mris empty_image out_fname
    = Ret [] (mkImage [coordsF; facesF] empty_labeltable ∅)
    /\ forall fuel fname md mris0 outmri frame,
         exists log m',
           mrisReadGIFTIdanum fuel (mkImage [coordsF; facesF] empty_labeltable md) fname
                              mris0 (-1) outmri frame
           = Ret log (m', outmri, frame)
           /\ read_back (nvertices mris) (nfaces mris) (vertices mris) (faces mris) m'.
Proof.
  intros Hvalid Hfull Hcs Hscan.
  pose proof (mesh_validb_facts mris Hvalid) as HM.
  destruct (MRISwriteGIFTISurface_spec mris HM out_fname cs Hcs)
    as (coordsF & facesF & bufC & bufF & Ew & HsaC & HsaF & Hcoordsys & Hmeta & Hvals
        & HbufC & HbufF).
  exists coordsF, facesF. split; [exact Ew|].
  intros fuel fname md mris0 outmri frame.
  rewrite (reader_image_meta fuel _ _ md ∅).
  destruct HM as [Hnv Hnf Hvlen Hflen Hvx Hfc Htopo Hcmd].
  destruct (cmdlines_okb_inv mris Hcmd) as (Hmax0 & Hmax).
  apply (reader_spec (faces mris) (nvertices mris) (nfaces mris) Hfc Hflen ltac:(lia)
           ltac:(lia) (vertices mris) Hvlen Hvx ltac:(lia) coordsF facesF bufC bufF
           HsaC HsaF HbufC HbufF).
  - unfold scan_d, gifti_get_meta_value. rewrite Hmeta.
    destruct (Z.ltb_spec 0 (ncmds mris)) as [Hpos|Hle].
    + rewrite (Hscan Hpos). cbn [default from_option id]. lia.
    + cbn [default from_option id]. lia.
  - exact (Hvals Hfull).
  - rewrite Hcoordsys. eapply write_coordsys_ok. exact Hcs.
Qed.

(** X14: a valid surface whose recorded command lines, if there are
    any, have at least TAG_CMDLINE_LEN - 1 characters, written to a file
    by [MRISwriteGIFTI] with the intent POINTSET or TRIANGLE and read
    from that file by [mrisReadGIFTIfile]: when the write returned
    success and the container library reads the file as the image
    written, the read returns a surface with the numbers of vertices and
    faces, the positions, the faces and the incidences of the surface
    written. *)
Theorem surface_file_round_trip (mris : MRIS) (intent_code : Z) (out_fname : string)
    (curv_fname : option string) (cs : list giiCoordSystem) (l : list diag)
    (image : gifti_image) (fuel : nat) (mris0 : option MRIS) (outmri : option MRI)
    (frame : Z) :
  mesh_validb mris = true ->
  cmdlines_fullb mris = true ->
  write_coordsys mris out_fname = Ret [] cs ->
  (0 < ncmds mris -> sscanf_d (pretty (ncmds mris)) = Some (ncmds mris)) ->
  intent_code = NIFTI_INTENT_POINTSET \/ intent_code = NIFTI_INTENT_TRIANGLE ->
  MRISwriteGIFTI (Some mris) intent_code (Some out_fname) curv_fname = Ret l image ->
  gifti_read_image out_fname = Some image ->
  exists log mris',
    mrisReadGIFTIfile fuel out_fname mris0 outmri frame = Ret log (mris', outmri, frame)
    /\ nvertices mris' = nvertices mris
    /\ nfaces mris' = nfaces mris
    /\ length (vertices mris') = length (vertices mris)
    /\ (forall i vx, vertices mris !! i = Some vx ->
          exists vx', vertices mris' !! i = Some vx'
            /\ x vx' = x vx /\ y vx' = y vx /\ z vx' = z vx)
    /\ faces mris' = faces mris
    /\ length (vertices_topology mris') = length (vertices_topology mris)
    /\ (forall i vt, vertices_topology mris !! i = Some vt ->
          exists vt', vertices_topology mris' !! i = Some vt'
            /\ incidence vt' = incidence vt).
Proof.
  intros Hvalid Hfull Hcs Hscan Hcode Ew Hread.
  destruct (surface_arrays_read_back mris out_fname cs Hvalid Hfull Hcs Hscan)
    as (coordsF & facesF & Es & Hr).
  unfold MRISwriteGIFTI in Ew.
  assert (Hns : (intent_code =? NIFTI_INTENT_SHAPE) = false)
    by (destruct Hcode as [-> | ->]; reflexivity).
  rewrite Hns in Ew. cbn [andb] in Ew. cbv zeta in Ew.
  apply bind_Ret_inv in Ew as (l1 & im & l2 & Ei & Ew & ->).
  apply check_and_write_inv in Ew as (-> & -> & Hv & _).
  unfold MRISwriteGIFTIIntent in Ei.
  assert (Hps : (intent_code =? NIFTI_INTENT_POINTSET)
                || (intent_code =? NIFTI_INTENT_TRIANGLE) = true)
    by (destruct Hcode as [-> | ->]; reflexivity).
  assert (Hnl : (intent_code =? NIFTI_INTENT_LABEL) = false)
    by (destruct Hcode as [-> | ->]; reflexivity).
  assert (Hnst : stats_intent intent_code = false)
    by (destruct Hcode as [-> | ->]; reflexivity).
  rewrite Hps, Hns, Hnl, Hnst in Ei.
  rewrite surface_writer_any_image, Es in Ei.
  rewrite bind_Ret_nil, !bind_ret_l in Ei. apply ret_Ret_inv in Ei. subst im.
  cbn [darray] in *.
  match type of Hread with
  | _ = Some (add_darrays ?im _) =>
      assert (Him : add_darrays im [coordsF; facesF]
                    = mkImage [coordsF; facesF] empty_labeltable (gim_meta im))
        by (destruct (negb (String.length (subject_name mris) =? 0)%nat); reflexivity);
      rewrite Him in *;
      destruct (Hr fuel out_fname (gim_meta im) mris0 outmri frame)
        as (log & mris' & Er & Hrb)
  end.
  exists log, mris'. split.
  - unfold mrisReadGIFTIfile, mrisReadGIFTIdanum_fname, read_and_check.
    rewrite Hread, Hv. cbn [negb]. rewrite bind_ret_l. exact Er.
  - pose proof (mesh_validb_facts mris Hvalid) as [Hnv Hnf Hvlen Hflen Hvx Hfc Htopo Hcmd].
    destruct (topology_okb_inv mris Htopo) as (Htlen & Hinc).
    destruct Hrb as [R1 R2 R3 R4 R5 R6].
    split; [exact R1|]. split; [exact R2|].
    split; [rewrite R3, Hvlen; reflexivity|].
    split; [exact R4|]. split; [exact R5|].
    split; [rewrite R6, topo_length, Htlen; reflexivity|].
    intros i vt Hvt. pose proof (lookup_lt_Some _ _ _ Hvt) as Hi.
    exists (rebuilt (faces mris) (Z.of_nat i)). split.
    + rewrite R6. rewrite <- (Nat2Z.id i) at 1. apply topo_lookup. lia.
    + rewrite (Hinc i vt Hvt). apply incidence_final.
Qed.

End SurfaceFile.

(* ===================================================================== *)
(** ** Counting the overlays of a file *)
(* ===================================================================== *)

Lemma set_DA_intent (da : giiDataArray) (row col : Z) (value : spec_float)
    (l : list diag) (da' : giiDataArray) :
  gifti_set_DA_value_2D (Some da) row col value = Ret l da' -> intent da' = intent da.
Proof. intros E. apply set_DA_keeps in E as (buf & buf' & _ & -> & _). reflexivity. Qed.

Section Counting.
Context `{Collaborators} `{Services}.

Lemma copy_vertex_data_intent (mris : MRIS) (field : VERTEX -> spec_float)
    (da da' : giiDataArray) l :
  copy_vertex_data mris field da = Ret l da' -> intent da' = intent da.
Proof.
  unfold copy_vertex_data.
  apply (for_Z_post (fun d => intent d = intent da)); [reflexivity|].
  intros i st l' st' Hst E. minv; [exact Hst|].
  apply set_DA_intent in E. congruence.
Qed.

Lemma write_coords_data_intent (mris : MRIS) (da da' : giiDataArray) l :
  write_coords_data mris da = Ret l da' -> intent da' = intent da.
Proof.
  unfold write_coords_data.
  apply (for_Z_post (fun d => intent d = intent da)); [reflexivity|].
  intros i st l' st' Hst E. minv; [exact Hst|].
  apply set_DA_intent in E, E1, E2. congruence.
Qed.

Lemma write_faces_data_intent (mris : MRIS) (da da' : giiDataArray) (n : Z) l :
  write_faces_data mris da = Ret l (da', n) -> intent da' = intent da.
Proof.
  unfold write_faces_data. intros E.
  change (intent (da', n).1 = intent da). revert E.
  apply (for_Z_post (fun st : giiDataArray * Z => intent st.1 = intent da));
    [reflexivity|].
  intros i [fa k] l' [fa' k'] Hst E. cbn [fst] in *.
  minv; match goal with E : (_, _) = (_, _) |- _ => injection E as <- <- end;
    [exact Hst|].
  repeat match goal with
         | E : gifti_set_DA_value_2D _ _ _ _ = Ret _ _ |- _ => apply set_DA_intent in E
         end.
  congruence.
Qed.

Lemma write_standard_meta_intent (mris : MRIS) (c f : giiDataArray) :
  intent (write_standard_meta mris c f).1 = intent c
  /\ intent (write_standard_meta mris c f).2 = intent f.
Proof.
  unfold write_standard_meta. destruct (negb _); split; reflexivity.
Qed.

(** The intents of the arrays each writer appends. *)
Lemma surface_writer_intents (mris : MRIS) (image image' : gifti_image) out_fname l :
  MRISwriteGIFTISurface mris image out_fname = Ret l image' ->
  exists c f, image' = add_darrays image [c; f]
              /\ intent c = NIFTI_INTENT_POINTSET /\ intent f = NIFTI_INTENT_TRIANGLE.
Proof.
  unfold MRISwriteGIFTISurface. intros E.
  apply bind_Ret_inv in E as (l1 & cs & l2 & _ & E & _).
  apply bind_Ret_inv in E as (l3 & c1 & l4 & Ec & E & _).
  apply bind_Ret_inv in E as (l5 & nf & l6 & _ & E & _).
  apply bind_Ret_inv in E as (l7 & [f1 k] & l8 & Ef & E & _).
  apply write_coords_data_intent in Ec. apply write_faces_data_intent in Ef.
  destruct (write_standard_meta_intent mris c1 f1) as (Hc & Hf).
  destruct (write_standard_meta mris c1 f1) as [c2 f2]. cbn [fst snd] in Hc, Hf.
  apply bind_Ret_inv in E as (l9 & md & l10 & _ & E & _).
  apply ret_Ret_inv in E. subst image'.
  eexists _, _. split; [reflexivity|]. split.
  - cbn [intent] in Ec. change (intent c2 = NIFTI_INTENT_POINTSET). congruence.
  - cbn [intent] in Ef. congruence.
Qed.

Lemma shape_writer_intent (mris : MRIS) (image image' : gifti_image) code curv_fname l :
  MRISwriteGIFTIShape mris image code curv_fname = Ret l image' ->
  exists s, image' = add_darrays image [s] /\ intent s = NIFTI_INTENT_SHAPE.
Proof.
  unfold MRISwriteGIFTIShape. intros E.
  destruct (MRISreadCurvatureFile mris curv_fname) as [m|]; [|discriminate].
  destruct curv_fname as [cf|]; [|discriminate]. cbv zeta in E.
  apply bind_Ret_inv in E as (l1 & s & l2 & Ec & E & _).
  apply ret_Ret_inv in E. subst image'. apply copy_vertex_data_intent in Ec.
  exists s. split; [reflexivity|exact Ec].
Qed.

Lemma stats_writer_intent (mris : MRIS) (image image' : gifti_image) code l :
  MRISwriteGIFTIStats mris image code = Ret l image' ->
  exists s, image' = add_darrays image [s] /\ intent s = code.
Proof.
  unfold MRISwriteGIFTIStats. intros E. cbv zeta in E.
  apply bind_Ret_inv in E as (l1 & s & l2 & Ec & E & _).
  apply ret_Ret_inv in E. subst image'. apply copy_vertex_data_intent in Ec.
  exists s. split; [reflexivity|exact Ec].
Qed.

Lemma label_writer_intent (mris : MRIS) (image image' : gifti_image) code l :
  MRISwriteGIFTILabel mris image code = Ret l image' ->
  exists lt s, image' = add_darrays (set_labeltable image lt) [s]
               /\ intent s = NIFTI_INTENT_LABEL.
Proof.
  unfold MRISwriteGIFTILabel. intros E. minv; eexists _, _; split; reflexivity.
Qed.

(** The arrays that are counted. *)
Lemma count_loop (das : list giiDataArray) :
  for_Z (Z.of_nat (length das))
    (fun numDA_ count =>
       let* darr := at_index das numDA_ in
       if skipped_intent (intent darr) then ret count else ret (count + 1))
    0
  = Ret [] (Z.of_nat (length (filter (fun da => skipped_intent (intent da) = false) das))).
Proof.
  destruct (for_Z_inv
    (fun k c => c = Z.of_nat (length (filter (fun da => skipped_intent (intent da) = false)
                                             (take (Z.to_nat k) das))))
    (Z.of_nat (length das))
    (fun numDA_ count =>
       let* darr := at_index das numDA_ in
       if skipped_intent (intent darr) then ret count else ret (count + 1))
    0) as (c & E & Hc).
  - lia.
  - reflexivity.
  - intros i c Hi ->.
    destruct (lookup_lt_is_Some_2 das (Z.to_nat i) ltac:(lia)) as (da & Hda).
    rewrite (at_index_Some _ i da ltac:(lia) Hda), bind_ret_l.
    replace (Z.to_nat (i + 1)) with (Datatypes.S (Z.to_nat i)) by lia.
    rewrite (take_S_r _ _ _ Hda), filter_app, length_app.
    rewrite filter_cons, filter_nil.
    destruct (skipped_intent (intent da)) eqn:Hs.
    + eexists. split; [reflexivity|].
      destruct (decide (true = false)); [discriminate|]. cbn [length]. lia.
    + eexists. split; [reflexivity|].
      destruct (decide (false = false)); [|contradiction]. cbn [length]. lia.
  - rewrite E, Hc. rewrite Nat2Z.id, firstn_all. reflexivity.
Qed.

(** X15: [getShapeStatIntentCount] never fails.  For a file that
    cannot be read, or whose image is not valid, it prints a message and
    returns 0; otherwise it returns the number of arrays whose intent is
    not POINTSET, TRIANGLE, LABEL, GENMATRIX, VECTOR, RGB_VECTOR or
    RGBA_VECTOR: arrays of node indices, of time series and of no intent
    at all are counted with the shape and statistics arrays. *)
Theorem intent_count_result (fgifti : string) :
  (gifti_read_image fgifti = None ->
   getShapeStatIntentCount fgifti
   = Ret [DiagRead "getShapeStatIntentCount(): gifti_read_image() returned NULL"] 0)
  /\ forall image, gifti_read_image fgifti = Some image ->
       (gifti_valid_gifti_image image = false ->
        getShapeStatIntentCount fgifti
        = Ret [DiagRead "getShapeStatIntentCount(): GIFTI file is invalid!"] 0)
       /\ (gifti_valid_gifti_image image = true ->
           getShapeStatIntentCount fgifti
           = Ret [] (Z.of_nat (length (filter
                       (fun da => skipped_intent (intent da) = false) (darray image))))).
Proof.
  unfold getShapeStatIntentCount. split.
  - intros ->. reflexivity.
  - intros image ->. split; intros ->; [reflexivity|].
    cbn [negb]. apply count_loop.
Qed.

Lemma stats_intent_counted (c : Z) : stats_intent c = true -> skipped_intent c = false.
Proof.
  intros Hc. apply stats_intent_range in Hc. unfold skipped_intent.
  rewrite !orb_false_iff, !Z.eqb_neq.
  unfold NIFTI_INTENT_POINTSET, NIFTI_INTENT_TRIANGLE, NIFTI_INTENT_LABEL,
    NIFTI_INTENT_GENMATRIX, NIFTI_INTENT_VECTOR, NIFTI_INTENT_RGB_VECTOR,
    NIFTI_INTENT_RGBA_VECTOR.
  lia.
Qed.

(** X16: the overlays of a file [MRISwriteGIFTI] wrote.  When the
    write returned success and the container library reads the file as
    the image written, [getShapeStatIntentCount] returns 1 for the
    intent SHAPE and for the statistics codes, and 0 for every other
    intent, without a message. *)
Theorem written_file_intent_count (mris : MRIS) (intent_code : Z) (out_fname : string)
    (curv_fname : option string) (l : list diag) (image : gifti_image) :
  MRISwriteGIFTI (Some mris) intent_code (Some out_fname) curv_fname = Ret l image ->
  gifti_read_image out_fname = Some image ->
  getShapeStatIntentCount out_fname
  = Ret [] (if (intent_code =? NIFTI_INTENT_SHAPE) || stats_intent intent_code
            then 1 else 0).
Proof.
  intros Ew Hread. unfold MRISwriteGIFTI in Ew.
  destruct ((intent_code =? NIFTI_INTENT_SHAPE)
            && match curv_fname with None => true | Some _ => false end);
    [discriminate|].
  cbv zeta in Ew. apply bind_Ret_inv in Ew as (l1 & im & l2 & Ei & Ew & ->).
  apply check_and_write_inv in Ew as (-> & -> & Hv & _).
  unfold getShapeStatIntentCount. rewrite Hread, Hv. cbn [negb].
  change (numDA im) with (Z.of_nat (length (darray im))). rewrite count_loop.
  f_equal. f_equal.
  assert (Hd0 : darray (if negb (String.length (subject_name mris) =? 0)%nat
                       then set_gim_meta new_image
                              (gifti_add_to_meta (gim_meta new_image) "SubjectID"
                                 (subject_name mris))
                       else new_image) = [])
    by (destruct (negb _); reflexivity).
  unfold MRISwriteGIFTIIntent in Ei.
  apply bind_Ret_inv in Ei as (l3 & im1 & l4 & E1 & Ei & _).
  apply bind_Ret_inv in Ei as (l5 & im2 & l6 & E2 & Ei & _).
  apply bind_Ret_inv in Ei as (l7 & im3 & l8 & E3 & Ei & _).
  destruct (stats_intent intent_code) eqn:Hst.
  - pose proof (stats_intent_range _ Hst) as Hr.
    destruct (Z.eqb_spec intent_code NIFTI_INTENT_POINTSET) as [Hk|_];
      [exfalso; revert Hk Hr; clear; unfold NIFTI_INTENT_POINTSET, NIFTI_INTENT_TRIANGLE, NIFTI_INTENT_SHAPE, NIFTI_INTENT_LABEL; lia|].
    destruct (Z.eqb_spec intent_code NIFTI_INTENT_TRIANGLE) as [Hk|_];
      [exfalso; revert Hk Hr; clear; unfold NIFTI_INTENT_POINTSET, NIFTI_INTENT_TRIANGLE, NIFTI_INTENT_SHAPE, NIFTI_INTENT_LABEL; lia|].
    destruct (Z.eqb_spec intent_code NIFTI_INTENT_SHAPE) as [Hk|_];
      [exfalso; revert Hk Hr; clear; unfold NIFTI_INTENT_POINTSET, NIFTI_INTENT_TRIANGLE, NIFTI_INTENT_SHAPE, NIFTI_INTENT_LABEL; lia|].
    destruct (Z.eqb_spec intent_code NIFTI_INTENT_LABEL) as [Hk|_];
      [exfalso; revert Hk Hr; clear; unfold NIFTI_INTENT_POINTSET, NIFTI_INTENT_TRIANGLE, NIFTI_INTENT_SHAPE, NIFTI_INTENT_LABEL; lia|].
    cbn [orb] in *. apply ret_Ret_inv in E1, E2, E3. subst im1 im2 im3.
    apply stats_writer_intent in Ei as (s & -> & Hs).
    cbn [darray add_darrays]. rewrite Hd0. cbn [app].
    rewrite filter_cons, filter_nil, Hs, (stats_intent_counted _ Hst).
    destruct (decide (false = false)); [reflexivity|contradiction].
  - apply ret_Ret_inv in Ei. subst im3. rewrite orb_false_r.
    destruct (Z.eqb_spec intent_code NIFTI_INTENT_SHAPE) as [->|Hs].
    + cbn [orb Z.eqb Pos.eqb NIFTI_INTENT_SHAPE NIFTI_INTENT_POINTSET
           NIFTI_INTENT_TRIANGLE NIFTI_INTENT_LABEL] in *.
      apply ret_Ret_inv in E1, E3. subst im1 im.
      apply shape_writer_intent in E2 as (s & -> & Hs).
      cbn [darray add_darrays]. rewrite Hd0. cbn [app].
      rewrite filter_cons, filter_nil, Hs.
      destruct (decide (skipped_intent NIFTI_INTENT_SHAPE = false)) as [_|Hn];
        [reflexivity|exfalso; apply Hn; reflexivity].
    + apply ret_Ret_inv in E2. subst im2.
      destruct (Z.eqb_spec intent_code NIFTI_INTENT_LABEL) as [->|Hl].
      * cbn [orb Z.eqb Pos.eqb NIFTI_INTENT_POINTSET
             NIFTI_INTENT_TRIANGLE NIFTI_INTENT_LABEL] in *.
        apply ret_Ret_inv in E1. subst im1.
        apply label_writer_intent in E3 as (lt & s & -> & Hi).
        cbn [darray add_darrays set_labeltable]. rewrite Hd0. cbn [app].
        rewrite filter_cons, filter_nil, Hi.
        destruct (decide (skipped_intent NIFTI_INTENT_LABEL = false)) as [Hn|_];
          [discriminate Hn|reflexivity].
      * apply ret_Ret_inv in E3. subst im1.
        destruct ((intent_code =? NIFTI_INTENT_POINTSET)
                  || (intent_code =? NIFTI_INTENT_TRIANGLE)).
        -- apply surface_writer_intents in E1 as (c & f & -> & Hc & Hf).
           cbn [darray add_darrays]. rewrite Hd0. cbn [app].
           rewrite !filter_cons, filter_nil, Hc, Hf.
           destruct (decide (skipped_intent NIFTI_INTENT_POINTSET = false)) as [Hn|_];
             [discriminate Hn|].
           destruct (decide (skipped_intent NIFTI_INTENT_TRIANGLE = false)) as [Hn|_];
             [discriminate Hn|reflexivity].
        -- apply ret_Ret_inv in E1. subst im. rewrite Hd0. reflexivity.
Qed.

End Counting.

(* ===================================================================== *)
(** ** Volumes of frames *)
(* ===================================================================== *)

Lemma is_float_zero : IEEE.is_float IEEE.zero = true.
Proof. reflexivity. Qed.

Section VolumeWriter.
Context `{Collaborators} `{Services}.

Lemma write_frame_spec (mri : MRI_VOLUME) (frame : Z) :
  0 <= vol_width mri -> 0 < vol_height mri -> 0 < vol_depth mri ->
  0 <= frame < vol_nframes mri ->
  (forall k a, vol_vox mri !! k = Some a -> IEEE.is_float a = true) ->
  exists da buf,
    write_frame mri frame = Ret [] da
    /\ overlay_array da (if 1 <? vol_nframes mri then NIFTI_INTENT_TIME_SERIES
                         else NIFTI_INTENT_NONE) (vol_width mri) buf
    /\ (forall i, 0 <= i < vol_width mri ->
          buf !! Z.to_nat i
          = Some (CF32 (default IEEE.zero (vol_vox mri !! (i, 0, 0, frame)))))
    /\ meta da = if 1 <? vol_nframes mri
                 then gifti_add_to_meta ∅ "TimeStep" (sprintf_f (vol_tr mri)) else ∅.
Proof.
  intros HW HH HD HF Hfl. unfold write_frame. cbv zeta.
  set (it := if 1 <? vol_nframes mri then NIFTI_INTENT_TIME_SERIES else NIFTI_INTENT_NONE).
  set (md := if it =? NIFTI_INTENT_TIME_SERIES
             then gifti_add_to_meta ∅ "TimeStep" (sprintf_f (vol_tr mri)) else ∅).
  pose proof (overlay_darray_array it (vol_width mri) md HW)
    as [Hit Hdt Hord Hnd Hd0 Hnv Hdata Hbl Hcs].
  set (da0 := overlay_darray it (vol_width mri) md) in *.
  destruct (for_Z_inv
    (fun k st => exists buf, st = set_data da0 buf
       /\ length buf = Z.to_nat (vol_width mri)
       /\ (forall i, 0 <= i < k ->
             buf !! Z.to_nat i
             = Some (CF32 (default IEEE.zero (vol_vox mri !! (i, 0, 0, frame))))))
    (vol_width mri)
    (fun scalar_index da =>
       let* val_ := MRIgetVoxVal mri scalar_index 0 0 frame in
       gifti_set_DA_value_2D (Some da) scalar_index 0 (IEEE.double_of_float val_))
    da0) as (st & E & buf & -> & Hl & Hdone).
  - exact HW.
  - eexists. split; [symmetry; apply set_data_same, Hdata|].
    split; [rewrite length_replicate; reflexivity|]. intros; lia.
  - intros k st Hk (buf & -> & Hl & Hdone).
    unfold MRIgetVoxVal.
    replace ((0 <=? k) && (k <? vol_width mri) && (0 <=? 0) && (0 <? vol_height mri)
             && (0 <=? 0) && (0 <? vol_depth mri) && (0 <=? frame)
             && (frame <? vol_nframes mri)) with true
      by (symmetry; rewrite !andb_true_iff, !Z.leb_le, !Z.ltb_lt; lia).
    rewrite bind_ret_l.
    set (a := default IEEE.zero (vol_vox mri !! (k, 0, 0, frame))).
    assert (Ha : IEEE.is_float a = true).
    { unfold a. destruct (vol_vox mri !! (k, 0, 0, frame)) eqn:Hv;
        [eapply Hfl; exact Hv|reflexivity]. }
    rewrite (set_1D (set_data da0 buf) buf k _ Tfloat (CF32 a));
      try reflexivity; try assumption.
    + eexists. split; [reflexivity|]. exists (<[Z.to_nat k := CF32 a]> buf).
      split; [destruct da0; reflexivity|]. split; [rewrite length_insert; exact Hl|].
      intros i Hi. destruct (decide (i = k)) as [->|Hne].
      * apply list_lookup_insert_eq. lia.
      * rewrite list_lookup_insert_ne by lia. apply Hdone. lia.
    + apply narrow_float_exact, Ha.
    + lia.
  - exists (set_data da0 buf), buf. split; [exact E|]. split; [|split].
    + split; try assumption; reflexivity.
    + exact Hdone.
    + cbn [meta set_data]. unfold da0, overlay_darray, md, it. cbn [meta].
      destruct (1 <? vol_nframes mri); reflexivity.
Qed.

(** The image of the frames of a volume. *)
Lemma write_frames_spec (mri : MRI_VOLUME) :
  0 <= vol_width mri -> 0 < vol_height mri -> 0 < vol_depth mri ->
  (forall k a, vol_vox mri !! k = Some a -> IEEE.is_float a = true) ->
  exists das,
    write_frames mri = Ret [] (mkImage das empty_labeltable (insertCommonMetaData ∅))
    /\ length das = Z.to_nat (vol_nframes mri)
    /\ forall f da, das !! f = Some da ->
         exists buf,
           overlay_array da (if 1 <? vol_nframes mri then NIFTI_INTENT_TIME_SERIES
                             else NIFTI_INTENT_NONE) (vol_width mri) buf
           /\ (forall i, 0 <= i < vol_width mri ->
                 buf !! Z.to_nat i
                 = Some (CF32 (default IEEE.zero
                                 (vol_vox mri !! (i, 0, 0, Z.of_nat f)))))
           /\ meta da = if 1 <? vol_nframes mri
                        then gifti_add_to_meta ∅ "TimeStep" (sprintf_f (vol_tr mri))
                        else ∅.
Proof.
  intros HW HH HD Hfl. unfold write_frames.
  destruct (Z.le_gt_cases (vol_nframes mri) 0) as [Hle|Hpos].
  { exists []. split; [|split; [cbn; lia|intros f da Hf; discriminate Hf]].
    unfold for_Z. replace (Z.to_nat (vol_nframes mri)) with 0%nat by lia. reflexivity. }
  destruct (for_Z_inv
    (fun k (im : gifti_image) => exists das,
       im = mkImage das empty_labeltable (insertCommonMetaData ∅)
       /\ length das = Z.to_nat k
       /\ forall f da, das !! f = Some da ->
            exists buf,
              overlay_array da (if 1 <? vol_nframes mri then NIFTI_INTENT_TIME_SERIES
                                else NIFTI_INTENT_NONE) (vol_width mri) buf
              /\ (forall i, 0 <= i < vol_width mri ->
                    buf !! Z.to_nat i
                    = Some (CF32 (default IEEE.zero
                                    (vol_vox mri !! (i, 0, 0, Z.of_nat f)))))
              /\ meta da = if 1 <? vol_nframes mri
                           then gifti_add_to_meta ∅ "TimeStep" (sprintf_f (vol_tr mri))
                           else ∅)
    (vol_nframes mri)
    (fun frame image =>
       let* scalars := write_frame mri frame in
       ret (add_darrays image [scalars]))
    new_image) as (im & E & das & -> & Hl & Hdas).
  - lia.
  - exists []. split; [reflexivity|]. split; [reflexivity|].
    intros f da Hf. discriminate Hf.
  - intros k im Hk (das & -> & Hl & Hdas).
    destruct (write_frame_spec mri k HW HH HD Hk Hfl) as (da & buf & E & Harr & Hb & Hmd).
    rewrite E, bind_Ret_nil. eexists. split; [reflexivity|].
    exists (das ++ [da]). split; [reflexivity|].
    split; [rewrite length_app; cbn [length]; lia|].
    intros f da' Hf. destruct (decide (f < length das)%nat) as [Hlt|Hge].
    + rewrite lookup_app_l in Hf by exact Hlt. apply Hdas. exact Hf.
    + rewrite lookup_app_r in Hf by lia.
      destruct (f - length das)%nat as [|m] eqn:Hm; [|destruct m; discriminate Hf].
      injection Hf as <-. exists buf. split; [exact Harr|].
      replace (Z.of_nat f) with k by lia. split; [exact Hb|exact Hmd].
  - exists das. split; [exact E|]. split; [exact Hl|exact Hdas].
Qed.

(** X17: [mriWriteGifti] refuses a NULL volume or file name with
    ERROR_BADPARM.  For a volume of at least one row and one slice it
    makes one array for each frame, in the order of the frames, checks
    the image and writes it: array f is a one-dimensional row-major
    array of [float]s that holds the voxels (i, 0, 0, f), i below the
    width; with more than one frame every array is a time series and
    carries the repetition time as TimeStep, with one frame its intent
    is NONE and it has no metadata. *)
Theorem volume_writer_arrays (mri : MRI_VOLUME) (out_fname : string) :
  0 <= vol_width mri -> 0 < vol_height mri -> 0 < vol_depth mri ->
  (forall k a, vol_vox mri !! k = Some a -> IEEE.is_float a = true) ->
  mriWriteGifti None (Some out_fname)
  = Fail [DiagWrite "mriWriteGifti: invalid input parameters"] ERROR_BADPARM
  /\ mriWriteGifti (Some mri) None
     = Fail [DiagWrite "mriWriteGifti: invalid input parameters"] ERROR_BADPARM
  /\ exists das,
       mriWriteGifti (Some mri) (Some out_fname)
       = check_and_write "mriWriteGifti"
           (mkImage das empty_labeltable (insertCommonMetaData ∅)) out_fname
       /\ length das = Z.to_nat (vol_nframes mri)
       /\ forall f da, das !! f = Some da ->
            exists buf,
              overlay_array da (if 1 <? vol_nframes mri then NIFTI_INTENT_TIME_SERIES
                                else NIFTI_INTENT_NONE) (vol_width mri) buf
              /\ (forall i, 0 <= i < vol_width mri ->
                    buf !! Z.to_nat i
                    = Some (CF32 (default IEEE.zero
                                    (vol_vox mri !! (i, 0, 0, Z.of_nat f)))))
              /\ meta da !! "TimeStep"
                 = if 1 <? vol_nframes mri then Some (sprintf_f (vol_tr mri)) else None.
Proof.
  intros HW HH HD Hfl. split; [reflexivity|]. split; [reflexivity|].
  destruct (write_frames_spec mri HW HH HD Hfl) as (das & E & Hl & Hdas).
  exists das. split; [|split; [exact Hl|]].
  - unfold mriWriteGifti. rewrite E, bind_Ret_nil. reflexivity.
  - intros f da Hf. destruct (Hdas f da Hf) as (buf & Harr & Hb & Hmd).
    exists buf. split; [exact Harr|]. split; [exact Hb|].
    rewrite Hmd. destruct (1 <? vol_nframes mri); [apply lookup_insert_eq|apply lookup_empty].
Qed.

End VolumeWriter.

(* ===================================================================== *)
(** ** Reading the frames of a volume *)
(* ===================================================================== *)

(** A loop that goes on n times and is then left ends within n + 1
    rounds. *)
Lemma while_loop_count {S} (I : nat -> S -> Prop) (P : S -> Prop) (n fuel : nat)
    (body : S -> M (S + S)) (s : S) :
  (n < fuel)%nat -> I 0%nat s ->
  (forall i st, (i < n)%nat -> I i st ->
     exists st', body st = Ret [] (inl st') /\ I (Datatypes.S i) st') ->
  (forall st, I n st -> exists st', body st = Ret [] (inr st') /\ P st') ->
  exists st', while_loop fuel (fun _ => true) body s = Ret [] st' /\ P st'.
Proof.
  intros Hfuel H0 Hgo Hend.
  assert (Hgen : forall fuel i s, (i <= n)%nat -> (n - i < fuel)%nat -> I i s ->
            exists st', while_loop fuel (fun _ => true) body s = Ret [] st' /\ P st').
  { clear fuel s Hfuel H0. induction fuel as [|k IH]; intros i s Hi Hf Hs; [lia|].
    cbn [while_loop]. destruct (decide (i = n)) as [->|Hne].
    - destruct (Hend s Hs) as (st' & E & Hp). rewrite E, bind_Ret_nil.
      exists st'. split; [reflexivity|exact Hp].
    - destruct (Hgo i s ltac:(lia) Hs) as (st' & E & Hs'). rewrite E, bind_Ret_nil.
      apply (IH (Datatypes.S i)); [lia|lia|exact Hs']. }
  apply (Hgen fuel 0%nat s); [lia|lia|exact H0].
Qed.

Ltac search_norm :=
  repeat (progress (rewrite ?bind_ret_l, ?bind_Ret_nil;
                    cbn [scalars fst snd frame_count num_vertices num_cols])).

Section VolumeReader.
Context `{Collaborators} `{Services}.

(** An intent the image has no array of: the search is over after one
    round and leaves the counters as they are. *)
Lemma search_absent (fuel : nat) (image : gifti_image) (it : Z) (st : search_state) :
  (0 < fuel)%nat -> gifti_find_DA image it 0 = None ->
  search_intent fuel image it st
  = Ret [] (mkSearch None (frame_count st) (num_vertices st) (num_cols st)).
Proof.
  intros Hfuel Hnone. unfold search_intent.
  destruct fuel as [|k]; [lia|]. cbn [while_loop]. unfold search_step. rewrite Hnone.
  rewrite !bind_ret_l. reflexivity.
Qed.

(** The rounds of the search that find an array. *)
Lemma search_round (image : gifti_image) (it : Z) (found : list giiDataArray) (n : Z)
    (i : nat) (sc : giiDataArray) :
  In it intent_code_table -> 0 < n ->
  gifti_find_DA image it (Z.of_nat i) = Some sc -> found !! i = Some sc ->
  records_cols sc = (n, 1) ->
  search_step image it (Z.of_nat i, found_state found n i)
  = Ret [] ((if numDA image <=? Z.of_nat i + 1 then inr else inl)
              (Z.of_nat (Datatypes.S i), found_state found n (Datatypes.S i))).
Proof.
  intros Hit Hn Hf Hfound Hrc. unfold search_step. rewrite Hf, Hrc.
  assert (Hpair : (if num_vertices (found_state found n i) =? -1 then ret (n, 1)
                   else if (num_vertices (found_state found n i) <=? 0)
                           || negb (num_vertices (found_state found n i) =? n)
                           || negb (1 =? 1)
                        then fail (DiagRead
                               "MRISreadGiftiAsMRI: malformed time-series data array") 0
                        else ret (num_vertices (found_state found n i),
                                  num_cols (found_state found n i)))
                  = ret (n, 1)).
  { destruct i as [|j]; [reflexivity|]. cbn [found_state num_vertices num_cols].
    destruct (Z.eqb_spec n (-1)); [lia|]. destruct (Z.leb_spec n 0); [lia|].
    rewrite Z.eqb_refl. reflexivity. }
  rewrite Hpair, bind_ret_l. cbv zeta.
  assert (Hst : mkSearch (Some sc) (frame_count (found_state found n i) + 1) n 1
                = found_state found n (Datatypes.S i)).
  { cbn [found_state]. rewrite Hfound. f_equal.
    destruct i; cbn [found_state frame_count]; lia. }
  rewrite Hst.
  replace (Z.of_nat i + 1) with (Z.of_nat (Datatypes.S i)) by lia.
  destruct (numDA image <=? Z.of_nat (Datatypes.S i)); [reflexivity|].
  assert (Hin : negb (it =? NIFTI_INTENT_TIME_SERIES) && negb (it =? NIFTI_INTENT_SHAPE)
                && negb (it =? NIFTI_INTENT_NONE) && negb (it =? NIFTI_INTENT_NORMAL)
                = false).
  { cbn [In intent_code_table] in Hit.
    destruct Hit as [<-|[<-|[<-|[<-|[]]]]]; reflexivity. }
  rewrite Hin. reflexivity.
Qed.

(** An image all of whose arrays of the intent are found in turn, as
    many as the image has arrays: the search ends at the last one. *)
Lemma search_all (fuel : nat) (image : gifti_image) (it : Z) (found : list giiDataArray)
    (n : Z) :
  In it intent_code_table -> 0 < n ->
  (forall k, 0 <= k -> gifti_find_DA image it k = found !! Z.to_nat k) ->
  (forall da, da ∈ found -> records_cols da = (n, 1)) ->
  (0 < length found)%nat -> numDA image = Z.of_nat (length found) ->
  (length found <= fuel)%nat ->
  search_intent fuel image it (mkSearch None 0 (-1) 0)
  = Ret [] (found_state found n (length found)).
Proof.
  intros Hit Hn Hfind Hrc Hpos Hnum Hfuel. unfold search_intent.
  destruct (while_loop_count
    (fun i (s : Z * search_state) => s = (Z.of_nat i, found_state found n i))
    (fun s => s.2 = found_state found n (length found))
    (length found - 1) fuel
    (search_step image it)
    (0, mkSearch None 0 (-1) 0)) as (st' & E & Hst').
  - lia.
  - reflexivity.
  - intros i st Hi ->.
    destruct (lookup_lt_is_Some_2 found i ltac:(lia)) as (sc & Hsc).
    pose proof (search_round image it found n i sc Hit Hn) as Hr.
    rewrite (Hfind (Z.of_nat i)), Nat2Z.id in Hr by lia.
    specialize (Hr Hsc Hsc (Hrc sc (list_elem_of_lookup_2 _ _ _ Hsc))).
    destruct (Z.leb_spec (numDA image) (Z.of_nat i + 1)); [lia|].
    eexists. split; [exact Hr|reflexivity].
  - intros st ->.
    destruct (lookup_lt_is_Some_2 found (length found - 1) ltac:(lia)) as (sc & Hsc).
    pose proof (search_round image it found n (length found - 1) sc Hit Hn) as Hr.
    rewrite (Hfind (Z.of_nat (length found - 1))), Nat2Z.id in Hr by lia.
    specialize (Hr Hsc Hsc (Hrc sc (list_elem_of_lookup_2 _ _ _ Hsc))).
    destruct (Z.leb_spec (numDA image) (Z.of_nat (length found - 1) + 1)); [|lia].
    eexists. split; [exact Hr|]. cbn [snd].
    replace (Datatypes.S (length found - 1)) with (length found) by lia. reflexivity.
  - rewrite E, bind_Ret_nil. destruct st'. cbn [snd] in *. rewrite Hst'. reflexivity.
Qed.

Lemma filter_all {A} (P : A -> Prop) `{forall x, Decision (P x)} (l : list A) :
  (forall x, x ∈ l -> P x) -> filter P l = l.
Proof.
  induction l as [|a l IH]; intros Hl; [reflexivity|].
  rewrite filter_cons. destruct (decide (P a)) as [_|Hn].
  - f_equal. apply IH. intros x Hx. apply Hl. right. exact Hx.
  - exfalso. apply Hn, Hl. left.
Qed.

Lemma read_TimeStep_total (image : gifti_image) (tr : spec_float) :
  exists tr', read_TimeStep image tr = Ret [] tr'.
Proof.
  unfold read_TimeStep, numDA. destruct (Z.ltb_spec 0 (Z.of_nat (length (darray image)))).
  - destruct (lookup_lt_is_Some_2 (darray image) 0 ltac:(lia)) as (da0 & Hda).
    rewrite (at_index_Some _ 0 da0 ltac:(lia) Hda), bind_ret_l.
    destruct (gifti_get_meta_value (meta da0) "TimeStep"); eexists; reflexivity.
  - eexists. reflexivity.
Qed.

(** The second loop of [MRISreadGiftiAsMRI]: every array is a frame. *)
Lemma copy_frames (image : gifti_image) (it : Z) (idx : Z) (n : Z)
    (frames : list (list spec_float)) :
  at_index intent_code_table idx = ret it ->
  holds_frames (darray image) it n frames -> 0 < n ->
  (forall k, 0 <= k -> gifti_find_DA image it k = darray image !! Z.to_nat k) ->
  exists vox,
    for_Z (numDA image)
      (fun da_num '(vox_, fc) =>
         let* ic := at_index intent_code_table idx in
         match gifti_find_DA image ic da_num with
         | None => ret (vox_, fc)
         | Some sc =>
             let* vox_ :=
               for_Z n
                 (fun vno vox_ =>
                    let* d := gifti_get_DA_value_2D (Some sc) vno 0 in
                    if (0 <=? fc) && (fc <? Z.of_nat (length frames))
                    then ret (MRIsetVoxVal vox_ vno 0 0 fc (IEEE.float_of_double d))
                    else Undefined)
                 vox_ in
             ret (vox_, fc + 1)
         end)
      (∅, 0)
    = Ret [] (vox, numDA image)
    /\ (forall f vals i a, frames !! f = Some vals -> vals !! i = Some a ->
          vox !! (Z.of_nat i, 0, 0, Z.of_nat f) = Some a)
    /\ (forall c r s f, vox !! (c, r, s, f) <> None ->
          0 <= c < n /\ r = 0 /\ s = 0 /\ 0 <= f < Z.of_nat (length frames)).
Proof.
  intros Hidx (Hlen & Hfr) Hn Hfind.
  destruct (for_Z_inv
    (fun k (s : MRI * Z) =>
       s.2 = k
       /\ (forall f vals i a, Z.of_nat f < k -> frames !! f = Some vals ->
             vals !! i = Some a -> s.1 !! (Z.of_nat i, 0, 0, Z.of_nat f) = Some a)
       /\ (forall c r s' f, s.1 !! (c, r, s', f) <> None ->
             0 <= c < n /\ r = 0 /\ s' = 0 /\ 0 <= f < k))
    (numDA image)
    (fun da_num '(vox_, fc) =>
       let* ic := at_index intent_code_table idx in
       match gifti_find_DA image ic da_num with
       | None => ret (vox_, fc)
       | Some sc =>
           let* vox_ :=
             for_Z n
               (fun vno vox_ =>
                  let* d := gifti_get_DA_value_2D (Some sc) vno 0 in
                  if (0 <=? fc) && (fc <? Z.of_nat (length frames))
                  then ret (MRIsetVoxVal vox_ vno 0 0 fc (IEEE.float_of_double d))
                  else Undefined)
               vox_ in
           ret (vox_, fc + 1)
       end)
    (∅, 0)) as ([vox fc] & E & Hfc & Hvox & Hdom).
  - unfold numDA. lia.
  - split; [reflexivity|]. split; [intros; lia|].
    intros c r s' f Hne. exfalso. apply Hne. apply lookup_empty.
  - intros k [vox fc] Hk (Hfc & Hvox & Hdom). cbn [fst snd] in *. subst fc.
    unfold numDA in Hk. rewrite Hidx, bind_ret_l, (Hfind k) by lia.
    destruct (lookup_lt_is_Some_2 (darray image) (Z.to_nat k) ltac:(lia)) as (sc & Hsc).
    rewrite Hsc. destruct (Hfr _ _ Hsc) as (vals & Hvals & Harr & Hfl).
    assert (Hvl : length vals = Z.to_nat n).
    { pose proof (oa_length _ _ _ _ Harr) as Hl. rewrite length_fmap in Hl. exact Hl. }
    destruct (for_Z_inv
      (fun j (v : MRI) =>
         (forall f vals' i a, Z.of_nat f < k -> frames !! f = Some vals' ->
            vals' !! i = Some a -> v !! (Z.of_nat i, 0, 0, Z.of_nat f) = Some a)
         /\ (forall i a, Z.of_nat i < j -> vals !! i = Some a ->
               v !! (Z.of_nat i, 0, 0, k) = Some a)
         /\ (forall c r s' f, v !! (c, r, s', f) <> None ->
               0 <= c < n /\ r = 0 /\ s' = 0 /\ 0 <= f < k + 1))
      n
      (fun vno vox_ =>
         let* d := gifti_get_DA_value_2D (Some sc) vno 0 in
         if (0 <=? k) && (k <? Z.of_nat (length frames))
         then ret (MRIsetVoxVal vox_ vno 0 0 k (IEEE.float_of_double d))
         else Undefined)
      vox) as (vox' & E & Hold & Hnew & Hdom').
    + lia.
    + split; [exact Hvox|]. split; [intros; lia|].
      intros c r s' f Hne. specialize (Hdom c r s' f Hne). lia.
    + intros j v Hj (Hold & Hnew & Hdom').
      destruct (lookup_lt_is_Some_2 vals (Z.to_nat j) ltac:(lia)) as (a & Ha).
      rewrite (get_overlay sc it n vals j a Harr Hj Ha), bind_ret_l.
      rewrite (float_of_double_of_float a (Hfl _ _ Ha)).
      replace ((0 <=? k) && (k <? Z.of_nat (length frames))) with true
        by (symmetry; rewrite andb_true_iff, Z.leb_le, Z.ltb_lt; lia).
      eexists. split; [reflexivity|]. unfold MRIsetVoxVal, MRI in *. cbv beta. split; [|split].
      * intros f vals' i a' Hf Hfv Hi. rewrite lookup_insert_ne; [eauto|].
        intros [= _ Hkf]. lia.
      * intros i a' Hi Hia. destruct (decide (Z.of_nat i = j)) as [<-|Hne].
        -- rewrite Nat2Z.id in Ha. rewrite Ha in Hia. injection Hia as <-.
           apply lookup_insert_eq.
        -- rewrite lookup_insert_ne; [apply Hnew; [lia|exact Hia]|].
           intros [= Hji]. lia.
      * intros c r s' f Hne.
        destruct (decide ((j, 0, 0, k) = (c, r, s', f))) as [[= <- <- <- <-]|Hd].
        -- lia.
        -- rewrite lookup_insert_ne in Hne by exact Hd. apply Hdom'. exact Hne.
    + rewrite E, bind_Ret_nil. eexists. split; [reflexivity|]. cbn [fst snd].
      split; [reflexivity|]. split; [|exact Hdom'].
      intros f vals' i a Hf Hfv Hi.
      destruct (decide (Z.of_nat f = k)) as [<-|Hne].
      * rewrite Nat2Z.id in Hvals. rewrite Hvals in Hfv. injection Hfv as <-.
        apply Hnew; [|exact Hi]. apply lookup_lt_Some in Hi. lia.
      * apply (Hold f vals' i a); [lia|exact Hfv|exact Hi].
  - cbn [fst snd] in *. subst fc. exists vox. split; [exact E|]. split.
    + intros f vals i a Hf Hi. apply (Hvox f vals i a); [|exact Hf|exact Hi].
      apply lookup_lt_Some in Hf. unfold numDA. lia.
    + intros c r s' f Hne. specialize (Hdom c r s' f Hne). unfold numDA in Hdom. lia.
Qed.

(** The search over the four intents in an image all of whose arrays
    are frames of one of them. *)
Lemma search_table (fuel : nat) (image : gifti_image) (it : Z) (n : Z)
    (frames : list (list spec_float)) :
  In it intent_code_table ->
  holds_frames (darray image) it n frames -> 0 < n -> (0 < length frames)%nat ->
  finds_by_intent image -> (length frames <= fuel)%nat ->
  exists idx sc,
    for_Z_break 4
      (fun idx '(st, _) =>
         let* ic := at_index intent_code_table idx in
         let* st := search_intent fuel image ic st in
         match scalars st with
         | Some _ => ret (inr (st, idx))
         | None => ret (inl (st, idx + 1))
         end)
      (mkSearch None 0 (-1) 0, 0)
    = Ret [] (mkSearch (Some sc) (Z.of_nat (length frames)) n 1, idx)
    /\ at_index intent_code_table idx = ret it.
Proof.
  intros Hit (Hlen & Hfr) Hn Hpos Hfind Hfuel.
  assert (Hall : forall da, da ∈ darray image -> intent da = it).
  { intros da Hda. apply list_elem_of_lookup_1 in Hda as (f & Hf).
    destruct (Hfr f da Hf) as (vals & _ & Harr & _). exact (oa_intent _ _ _ _ Harr). }
  assert (Hsame : forall k, 0 <= k ->
            gifti_find_DA image it k = darray image !! Z.to_nat k).
  { intros k Hk. rewrite (Hfind it k Hk), filter_all by exact Hall. reflexivity. }
  assert (Hother : forall it', it' <> it -> gifti_find_DA image it' 0 = None).
  { intros it' Hne. rewrite (Hfind it' 0) by lia. rewrite filter_none; [reflexivity|].
    intros da Hda Hi. apply Hne. rewrite <- Hi. apply Hall, Hda. }
  assert (Hrc : forall da, da ∈ darray image -> records_cols da = (n, 1)).
  { intros da Hda. apply list_elem_of_lookup_1 in Hda as (f & Hf).
    destruct (Hfr f da Hf) as (vals & _ & Harr & _).
    exact (records_cols_overlay _ _ _ _ Harr). }
  pose proof (search_all fuel image it (darray image) n Hit Hn Hsame Hrc
                ltac:(lia) eq_refl ltac:(lia)) as Hs.
  destruct (length (darray image)) as [|j] eqn:HF; [lia|].
  cbn [found_state] in Hs.
  destruct (lookup_lt_is_Some_2 (darray image) j ltac:(lia)) as (sc & Hsc).
  rewrite Hsc in Hs. rewrite <- Hlen.
  assert (Hf1 : (0 < fuel)%nat) by lia.
  unfold for_Z_break, for_Z. change (Z.to_nat 4) with 4%nat. cbn [for_loop].
  rewrite !bind_ret_l. cbn [fst snd].
  change (at_index intent_code_table (Z.of_nat 0)) with (ret NIFTI_INTENT_TIME_SERIES).
  change (at_index intent_code_table (Z.of_nat 1)) with (ret NIFTI_INTENT_SHAPE).
  change (at_index intent_code_table (Z.of_nat 2)) with (ret NIFTI_INTENT_NONE).
  change (at_index intent_code_table (Z.of_nat 3)) with (ret NIFTI_INTENT_NORMAL).
  cbn [In intent_code_table] in Hit.
  destruct Hit as [<-|[<-|[<-|[<-|[]]]]].
  - exists 0, sc. split; [|reflexivity].
    search_norm. rewrite Hs. search_norm. reflexivity.
  - exists 1, sc. split; [|reflexivity].
    search_norm.
    rewrite (search_absent fuel image NIFTI_INTENT_TIME_SERIES _ Hf1)
      by (apply Hother; discriminate).
    search_norm. rewrite Hs. search_norm. reflexivity.
  - exists 2, sc. split; [|reflexivity].
    search_norm.
    rewrite (search_absent fuel image NIFTI_INTENT_TIME_SERIES _ Hf1)
      by (apply Hother; discriminate).
    search_norm.
    rewrite (search_absent fuel image NIFTI_INTENT_SHAPE _ Hf1)
      by (apply Hother; discriminate).
    search_norm. rewrite Hs. search_norm. reflexivity.
  - exists 3, sc. split; [|reflexivity].
    search_norm.
    rewrite (search_absent fuel image NIFTI_INTENT_TIME_SERIES _ Hf1)
      by (apply Hother; discriminate).
    search_norm.
    rewrite (search_absent fuel image NIFTI_INTENT_SHAPE _ Hf1)
      by (apply Hother; discriminate).
    search_norm.
    rewrite (search_absent fuel image NIFTI_INTENT_NONE _ Hf1)
      by (apply Hother; discriminate).
    search_norm. rewrite Hs. search_norm. reflexivity.
Qed.

(** The volume read from an image all of whose arrays are frames. *)
Lemma read_frames_spec (fuel : nat) (fname : string) (image : gifti_image) (it : Z)
    (n : Z) (frames : list (list spec_float)) (read_volume : Z) :
  gifti_read_image fname = Some image -> gifti_valid_gifti_image image = true ->
  In it intent_code_table ->
  holds_frames (darray image) it n frames -> 0 < n -> (0 < length frames)%nat ->
  finds_by_intent image -> (length frames <= fuel)%nat ->
  exists tr vox,
    read_TimeStep image IEEE.zero = Ret [] tr
    /\ MRISreadGiftiAsMRI fuel fname read_volume
       = Ret [] (mkVol n 1 1 (Z.of_nat (length frames)) tr
                       (if read_volume =? 0 then ∅ else vox))
    /\ (forall f vals i a, frames !! f = Some vals -> vals !! i = Some a ->
          vox !! (Z.of_nat i, 0, 0, Z.of_nat f) = Some a)
    /\ (forall c r s f, vox !! (c, r, s, f) <> None ->
          0 <= c < n /\ r = 0 /\ s = 0 /\ 0 <= f < Z.of_nat (length frames)).
Proof.
  intros Hread Hvalid Hit Hfr Hn Hpos Hfind Hfuel.
  destruct (search_table fuel image it n frames Hit Hfr Hn Hpos Hfind Hfuel)
    as (idx & sc & Es & Hidx).
  destruct (read_TimeStep_total image IEEE.zero) as (tr & Etr).
  assert (Hsame : forall k, 0 <= k ->
            gifti_find_DA image it k = darray image !! Z.to_nat k).
  { intros k Hk. rewrite (Hfind it k Hk), filter_all; [reflexivity|].
    intros da Hda. apply list_elem_of_lookup_1 in Hda as (f & Hf).
    destruct Hfr as (_ & Hfr). destruct (Hfr f da Hf) as (vals & _ & Harr & _).
    exact (oa_intent _ _ _ _ Harr). }
  destruct (copy_frames image it idx n frames Hidx Hfr Hn Hsame)
    as (vox & Ec & Hvox & Hdom).
  exists tr, vox. split; [exact Etr|]. split; [|split; [exact Hvox|exact Hdom]].
  unfold MRISreadGiftiAsMRI, read_and_check. rewrite Hread, Hvalid. cbn [negb].
  rewrite bind_ret_l, Es, bind_Ret_nil. cbn [frame_count num_vertices].
  destruct (Z.eqb_spec (Z.of_nat (length frames)) 0); [lia|].
  destruct (read_volume =? 0).
  - rewrite Etr, bind_Ret_nil. reflexivity.
  - rewrite Ec, bind_Ret_nil, Etr, bind_Ret_nil. reflexivity.
Qed.

End VolumeReader.

(* ===================================================================== *)
(** ** A volume written to a file and read from it *)
(* ===================================================================== *)

Section VolumeFile.
Context `{Collaborators} `{Services}.

(** The arrays [mriWriteGifti] makes hold the frames of the volume. *)
Lemma written_frames (mri : MRI_VOLUME) (das : list giiDataArray) :
  0 <= vol_width mri ->
  (forall k a, vol_vox mri !! k = Some a -> IEEE.is_float a = true) ->
  length das = Z.to_nat (vol_nframes mri) ->
  (forall f da, das !! f = Some da ->
     exists buf,
       overlay_array da (if 1 <? vol_nframes mri then NIFTI_INTENT_TIME_SERIES
                         else NIFTI_INTENT_NONE) (vol_width mri) buf
       /\ (forall i, 0 <= i < vol_width mri ->
             buf !! Z.to_nat i
             = Some (CF32 (default IEEE.zero (vol_vox mri !! (i, 0, 0, Z.of_nat f)))))
       /\ meta da = if 1 <? vol_nframes mri
                    then gifti_add_to_meta ∅ "TimeStep" (sprintf_f (vol_tr mri))
                    else ∅) ->
  holds_frames das
    (if 1 <? vol_nframes mri then NIFTI_INTENT_TIME_SERIES else NIFTI_INTENT_NONE)
    (vol_width mri)
    ((fun f => (fun i => default IEEE.zero
                           (vol_vox mri !! (Z.of_nat i, 0, 0, Z.of_nat f)))
               <$> seq 0 (Z.to_nat (vol_width mri)))
     <$> seq 0 (Z.to_nat (vol_nframes mri))).
Proof.
  intros HW Hfl Hl Hdas. split.
  - rewrite length_fmap, length_seq. exact Hl.
  - intros f da Hf. pose proof (lookup_lt_Some _ _ _ Hf) as Hlt.
    destruct (Hdas f da Hf) as (buf & Harr & Hb & _).
    eexists. split; [|split].
    + rewrite list_lookup_fmap, lookup_seq_lt by lia. reflexivity.
    + eapply overlay_array_vals; [exact Harr|].
      apply list_eq. intros i. rewrite !list_lookup_fmap.
      destruct (decide (i < Z.to_nat (vol_width mri))%nat) as [Hi|Hi].
      * rewrite lookup_seq_lt by lia. cbn [fmap option_fmap option_map Nat.add].
        rewrite <- (Nat2Z.id i) at 1. rewrite Hb by lia. reflexivity.
      * rewrite lookup_seq_ge by lia. apply lookup_ge_None.
        rewrite (oa_length _ _ _ _ Harr). lia.
    + intros i a. rewrite list_lookup_fmap. intros Hi.
      destruct (seq 0 (Z.to_nat (vol_width mri)) !! i) as [i'|]; [|discriminate Hi].
      cbn in Hi. injection Hi as <-.
      destruct (vol_vox mri !! (Z.of_nat i', 0, 0, Z.of_nat f)) eqn:Hv;
        [eapply Hfl; exact Hv|reflexivity].
Qed.

(** X18: a volume written by [mriWriteGifti] and read by
    [MRISreadGiftiAsMRI].  For a volume of at least one column, row,
    slice and frame: when the write returned success, the container
    library reads the file as the image written and finds the arrays of
    an intent in their order, the read returns a volume as wide as the
    one written, of one row and one slice, with as many frames and with
    the same voxel at every (i, 0, 0, f); its repetition time is what
    [sscanf] reads from the TimeStep of a time series, and zero for a
    single frame.  Asked for the header only, it returns the same
    extents and no voxel. *)
Theorem volume_round_trip (mri : MRI_VOLUME) (out_fname : string) (fuel : nat)
    (l : list diag) (image : gifti_image) :
  0 < vol_width mri -> 0 < vol_height mri -> 0 < vol_depth mri ->
  0 < vol_nframes mri ->
  (forall k a, vol_vox mri !! k = Some a -> IEEE.is_float a = true) ->
  mriWriteGifti (Some mri) (Some out_fname) = Ret l image ->
  gifti_read_image out_fname = Some image ->
  finds_by_intent image ->
  (Z.to_nat (vol_nframes mri) <= fuel)%nat ->
  exists tr,
    tr = (if 1 <? vol_nframes mri
          then default IEEE.zero (sscanf_f (sprintf_f (vol_tr mri)))
          else IEEE.zero)
    /\ MRISreadGiftiAsMRI fuel out_fname 0
       = Ret [] (mkVol (vol_width mri) 1 1 (vol_nframes mri) tr ∅)
    /\ forall read_volume, read_volume <> 0 ->
         exists vol',
           MRISreadGiftiAsMRI fuel out_fname read_volume = Ret [] vol'
           /\ vol_width vol' = vol_width mri /\ vol_height vol' = 1
           /\ vol_depth vol' = 1 /\ vol_nframes vol' = vol_nframes mri
           /\ vol_tr vol' = tr
           /\ forall i f, 0 <= i < vol_width mri -> 0 <= f < vol_nframes mri ->
                exists a, MRIgetVoxVal mri i 0 0 f = ret a
                          /\ MRIgetVoxVal vol' i 0 0 f = ret a.
Proof.
  intros HW HH HD HF Hfl Ew Hread Hfind Hfuel.
  destruct (write_frames_spec mri ltac:(lia) HH HD Hfl) as (das & E & Hl & Hdas).
  unfold mriWriteGifti in Ew. rewrite E, bind_Ret_nil in Ew.
  apply check_and_write_inv in Ew as (-> & -> & Hv & _).
  pose proof (written_frames mri das ltac:(lia) Hfl Hl Hdas) as Hfr.
  set (it := if 1 <? vol_nframes mri then NIFTI_INTENT_TIME_SERIES
             else NIFTI_INTENT_NONE) in *.
  set (frames := (fun f => (fun i => default IEEE.zero
                                      (vol_vox mri !! (Z.of_nat i, 0, 0, Z.of_nat f)))
                           <$> seq 0 (Z.to_nat (vol_width mri)))
                 <$> seq 0 (Z.to_nat (vol_nframes mri))) in *.
  assert (Hfl' : length frames = Z.to_nat (vol_nframes mri))
    by (unfold frames; rewrite length_fmap, length_seq; reflexivity).
  assert (Hit : In it intent_code_table)
    by (unfold it; destruct (1 <? vol_nframes mri); cbn; tauto).
  assert (Htr : read_TimeStep (mkImage das empty_labeltable (insertCommonMetaData ∅))
                  IEEE.zero
                = Ret [] (if 1 <? vol_nframes mri
                          then default IEEE.zero (sscanf_f (sprintf_f (vol_tr mri)))
                          else IEEE.zero)).
  { unfold read_TimeStep, numDA. cbn [darray].
    destruct (Z.ltb_spec 0 (Z.of_nat (length das))); [|lia].
    destruct (lookup_lt_is_Some_2 das 0 ltac:(lia)) as (da0 & Hda).
    rewrite (at_index_Some _ 0 da0 ltac:(lia) Hda), bind_ret_l.
    destruct (Hdas 0%nat da0 Hda) as (_ & _ & _ & ->).
    unfold gifti_get_meta_value, gifti_add_to_meta.
    destruct (1 <? vol_nframes mri).
    - rewrite lookup_insert_eq. reflexivity.
    - rewrite lookup_empty. reflexivity. }
  eexists. split; [reflexivity|]. split.
  - destruct (read_frames_spec fuel out_fname _ it (vol_width mri) frames 0
                Hread Hv Hit Hfr HW ltac:(lia) Hfind ltac:(lia))
      as (tr & vox & Etr & Er & _).
    rewrite Htr in Etr. injection Etr as <-. rewrite Er.
    rewrite Hfl', Z2Nat.id by lia. reflexivity.
  - intros read_volume Hrv.
    destruct (read_frames_spec fuel out_fname _ it (vol_width mri) frames read_volume
                Hread Hv Hit Hfr HW ltac:(lia) Hfind ltac:(lia))
      as (tr & vox & Etr & Er & Hvox & _).
    rewrite Htr in Etr. injection Etr as <-.
    destruct (Z.eqb_spec read_volume 0); [contradiction|].
    eexists. split; [exact Er|]. cbn [vol_width vol_height vol_depth vol_nframes vol_tr].
    split; [reflexivity|]. split; [reflexivity|]. split; [reflexivity|].
    split; [rewrite Hfl', Z2Nat.id by lia; reflexivity|]. split; [reflexivity|].
    intros i f Hi Hf. exists (default IEEE.zero (vol_vox mri !! (i, 0, 0, f))).
    unfold MRIgetVoxVal. cbn [vol_width vol_height vol_depth vol_nframes vol_vox].
    rewrite Hfl', Z2Nat.id by lia.
    replace ((0 <=? i) && (i <? vol_width mri) && (0 <=? 0) && (0 <? vol_height mri)
             && (0 <=? 0) && (0 <? vol_depth mri) && (0 <=? f)
             && (f <? vol_nframes mri)) with true
      by (symmetry; rewrite !andb_true_iff, !Z.leb_le, !Z.ltb_lt; lia).
    replace ((0 <=? i) && (i <? vol_width mri) && (0 <=? 0) && (0 <? 1)
             && (0 <=? 0) && (0 <? 1) && (0 <=? f)
             && (f <? vol_nframes mri)) with true
      by (symmetry; rewrite !andb_true_iff, !Z.leb_le, !Z.ltb_lt; lia).
    split; [reflexivity|].
    rewrite <- (Z2Nat.id i), <- (Z2Nat.id f) by lia.
    erewrite Hvox; cycle 1.
    + unfold frames. rewrite list_lookup_fmap, lookup_seq_lt by lia. reflexivity.
    + rewrite list_lookup_fmap, lookup_seq_lt by lia. reflexivity.
    + reflexivity.
Qed.

End VolumeFile.

(* ===================================================================== *)
(** ** Time series beside other arrays *)
(* ===================================================================== *)

Lemma for_loop_undefined {S} (n : nat) (body : nat -> S -> M S) (s : S) :
  (0 < n)%nat -> (forall i st, body i st = Undefined) -> for_loop n body s = Undefined.
Proof.
  intros Hn Hb. induction n as [|k IH]; [lia|]. rewrite for_loop_S.
  destruct k as [|k'].
  - cbn [for_loop]. rewrite bind_ret_l. apply Hb.
  - rewrite IH by lia. reflexivity.
Qed.

Section MixedImage.
Context `{Collaborators} `{Services}.

(** An image with fewer arrays of the intent than arrays: the search
    goes past the last one and ends without an array. *)
Lemma search_some (fuel : nat) (image : gifti_image) (it : Z) (found : list giiDataArray)
    (n : Z) :
  In it intent_code_table -> 0 < n ->
  (forall k, 0 <= k -> gifti_find_DA image it k = found !! Z.to_nat k) ->
  (forall da, da ∈ found -> records_cols da = (n, 1)) ->
  (0 < length found)%nat -> Z.of_nat (length found) < numDA image ->
  (length found < fuel)%nat ->
  search_intent fuel image it (mkSearch None 0 (-1) 0)
  = Ret [] (mkSearch None (Z.of_nat (length found)) n 1).
Proof.
  intros Hit Hn Hfind Hrc Hpos Hnum Hfuel. unfold search_intent.
  destruct (while_loop_count
    (fun i (s : Z * search_state) => s = (Z.of_nat i, found_state found n i))
    (fun s => s.2 = mkSearch None (Z.of_nat (length found)) n 1)
    (length found) fuel (search_step image it)
    (0, mkSearch None 0 (-1) 0)) as (st' & E & Hst').
  - lia.
  - reflexivity.
  - intros i st Hi ->.
    destruct (lookup_lt_is_Some_2 found i ltac:(lia)) as (sc & Hsc).
    pose proof (search_round image it found n i sc Hit Hn) as Hr.
    rewrite (Hfind (Z.of_nat i)), Nat2Z.id in Hr by lia.
    specialize (Hr Hsc Hsc (Hrc sc (list_elem_of_lookup_2 _ _ _ Hsc))).
    destruct (Z.leb_spec (numDA image) (Z.of_nat i + 1)); [lia|].
    eexists. split; [exact Hr|reflexivity].
  - intros st ->. unfold search_step.
    rewrite (Hfind (Z.of_nat (length found))), Nat2Z.id by lia.
    rewrite (lookup_ge_None_2 found (length found)) by lia.
    eexists. split; [reflexivity|]. cbn [snd].
    destruct (length found) as [|j]; [lia|]. reflexivity.
  - rewrite E, bind_Ret_nil. destruct st'. cbn [snd] in *. rewrite Hst'. reflexivity.
Qed.

(** X19: a file with time series and other arrays.  When the image
    has at least one array of time series, all of one size, but also
    arrays of other intents, and none of the intents SHAPE, NONE and
    NORMAL, the search ends with the index 4 into the table of the four
    intents: asked for the header, [MRISreadGiftiAsMRI] still returns it,
    with the number of time series found as its number of frames; asked
    for the volume, it reads the table past its end. *)
Theorem volume_read_past_intent_table (fuel : nat) (fname : string) (image : gifti_image)
    (n : Z) (read_volume : Z) :
  gifti_read_image fname = Some image -> gifti_valid_gifti_image image = true ->
  finds_by_intent image ->
  (0 < length (filter (fun da => intent da = NIFTI_INTENT_TIME_SERIES) (darray image))
     < length (darray image))%nat ->
  (forall da, da ∈ darray image ->
     (intent da = NIFTI_INTENT_TIME_SERIES -> records_cols da = (n, 1))
     /\ intent da <> NIFTI_INTENT_SHAPE /\ intent da <> NIFTI_INTENT_NONE
     /\ intent da <> NIFTI_INTENT_NORMAL) ->
  0 < n ->
  (length (filter (fun da => intent da = NIFTI_INTENT_TIME_SERIES) (darray image))
   < fuel)%nat ->
  MRISreadGiftiAsMRI fuel fname read_volume
  = if read_volume =? 0
    then bind (read_TimeStep image IEEE.zero)
           (fun tr => ret (mkVol n 1 1
              (Z.of_nat (length (filter (fun da => intent da = NIFTI_INTENT_TIME_SERIES)
                                        (darray image)))) tr ∅))
    else Undefined.
Proof.
  intros Hread Hvalid Hfind HT Hall Hn Hfuel.
  set (ts := filter (fun da => intent da = NIFTI_INTENT_TIME_SERIES) (darray image)) in *.
  assert (Hs : search_intent fuel image NIFTI_INTENT_TIME_SERIES (mkSearch None 0 (-1) 0)
               = Ret [] (mkSearch None (Z.of_nat (length ts)) n 1)).
  { apply search_some; try lia.
    - cbn. tauto.
    - intros k Hk. apply Hfind. exact Hk.
    - intros da Hda. apply list_elem_of_filter in Hda as (Hi & Hda).
      apply (Hall da Hda). exact Hi.
    - unfold numDA. lia. }
  assert (Hother : forall it', it' = NIFTI_INTENT_SHAPE \/ it' = NIFTI_INTENT_NONE
                     \/ it' = NIFTI_INTENT_NORMAL -> gifti_find_DA image it' 0 = None).
  { intros it' Hit'. rewrite (Hfind it' 0) by lia. rewrite filter_none; [reflexivity|].
    intros da Hda Hi. destruct (Hall da Hda) as (_ & H1 & H2 & H3).
    destruct Hit' as [->|[->| ->]]; contradiction. }
  assert (Hf1 : (0 < fuel)%nat) by lia.
  unfold MRISreadGiftiAsMRI, read_and_check. rewrite Hread, Hvalid. cbn [negb].
  rewrite bind_ret_l.
  assert (Es : for_Z_break 4
      (fun idx '(st, _) =>
         let* ic := at_index intent_code_table idx in
         let* st := search_intent fuel image ic st in
         match scalars st with
         | Some _ => ret (inr (st, idx))
         | None => ret (inl (st, idx + 1))
         end)
      (mkSearch None 0 (-1) 0, 0)
    = Ret [] (mkSearch None (Z.of_nat (length ts)) n 1, 4)).
  { unfold for_Z_break, for_Z. change (Z.to_nat 4) with 4%nat. cbn [for_loop].
    change (at_index intent_code_table (Z.of_nat 0)) with (ret NIFTI_INTENT_TIME_SERIES).
    change (at_index intent_code_table (Z.of_nat 1)) with (ret NIFTI_INTENT_SHAPE).
    change (at_index intent_code_table (Z.of_nat 2)) with (ret NIFTI_INTENT_NONE).
    change (at_index intent_code_table (Z.of_nat 3)) with (ret NIFTI_INTENT_NORMAL).
    search_norm. rewrite Hs. search_norm.
    rewrite (search_absent fuel image NIFTI_INTENT_SHAPE _ Hf1) by (apply Hother; tauto).
    search_norm.
    rewrite (search_absent fuel image NIFTI_INTENT_NONE _ Hf1) by (apply Hother; tauto).
    search_norm.
    rewrite (search_absent fuel image NIFTI_INTENT_NORMAL _ Hf1) by (apply Hother; tauto).
    search_norm. reflexivity. }
  rewrite Es, bind_Ret_nil. cbn [frame_count num_vertices].
  destruct (Z.eqb_spec (Z.of_nat (length ts)) 0); [lia|].
  destruct (read_volume =? 0); [reflexivity|].
  unfold for_Z. rewrite for_loop_undefined; [reflexivity|unfold numDA; lia|].
  intros i [vox fc]. reflexivity.
Qed.

End MixedImage.

(* ===================================================================== *)
(** ** Overlays saved as frames of a volume *)
(* ===================================================================== *)

Section SavedFrames.
Context `{Collaborators}.

(** The loop over the vertices of a dense overlay, saving in a volume. *)
Lemma dense_overlay_loop (m0 : MRIS) (vals : list spec_float)
    (upd : VERTEX -> spec_float -> VERTEX) (place : Z -> Z * Z * Z * Z)
    (step : Z -> MRIS -> option MRI -> VERTEX -> M (MRIS * option MRI)) (o : MRI) :
  0 <= nvertices m0 ->
  length (vertices m0) = Z.to_nat (nvertices m0) ->
  length vals = Z.to_nat (nvertices m0) ->
  (forall k k', place k = place k' -> k = k') ->
  (forall k m o' vx a, 0 <= k < nvertices m0 -> vals !! Z.to_nat k = Some a ->
     length (vertices m) = length (vertices m0) ->
     step k m (Some o') vx
     = Ret [] (mris_set_vertices m (<[Z.to_nat k := upd vx a]> (vertices m)),
               Some (<[place k := a]> o'))) ->
  exists vs' o',
    for_Z (nvertices m0)
      (fun vno '(mris, outmri) =>
         let* vx := at_index (vertices mris) vno in
         if ripflag vx then ret (mris, outmri) else step vno mris outmri vx)
      (m0, Some o)
    = Ret [] (mris_set_vertices m0 vs', Some o')
    /\ overlaid m0 vals upd vs'
    /\ voxels_set m0 vals o o' place.
Proof.
  intros HN Hlen Hvl Hinj Hstep.
  destruct (for_Z_inv
    (fun k (s : MRIS * option MRI) =>
       exists vs o', s = (mris_set_vertices m0 vs, Some o')
         /\ length vs = length (vertices m0)
         /\ (forall v vx0 a, Z.of_nat v < k -> vertices m0 !! v = Some vx0 ->
               vals !! v = Some a ->
               vs !! v = Some (if ripflag vx0 then vx0 else upd vx0 a))
         /\ (forall v, k <= Z.of_nat v -> vs !! v = vertices m0 !! v)
         /\ (forall v vx0 a, Z.of_nat v < k -> vertices m0 !! v = Some vx0 ->
               ripflag vx0 = false -> vals !! v = Some a ->
               o' !! place (Z.of_nat v) = Some a)
         /\ (forall key, (forall v vx0, Z.of_nat v < k -> vertices m0 !! v = Some vx0 ->
                            ripflag vx0 = false -> key <> place (Z.of_nat v)) ->
               o' !! key = o !! key))
    (nvertices m0)
    (fun vno '(mris, outmri) =>
       let* vx := at_index (vertices mris) vno in
       if ripflag vx then ret (mris, outmri) else step vno mris outmri vx)
    (m0, Some o)) as ([m' oo] & E & vs & o' & Es & Hl & Hdone & _ & Hv & Hk).
  - exact HN.
  - exists (vertices m0), o. split; [rewrite mris_set_vertices_same; reflexivity|].
    split; [reflexivity|]. split; [intros; lia|]. split; [reflexivity|].
    split; [intros; lia|reflexivity].
  - intros k [m oo] Hk (vs & o' & Es & Hl & Hdone & Hrest & Hv & Hkeys).
    injection Es as -> ->. cbn [vertices mris_set_vertices].
    destruct (lookup_lt_is_Some_2 (vertices m0) (Z.to_nat k) ltac:(lia)) as (vx0 & Hvx0).
    assert (Hvk : vs !! Z.to_nat k = Some vx0) by (rewrite Hrest by lia; exact Hvx0).
    rewrite (at_index_Some _ k vx0 ltac:(lia) Hvk), bind_ret_l.
    destruct (ripflag vx0) eqn:Hrip.
    + eexists. split; [reflexivity|]. exists vs, o'. split; [reflexivity|].
      split; [exact Hl|]. split; [|split; [|split]].
      * intros v vx a Hlt Hvx Ha. destruct (decide (v = Z.to_nat k)) as [->|Hne].
        -- rewrite Hvx0 in Hvx. injection Hvx as <-. rewrite Hrip. exact Hvk.
        -- apply Hdone; [lia|exact Hvx|exact Ha].
      * intros v Hge. apply Hrest. lia.
      * intros v vx a Hlt Hvx Hr Ha. destruct (decide (v = Z.to_nat k)) as [->|Hne].
        -- rewrite Hvx0 in Hvx. injection Hvx as <-. congruence.
        -- apply (Hv v vx a); [lia|exact Hvx|exact Hr|exact Ha].
      * intros key Hkey. apply Hkeys. intros v vx Hlt. apply Hkey. lia.
    + destruct (lookup_lt_is_Some_2 vals (Z.to_nat k) ltac:(lia)) as (a & Ha).
      rewrite (Hstep k (mris_set_vertices m0 vs) o' vx0 a Hk Ha)
        by (cbn [vertices mris_set_vertices]; exact Hl).
      cbn [vertices mris_set_vertices].
      eexists. split; [reflexivity|].
      exists (<[Z.to_nat k := upd vx0 a]> vs), (<[place k := a]> o').
      split; [reflexivity|]. split; [rewrite length_insert; exact Hl|].
      unfold MRI in *. split; [|split; [|split]].
      * intros v vx a' Hlt Hvx Ha'. destruct (decide (v = Z.to_nat k)) as [->|Hne].
        -- rewrite Hvx0 in Hvx. injection Hvx as <-. rewrite Ha in Ha'.
           injection Ha' as <-. rewrite Hrip. apply list_lookup_insert_eq. lia.
        -- rewrite list_lookup_insert_ne by lia. apply Hdone; [lia|exact Hvx|exact Ha'].
      * intros v Hge. rewrite list_lookup_insert_ne by lia. apply Hrest. lia.
      * intros v vx a' Hlt Hvx Hr Ha'. destruct (decide (v = Z.to_nat k)) as [->|Hne].
        -- rewrite Ha in Ha'. injection Ha' as <-. rewrite Z2Nat.id by lia.
           apply lookup_insert_eq.
        -- rewrite lookup_insert_ne; [apply (Hv v vx a'); [lia|exact Hvx|exact Hr|exact Ha']|].
           intros Hp. apply Hinj in Hp. lia.
      * intros key Hkey. rewrite lookup_insert_ne.
        -- apply Hkeys. intros v vx Hlt. apply Hkey. lia.
        -- intros Hp. apply (Hkey (Z.to_nat k) vx0); [lia|exact Hvx0|exact Hrip|].
           rewrite Z2Nat.id by lia. symmetry. exact Hp.
  - injection Es as -> ->. exists vs, o'. split; [exact E|]. split; [split|split].
    + exact Hl.
    + intros v vx0 a Hvx0 Ha. apply Hdone; [|exact Hvx0|exact Ha].
      apply lookup_lt_Some in Hvx0. lia.
    + intros v vx0 a Hvx0 Hr Ha. apply (Hv v vx0 a); [|exact Hvx0|exact Hr|exact Ha].
      apply lookup_lt_Some in Hvx0. lia.
    + intros key Hkey. apply Hk. intros v vx0 _. apply Hkey.
Qed.

Section Saved.
Variable m0 : MRIS.
Variable vals : list spec_float.
Variable darr : giiDataArray.
Variable it : Z.
Hypothesis HN : 0 <= nvertices m0.
Hypothesis Hlen : length (vertices m0) = Z.to_nat (nvertices m0).
Hypothesis Hvals : length vals = Z.to_nat (nvertices m0).
Hypothesis Hfl : forall v a, vals !! v = Some a -> IEEE.is_float a = true.
Hypothesis Harr : overlay_array darr it (nvertices m0) (CF32 <$> vals).

(** A dense array of statistics saved in a volume: the element of a
    vertex goes to the voxel (vno, 0, frame, 0). *)
Lemma read_statval_saved (st : overlay_state) (o : MRI) :
  os_mris st = m0 -> os_outmri st = Some o -> node_index st = None ->
  found_statval_data st = 0 ->
  exists vs' o',
    read_statval darr st
    = Ret (if 1 <=? os_frame st then [DiagRead "WARNING: Skip saving data in MRI"] else [])
          (mkOS (mris_set_vertices m0 vs') (Some o') (os_frame st + 1)
                (found_curv_data st) 1 None (num_index_nodes st))
    /\ overlaid m0 vals (fun vx a => vertex_set_val_stat vx a a) vs'
    /\ voxels_set m0 vals o o' (fun v => (v, 0, os_frame st, 0)).
Proof.
  intros Hm Ho Hni Hf. unfold read_statval. rewrite Hf, Hni, Hm, Ho.
  cbn [negb Z.eqb].
  destruct (dense_overlay_loop m0 vals (fun vx a => vertex_set_val_stat vx a a)
              (fun v => (v, 0, os_frame st, 0))
              (fun vno mris outmri vx =>
                 let* a := gifti_get_DA_value_2D (Some darr) vno 0 in
                 let* b := gifti_get_DA_value_2D (Some darr) vno 0 in
                 let b := IEEE.float_of_double b in
                 let* mris := set_vertex mris vno
                                (vertex_set_val_stat vx (IEEE.float_of_double a) b) in
                 ret (mris, vox outmri vno 0 (os_frame st) 0 b))
              o HN Hlen Hvals) as (vs' & o' & E & Hvs & Hvox).
  - intros k k' [= ->]. reflexivity.
  - intros k m o' vx a Hk Ha Hl.
    rewrite (get_overlay darr it (nvertices m0) vals k a Harr Hk Ha), !bind_ret_l.
    rewrite (float_of_double_of_float a (Hfl _ _ Ha)).
    unfold set_vertex. rewrite put_index_lt by lia. rewrite !bind_ret_l. reflexivity.
  - cbv beta zeta in E. cbv zeta. exists vs', o'. split; [|split; [exact Hvs|exact Hvox]].
    rewrite E. destruct (1 <=? os_frame st); reflexivity.
Qed.

(** A dense array of shape data saved in a volume: the element of a
    vertex goes to the voxel (vno, 0, 0, frame). *)
Lemma read_shape_saved (numDA_ : Z) (st : overlay_state) (o : MRI) :
  os_mris st = m0 -> os_outmri st = Some o -> node_index st = None ->
  found_curv_data st = 0 ->
  exists vs' o',
    read_shape numDA_ darr st
    = Ret (if 1 <=? os_frame st then [DiagRead "WARNING: Skip saving data in MRI"] else [])
          (mkOS (mris_set_vertices m0 vs') (Some o') (os_frame st + 1) 1
                (found_statval_data st) None (num_index_nodes st))
    /\ overlaid m0 vals vertex_set_curv vs'
    /\ voxels_set m0 vals o o' (fun v => (v, 0, 0, os_frame st)).
Proof.
  intros Hm Ho Hni Hf. unfold read_shape. rewrite Hf, Hni, Hm, Ho.
  cbn [negb Z.eqb].
  destruct (dense_overlay_loop m0 vals vertex_set_curv
              (fun v => (v, 0, 0, os_frame st))
              (fun vno mris outmri vx =>
                 let* c := gifti_get_DA_value_2D (Some darr) vno 0 in
                 let c := IEEE.float_of_double c in
                 let* mris := set_vertex mris vno (vertex_set_curv vx c) in
                 ret (mris, vox outmri vno 0 0 (os_frame st) c))
              o HN Hlen Hvals) as (vs' & o' & E & Hvs & Hvox).
  - intros k k' [= ->]. reflexivity.
  - intros k m o' vx a Hk Ha Hl.
    rewrite (get_overlay darr it (nvertices m0) vals k a Harr Hk Ha), !bind_ret_l.
    rewrite (float_of_double_of_float a (Hfl _ _ Ha)).
    unfold set_vertex. rewrite put_index_lt by lia. rewrite !bind_ret_l. reflexivity.
  - cbv beta zeta in E. cbv zeta. exists vs', o'. split; [|split; [exact Hvs|exact Hvox]].
    rewrite E. destruct (1 <=? os_frame st); reflexivity.
Qed.

End Saved.

(** X20: where a dense overlay is saved in the volume passed to the
    reader.  The elements of an array of shape data go to the voxels
    (vno, 0, 0, frame), those of an array of statistics to the voxels
    (vno, 0, frame, 0), in both cases for the vertices that are not
    ripped; every other voxel stays as it is, the frame counter goes up
    by one, and with a counter of 1 or more the reader prints that it
    skips saving the data although it saves them. *)
Theorem overlay_saved_as_frame (m0 : MRIS) (vals : list spec_float) (darr : giiDataArray)
    (it : Z) (o : MRI) (frame : Z) (lt : giiLabelTable) (md : gmap string string)
    (fuel : nat) (fname : string) :
  0 < nvertices m0 ->
  length (vertices m0) = Z.to_nat (nvertices m0) ->
  length vals = Z.to_nat (nvertices m0) ->
  (forall v a, vals !! v = Some a -> IEEE.is_float a = true) ->
  overlay_array darr it (nvertices m0) (CF32 <$> vals) ->
  lt_length lt <= 0 ->
  it = NIFTI_INTENT_SHAPE \/ statval_intent it ->
  exists vs' o',
    mrisReadGIFTIdanum fuel (mkImage [darr] lt md) fname (Some m0) (-1) (Some o) frame
    = Ret (if 1 <=? frame then [DiagRead "WARNING: Skip saving data in MRI"] else [])
          (mris_set_vertices m0 vs', Some o', frame + 1)
    /\ overlaid m0 vals
         (if it =? NIFTI_INTENT_SHAPE then vertex_set_curv
          else fun vx a => vertex_set_val_stat vx a a) vs'
    /\ voxels_set m0 vals o o'
         (if it =? NIFTI_INTENT_SHAPE then fun v => (v, 0, 0, frame)
          else fun v => (v, 0, frame, 0)).
Proof.
  intros HN Hlen Hvl Hfl Harr Hlt Hit.
  assert (Hpt : intent darr <> NIFTI_INTENT_POINTSET).
  { rewrite (oa_intent _ _ _ _ Harr). destruct Hit as [->|Hit]; [discriminate|apply Hit]. }
  rewrite reader_single by assumption.
  destruct Hit as [->|Hit].
  - rewrite (read_darray_shape fuel (mkImage [darr] lt md) None 0
               (mkOS m0 (Some o) frame 0 0 None 0) darr (nvertices m0) _ Harr
               ltac:(lia) eq_refl ltac:(lia) eq_refl).
    destruct (read_shape_saved m0 vals darr NIFTI_INTENT_SHAPE ltac:(lia) Hlen Hvl Hfl Harr
                0 (mkOS m0 (Some o) frame 0 0 None 0) o eq_refl eq_refl eq_refl eq_refl)
      as (vs' & o' & Er & Hvs & Hvox).
    exists vs', o'. rewrite Z.eqb_refl. split; [|split; [exact Hvs|exact Hvox]].
    rewrite Er. cbn [os_frame]. destruct (1 <=? frame); reflexivity.
  - rewrite (read_darray_statval fuel (mkImage [darr] lt md) None 0
               (mkOS m0 (Some o) frame 0 0 None 0) darr it (nvertices m0) _ Harr
               ltac:(lia) eq_refl Hit ltac:(lia) eq_refl).
    destruct (read_statval_saved m0 vals darr it ltac:(lia) Hlen Hvl Hfl Harr
                (mkOS m0 (Some o) frame 0 0 None 0) o eq_refl eq_refl eq_refl eq_refl)
      as (vs' & o' & Er & Hvs & Hvox).
    exists vs', o'.
    pose proof Hit as (_ & _ & _ & Hns & _).
    destruct (Z.eqb_spec it NIFTI_INTENT_SHAPE) as [Hs|_]; [contradiction|].
    split; [|split; [exact Hvs|exact Hvox]].
    rewrite Er. cbn [os_frame]. destruct (1 <=? frame); reflexivity.
Qed.

End SavedFrames.

(* ===================================================================== *)
(** ** The label writer: the array of labels *)
(* ===================================================================== *)

Section LabelData.
Context `{Collaborators}.

(** The index the lookup gives, stored through a pointer to
    [unsigned int]: itself when an entry is found, 4294967295 for -1. *)
Lemma stored_index (ctab : COLOR_TABLE) (annot : Z) :
  nentries ctab <= 2147483647 ->
  uint_of_int (CTABfindAnnotation ctab annot).2
  = if (CTABfindAnnotation ctab annot).2 =? -1 then 4294967295
    else (CTABfindAnnotation ctab annot).2.
Proof.
  intros Hn. unfold CTABfindAnnotation.
  destruct (find_annotation (entries ctab) (Z.to_nat (nentries ctab)) 0 annot) as [i|] eqn:Hf;
    cbn [snd]; [|reflexivity].
  apply find_annotation_range in Hf.
  destruct (Z.eqb_spec i (-1)); [lia|]. unfold uint_of_int. apply Z.mod_small. lia.
Qed.

(** X21: the array of labels.  For a surface with a colour table of at
    least one entry, none of them NULL: the label writer returns, and
    appends one one-dimensional array of [int]s of intent LABEL with an
    element for each vertex: 0 for a ripped vertex, else the index the
    lookup of its annotation gives, and 4294967295, which is -1 stored
    as [unsigned int], when the annotation is in no entry (the lookup
    reports no error then, and the writer does not fail).  The array is
    named "node label", or after the second label when the table has
    exactly two. *)
Theorem label_writer_array (mris : MRIS) (image : gifti_image) (intent_code : Z)
    (ctab : COLOR_TABLE) (es : list COLOR_TABLE_ENTRY)
    (rest : list (option COLOR_TABLE_ENTRY)) :
  ct mris = Some ctab ->
  entries ctab = (Some <$> es) ++ rest ->
  nentries ctab = Z.of_nat (length es) -> (0 < length es)%nat ->
  nentries ctab <= 2147483647 ->
  0 <= nvertices mris ->
  length (vertices mris) = Z.to_nat (nvertices mris) ->
  exists log lt labels buf,
    MRISwriteGIFTILabel mris image intent_code
    = Ret log (add_darrays (set_labeltable image lt) [labels])
    /\ intent labels = NIFTI_INTENT_LABEL /\ datatype labels = NIFTI_TYPE_INT32
    /\ num_dim labels = 1 /\ dim labels 0 = nvertices mris
    /\ data labels = Some buf /\ length buf = Z.to_nat (nvertices mris)
    /\ (forall v vx, vertices mris !! v = Some vx ->
          (CTABfindAnnotation ctab (annotation vx)).1 = NO_ERROR
          /\ buf !! v
             = Some (CInt (if ripflag vx then 0
                           else if (CTABfindAnnotation ctab (annotation vx)).2 =? -1
                                then 4294967295
                                else (CTABfindAnnotation ctab (annotation vx)).2)))
    /\ meta labels !! "Name"
       = if (length es =? 2)%nat then lt_label lt !! 1%nat else Some "node label".
Proof.
  intros Hct Hent Hn Hpos Hint HN Hlen.
  destruct (label_writer_spec mris image intent_code ctab es rest Hct Hent Hn Hpos HN Hlen)
    as (log & lt & md & buf & _ & Ew & Hname & Hl & Hcells).
  eexists log, lt, _, buf. split; [exact Ew|].
  cbn [intent datatype num_dim data meta]. unfold dim. cbn [dims nth].
  repeat (split; [reflexivity|]). split; [exact Hl|]. split; [|exact Hname].
  intros v vx Hvx. split; [apply CTABfindAnnotation_result|].
  rewrite (Hcells v vx Hvx). destruct (ripflag vx); [reflexivity|].
  rewrite stored_index by exact Hint. reflexivity.
Qed.

End LabelData.

(* ===================================================================== *)
(** ** Reading one array by its number *)
(* ===================================================================== *)

Section OneArray.
Context `{Collaborators}.

(** X22: the number of the array to extract is not checked against
    the number of arrays.  For a container without a label table and
    without coordinates, read into a surface passed in: a number below
    -1, or not below the number of arrays, makes the reader index the
    arrays of the image out of bounds. *)
Theorem array_number_unchecked fuel (image : gifti_image) fname (m0 : MRIS)
    (daNum : Z) (outmri : option MRI) (frame : Z) :
  lt_length (labeltable image) <= 0 ->
  (forall da, da ∈ darray image -> intent da <> NIFTI_INTENT_POINTSET) ->
  daNum < -1 \/ numDA image <= daNum ->
  mrisReadGIFTIdanum fuel image fname (Some m0) daNum outmri frame = Undefined.
Proof.
  intros Hlt Hno Hd. unfold mrisReadGIFTIdanum, read_colortable.
  destruct (Z.ltb_spec 0 (lt_length (labeltable image))); [lia|].
  rewrite bind_ret_l.
  pose proof (find_geometry_no_coords image Hno) as Hg.
  destruct (find_geometry image) as [[c|] f]; [discriminate Hg|].
  rewrite !bind_ret_l. cbv zeta.
  destruct (Z.eqb_spec daNum (-1)) as [->|Hne]; [unfold numDA in Hd; lia|].
  cbn [negb]. replace (daNum + 1 - daNum) with 1 by lia.
  unfold for_Z. change (Z.to_nat 1) with 1%nat. cbn [for_loop].
  rewrite bind_ret_l. change (Z.of_nat 0) with 0. rewrite Z.add_0_r.
  unfold read_darray, at_index.
  destruct (Z.ltb_spec daNum 0); [reflexivity|].
  rewrite (lookup_ge_None_2 (darray image) (Z.to_nat daNum))
    by (unfold numDA in Hd; lia).
  reflexivity.
Qed.

End OneArray.

Section NoOverlay.
Context `{Collaborators} `{Services}.

(** X23: a file without overlays.  When the file cannot be read,
    when its image is not valid, and when the image has no array of the
    intents TIME_SERIES, SHAPE, NONE and NORMAL, [MRISreadGiftiAsMRI]
    prints a message and returns NULL, whether the volume or only the
    header is asked for. *)
Theorem volume_needs_overlays (fuel : nat) (fname : string) (read_volume : Z) :
  (gifti_read_image fname = None ->
   MRISreadGiftiAsMRI fuel fname read_volume
   = Fail [DiagRead "MRISreadGiftiAsMRI: gifti_read_image() returned NULL"] 0)
  /\ forall image, gifti_read_image fname = Some image ->
       (gifti_valid_gifti_image image = false ->
        MRISreadGiftiAsMRI fuel fname read_volume
        = Fail [DiagRead "MRISreadGiftiAsMRI: GIFTI file is invalid!"] 0)
       /\ (gifti_valid_gifti_image image = true -> (0 < fuel)%nat ->
           (forall it, In it intent_code_table -> gifti_find_DA image it 0 = None) ->
           MRISreadGiftiAsMRI fuel fname read_volume
           = Fail [DiagRead "MRISreadGiftiAsMRI: no overlay data found"] 0).
Proof.
  unfold MRISreadGiftiAsMRI, read_and_check. split.
  - intros ->. reflexivity.
  - intros image ->. split; intros ->; [reflexivity|].
    intros Hfuel Hnone. cbn [negb]. rewrite bind_ret_l.
    unfold for_Z_break, for_Z. change (Z.to_nat 4) with 4%nat. cbn [for_loop].
    change (at_index intent_code_table (Z.of_nat 0)) with (ret NIFTI_INTENT_TIME_SERIES).
    change (at_index intent_code_table (Z.of_nat 1)) with (ret NIFTI_INTENT_SHAPE).
    change (at_index intent_code_table (Z.of_nat 2)) with (ret NIFTI_INTENT_NONE).
    change (at_index intent_code_table (Z.of_nat 3)) with (ret NIFTI_INTENT_NORMAL).
    search_norm.
    rewrite (search_absent fuel image NIFTI_INTENT_TIME_SERIES _ Hfuel)
      by (apply Hnone; cbn; tauto).
    search_norm.
    rewrite (search_absent fuel image NIFTI_INTENT_SHAPE _ Hfuel)
      by (apply Hnone; cbn; tauto).
    search_norm.
    rewrite (search_absent fuel image NIFTI_INTENT_NONE _ Hfuel)
      by (apply Hnone; cbn; tauto).
    search_norm.
    rewrite (search_absent fuel image NIFTI_INTENT_NORMAL _ Hfuel)
      by (apply Hnone; cbn; tauto).
    search_norm. reflexivity.
Qed.

(** X24: time series of different sizes.  When the image has more
    than one array and its first two time series differ in their number
    of rows, or the second has more than one column, or the first has
    no row, [MRISreadGiftiAsMRI] prints that the array is malformed and
    returns NULL; the number of columns of the first one is not looked
    at. *)
Theorem time_series_sizes_checked (fuel : nat) (fname : string) (read_volume : Z)
    (image : gifti_image) (a b : giiDataArray) (n c n' c' : Z) :
  gifti_read_image fname = Some image -> gifti_valid_gifti_image image = true ->
  gifti_find_DA image NIFTI_INTENT_TIME_SERIES 0 = Some a ->
  gifti_find_DA image NIFTI_INTENT_TIME_SERIES 1 = Some b ->
  records_cols a = (n, c) -> records_cols b = (n', c') ->
  1 < numDA image -> (1 < fuel)%nat ->
  n <> -1 ->
  n <= 0 \/ n <> n' \/ c' <> 1 ->
  MRISreadGiftiAsMRI fuel fname read_volume
  = Fail [DiagRead "MRISreadGiftiAsMRI: malformed time-series data array"] 0.
Proof.
  intros Hread Hvalid Ha Hb Hra Hrb Hnum Hfuel Hn1 Hbad.
  unfold MRISreadGiftiAsMRI, read_and_check. rewrite Hread, Hvalid. cbn [negb].
  rewrite bind_ret_l.
  assert (Es : search_intent fuel image NIFTI_INTENT_TIME_SERIES (mkSearch None 0 (-1) 0)
               = Fail [DiagRead "MRISreadGiftiAsMRI: malformed time-series data array"] 0).
  { unfold search_intent. destruct fuel as [|[|k]]; [lia|lia|].
    cbn [while_loop]. unfold search_step at 1. rewrite Ha, Hra.
    cbn [num_vertices frame_count num_cols Z.eqb Pos.eqb]. rewrite bind_ret_l. cbv zeta.
    destruct (Z.leb_spec (numDA image) (0 + 1)); [lia|].
    cbn [negb Z.eqb Pos.eqb NIFTI_INTENT_TIME_SERIES andb]. rewrite bind_ret_l.
    unfold search_step at 1. change (0 + 1) with 1. rewrite Hb, Hrb.
    cbn [num_vertices frame_count num_cols].
    destruct (Z.eqb_spec n (-1)); [contradiction|].
    assert (Hc : (n <=? 0) || negb (n =? n') || negb (c' =? 1) = true).
    { rewrite !orb_true_iff, !negb_true_iff, Z.leb_le, !Z.eqb_neq. tauto. }
    rewrite Hc. reflexivity. }
  unfold for_Z_break, for_Z. change (Z.to_nat 4) with 4%nat. cbn [for_loop].
  change (at_index intent_code_table (Z.of_nat 0)) with (ret NIFTI_INTENT_TIME_SERIES).
  search_norm. rewrite Es. reflexivity.
Qed.

End NoOverlay.

(* ===================================================================== *)
(** ** The properties at work in the reference environment *)
(* ===================================================================== *)

(** A closed bound [a <= b < c] or equation, by evaluation. *)
Ltac evaluated :=
  first [ reflexivity | lia | split; [lia | reflexivity] | vm_compute; reflexivity
        | simpl; lia | vm_compute; discriminate | vm_compute; lia ].

(** The elements of a concrete list of values, one after the other. *)
Ltac each_value :=
  let v := fresh "v" in
  let a := fresh "a" in
  let Hv := fresh "Hv" in
  intros v a Hv;
  repeat (destruct v as [|v]; [vm_compute in Hv; injection Hv as <-; reflexivity|]);
  vm_compute in Hv; discriminate Hv.

(** The facts of a record of equations, by evaluation. *)
Ltac all_evaluated :=
  split; first [reflexivity | vm_compute; reflexivity | simpl; lia].

Ltac is_statval :=
  unfold statval_intent; repeat split; vm_compute; discriminate.




Lemma set_then_get_row_major_witness :
  exists da',
    gifti_set_DA_value_2D (Some (array_2x3 NIFTI_TYPE_INT32 GIFTI_IND_ORD_ROW_MAJOR)) 1 2
                          (IEEE.double_of_Z 7) = ret da'
    /\ gifti_get_DA_value_2D (Some da') 1 2 = widen Tint (CInt 7)
    /\ forall row' col', 0 <= row' < 2 -> 0 <= col' < 3 -> (row', col') <> (1, 2) ->
         gifti_get_DA_value_2D (Some da') row' col'
         = gifti_get_DA_value_2D
             (Some (array_2x3 NIFTI_TYPE_INT32 GIFTI_IND_ORD_ROW_MAJOR)) row' col'.
Proof.
  apply (set_then_get_row_major (array_2x3 NIFTI_TYPE_INT32 GIFTI_IND_ORD_ROW_MAJOR)
           (calloc_data NIFTI_TYPE_INT32 6) 1 2 (IEEE.double_of_Z 7) Tint (CInt 7));
    evaluated.
Defined.

Lemma set_then_get_1D_witness :
  exists da',
    gifti_set_DA_value_2D
      (Some (mkDA NIFTI_INTENT_SHAPE NIFTI_TYPE_FLOAT32 GIFTI_IND_ORD_COL_MAJOR 1
                  [3; 0; 0; 0; 0; 0] 3 (Some (calloc_data NIFTI_TYPE_FLOAT32 3)) ∅ []))
      2 0 (IEEE.double_of_Z 7) = ret da'
    /\ gifti_get_DA_value_2D (Some da') 2 0 = widen Tfloat (CF32 (IEEE.float_of_Z 7))
    /\ forall row', 0 <= row' < 3 -> row' <> 2 ->
         gifti_get_DA_value_2D (Some da') row' 0
         = gifti_get_DA_value_2D
             (Some (mkDA NIFTI_INTENT_SHAPE NIFTI_TYPE_FLOAT32 GIFTI_IND_ORD_COL_MAJOR 1
                         [3; 0; 0; 0; 0; 0] 3 (Some (calloc_data NIFTI_TYPE_FLOAT32 3))
                         ∅ [])) row' 0.
Proof.
  apply (set_then_get_1D
           (mkDA NIFTI_INTENT_SHAPE NIFTI_TYPE_FLOAT32 GIFTI_IND_ORD_COL_MAJOR 1
                 [3; 0; 0; 0; 0; 0] 3 (Some (calloc_data NIFTI_TYPE_FLOAT32 3)) ∅ [])
           (calloc_data NIFTI_TYPE_FLOAT32 3) 2 (IEEE.double_of_Z 7) Tfloat
           (CF32 (IEEE.float_of_Z 7)));
    try (right; reflexivity); evaluated.
Defined.

Lemma set_keeps_the_array_witness :
  exists da',
    gifti_set_DA_value_2D (Some (array_2x3 NIFTI_TYPE_INT32 GIFTI_IND_ORD_ROW_MAJOR)) 1 2
                          (IEEE.double_of_Z 7) = Ret [] da'
    /\ intent da' = NIFTI_INTENT_NONE /\ datatype da' = NIFTI_TYPE_INT32
    /\ dims da' = [2; 3; 0; 0; 0; 0] /\ nvals da' = 6
    /\ exists buf', data da' = Some buf' /\ length buf' = 6%nat.
Proof.
  eexists. split; [vm_compute; reflexivity|].
  destruct (set_keeps_the_array (array_2x3 NIFTI_TYPE_INT32 GIFTI_IND_ORD_ROW_MAJOR)
              1 2 (IEEE.double_of_Z 7) [] _ eq_refl)
    as (Hi & Hd & _ & _ & Hdims & Hn & _ & _ & buf & buf' & Hb & Hb' & Hl).
  split; [exact Hi|]. split; [exact Hd|]. split; [exact Hdims|]. split; [exact Hn|].
  exists buf'. split; [exact Hb'|]. rewrite Hl. injection Hb as <-. reflexivity.
Defined.

(** The vertices of a concrete surface, one after the other. *)
Ltac each_vertex :=
  let v := fresh "v" in
  let vx := fresh "vx" in
  let Hv := fresh "Hv" in
  intros v vx Hv;
  repeat (destruct v as [|v];
          [vm_compute in Hv; injection Hv as <-;
           first [reflexivity | intros; reflexivity | intros; discriminate]|]);
  vm_compute in Hv; discriminate Hv.

(** The arrays of a concrete image, one after the other. *)
Ltac each_array :=
  let da := fresh "da" in
  let Hda := fresh "Hda" in
  intros da Hda; apply list_elem_of_In in Hda; simpl in Hda;
  repeat (destruct Hda as [<-|Hda];
          [first [vm_compute; discriminate | vm_compute; reflexivity
                 | repeat split; first [vm_compute; discriminate | vm_compute; reflexivity
                                       | intros Hi; vm_compute in Hi; discriminate Hi
                                       | intros _; vm_compute; reflexivity]]|]);
  destruct Hda.

(** The voxels of a concrete volume, one after the other. *)
Ltac each_voxel :=
  let k := fresh "k" in
  let a := fresh "a" in
  let Hk := fresh "Hk" in
  intros k a Hk; unfold two_frames in Hk; cbn [vol_vox] in Hk; unfold MRI in Hk;
  repeat (apply lookup_insert_Some in Hk as [[_ <-]|[_ Hk]]; [reflexivity|]);
  rewrite lookup_empty in Hk; discriminate Hk.

Section NoFile.
#[local] Existing Instance reference_collaborators.
#[local] Existing Instance no_file.

Lemma stats_writer_array_witness :
  exists stats buf,
    MRISwriteGIFTIStats overlay_mris empty_image NIFTI_INTENT_UNIFORM
    = Ret [] (add_darrays empty_image [stats])
    /\ overlay_array stats NIFTI_INTENT_UNIFORM (nvertices overlay_mris) buf
    /\ (forall v vx, vertices overlay_mris !! v = Some vx ->
          buf !! v = Some (stored stat vx))
    /\ meta stats !! "Intent_code" = Some (gifti_intent_to_string NIFTI_INTENT_UNIFORM)
    /\ (meta stats !! "Intent_p1", meta stats !! "Intent_p2")
       = if NIFTI_INTENT_UNIFORM =? NIFTI_INTENT_UNIFORM then (Some "0", Some "1")
         else (None, None).
Proof.
  apply (stats_writer_array overlay_mris empty_image NIFTI_INTENT_UNIFORM).
  - evaluated.
  - evaluated.
  - each_vertex.
Defined.

Lemma shape_writer_array_witness :
  exists shape buf,
    MRISwriteGIFTIShape overlay_mris empty_image NIFTI_INTENT_SHAPE (Some "lh.sulc.curv")
    = Ret [] (add_darrays empty_image [shape])
    /\ overlay_array shape NIFTI_INTENT_SHAPE (nvertices overlay_mris) buf
    /\ (forall v vx, vertices overlay_mris !! v = Some vx ->
          buf !! v = Some (stored curv vx))
    /\ meta shape !! "Name" = Some "lh.sulc.curv"
    /\ meta shape !! "ShapeDataType" = Some "SulcalDepth".
Proof.
  apply (proj2 (shape_writer_array overlay_mris empty_image NIFTI_INTENT_SHAPE
                  "lh.sulc.curv") overlay_mris).
  - evaluated.
  - evaluated.
  - evaluated.
  - each_vertex.
Defined.

Lemma geometry_pass_keeps_last_witness :
  (find_geometry two_pointsets).1
  = Some (array_1d NIFTI_INTENT_POINTSET NIFTI_TYPE_FLOAT32 [CF32 (IEEE.float_of_Z 2)])
  /\ (find_geometry two_pointsets).2
     = Some (array_1d NIFTI_INTENT_TRIANGLE NIFTI_TYPE_INT32 [CInt 4]).
Proof.
  split.
  - apply (proj1 (geometry_pass_keeps_last two_pointsets
                    [array_1d NIFTI_INTENT_POINTSET NIFTI_TYPE_FLOAT32
                       [CF32 (IEEE.float_of_Z 1)]]
                    [array_2x3 NIFTI_TYPE_FLOAT32 GIFTI_IND_ORD_ROW_MAJOR;
                     array_1d NIFTI_INTENT_TRIANGLE NIFTI_TYPE_INT32 [CInt 3];
                     array_1d NIFTI_INTENT_TRIANGLE NIFTI_TYPE_INT32 [CInt 4]]
                    (array_1d NIFTI_INTENT_POINTSET NIFTI_TYPE_FLOAT32
                       [CF32 (IEEE.float_of_Z 2)])
                    eq_refl)).
    + evaluated.
    + each_array.
  - apply (proj2 (geometry_pass_keeps_last two_pointsets
                    [array_1d NIFTI_INTENT_POINTSET NIFTI_TYPE_FLOAT32
                       [CF32 (IEEE.float_of_Z 1)];
                     array_1d NIFTI_INTENT_POINTSET NIFTI_TYPE_FLOAT32
                       [CF32 (IEEE.float_of_Z 2)];
                     array_2x3 NIFTI_TYPE_FLOAT32 GIFTI_IND_ORD_ROW_MAJOR;
                     array_1d NIFTI_INTENT_TRIANGLE NIFTI_TYPE_INT32 [CInt 3]]
                    []
                    (array_1d NIFTI_INTENT_TRIANGLE NIFTI_TYPE_INT32 [CInt 4])
                    eq_refl)).
    + evaluated.
    + each_array.
Defined.

Lemma reader_needs_geometry_witness :
  mrisReadGIFTIdanum 0 sparse_image_n "lh.curv.gii" None (-1) None 0
  = Fail [DiagRead "mriseadGIFTIfile: mris is NULL!"] 0.
Proof.
  destruct (reader_needs_geometry 0 sparse_image_n "lh.curv.gii" (-1) None 0) as [_ Hr];
    [left; each_array | apply Hr; evaluated].
Defined.

Lemma stats_round_trip_witness :
  exists image vs',
    MRISwriteGIFTIStats overlay_mris (mkImage [] empty_labeltable ∅) NIFTI_INTENT_TTEST
    = Ret [] image
    /\ mrisReadGIFTIdanum 0 image "lh.t.gii" (Some (bare_mris 3)) (-1) None 0
       = Ret [] (mris_set_vertices (bare_mris 3) vs', None, 0)
    /\ length vs' = length (vertices (bare_mris 3))
    /\ forall v vx0 vx, vertices (bare_mris 3) !! v = Some vx0 ->
         vertices overlay_mris !! v = Some vx ->
         vs' !! v = Some (if ripflag vx0 then vx0
                          else let a := if ripflag vx then IEEE.zero else stat vx in
                               vertex_set_val_stat vx0 a a).
Proof.
  apply (stats_round_trip overlay_mris (bare_mris 3) NIFTI_INTENT_TTEST ∅ 0 "lh.t.gii").
  - evaluated.
  - evaluated.
  - each_vertex.
  - evaluated.
  - evaluated.
  - is_statval.
Defined.

Lemma shape_round_trip_witness :
  exists image vs',
    MRISwriteGIFTIShape overlay_mris (mkImage [] empty_labeltable ∅) NIFTI_INTENT_SHAPE
                        (Some "lh.curv")
    = Ret [] image
    /\ mrisReadGIFTIdanum 0 image "lh.curv.gii" (Some (bare_mris 3)) (-1) None 0
       = Ret [] (mris_set_vertices (bare_mris 3) vs', None, 0)
    /\ length vs' = length (vertices (bare_mris 3))
    /\ forall v vx0 vx, vertices (bare_mris 3) !! v = Some vx0 ->
         vertices overlay_mris !! v = Some vx ->
         vs' !! v = Some (if ripflag vx0 then vx0
                          else vertex_set_curv vx0
                                 (if ripflag vx then IEEE.zero else curv vx)).
Proof.
  apply (shape_round_trip overlay_mris overlay_mris (bare_mris 3) NIFTI_INTENT_SHAPE
           "lh.curv" ∅ 0 "lh.curv.gii").
  - evaluated.
  - evaluated.
  - evaluated.
  - each_vertex.
  - evaluated.
  - evaluated.
Defined.

Lemma first_shape_wins_witness :
  exists vs',
    mrisReadGIFTIdanum 0
      (mkImage [array_1d NIFTI_INTENT_SHAPE NIFTI_TYPE_FLOAT32 (CF32 <$> three_values);
                sparse_shape_n] empty_labeltable ∅)
      "lh.curv.gii" (Some (bare_mris 3)) (-1) None 0
    = Ret [DiagRead "WARNING: a prior data array of shape data has already been read!"]
          (mris_set_vertices (bare_mris 3) vs', None, 0)
    /\ overlaid (bare_mris 3) three_values vertex_set_curv vs'.
Proof.
  apply (first_shape_wins (bare_mris 3)
           (array_1d NIFTI_INTENT_SHAPE NIFTI_TYPE_FLOAT32 (CF32 <$> three_values))
           sparse_shape_n three_values
           [CF32 (IEEE.float_of_Z 5); CF32 (IEEE.float_of_Z 7); CF32 (IEEE.float_of_Z 9)]
           empty_labeltable ∅ 0 "lh.curv.gii").
  - evaluated.
  - evaluated.
  - evaluated.
  - each_value.
  - all_evaluated.
  - all_evaluated.
  - evaluated.
Defined.

Lemma vector_read_witness :
  exists vs',
    mrisReadGIFTIdanum 0 (mkImage [vector_darray] empty_labeltable ∅) "lh.vec.gii"
                       (Some (bare_mris 3)) (-1) None 0
    = Ret [] (mris_set_vertices (bare_mris 3) vs', None, 0)
    /\ length vs' = length (vertices (bare_mris 3))
    /\ forall v vx0 a b c, vertices (bare_mris 3) !! v = Some vx0 ->
         three_rows !! v = Some (a, b, c) ->
         vs' !! v = Some (if ripflag vx0 then vx0 else vertex_set_dxyz vx0 a b c).
Proof.
  apply (vector_read (bare_mris 3) vector_darray
           (CF32 <$> (IEEE.float_of_Z <$> [1; 2; 3; 4; 5; 6; 7; 8; 9])) three_rows
           empty_labeltable ∅ 0 "lh.vec.gii").
  - evaluated.
  - evaluated.
  - evaluated.
  - evaluated.
  - all_evaluated.
  - intros v a b c Hr Hv.
    assert (Hc : v = 0 \/ v = 1 \/ v = 2)
      by (apply lookup_lt_Some in Hr; simpl in Hr; lia).
    destruct Hc as [->|[->| ->]]; vm_compute in Hr; injection Hr as <- <- <-;
      repeat split; reflexivity.
  - evaluated.
Defined.

Lemma dispatcher_appends_witness :
  gim_meta (written_image (MRISwriteGIFTIIntent overlay_mris NIFTI_INTENT_TTEST
                             empty_image "lh.t.gii" None))
  = gim_meta empty_image
  /\ (NIFTI_INTENT_TTEST <> NIFTI_INTENT_LABEL ->
      labeltable (written_image (MRISwriteGIFTIIntent overlay_mris NIFTI_INTENT_TTEST
                                   empty_image "lh.t.gii" None))
      = labeltable empty_image)
  /\ (arrays_written NIFTI_INTENT_TTEST = 0%nat ->
      written_image (MRISwriteGIFTIIntent overlay_mris NIFTI_INTENT_TTEST
                       empty_image "lh.t.gii" None) = empty_image)
  /\ exists das,
       darray (written_image (MRISwriteGIFTIIntent overlay_mris NIFTI_INTENT_TTEST
                                empty_image "lh.t.gii" None))
       = darray empty_image ++ das
       /\ length das = arrays_written NIFTI_INTENT_TTEST.
Proof.
  apply (dispatcher_appends overlay_mris NIFTI_INTENT_TTEST empty_image
           (written_image (MRISwriteGIFTIIntent overlay_mris NIFTI_INTENT_TTEST
                             empty_image "lh.t.gii" None))
           "lh.t.gii" None []).
  vm_compute. reflexivity.
Defined.

Lemma write_file_result_witness :
  gifti_valid_gifti_image surface_file = true
  /\ gifti_write_image surface_file "lh.white.gii" = true
  /\ gim_meta surface_file !! "Date" = Some currentDateTime
  /\ gim_meta surface_file !! "UserName" = pw_name
  /\ gim_meta surface_file !! "SubjectID"
     = (if (String.length (subject_name tetra_with_cmds) =? 0)%nat then None
        else Some (subject_name tetra_with_cmds))
  /\ length (darray surface_file) = arrays_written NIFTI_INTENT_POINTSET.
Proof.
  apply (proj2 (proj2 (proj2 (write_file_result tetra_with_cmds NIFTI_INTENT_POINTSET
                                "lh.white.gii" None))) []).
  vm_compute. reflexivity.
Defined.

Lemma volume_writer_arrays_witness :
  exists das,
    mriWriteGifti (Some two_frames) (Some "f.func.gii")
    = check_and_write "mriWriteGifti"
        (mkImage das empty_labeltable (insertCommonMetaData ∅)) "f.func.gii"
    /\ length das = Z.to_nat (vol_nframes two_frames)
    /\ forall f da, das !! f = Some da ->
         exists buf,
           overlay_array da (if 1 <? vol_nframes two_frames then NIFTI_INTENT_TIME_SERIES
                             else NIFTI_INTENT_NONE) (vol_width two_frames) buf
           /\ (forall i, 0 <= i < vol_width two_frames ->
                 buf !! Z.to_nat i
                 = Some (CF32 (default IEEE.zero
                                 (vol_vox two_frames !! (i, 0, 0, Z.of_nat f)))))
           /\ meta da !! "TimeStep"
              = if 1 <? vol_nframes two_frames then Some (sprintf_f (vol_tr two_frames))
                else None.
Proof.
  apply (proj2 (proj2 (volume_writer_arrays two_frames "f.func.gii"
                         ltac:(evaluated) ltac:(evaluated) ltac:(evaluated)
                         ltac:(each_voxel)))).
Defined.

Lemma overlay_saved_as_frame_witness :
  exists vs' o',
    mrisReadGIFTIdanum 0 (mkImage [ttest_darray] empty_labeltable ∅) "lh.t.gii"
                       (Some (bare_mris 3)) (-1) (Some ∅) 1
    = Ret (if 1 <=? 1 then [DiagRead "WARNING: Skip saving data in MRI"] else [])
          (mris_set_vertices (bare_mris 3) vs', Some o', 1 + 1)
    /\ overlaid (bare_mris 3) three_values
         (if NIFTI_INTENT_TTEST =? NIFTI_INTENT_SHAPE then vertex_set_curv
          else fun vx a => vertex_set_val_stat vx a a) vs'
    /\ voxels_set (bare_mris 3) three_values ∅ o'
         (if NIFTI_INTENT_TTEST =? NIFTI_INTENT_SHAPE then fun v => (v, 0, 0, 1)
          else fun v => (v, 0, 1, 0)).
Proof.
  apply (overlay_saved_as_frame (bare_mris 3) three_values ttest_darray NIFTI_INTENT_TTEST
           ∅ 1 empty_labeltable ∅ 0 "lh.t.gii").
  - evaluated.
  - evaluated.
  - evaluated.
  - each_value.
  - all_evaluated.
  - evaluated.
  - right. is_statval.
Defined.

Lemma label_writer_array_witness :
  exists log lt labels buf,
    MRISwriteGIFTILabel labelled_mris empty_image NIFTI_INTENT_LABEL
    = Ret log (add_darrays (set_labeltable empty_image lt) [labels])
    /\ intent labels = NIFTI_INTENT_LABEL /\ datatype labels = NIFTI_TYPE_INT32
    /\ num_dim labels = 1 /\ dim labels 0 = nvertices labelled_mris
    /\ data labels = Some buf /\ length buf = Z.to_nat (nvertices labelled_mris)
    /\ (forall v vx, vertices labelled_mris !! v = Some vx ->
          (CTABfindAnnotation three_table (annotation vx)).1 = NO_ERROR
          /\ buf !! v
             = Some (CInt (if ripflag vx then 0
                           else if (CTABfindAnnotation three_table (annotation vx)).2 =? -1
                                then 4294967295
                                else (CTABfindAnnotation three_table (annotation vx)).2)))
    /\ meta labels !! "Name"
       = if (length three_entries =? 2)%nat then lt_label lt !! 1%nat
         else Some "node label".
Proof.
  apply (label_writer_array labelled_mris empty_image NIFTI_INTENT_LABEL
           three_table three_entries [None] eq_refl eq_refl eq_refl
           ltac:(simpl; lia) ltac:(vm_compute; discriminate)
           ltac:(vm_compute; discriminate) eq_refl).
Defined.

End NoFile.

(** The reference reading of [gifti_find_DA] finds by intent. *)
Ltac finds_in_order :=
  let it := fresh "it" in
  let k := fresh "k" in
  let Hk := fresh "Hk" in
  intros it k Hk; simpl; unfold find_DA;
  destruct (Z.ltb_spec k 0); [lia | reflexivity].

Section LongCommandLineOnDisk.
#[local] Existing Instance reference_collaborators.
#[local] Existing Instance long_cmd_on_disk.

Lemma surface_file_round_trip_witness :
  mesh_validb tetra_with_long_cmd = true
  /\ cmdlines_fullb tetra_with_long_cmd = true
  /\ exists log mris',
    mrisReadGIFTIfile 0 "lh.long.gii" None None 0 = Ret log (mris', None, 0)
    /\ nvertices mris' = nvertices tetra_with_long_cmd
    /\ nfaces mris' = nfaces tetra_with_long_cmd
    /\ length (vertices mris') = length (vertices tetra_with_long_cmd)
    /\ (forall i vx, vertices tetra_with_long_cmd !! i = Some vx ->
          exists vx', vertices mris' !! i = Some vx'
            /\ x vx' = x vx /\ y vx' = y vx /\ z vx' = z vx)
    /\ faces mris' = faces tetra_with_long_cmd
    /\ length (vertices_topology mris') = length (vertices_topology tetra_with_long_cmd)
    /\ (forall i vt, vertices_topology tetra_with_long_cmd !! i = Some vt ->
          exists vt', vertices_topology mris' !! i = Some vt'
            /\ incidence vt' = incidence vt).
Proof.
  split; [vm_compute; reflexivity|]. split; [vm_compute; reflexivity|].
  eapply (surface_file_round_trip tetra_with_long_cmd NIFTI_INTENT_POINTSET "lh.long.gii"
            None _ [] long_cmd_file 0 None None 0).
  - vm_compute. reflexivity.
  - vm_compute. reflexivity.
  - vm_compute. reflexivity.
  - intros _. vm_compute. reflexivity.
  - left. reflexivity.
  - vm_compute. reflexivity.
  - vm_compute. reflexivity.
Defined.

End LongCommandLineOnDisk.

Section StatsOnDisk.
#[local] Existing Instance reference_collaborators.
#[local] Existing Instance stats_on_disk.

Lemma written_file_intent_count_witness :
  getShapeStatIntentCount "lh.t.gii"
  = Ret [] (if (NIFTI_INTENT_TTEST =? NIFTI_INTENT_SHAPE) || stats_intent NIFTI_INTENT_TTEST
            then 1 else 0).
Proof.
  apply (written_file_intent_count overlay_mris NIFTI_INTENT_TTEST "lh.t.gii" None []
           stats_file).
  - vm_compute. reflexivity.
  - vm_compute. reflexivity.
Defined.

End StatsOnDisk.

Section FramesOnDisk.
#[local] Existing Instance reference_collaborators.
#[local] Existing Instance frames_on_disk.

Lemma volume_round_trip_witness :
  exists tr,
    tr = (if 1 <? vol_nframes two_frames
          then default IEEE.zero (sscanf_f (sprintf_f (vol_tr two_frames)))
          else IEEE.zero)
    /\ MRISreadGiftiAsMRI 2 "f.func.gii" 0
       = Ret [] (mkVol (vol_width two_frames) 1 1 (vol_nframes two_frames) tr ∅)
    /\ forall read_volume, read_volume <> 0 ->
         exists vol',
           MRISreadGiftiAsMRI 2 "f.func.gii" read_volume = Ret [] vol'
           /\ vol_width vol' = vol_width two_frames /\ vol_height vol' = 1
           /\ vol_depth vol' = 1 /\ vol_nframes vol' = vol_nframes two_frames
           /\ vol_tr vol' = tr
           /\ forall i f, 0 <= i < vol_width two_frames ->
                0 <= f < vol_nframes two_frames ->
                exists a, MRIgetVoxVal two_frames i 0 0 f = ret a
                          /\ MRIgetVoxVal vol' i 0 0 f = ret a.
Proof.
  apply (volume_round_trip two_frames "f.func.gii" 2 [] frames_file).
  - evaluated.
  - evaluated.
  - evaluated.
  - evaluated.
  - each_voxel.
  - vm_compute. reflexivity.
  - vm_compute. reflexivity.
  - finds_in_order.
  - simpl. lia.
Defined.

End FramesOnDisk.

Section MixedOnDisk.
#[local] Existing Instance reference_collaborators.
#[local] Existing Instance mixed_on_disk.

Lemma intent_count_result_witness :
  getShapeStatIntentCount "mixed.gii" = Ret [] 2.
Proof.
  destruct (intent_count_result "mixed.gii") as [_ Hr].
  destruct (Hr mixed_file) as [_ Hc]; [vm_compute; reflexivity|].
  apply Hc. reflexivity.
Defined.

Lemma volume_read_past_intent_table_witness :
  MRISreadGiftiAsMRI 2 "mixed.gii" 1 = Undefined.
Proof.
  apply (volume_read_past_intent_table 2 "mixed.gii" mixed_file 2 1).
  - reflexivity.
  - reflexivity.
  - finds_in_order.
  - vm_compute. lia.
  - each_array.
  - lia.
  - vm_compute. lia.
Defined.

End MixedOnDisk.

Lemma array_number_unchecked_witness :
  @mrisReadGIFTIdanum reference_collaborators 0 sparse_image_n "lh.curv.gii"
    (Some (bare_mris 3)) 5 None 0 = Undefined.
Proof.
  apply (@array_number_unchecked reference_collaborators 0 sparse_image_n "lh.curv.gii"
           (bare_mris 3) 5 None 0).
  - evaluated.
  - each_array.
  - right. evaluated.
Defined.

Section NoOverlayOnDisk.
#[local] Existing Instance reference_collaborators.
#[local] Existing Instance surface_on_disk.

Lemma volume_needs_overlays_witness :
  MRISreadGiftiAsMRI 1 "lh.white.gii" 1
  = Fail [DiagRead "MRISreadGiftiAsMRI: no overlay data found"] 0.
Proof.
  destruct (volume_needs_overlays 1 "lh.white.gii" 1) as [_ Hr].
  destruct (Hr surface_file) as [_ Hv]; [vm_compute; reflexivity|].
  apply Hv.
  - reflexivity.
  - lia.
  - intros it [<-|[<-|[<-|[<-|[]]]]]; vm_compute; reflexivity.
Defined.

End NoOverlayOnDisk.

Section UnevenOnDisk.
#[local] Existing Instance reference_collaborators.
#[local] Existing Instance uneven_on_disk.

Lemma time_series_sizes_checked_witness :
  MRISreadGiftiAsMRI 2 "uneven.gii" 1
  = Fail [DiagRead "MRISreadGiftiAsMRI: malformed time-series data array"] 0.
Proof.
  eapply (time_series_sizes_checked 2 "uneven.gii" 1 uneven_file _ _ 2 1 3 1).
  - vm_compute. reflexivity.
  - reflexivity.
  - vm_compute. reflexivity.
  - vm_compute. reflexivity.
  - vm_compute. reflexivity.
  - vm_compute. reflexivity.
  - vm_compute. reflexivity.
  - lia.
  - lia.
  - right. left. lia.
Defined.

End UnevenOnDisk.
